(** * Field gathering kernels of FBPIC (CPU, threading)

    Shallow embedding of [fbpic/particles/gathering/threading_methods.py]:
    the four kernels [gather_field_numba_linear],
    [gather_envelope_field_numba_linear], [gather_field_numba_cubic] and
    [gather_envelope_field_numba_cubic].

    Arithmetic model.  The [float64] values of the source are modelled by
    real numbers ([R]) and the [complex128] values by pairs of reals: all
    statements below are statements of exact arithmetic.  Integers
    ([math.floor] results, grid sizes, indices) are [Z]; the [int64] casts of
    the source act on values that are already integral and are the identity
    here.  Array accesses follow the indexing rule of the arrays of the
    source: a negative index counts from the end, an index beyond the extent
    is an [IndexError].  An error aborts the call: the content the arrays
    are left with by an aborted call is not modelled.

    Parallel loops.  A [prange] loop runs its iterations one after the
    other in an order that is a parameter of the kernel ([order], any
    permutation of the range); the scratch arrays a thread allocates with
    [np.empty] start with an unspecified content, a parameter as well.

    The inline functions of [inline_functions.py] that the kernels call are
    parameters of the kernels; module [InlineFunctions] gives the instances
    that the examples run.

    Two further files are embedded in modules of their own, with the same
    arithmetic and the same arrays: [Ionization]
    ([fbpic/particles/ionization/numba_methods.py]) and [Boundaries]
    ([fbpic/boundaries/cuda_methods.py]). *)

From Stdlib Require Import Reals Lra ZArith Lia List Bool Permutation.
Import ListNotations.

Open Scope Z_scope.

(** ** Results: a value or the index error of an array access *)

Inductive result (A : Type) : Type :=
| Ok (a : A)
| IndexError.

Arguments Ok {A} a.
Arguments IndexError {A}.

Definition bind {A B : Type} (m : result A) (k : A -> result B) : result B :=
  match m with
  | Ok a => k a
  | IndexError => IndexError
  end.

Notation "x <- m ;; k" := (bind m (fun x => k))
  (at level 61, m at next level, right associativity).
Notation "' p <- m ;; k" := (bind m (fun p => k))
  (at level 61, p pattern, m at next level, right associativity).

(** ** Arrays *)

(** Position of index [i] in an array of [len] elements. *)
Definition norm_index (len i : Z) : result nat :=
  if (0 <=? i) && (i <? len) then Ok (Z.to_nat i)
  else if (- len <=? i) && (i <? 0) then Ok (Z.to_nat (i + len))
  else IndexError.

Fixpoint update {A : Type} (l : list A) (k : nat) (v : A) : list A :=
  match l, k with
  | [], _ => []
  | _ :: t, O => v :: t
  | h :: t, S k' => h :: update t k' v
  end.

(** [l[i]] *)
Definition getitem {A : Type} (l : list A) (i : Z) : result A :=
  k <- norm_index (Z.of_nat (length l)) i ;;
  match nth_error l k with
  | Some a => Ok a
  | None => IndexError
  end.

(** [l[i] = v] *)
Definition setitem {A : Type} (l : list A) (i : Z) (v : A) : result (list A) :=
  k <- norm_index (Z.of_nat (length l)) i ;;
  Ok (update l k v).

(** [range(a, b)] *)
Definition py_range (a b : Z) : list Z :=
  map (fun k => a + Z.of_nat k) (seq 0 (Z.to_nat (b - a))).

(** A [for] loop over a list of indices; an error aborts the loop. *)
Fixpoint for_each {S : Type} (body : Z -> S -> result S) (l : list Z) (s : S)
  : result S :=
  match l with
  | [] => Ok s
  | i :: l' =>
      match body i s with
      | Ok s' => for_each body l' s'
      | IndexError => IndexError
      end
  end.

(** [np.empty(n)]: an array of [n] cells of unspecified content [junk]. *)
Definition np_empty (n : nat) (junk : nat -> R) : list R :=
  map junk (seq 0 n).

(** ** Complex numbers *)

Open Scope R_scope.

Record Cplx : Type := mkC { real : R; imag : R }.

Definition RtoC (a : R) : Cplx := mkC a 0.
Definition Cadd (u v : Cplx) : Cplx := mkC (real u + real v) (imag u + imag v).
Definition Csub (u v : Cplx) : Cplx := mkC (real u - real v) (imag u - imag v).
Definition Cmul (u v : Cplx) : Cplx :=
  mkC (real u * real v - imag u * imag v) (real u * imag v + imag u * real v).
Definition Cscale (a : R) (u : Cplx) : Cplx := mkC (a * real u) (a * imag u).
Definition conjugate (u : Cplx) : Cplx := mkC (real u) (- imag u).
Definition imag_unit : Cplx := mkC 0 1.

Fixpoint Cpow (u : Cplx) (n : nat) : Cplx :=
  match n with
  | O => RtoC 1
  | S n' => Cmul u (Cpow u n')
  end.

(** [math.floor] *)
Definition math_floor (a : R) : Z := Int_part a.

(** A field component of one azimuthal mode: [grid[iz][ir]]. *)
Definition grid := list (list Cplx).

Definition grid_at (g : grid) (iz ir : Z) : result Cplx :=
  row <- getitem g iz ;; getitem row ir.

(** ** Arguments of the kernels *)

(** Particle positions [x], [y], [z]. *)
Record particles : Type := {
  ptcl_x : list R;
  ptcl_y : list R;
  ptcl_z : list R
}.

(** Grid geometry. *)
Record geometry : Type := {
  invdz : R; zmin : R; Nz : Z;
  invdr : R; rmin : R; Nr : Z
}.

(** Field grids of the modes 0 and 1. *)
Record EB_grids : Type := {
  Er_m0 : grid; Et_m0 : grid; Ez_m0 : grid;
  Er_m1 : grid; Et_m1 : grid; Ez_m1 : grid;
  Br_m0 : grid; Bt_m0 : grid; Bz_m0 : grid;
  Br_m1 : grid; Bt_m1 : grid; Bz_m1 : grid
}.

(** Particle field arrays, modified by the kernels; the six arrays are
    distinct objects. *)
Record EB_out : Type := {
  Ex : list R; Ey : list R; Ez : list R;
  Bx : list R; By : list R; Bz : list R
}.

(** Envelope grids, indexed by the mode: [a[m][iz][ir]]. *)
Record envelope_grids : Type := {
  a : list grid;
  grad_a_r : list grid;
  grad_a_t : list grid;
  grad_a_z : list grid
}.

(** Particle envelope arrays, modified by the kernels. *)
Record envelope_out : Type := {
  a2 : list R;
  grad_a2_x : list R;
  grad_a2_y : list R;
  grad_a2_z : list R
}.

(** ** Cylindrical conversion (lines 93-100, 257-264, 459-466, 602-609) *)

Definition cylindrical_conversion (xj yj : R) : R * R * R :=
  let rj := sqrt (xj ^ 2 + yj ^ 2) in
  match Req_dec_T rj 0 with
  | right _ =>
      let invr := 1 / rj in
      (rj, xj * invr, yj * invr)
  | left _ => (rj, 1, 0)
  end.

(** [cos - 1.j*sin] *)
Definition exptheta_base (cos sin : R) : Cplx :=
  Csub (RtoC cos) (Cmul imag_unit (RtoC sin)).

(** Phase factor of mode [m] in the envelope kernels (lines 330-332). *)
Definition envelope_exptheta (cos sin : R) (m : Z) : Cplx :=
  let exptheta_m := Cpow (exptheta_base cos sin) (Z.abs_nat m) in
  if (m <? 0)%Z then conjugate exptheta_m else exptheta_m.

(** Position of the particle in cell units. *)
Definition r_cell_of (G : geometry) (rj : R) : R := invdr G * (rj - rmin G) - 0.5.
Definition z_cell_of (G : geometry) (zj : R) : R := invdz G * (zj - zmin G) - 0.5.

(** ** Linear shape (lines 104-152 and 266-314) *)

Record linear_shape : Type := {
  ir_lower : Z; ir_upper : Z; iz_lower : Z; iz_upper : Z;
  Sr_lower : R; Sr_upper : R; Sz_lower : R; Sz_upper : R;
  Sr_guard : R
}.

(** Original indices and linear weights. *)
Definition linear_weights (r_cell z_cell : R) : linear_shape :=
  let ir_lower := math_floor r_cell in
  let ir_upper := (ir_lower + 1)%Z in
  let iz_lower := math_floor z_cell in
  let iz_upper := (iz_lower + 1)%Z in
  {| ir_lower := ir_lower; ir_upper := ir_upper;
     iz_lower := iz_lower; iz_upper := iz_upper;
     Sr_lower := IZR ir_upper - r_cell;
     Sr_upper := r_cell - IZR ir_lower;
     Sz_lower := IZR iz_upper - z_cell;
     Sz_upper := z_cell - IZR iz_lower;
     Sr_guard := 0 |}.

(** Guard cells in lower r. *)
Definition guard_lower_r (s : linear_shape) : linear_shape :=
  if (ir_lower s <? 0)%Z then
    {| ir_lower := 0; ir_upper := ir_upper s;
       iz_lower := iz_lower s; iz_upper := iz_upper s;
       Sr_lower := 0; Sr_upper := Sr_upper s;
       Sz_lower := Sz_lower s; Sz_upper := Sz_upper s;
       Sr_guard := Sr_lower s |}
  else s.

Definition set_ir (s : linear_shape) (lo up : Z) : linear_shape :=
  {| ir_lower := lo; ir_upper := up;
     iz_lower := iz_lower s; iz_upper := iz_upper s;
     Sr_lower := Sr_lower s; Sr_upper := Sr_upper s;
     Sz_lower := Sz_lower s; Sz_upper := Sz_upper s;
     Sr_guard := Sr_guard s |}.

Definition set_iz (s : linear_shape) (lo up : Z) : linear_shape :=
  {| ir_lower := ir_lower s; ir_upper := ir_upper s;
     iz_lower := lo; iz_upper := up;
     Sr_lower := Sr_lower s; Sr_upper := Sr_upper s;
     Sz_lower := Sz_lower s; Sz_upper := Sz_upper s;
     Sr_guard := Sr_guard s |}.

(** Absorbing in upper r. *)
Definition absorbing_upper_r (Nr : Z) (s : linear_shape) : linear_shape :=
  let lo := if (ir_lower s >? Nr - 1)%Z then (Nr - 1)%Z else ir_lower s in
  let up := if (ir_upper s >? Nr - 1)%Z then (Nr - 1)%Z else ir_upper s in
  set_ir s lo up.

(** Periodic boundaries in z: lower boundaries first, then upper ones. *)
Definition periodic_z (Nz : Z) (s : linear_shape) : linear_shape :=
  let lo := if (iz_lower s <? 0)%Z then (iz_lower s + Nz)%Z else iz_lower s in
  let up := if (iz_upper s <? 0)%Z then (iz_upper s + Nz)%Z else iz_upper s in
  let lo := if (lo >? Nz - 1)%Z then (lo - Nz)%Z else lo in
  let up := if (up >? Nz - 1)%Z then (up - Nz)%Z else up in
  set_iz s lo up.

Definition linear_boundaries (Nz Nr : Z) (s : linear_shape) : linear_shape :=
  periodic_z Nz (absorbing_upper_r Nr (guard_lower_r s)).

Definition linear_stencil (G : geometry) (rj zj : R) : linear_shape :=
  linear_boundaries (Nz G) (Nr G)
    (linear_weights (r_cell_of G rj) (z_cell_of G zj)).

(** Precalculated shapes. *)
Definition S_ll (s : linear_shape) : R := Sz_lower s * Sr_lower s.
Definition S_lu (s : linear_shape) : R := Sz_lower s * Sr_upper s.
Definition S_ul (s : linear_shape) : R := Sz_upper s * Sr_lower s.
Definition S_uu (s : linear_shape) : R := Sz_upper s * Sr_upper s.
Definition S_lg (s : linear_shape) : R := Sz_lower s * Sr_guard s.
Definition S_ug (s : linear_shape) : R := Sz_upper s * Sr_guard s.

(** ** Cubic shape (lines 476-488 and 617-629) *)

Definition cubic_lowest (cell : R) : Z := (math_floor cell - 1)%Z.

(** The four assignments [S[0] = ...], ..., [S[3] = ...] to the scratch
    array [S]. *)
Definition cubic_shape_factors (S : list R) (local : R) : result (list R) :=
  S <- setitem S 0 (-1 / 6 * (local - 2) ^ 3) ;;
  S <- setitem S 1 (1 / 6 * (3 * (local - 1) ^ 3 - 6 * (local - 1) ^ 2 + 4)) ;;
  S <- setitem S 2 (1 / 6 * (3 * (2 - local) ^ 3 - 6 * (2 - local) ^ 2 + 4)) ;;
  setitem S 3 (-1 / 6 * (1 - local) ^ 3).

(** The content of the scratch array after these assignments. *)
Definition cubic_weights (local : R) : list R :=
  [ -1 / 6 * (local - 2) ^ 3;
    1 / 6 * (3 * (local - 1) ^ 3 - 6 * (local - 1) ^ 2 + 4);
    1 / 6 * (3 * (2 - local) ^ 3 - 6 * (2 - local) ^ 2 + 4);
    -1 / 6 * (1 - local) ^ 3 ].

(** ** The kernels *)

(** Signatures of the inline functions of [inline_functions.py], as the
    kernels call them. *)

Definition linear_gather_for_mode : Type :=
  Z -> R -> R -> R -> Cplx -> grid -> grid -> grid ->
  Z -> Z -> Z -> Z -> R -> R -> R -> R -> R -> R -> result (R * R * R).

Definition cubic_gather_for_mode : Type :=
  Z -> R -> R -> R -> Cplx -> grid -> grid -> grid ->
  Z -> Z -> list R -> list R -> Z -> Z -> result (R * R * R).

Definition linear_envelope_gather_for_mode : Type :=
  Z -> Cplx -> Cplx -> grid ->
  Z -> Z -> Z -> Z -> R -> R -> R -> R -> R -> R -> result Cplx.

Definition cubic_envelope_gather_for_mode : Type :=
  Z -> Cplx -> Cplx -> grid ->
  Z -> Z -> list R -> list R -> Z -> Z -> result Cplx.

Section Kernels.

(** The inline functions are pure functions of their arguments; the
    kernels are defined for whatever they compute. *)
Variable add_linear_gather_for_mode : linear_gather_for_mode.
Variable add_cubic_gather_for_mode : cubic_gather_for_mode.
Variable add_linear_envelope_gather_for_mode : linear_envelope_gather_for_mode.
Variable add_cubic_envelope_gather_for_mode : cubic_envelope_gather_for_mode.

Variable P : particles.
Variable G : geometry.

(** *** Field gathering linear *)

(** Contributions of the modes 0 and 1 to one vector field. *)
Definition linear_modes (s : linear_shape) (exptheta_m0 exptheta_m1 : Cplx)
    (Fr_m0 Ft_m0 Fz_m0 Fr_m1 Ft_m1 Fz_m1 : grid) : result (R * R * R) :=
  let Fr := 0 in
  let Ft := 0 in
  let Fz := 0 in
  '(Fr, Ft, Fz) <- add_linear_gather_for_mode 0%Z
      Fr Ft Fz exptheta_m0 Fr_m0 Ft_m0 Fz_m0
      (iz_lower s) (iz_upper s) (ir_lower s) (ir_upper s)
      (S_ll s) (S_lu s) (S_lg s) (S_ul s) (S_uu s) (S_ug s) ;;
  add_linear_gather_for_mode 1%Z
      Fr Ft Fz exptheta_m1 Fr_m1 Ft_m1 Fz_m1
      (iz_lower s) (iz_upper s) (ir_lower s) (ir_upper s)
      (S_ll s) (S_lu s) (S_lg s) (S_ul s) (S_uu s) (S_ug s).

(** Body of the loop over the particles (lines 85-196). *)
Definition gather_field_linear_body (M : EB_grids) (i : Z) (o : EB_out)
  : result EB_out :=
  xj <- getitem (ptcl_x P) i ;;
  yj <- getitem (ptcl_y P) i ;;
  zj <- getitem (ptcl_z P) i ;;
  let '(rj, cos, sin) := cylindrical_conversion xj yj in
  let exptheta_m0 := RtoC 1 in
  let exptheta_m1 := exptheta_base cos sin in
  let s := linear_stencil G rj zj in
  '(Fr, Ft, Fz) <- linear_modes s exptheta_m0 exptheta_m1
      (Er_m0 M) (Et_m0 M) (Ez_m0 M) (Er_m1 M) (Et_m1 M) (Ez_m1 M) ;;
  Ex' <- setitem (Ex o) i (cos * Fr - sin * Ft) ;;
  Ey' <- setitem (Ey o) i (sin * Fr + cos * Ft) ;;
  Ez' <- setitem (Ez o) i Fz ;;
  '(Fr, Ft, Fz) <- linear_modes s exptheta_m0 exptheta_m1
      (Br_m0 M) (Bt_m0 M) (Bz_m0 M) (Br_m1 M) (Bt_m1 M) (Bz_m1 M) ;;
  Bx' <- setitem (Bx o) i (cos * Fr - sin * Ft) ;;
  By' <- setitem (By o) i (sin * Fr + cos * Ft) ;;
  Bz' <- setitem (Bz o) i Fz ;;
  Ok {| Ex := Ex'; Ey := Ey'; Ez := Ez'; Bx := Bx'; By := By'; Bz := Bz' |}.

(** [for i in prange(x.shape[0])]: the iterations run in the order
    [order] gives to [range(x.shape[0])]. *)
Definition gather_field_numba_linear (order : list Z -> list Z)
    (M : EB_grids) (o : EB_out) : result EB_out :=
  for_each (gather_field_linear_body M)
    (order (py_range 0 (Z.of_nat (length (ptcl_x P))))) o.

(** *** Envelope gathering linear *)

(** Body of the loop over the modes (lines 323-350); the running sums
    [Fr], [Ft], [Fz] exist only when the gradient is gathered and are
    carried along untouched otherwise. *)
Definition envelope_linear_mode (A : envelope_grids) (gather_gradient : bool)
    (cos sin : R) (s : linear_shape) (m : Z)
    (acc : Cplx * Cplx * Cplx * Cplx) : result (Cplx * Cplx * Cplx * Cplx) :=
  let '(F, Fr, Ft, Fz) := acc in
  a_m <- getitem (a A) m ;;
  if gather_gradient then
    grad_a_r_m <- getitem (grad_a_r A) m ;;
    grad_a_t_m <- getitem (grad_a_t A) m ;;
    grad_a_z_m <- getitem (grad_a_z A) m ;;
    let exptheta_m := envelope_exptheta cos sin m in
    F <- add_linear_envelope_gather_for_mode m F exptheta_m a_m
        (iz_lower s) (iz_upper s) (ir_lower s) (ir_upper s)
        (S_ll s) (S_lu s) (S_lg s) (S_ul s) (S_uu s) (S_ug s) ;;
    Fr <- add_linear_envelope_gather_for_mode m Fr exptheta_m grad_a_r_m
        (iz_lower s) (iz_upper s) (ir_lower s) (ir_upper s)
        (S_ll s) (S_lu s) (S_lg s) (S_ul s) (S_uu s) (S_ug s) ;;
    Ft <- add_linear_envelope_gather_for_mode m Ft exptheta_m grad_a_t_m
        (iz_lower s) (iz_upper s) (ir_lower s) (ir_upper s)
        (S_ll s) (S_lu s) (S_lg s) (S_ul s) (S_uu s) (S_ug s) ;;
    Fz <- add_linear_envelope_gather_for_mode m Fz exptheta_m grad_a_z_m
        (iz_lower s) (iz_upper s) (ir_lower s) (ir_upper s)
        (S_ll s) (S_lu s) (S_lg s) (S_ul s) (S_uu s) (S_ug s) ;;
    Ok (F, Fr, Ft, Fz)
  else
    let exptheta_m := envelope_exptheta cos sin m in
    F <- add_linear_envelope_gather_for_mode m F exptheta_m a_m
        (iz_lower s) (iz_upper s) (ir_lower s) (ir_upper s)
        (S_ll s) (S_lu s) (S_lg s) (S_ul s) (S_uu s) (S_ug s) ;;
    Ok (F, Fr, Ft, Fz).

(** Registration in the particle arrays (lines 352-371 and 662-681). *)
Definition envelope_register (gather_gradient average_a2 : bool)
    (cos sin : R) (F Fr Ft Fz : Cplx) (i : Z) (o : envelope_out)
  : result envelope_out :=
  let Fx := Csub (Cmul (RtoC cos) Fr) (Cmul (RtoC sin) Ft) in
  let Fy := Cadd (Cmul (RtoC sin) Fr) (Cmul (RtoC cos) Ft) in
  let Fx := 2 * real (Cmul Fx (conjugate F)) in
  let Fy := 2 * real (Cmul Fy (conjugate F)) in
  let Fz := 2 * real (Cmul Fz (conjugate F)) in
  let F := Cmul F (conjugate F) in
  '(gx, gy, gz) <-
    (if gather_gradient then
       gx <- setitem (grad_a2_x o) i Fx ;;
       gy <- setitem (grad_a2_y o) i Fy ;;
       gz <- setitem (grad_a2_z o) i Fz ;;
       Ok (gx, gy, gz)
     else Ok (grad_a2_x o, grad_a2_y o, grad_a2_z o)) ;;
  a2' <-
    (if average_a2 then
       a2_i <- getitem (a2 o) i ;;
       setitem (a2 o) i (real (Cmul (RtoC 0.5) (Cadd (RtoC a2_i) F)))
     else setitem (a2 o) i (real F)) ;;
  Ok {| a2 := a2'; grad_a2_x := gx; grad_a2_y := gy; grad_a2_z := gz |}.

(** The loop over [m_array] is a loop over its elements, in order. *)
Definition envelope_linear_modes (A : envelope_grids) (m_array : list Z)
    (gather_gradient : bool) (cos sin : R) (s : linear_shape)
  : result (Cplx * Cplx * Cplx * Cplx) :=
  for_each (envelope_linear_mode A gather_gradient cos sin s) m_array
    (RtoC 0, RtoC 0, RtoC 0, RtoC 0).

(** Body of the loop over the particles (lines 249-371): the gathering
    (lines 249-350), then the registration (lines 352-371). *)
Definition envelope_linear_gathered (A : envelope_grids)
    (m_array : list Z) (gather_gradient : bool) (i : Z)
  : result (R * R * (Cplx * Cplx * Cplx * Cplx)) :=
  xj <- getitem (ptcl_x P) i ;;
  yj <- getitem (ptcl_y P) i ;;
  zj <- getitem (ptcl_z P) i ;;
  let '(rj, cos, sin) := cylindrical_conversion xj yj in
  let s := linear_stencil G rj zj in
  acc <- envelope_linear_modes A m_array gather_gradient cos sin s ;;
  Ok (cos, sin, acc).

Definition gather_envelope_linear_body (A : envelope_grids)
    (m_array : list Z) (gather_gradient average_a2 : bool)
    (i : Z) (o : envelope_out) : result envelope_out :=
  '(cos, sin, (F, Fr, Ft, Fz)) <-
    envelope_linear_gathered A m_array gather_gradient i ;;
  envelope_register gather_gradient average_a2 cos sin F Fr Ft Fz i o.

(** [for i in range(x.shape[0])] *)
Definition gather_envelope_field_numba_linear (A : envelope_grids)
    (m_array : list Z) (gather_gradient average_a2 : bool)
    (o : envelope_out) : result envelope_out :=
  for_each (gather_envelope_linear_body A m_array gather_gradient average_a2)
    (py_range 0 (Z.of_nat (length (ptcl_x P)))) o.

(** *** Field gathering cubic *)

Definition cubic_modes (ir_lowest iz_lowest : Z) (Sr Sz : list R)
    (exptheta_m0 exptheta_m1 : Cplx)
    (Fr_m0 Ft_m0 Fz_m0 Fr_m1 Ft_m1 Fz_m1 : grid) : result (R * R * R) :=
  let Fr := 0 in
  let Ft := 0 in
  let Fz := 0 in
  '(Fr, Ft, Fz) <- add_cubic_gather_for_mode 0%Z
      Fr Ft Fz exptheta_m0 Fr_m0 Ft_m0 Fz_m0
      ir_lowest iz_lowest Sr Sz (Nr G) (Nz G) ;;
  add_cubic_gather_for_mode 1%Z
      Fr Ft Fz exptheta_m1 Fr_m1 Ft_m1 Fz_m1
      ir_lowest iz_lowest Sr Sz (Nr G) (Nz G).

(** Body of the loop over the particles of a chunk (lines 451-528); the
    state holds the scratch arrays [Sr], [Sz] of the thread and the
    particle field arrays. *)
Definition gather_field_cubic_body (M : EB_grids) (i : Z)
    (st : list R * list R * EB_out) : result (list R * list R * EB_out) :=
  let '(Sr, Sz, o) := st in
  xj <- getitem (ptcl_x P) i ;;
  yj <- getitem (ptcl_y P) i ;;
  zj <- getitem (ptcl_z P) i ;;
  let '(rj, cos, sin) := cylindrical_conversion xj yj in
  let exptheta_m0 := RtoC 1 in
  let exptheta_m1 := exptheta_base cos sin in
  let r_cell := r_cell_of G rj in
  let z_cell := z_cell_of G zj in
  let ir_lowest := cubic_lowest r_cell in
  let r_local := r_cell - IZR ir_lowest in
  Sr <- cubic_shape_factors Sr r_local ;;
  let iz_lowest := cubic_lowest z_cell in
  let z_local := z_cell - IZR iz_lowest in
  Sz <- cubic_shape_factors Sz z_local ;;
  '(Fr, Ft, Fz) <- cubic_modes ir_lowest iz_lowest Sr Sz
      exptheta_m0 exptheta_m1
      (Er_m0 M) (Et_m0 M) (Ez_m0 M) (Er_m1 M) (Et_m1 M) (Ez_m1 M) ;;
  Ex' <- setitem (Ex o) i (cos * Fr - sin * Ft) ;;
  Ey' <- setitem (Ey o) i (sin * Fr + cos * Ft) ;;
  Ez' <- setitem (Ez o) i Fz ;;
  '(Fr, Ft, Fz) <- cubic_modes ir_lowest iz_lowest Sr Sz
      exptheta_m0 exptheta_m1
      (Br_m0 M) (Bt_m0 M) (Bz_m0 M) (Br_m1 M) (Bt_m1 M) (Bz_m1 M) ;;
  Bx' <- setitem (Bx o) i (cos * Fr - sin * Ft) ;;
  By' <- setitem (By o) i (sin * Fr + cos * Ft) ;;
  Bz' <- setitem (Bz o) i Fz ;;
  Ok (Sr, Sz,
      {| Ex := Ex'; Ey := Ey'; Ez := Ez'; Bx := Bx'; By := By'; Bz := Bz' |}).

(** Body of the loop over the threads (lines 442-528): private scratch
    arrays of unspecified content, then the particles of the chunk. *)
Definition gather_field_cubic_thread (M : EB_grids)
    (ptcl_chunk_indices : list Z) (junk_r junk_z : Z -> nat -> R)
    (nt : Z) (o : EB_out) : result EB_out :=
  let Sr := np_empty 4 (junk_r nt) in
  let Sz := np_empty 4 (junk_z nt) in
  lo <- getitem ptcl_chunk_indices nt ;;
  hi <- getitem ptcl_chunk_indices (nt + 1)%Z ;;
  '(_, _, o') <- for_each (gather_field_cubic_body M) (py_range lo hi)
                   (Sr, Sz, o) ;;
  Ok o'.

(** [for nt in prange(nthreads)]: the threads run in the order [order]
    gives to [range(nthreads)]. *)
Definition gather_field_numba_cubic (order : list Z -> list Z)
    (junk_r junk_z : Z -> nat -> R) (M : EB_grids) (o : EB_out)
    (nthreads : Z) (ptcl_chunk_indices : list Z) : result EB_out :=
  for_each (gather_field_cubic_thread M ptcl_chunk_indices junk_r junk_z)
    (order (py_range 0 nthreads)) o.

(** *** Envelope gathering cubic *)

Definition envelope_cubic_mode (A : envelope_grids) (gather_gradient : bool)
    (cos sin : R) (ir_lowest iz_lowest : Z) (Sr Sz : list R) (m : Z)
    (acc : Cplx * Cplx * Cplx * Cplx) : result (Cplx * Cplx * Cplx * Cplx) :=
  let '(F, Fr, Ft, Fz) := acc in
  a_m <- getitem (a A) m ;;
  if gather_gradient then
    grad_a_r_m <- getitem (grad_a_r A) m ;;
    grad_a_t_m <- getitem (grad_a_t A) m ;;
    grad_a_z_m <- getitem (grad_a_z A) m ;;
    let exptheta_m := envelope_exptheta cos sin m in
    F <- add_cubic_envelope_gather_for_mode m F exptheta_m a_m
        ir_lowest iz_lowest Sr Sz (Nr G) (Nz G) ;;
    Fr <- add_cubic_envelope_gather_for_mode m Fr exptheta_m grad_a_r_m
        ir_lowest iz_lowest Sr Sz (Nr G) (Nz G) ;;
    Ft <- add_cubic_envelope_gather_for_mode m Ft exptheta_m grad_a_t_m
        ir_lowest iz_lowest Sr Sz (Nr G) (Nz G) ;;
    Fz <- add_cubic_envelope_gather_for_mode m Fz exptheta_m grad_a_z_m
        ir_lowest iz_lowest Sr Sz (Nr G) (Nz G) ;;
    Ok (F, Fr, Ft, Fz)
  else
    let exptheta_m := envelope_exptheta cos sin m in
    F <- add_cubic_envelope_gather_for_mode m F exptheta_m a_m
        ir_lowest iz_lowest Sr Sz (Nr G) (Nz G) ;;
    Ok (F, Fr, Ft, Fz).

Definition envelope_cubic_modes (A : envelope_grids) (m_array : list Z)
    (gather_gradient : bool) (cos sin : R) (ir_lowest iz_lowest : Z)
    (Sr Sz : list R) : result (Cplx * Cplx * Cplx * Cplx) :=
  for_each
    (envelope_cubic_mode A gather_gradient cos sin ir_lowest iz_lowest Sr Sz)
    m_array (RtoC 0, RtoC 0, RtoC 0, RtoC 0).

(** Body of the loop over the particles of a chunk (lines 594-681). *)
Definition gather_envelope_cubic_body (A : envelope_grids)
    (m_array : list Z) (gather_gradient average_a2 : bool) (i : Z)
    (st : list R * list R * envelope_out)
  : result (list R * list R * envelope_out) :=
  let '(Sr, Sz, o) := st in
  xj <- getitem (ptcl_x P) i ;;
  yj <- getitem (ptcl_y P) i ;;
  zj <- getitem (ptcl_z P) i ;;
  let '(rj, cos, sin) := cylindrical_conversion xj yj in
  let r_cell := r_cell_of G rj in
  let z_cell := z_cell_of G zj in
  let ir_lowest := cubic_lowest r_cell in
  let r_local := r_cell - IZR ir_lowest in
  Sr <- cubic_shape_factors Sr r_local ;;
  let iz_lowest := cubic_lowest z_cell in
  let z_local := z_cell - IZR iz_lowest in
  Sz <- cubic_shape_factors Sz z_local ;;
  '(F, Fr, Ft, Fz) <- envelope_cubic_modes A m_array gather_gradient
      cos sin ir_lowest iz_lowest Sr Sz ;;
  o' <- envelope_register gather_gradient average_a2 cos sin F Fr Ft Fz i o ;;
  Ok (Sr, Sz, o').

Definition gather_envelope_cubic_thread (A : envelope_grids)
    (m_array : list Z) (gather_gradient average_a2 : bool)
    (ptcl_chunk_indices : list Z) (junk_r junk_z : Z -> nat -> R)
    (nt : Z) (o : envelope_out) : result envelope_out :=
  let Sr := np_empty 4 (junk_r nt) in
  let Sz := np_empty 4 (junk_z nt) in
  lo <- getitem ptcl_chunk_indices nt ;;
  hi <- getitem ptcl_chunk_indices (nt + 1)%Z ;;
  '(_, _, o') <-
    for_each (gather_envelope_cubic_body A m_array gather_gradient average_a2)
      (py_range lo hi) (Sr, Sz, o) ;;
  Ok o'.

(** This kernel is compiled without the parallel option: its [prange] is a
    [range]. *)
Definition gather_envelope_field_numba_cubic
    (junk_r junk_z : Z -> nat -> R) (A : envelope_grids) (m_array : list Z)
    (o : envelope_out) (nthreads : Z) (ptcl_chunk_indices : list Z)
    (gather_gradient average_a2 : bool) : result envelope_out :=
  for_each
    (gather_envelope_cubic_thread A m_array gather_gradient average_a2
       ptcl_chunk_indices junk_r junk_z)
    (py_range 0 nthreads) o.

End Kernels.

(** ** What a kernel gathers for one particle *)

(** The six values the linear kernel computes for a particle at
    [(xj, yj, zj)]. *)
Definition gather_field_linear_values
    (add_linear_gather_for_mode : linear_gather_for_mode)
    (G : geometry) (M : EB_grids) (xj yj zj : R)
  : result (R * R * R * (R * R * R)) :=
  let '(rj, cos, sin) := cylindrical_conversion xj yj in
  let s := linear_stencil G rj zj in
  '(Er, Et, Ez) <- linear_modes add_linear_gather_for_mode s
      (RtoC 1) (exptheta_base cos sin)
      (Er_m0 M) (Et_m0 M) (Ez_m0 M) (Er_m1 M) (Et_m1 M) (Ez_m1 M) ;;
  '(Br, Bt, Bz) <- linear_modes add_linear_gather_for_mode s
      (RtoC 1) (exptheta_base cos sin)
      (Br_m0 M) (Bt_m0 M) (Bz_m0 M) (Br_m1 M) (Bt_m1 M) (Bz_m1 M) ;;
  Ok (cos * Er - sin * Et, sin * Er + cos * Et, Ez,
      (cos * Br - sin * Bt, sin * Br + cos * Bt, Bz)).

(** The six values the cubic kernel computes for a particle at
    [(xj, yj, zj)]. *)
Definition gather_field_cubic_values
    (add_cubic_gather_for_mode : cubic_gather_for_mode)
    (G : geometry) (M : EB_grids) (xj yj zj : R)
  : result (R * R * R * (R * R * R)) :=
  let '(rj, cos, sin) := cylindrical_conversion xj yj in
  let r_cell := r_cell_of G rj in
  let z_cell := z_cell_of G zj in
  let ir_lowest := cubic_lowest r_cell in
  let iz_lowest := cubic_lowest z_cell in
  let Sr := cubic_weights (r_cell - IZR ir_lowest) in
  let Sz := cubic_weights (z_cell - IZR iz_lowest) in
  '(Er, Et, Ez) <- cubic_modes add_cubic_gather_for_mode G
      ir_lowest iz_lowest Sr Sz (RtoC 1) (exptheta_base cos sin)
      (Er_m0 M) (Et_m0 M) (Ez_m0 M) (Er_m1 M) (Et_m1 M) (Ez_m1 M) ;;
  '(Br, Bt, Bz) <- cubic_modes add_cubic_gather_for_mode G
      ir_lowest iz_lowest Sr Sz (RtoC 1) (exptheta_base cos sin)
      (Br_m0 M) (Bt_m0 M) (Bz_m0 M) (Br_m1 M) (Bt_m1 M) (Bz_m1 M) ;;
  Ok (cos * Er - sin * Et, sin * Er + cos * Et, Ez,
      (cos * Br - sin * Bt, sin * Br + cos * Bt, Bz)).

(** The six assignments to the particle field arrays at index [i]. *)
Definition write_EB (i : Z) (v : R * R * R * (R * R * R)) (o : EB_out)
  : result EB_out :=
  let '(vEx, vEy, vEz, (vBx, vBy, vBz)) := v in
  Ex' <- setitem (Ex o) i vEx ;;
  Ey' <- setitem (Ey o) i vEy ;;
  Ez' <- setitem (Ez o) i vEz ;;
  Bx' <- setitem (Bx o) i vBx ;;
  By' <- setitem (By o) i vBy ;;
  Bz' <- setitem (Bz o) i vBz ;;
  Ok {| Ex := Ex'; Ey := Ey'; Ez := Ez'; Bx := Bx'; By := By'; Bz := Bz' |}.

(** The position of particle [i]. *)
Definition position (P : particles) (i : Z) : result (R * R * R) :=
  xj <- getitem (ptcl_x P) i ;;
  yj <- getitem (ptcl_y P) i ;;
  zj <- getitem (ptcl_z P) i ;;
  Ok (xj, yj, zj).

(** Index [i] is a position of each of the six particle field arrays. *)
Definition in_range_EB (i : Z) (o : EB_out) : Prop :=
  (0 <= i)%Z /\
  (i < Z.of_nat (length (Ex o)))%Z /\ (i < Z.of_nat (length (Ey o)))%Z /\
  (i < Z.of_nat (length (Ez o)))%Z /\ (i < Z.of_nat (length (Bx o)))%Z /\
  (i < Z.of_nat (length (By o)))%Z /\ (i < Z.of_nat (length (Bz o)))%Z.

(** The scratch arrays of a thread of the cubic kernels once the particle at
    [(xj, yj, zj)] has been treated. *)
Definition cubic_scratch (G : geometry) (xj yj zj : R) : list R * list R :=
  let '(rj, cos, sin) := cylindrical_conversion xj yj in
  let r_cell := r_cell_of G rj in
  let z_cell := z_cell_of G zj in
  (cubic_weights (r_cell - IZR (cubic_lowest r_cell)),
   cubic_weights (z_cell - IZR (cubic_lowest z_cell))).

(** The arrays [Fx], [Fy], [Fz] hold at index [i] the Cartesian components
    of the cylindrical vector [(Fr, Ft, Fz_)]. *)
Definition cartesian_at (Fx Fy Fz : list R) (i : Z) (cos sin Fr Ft Fz_ : R)
  : Prop :=
  getitem Fx i = Ok (cos * Fr - sin * Ft) /\
  getitem Fy i = Ok (sin * Fr + cos * Ft) /\
  getitem Fz i = Ok Fz_.

(** The gradient arrays hold at index [i] the gradient of the intensity
    obtained from the amplitude [F] and the cylindrical gradient
    [(Fr, Ft, Fz)]. *)
Definition envelope_gradient_at (o : envelope_out) (i : Z) (cos sin : R)
    (F Fr Ft Fz : Cplx) : Prop :=
  let Fx := Csub (Cscale cos Fr) (Cscale sin Ft) in
  let Fy := Cadd (Cscale sin Fr) (Cscale cos Ft) in
  getitem (grad_a2_x o) i = Ok (2 * real (Cmul Fx (conjugate F))) /\
  getitem (grad_a2_y o) i = Ok (2 * real (Cmul Fy (conjugate F))) /\
  getitem (grad_a2_z o) i = Ok (2 * real (Cmul Fz (conjugate F))).

(** What the cubic envelope kernel gathers for particle [i]: the angular
    factors and the running sums over the modes. *)
Definition envelope_cubic_gathered
    (add_cubic_envelope : cubic_envelope_gather_for_mode)
    (P : particles) (G : geometry) (A : envelope_grids)
    (m_array : list Z) (gather_gradient : bool) (i : Z)
  : result (R * R * (Cplx * Cplx * Cplx * Cplx)) :=
  '(xj, yj, zj) <- position P i ;;
  let '(rj, cos, sin) := cylindrical_conversion xj yj in
  let r_cell := r_cell_of G rj in
  let z_cell := z_cell_of G zj in
  let ir_lowest := cubic_lowest r_cell in
  let iz_lowest := cubic_lowest z_cell in
  acc <- envelope_cubic_modes add_cubic_envelope G A m_array gather_gradient
           cos sin ir_lowest iz_lowest
           (cubic_weights (r_cell - IZR ir_lowest))
           (cubic_weights (z_cell - IZR iz_lowest)) ;;
  Ok (cos, sin, acc).

(** The intensity the linear envelope kernel computes for particle [i]
    before it is registered: [(F * F.conjugate()).real]. *)
Definition envelope_linear_intensity
    (add_linear_envelope : linear_envelope_gather_for_mode)
    (P : particles) (G : geometry) (A : envelope_grids)
    (m_array : list Z) (gather_gradient : bool) (i : Z) : result R :=
  '(cos, sin, (F, Fr, Ft, Fz)) <-
    envelope_linear_gathered add_linear_envelope P G A m_array
      gather_gradient i ;;
  Ok (real (Cmul F (conjugate F))).

(** What the cubic kernel does for particle [i], the scratch arrays left
    aside: gather the six values, write them at index [i]. *)
Definition gather_field_cubic_particle
    (add_cubic_gather_for_mode : cubic_gather_for_mode)
    (P : particles) (G : geometry) (M : EB_grids) (i : Z) (o : EB_out)
  : result EB_out :=
  '(xj, yj, zj) <- position P i ;;
  v <- gather_field_cubic_values add_cubic_gather_for_mode G M xj yj zj ;;
  write_EB i v o.

(** ** Chunks *)

Fixpoint nondecreasing (l : list Z) : bool :=
  match l with
  | [] => true
  | c :: t =>
      match t with
      | [] => true
      | c' :: _ => (c <=? c')%Z && nondecreasing t
      end
  end.

(** The boundary indices partition [[0, N)] into contiguous sub-ranges:
    they start at [0], end at [N] and do not decrease. *)
Definition is_partition (ptcl_chunk_indices : list Z) (N : Z) : bool :=
  match ptcl_chunk_indices with
  | [] => false
  | first :: _ =>
      (first =? 0)%Z && (last ptcl_chunk_indices 0%Z =? N)%Z
      && nondecreasing ptcl_chunk_indices
  end.

(** The particles of the chunk of thread [nt]. *)
Definition chunk_of (ptcl_chunk_indices : list Z) (nt : Z) : list Z :=
  py_range (nth (Z.to_nat nt) ptcl_chunk_indices 0%Z)
           (nth (Z.to_nat (nt + 1)) ptcl_chunk_indices 0%Z).

(** The values of the six particle field arrays at index [j]. *)
Definition EB_at (o : EB_out) (j : Z)
  : result R * result R * result R * (result R * result R * result R) :=
  (getitem (Ex o) j, getitem (Ey o) j, getitem (Ez o) j,
   (getitem (Bx o) j, getitem (By o) j, getitem (Bz o) j)).

(** The six arrays hold at index [j] the six values [v]. *)
Definition EB_holds (o : EB_out) (j : Z) (v : R * R * R * (R * R * R)) : Prop :=
  let '(vEx, vEy, vEz, (vBx, vBy, vBz)) := v in
  EB_at o j = (Ok vEx, Ok vEy, Ok vEz, (Ok vBx, Ok vBy, Ok vBz)).

(** [write_EB] on an index that is a position of the six arrays. *)
Definition in_range_EBb (i : Z) (o : EB_out) : bool :=
  (i <? Z.of_nat (length (Ex o)))%Z && (i <? Z.of_nat (length (Ey o)))%Z &&
  (i <? Z.of_nat (length (Ez o)))%Z && (i <? Z.of_nat (length (Bx o)))%Z &&
  (i <? Z.of_nat (length (By o)))%Z && (i <? Z.of_nat (length (Bz o)))%Z.

Definition put_EB (i : Z) (v : R * R * R * (R * R * R)) (o : EB_out) : EB_out :=
  let '(vEx, vEy, vEz, (vBx, vBy, vBz)) := v in
  {| Ex := update (Ex o) (Z.to_nat i) vEx;
     Ey := update (Ey o) (Z.to_nat i) vEy;
     Ez := update (Ez o) (Z.to_nat i) vEz;
     Bx := update (Bx o) (Z.to_nat i) vBx;
     By := update (By o) (Z.to_nat i) vBy;
     Bz := update (Bz o) (Z.to_nat i) vBz |}.

(** ** The inline functions *)

Module InlineFunctions.

(** Sum of the weighted grid values over the four points of the linear
    stencil. *)
Definition linear_stencil_sum (g : grid)
    (iz_lower iz_upper ir_lower ir_upper : Z) (S_ll S_lu S_ul S_uu : R)
  : result Cplx :=
  g_ll <- grid_at g iz_lower ir_lower ;;
  g_lu <- grid_at g iz_lower ir_upper ;;
  g_ul <- grid_at g iz_upper ir_lower ;;
  g_uu <- grid_at g iz_upper ir_upper ;;
  Ok (Cadd (Cadd (Cadd (Cscale S_ll g_ll) (Cscale S_lu g_lu))
                 (Cscale S_ul g_ul)) (Cscale S_uu g_uu)).

(** Modelled from the spec: [add_linear_gather_for_mode] of
    [inline_functions.py], which is not among the sources.  The running
    sum receives the phase factor times the sum of weight times grid value
    over the stencil points; the weights of the guard point ([S_lg],
    [S_ug]) are discarded.  The running sums of the field kernels are real:
    they receive the real part. *)
Definition add_linear_gather_for_mode : linear_gather_for_mode :=
  fun m Fr Ft Fz exptheta_m Fr_grid Ft_grid Fz_grid
      iz_lower iz_upper ir_lower ir_upper S_ll S_lu S_lg S_ul S_uu S_ug =>
  Fr_m <- linear_stencil_sum Fr_grid iz_lower iz_upper ir_lower ir_upper
            S_ll S_lu S_ul S_uu ;;
  Ft_m <- linear_stencil_sum Ft_grid iz_lower iz_upper ir_lower ir_upper
            S_ll S_lu S_ul S_uu ;;
  Fz_m <- linear_stencil_sum Fz_grid iz_lower iz_upper ir_lower ir_upper
            S_ll S_lu S_ul S_uu ;;
  Ok (Fr + real (Cmul exptheta_m Fr_m),
      Ft + real (Cmul exptheta_m Ft_m),
      Fz + real (Cmul exptheta_m Fz_m)).

(** Modelled from the spec: [add_linear_envelope_gather_for_mode] of
    [inline_functions.py], which is not among the sources; the complex
    running sum receives the phase factor times the stencil sum. *)
Definition add_linear_envelope_gather_for_mode
  : linear_envelope_gather_for_mode :=
  fun m F exptheta_m a_m
      iz_lower iz_upper ir_lower ir_upper S_ll S_lu S_lg S_ul S_uu S_ug =>
  F_m <- linear_stencil_sum a_m iz_lower iz_upper ir_lower ir_upper
           S_ll S_lu S_ul S_uu ;;
  Ok (Cadd F (Cmul exptheta_m F_m)).

(** Sum of the terms [f k] of a list of indices. *)
Fixpoint sum_over (f : Z -> result Cplx) (l : list Z) : result Cplx :=
  match l with
  | [] => Ok (RtoC 0)
  | k :: l' => v <- f k ;; r <- sum_over f l' ;; Ok (Cadd v r)
  end.

(** Sum over the sixteen points of the cubic stencil; the radial index is
    clamped to [Nr - 1] at the outer edge, the axial index is used as it
    is. *)
Definition cubic_stencil_sum (g : grid) (ir_lowest iz_lowest : Z)
    (Sr Sz : list R) (Nr : Z) : result Cplx :=
  sum_over (fun index_r =>
    sum_over (fun index_z =>
      wr <- getitem Sr index_r ;;
      wz <- getitem Sz index_z ;;
      let ir := (ir_lowest + index_r)%Z in
      let ir := if (ir >? Nr - 1)%Z then (Nr - 1)%Z else ir in
      v <- grid_at g (iz_lowest + index_z)%Z ir ;;
      Ok (Cscale (wr * wz) v)) (py_range 0 4)) (py_range 0 4).

(** Modelled from the spec: [add_cubic_gather_for_mode] of
    [inline_functions.py], which is not among the sources. *)
Definition add_cubic_gather_for_mode : cubic_gather_for_mode :=
  fun m Fr Ft Fz exptheta_m Fr_grid Ft_grid Fz_grid
      ir_lowest iz_lowest Sr Sz Nr Nz =>
  Fr_m <- cubic_stencil_sum Fr_grid ir_lowest iz_lowest Sr Sz Nr ;;
  Ft_m <- cubic_stencil_sum Ft_grid ir_lowest iz_lowest Sr Sz Nr ;;
  Fz_m <- cubic_stencil_sum Fz_grid ir_lowest iz_lowest Sr Sz Nr ;;
  Ok (Fr + real (Cmul exptheta_m Fr_m),
      Ft + real (Cmul exptheta_m Ft_m),
      Fz + real (Cmul exptheta_m Fz_m)).

(** Modelled from the spec: [add_cubic_envelope_gather_for_mode] of
    [inline_functions.py], which is not among the sources. *)
Definition add_cubic_envelope_gather_for_mode
  : cubic_envelope_gather_for_mode :=
  fun m F exptheta_m a_m ir_lowest iz_lowest Sr Sz Nr Nz =>
  F_m <- cubic_stencil_sum a_m ir_lowest iz_lowest Sr Sz Nr ;;
  Ok (Cadd F (Cmul exptheta_m F_m)).

End InlineFunctions.

(** An accumulator that returns, as the z component, the axial index it is
    handed: it makes this index visible in the output of the kernel. *)
Definition axial_index_probe : cubic_gather_for_mode :=
  fun m Fr Ft Fz exptheta_m Fr_grid Ft_grid Fz_grid
      ir_lowest iz_lowest Sr Sz Nr Nz =>
  Ok (Fr, Ft, IZR iz_lowest).

(** Squared modulus of a complex number. *)
Definition norm2 (u : Cplx) : R := real u * real u + imag u * imag u.

(** What the linear kernel does for particle [i]: gather the six values,
    write them at index [i]. *)
Definition gather_field_linear_particle
    (add_linear_gather_for_mode : linear_gather_for_mode)
    (P : particles) (G : geometry) (M : EB_grids) (i : Z) (o : EB_out)
  : result EB_out :=
  '(xj, yj, zj) <- position P i ;;
  v <- gather_field_linear_values add_linear_gather_for_mode G M xj yj zj ;;
  write_EB i v o.

(** What the cubic envelope kernel does for particle [i], the scratch arrays
    left aside. *)
Definition gather_envelope_cubic_particle
    (add_cubic_envelope : cubic_envelope_gather_for_mode)
    (P : particles) (G : geometry) (A : envelope_grids) (m_array : list Z)
    (gather_gradient average_a2 : bool) (i : Z) (o : envelope_out)
  : result envelope_out :=
  '(cos, sin, (F, Fr, Ft, Fz)) <-
    envelope_cubic_gathered add_cubic_envelope P G A m_array
      gather_gradient i ;;
  envelope_register gather_gradient average_a2 cos sin F Fr Ft Fz i o.

(** The lengths of the six particle field arrays. *)
Definition EB_lengths (o : EB_out) : list nat :=
  [length (Ex o); length (Ey o); length (Ez o);
   length (Bx o); length (By o); length (Bz o)].

(** The lengths of the arrays of a call of the field kernels, the array [x]
    left aside. *)
Definition other_lengths (P : particles) (o : EB_out) : list nat :=
  length (ptcl_y P) :: length (ptcl_z P) :: EB_lengths o.

(** The lengths of the four particle envelope arrays. *)
Definition envelope_lengths (o : envelope_out) : list nat :=
  [length (a2 o); length (grad_a2_x o); length (grad_a2_y o);
   length (grad_a2_z o)].

(** ** Inline functions that return *)

(** An accumulator returns: it yields a value for every argument it is
    handed, whatever the indices. *)
Definition returns_linear (add : linear_gather_for_mode) : Prop :=
  forall m Fr Ft Fz exptheta_m Fr_grid Ft_grid Fz_grid
         iz_lower iz_upper ir_lower ir_upper S_ll S_lu S_lg S_ul S_uu S_ug,
  exists v,
    add m Fr Ft Fz exptheta_m Fr_grid Ft_grid Fz_grid
      iz_lower iz_upper ir_lower ir_upper S_ll S_lu S_lg S_ul S_uu S_ug = Ok v.

Definition returns_cubic (add : cubic_gather_for_mode) : Prop :=
  forall m Fr Ft Fz exptheta_m Fr_grid Ft_grid Fz_grid
         ir_lowest iz_lowest Sr Sz Nr Nz,
  exists v,
    add m Fr Ft Fz exptheta_m Fr_grid Ft_grid Fz_grid
      ir_lowest iz_lowest Sr Sz Nr Nz = Ok v.

Definition returns_linear_envelope (add : linear_envelope_gather_for_mode)
  : Prop :=
  forall m F exptheta_m a_m
         iz_lower iz_upper ir_lower ir_upper S_ll S_lu S_lg S_ul S_uu S_ug,
  exists v,
    add m F exptheta_m a_m
      iz_lower iz_upper ir_lower ir_upper S_ll S_lu S_lg S_ul S_uu S_ug = Ok v.

Definition returns_cubic_envelope (add : cubic_envelope_gather_for_mode)
  : Prop :=
  forall m F exptheta_m a_m ir_lowest iz_lowest Sr Sz Nr Nz,
  exists v, add m F exptheta_m a_m ir_lowest iz_lowest Sr Sz Nr Nz = Ok v.

(** An accumulator that returns the axial indices it is handed, the upper
    one as the radial component and the lower one as the component along
    [z]: it makes these indices visible in the output of the linear field
    kernel. *)
Definition linear_index_probe : linear_gather_for_mode :=
  fun m Fr Ft Fz exptheta_m Fr_grid Ft_grid Fz_grid
      iz_lower iz_upper ir_lower ir_upper S_ll S_lu S_lg S_ul S_uu S_ug =>
  Ok (IZR iz_upper, 0, IZR iz_lower).

(** An accumulator that returns the axial indices it is handed as the real
    and the imaginary part of the running sum. *)
Definition linear_envelope_index_probe : linear_envelope_gather_for_mode :=
  fun m F exptheta_m a_m
      iz_lower iz_upper ir_lower ir_upper S_ll S_lu S_lg S_ul S_uu S_ug =>
  Ok (mkC (IZR iz_lower) (IZR iz_upper)).

(** An accumulator that returns the lowest indices it is handed as the real
    and the imaginary part of the running sum. *)
Definition cubic_envelope_index_probe : cubic_envelope_gather_for_mode :=
  fun m F exptheta_m a_m ir_lowest iz_lowest Sr Sz Nr Nz =>
  Ok (mkC (IZR iz_lowest) (IZR ir_lowest)).

(** ** One particle of a kernel *)

(** What a field kernel does for particle [i]: gather the six values at its
    position, write them at index [i]. *)
Definition field_particle
    (values : R -> R -> R -> result (R * R * R * (R * R * R)))
    (P : particles) (i : Z) (o : EB_out) : result EB_out :=
  '(xj, yj, zj) <- position P i ;;
  v <- values xj yj zj ;;
  write_EB i v o.

(** What an envelope kernel does for particle [i]: gather the angular
    factors and the running sums, register them at index [i]. *)
Definition envelope_particle
    (gathered : Z -> result (R * R * (Cplx * Cplx * Cplx * Cplx)))
    (gather_gradient average_a2 : bool) (i : Z) (o : envelope_out)
  : result envelope_out :=
  '(cos, sin, (F, Fr, Ft, Fz)) <- gathered i ;;
  envelope_register gather_gradient average_a2 cos sin F Fr Ft Fz i o.

(** The values of the four particle envelope arrays at index [j]. *)
Definition envelope_at (o : envelope_out) (j : Z)
  : result R * (result R * result R * result R) :=
  (getitem (a2 o) j,
   (getitem (grad_a2_x o) j, getitem (grad_a2_y o) j,
    getitem (grad_a2_z o) j)).

(** The intensity array [a2'] holds at index [i] the intensity of the
    amplitude [F]: as it is, or, with the averaging flag, averaged with the
    value that [a2] held. *)
Definition envelope_intensity_at (average_a2 : bool) (a2 a2' : list R)
    (i : Z) (F : Cplx) : Prop :=
  if average_a2 then
    exists old,
      getitem a2 i = Ok old /\
      getitem a2' i = Ok (0.5 * (old + real (Cmul F (conjugate F))))
  else getitem a2' i = Ok (real (Cmul F (conjugate F))).

(** ** Running sums of the envelope kernels, one quantity at a time *)

(** The contribution of the mode [m] to the running sum [F] of one envelope
    quantity in the linear kernel: the accumulator receives the grid of the
    mode, [grids[m]], the phase factor of the mode and the stencil. *)
Definition envelope_linear_term (add : linear_envelope_gather_for_mode)
    (grids : list grid) (cos sin : R) (s : linear_shape) (m : Z) (F : Cplx)
  : result Cplx :=
  g <- getitem grids m ;;
  add m F (envelope_exptheta cos sin m) g
    (iz_lower s) (iz_upper s) (ir_lower s) (ir_upper s)
    (S_ll s) (S_lu s) (S_lg s) (S_ul s) (S_uu s) (S_ug s).

(** The running sum over the modes of [m_array], in order, from zero. *)
Definition envelope_linear_sum (add : linear_envelope_gather_for_mode)
    (grids : list grid) (m_array : list Z) (cos sin : R) (s : linear_shape)
  : result Cplx :=
  for_each (envelope_linear_term add grids cos sin s) m_array (RtoC 0).

Definition envelope_cubic_term (add : cubic_envelope_gather_for_mode)
    (G : geometry) (grids : list grid) (cos sin : R)
    (ir_lowest iz_lowest : Z) (Sr Sz : list R) (m : Z) (F : Cplx)
  : result Cplx :=
  g <- getitem grids m ;;
  add m F (envelope_exptheta cos sin m) g
    ir_lowest iz_lowest Sr Sz (Nr G) (Nz G).

Definition envelope_cubic_sum (add : cubic_envelope_gather_for_mode)
    (G : geometry) (grids : list grid) (m_array : list Z) (cos sin : R)
    (ir_lowest iz_lowest : Z) (Sr Sz : list R) : result Cplx :=
  for_each (envelope_cubic_term add G grids cos sin ir_lowest iz_lowest Sr Sz)
    m_array (RtoC 0).

(** For a particle at [(xj, yj, zj)] of angular factors [cos] and [sin], the
    amplitude [F] is the running sum of the grids [a]; when the gradient is
    gathered, [Fr], [Ft] and [Fz] are the running sums of the grids
    [grad_a_r], [grad_a_t] and [grad_a_z]. *)
Definition envelope_linear_sums (add : linear_envelope_gather_for_mode)
    (G : geometry) (A : envelope_grids) (m_array : list Z)
    (gather_gradient : bool) (xj yj zj cos sin : R) (F Fr Ft Fz : Cplx)
  : Prop :=
  exists rj,
    cylindrical_conversion xj yj = (rj, cos, sin) /\
    let s := linear_stencil G rj zj in
    envelope_linear_sum add (a A) m_array cos sin s = Ok F /\
    (gather_gradient = true ->
     envelope_linear_sum add (grad_a_r A) m_array cos sin s = Ok Fr /\
     envelope_linear_sum add (grad_a_t A) m_array cos sin s = Ok Ft /\
     envelope_linear_sum add (grad_a_z A) m_array cos sin s = Ok Fz).

Definition envelope_cubic_sums (add : cubic_envelope_gather_for_mode)
    (G : geometry) (A : envelope_grids) (m_array : list Z)
    (gather_gradient : bool) (xj yj zj cos sin : R) (F Fr Ft Fz : Cplx)
  : Prop :=
  exists rj,
    cylindrical_conversion xj yj = (rj, cos, sin) /\
    let r_cell := r_cell_of G rj in
    let z_cell := z_cell_of G zj in
    let ir_lowest := cubic_lowest r_cell in
    let iz_lowest := cubic_lowest z_cell in
    let Sr := cubic_weights (r_cell - IZR ir_lowest) in
    let Sz := cubic_weights (z_cell - IZR iz_lowest) in
    envelope_cubic_sum add G (a A) m_array cos sin ir_lowest iz_lowest Sr Sz
    = Ok F /\
    (gather_gradient = true ->
     envelope_cubic_sum add G (grad_a_r A) m_array cos sin
       ir_lowest iz_lowest Sr Sz = Ok Fr /\
     envelope_cubic_sum add G (grad_a_t A) m_array cos sin
       ir_lowest iz_lowest Sr Sz = Ok Ft /\
     envelope_cubic_sum add G (grad_a_z A) m_array cos sin
       ir_lowest iz_lowest Sr Sz = Ok Fz).

(** ** Arrays that are long enough *)

(** Every mode of [m_array] is an index of the four arrays of grids. *)
Definition modes_in_range (A : envelope_grids) (m_array : list Z) : Prop :=
  Forall (fun m =>
            Forall (fun n => (- Z.of_nat n <= m < Z.of_nat n)%Z)
              [length (a A); length (grad_a_r A); length (grad_a_t A);
               length (grad_a_z A)]) m_array.

(** The lengths of the arrays of a call of the envelope kernels, the array
    [x] left aside. *)
Definition envelope_other_lengths (P : particles) (o : envelope_out)
  : list nat :=
  length (ptcl_y P) :: length (ptcl_z P) :: envelope_lengths o.

(** Every length of [lengths] is at least the number of particles. *)
Definition long_enough (P : particles) (lengths : list nat) : Prop :=
  Forall (fun n => (length (ptcl_x P) <= n)%nat) lengths.

(** ** Ionization (fbpic/particles/ionization/numba_methods.py) *)

Module Ionization.

(** The arrays that [ionize_ions_numba] reads. *)
Record ion_inputs : Type := {
  random_draw : list R;
  adk_prefactor : list R; adk_power : list R; adk_exp_prefactor : list R;
  ux : list R; uy : list R; uz : list R;
  Ex : list R; Ey : list R; Ez : list R;
  Bx : list R; By : list R; Bz : list R;
  neutral_weight : list R
}.

(** The arrays that it modifies, four distinct objects; their integers are
    taken without overflow. *)
Record ion_state : Type := {
  n_ionized : list Z;
  is_ionized : list Z;
  ionization_level : list Z;
  w : list R
}.

Section Ionize.

(** The speed of light and the elementary charge of [scipy.constants], and
    the two inline functions of [inline_functions.py] that the kernel calls,
    functions of their scalar arguments. *)
Variables c e : R.
Variable get_E_amplitude_numba : R -> R -> R -> R -> R -> R -> R -> R -> R -> R.
Variable get_ionization_probability_numba : R -> R -> R -> R -> R.

Variables batch_size Ntot z_max : Z.
Variable inp : ion_inputs.

(** The ionization probability of particle [ip] at the level [level]
    (lines 41-45). *)
Definition probability (ip level : Z) : result R :=
  ux_ip <- getitem (ux inp) ip ;;
  uy_ip <- getitem (uy inp) ip ;;
  uz_ip <- getitem (uz inp) ip ;;
  Ex_ip <- getitem (Ex inp) ip ;;
  Ey_ip <- getitem (Ey inp) ip ;;
  Ez_ip <- getitem (Ez inp) ip ;;
  Bx_ip <- getitem (Bx inp) ip ;;
  By_ip <- getitem (By inp) ip ;;
  Bz_ip <- getitem (Bz inp) ip ;;
  let E := get_E_amplitude_numba ux_ip uy_ip uz_ip Ex_ip Ey_ip Ez_ip
             (c * Bx_ip) (c * By_ip) (c * Bz_ip) in
  prefactor <- getitem (adk_prefactor inp) level ;;
  power <- getitem (adk_power inp) level ;;
  exp_prefactor <- getitem (adk_exp_prefactor inp) level ;;
  Ok (get_ionization_probability_numba E prefactor power exp_prefactor).

(** Body of the loop through a batch (lines 33-55). *)
Definition ionize_particle (i_batch ip : Z) (st : ion_state)
  : result ion_state :=
  level <- getitem (ionization_level st) ip ;;
  if (level >=? z_max)%Z then Ok st
  else
    p <- probability ip level ;;
    draw <- getitem (random_draw inp) ip ;;
    if Rlt_dec draw p then
      is_ionized' <- setitem (is_ionized st) ip 1%Z ;;
      n <- getitem (n_ionized st) i_batch ;;
      n_ionized' <- setitem (n_ionized st) i_batch (n + 1)%Z ;;
      old_level <- getitem (ionization_level st) ip ;;
      ionization_level' <-
        setitem (ionization_level st) ip (old_level + 1)%Z ;;
      new_level <- getitem ionization_level' ip ;;
      weight <- getitem (neutral_weight inp) ip ;;
      w' <- setitem (w st) ip (e * IZR new_level * weight) ;;
      Ok {| n_ionized := n_ionized'; is_ionized := is_ionized';
            ionization_level := ionization_level'; w := w' |}
    else
      is_ionized' <- setitem (is_ionized st) ip 0%Z ;;
      Ok {| n_ionized := n_ionized st; is_ionized := is_ionized';
            ionization_level := ionization_level st; w := w st |}.

(** The particles of batch [i_batch]. *)
Definition batch_range (i_batch : Z) : list Z :=
  let N_max := Z.min ((i_batch + 1) * batch_size) Ntot in
  py_range (i_batch * batch_size) N_max.

(** Body of the loop over the batches (lines 26-55). *)
Definition ionize_batch (i_batch : Z) (st : ion_state) : result ion_state :=
  n_ionized' <- setitem (n_ionized st) i_batch 0%Z ;;
  for_each (ionize_particle i_batch) (batch_range i_batch)
    {| n_ionized := n_ionized'; is_ionized := is_ionized st;
       ionization_level := ionization_level st; w := w st |}.

Definition ionize_ions_numba (N_batch : Z) (st : ion_state)
  : result ion_state :=
  for_each ionize_batch (py_range 0 N_batch) st.

(** What the arrays hold for particle [j]: level, flag and weight. *)
Definition particle_at (st : ion_state) (j : Z)
  : result Z * result Z * result R :=
  (getitem (ionization_level st) j, getitem (is_ionized st) j,
   getitem (w st) j).

(** The outcome of the kernel for a particle that it visits once, from
    what the arrays held for it before ([old]) to what they hold after
    ([new]). *)
Definition outcome (ip : Z) (old new : result Z * result Z * result R)
  : Prop :=
  exists level,
    fst (fst old) = Ok level /\
    ((z_max <= level)%Z /\ new = old \/
     (level < z_max)%Z /\
     exists p draw,
       probability ip level = Ok p /\
       getitem (random_draw inp) ip = Ok draw /\
       (draw < p /\
        (exists weight,
           getitem (neutral_weight inp) ip = Ok weight /\
           new = (Ok (level + 1)%Z, Ok 1%Z,
                  Ok (e * IZR (level + 1) * weight)))
        \/ ~ draw < p /\ new = (fst (fst old), Ok 0%Z, snd old))).

End Ionize.

(** By how much the level of a particle has risen, from what the arrays
    held for it before to what they hold after. *)
Definition gained (old new : result Z * result Z * result R) : Z :=
  match fst (fst old), fst (fst new) with
  | Ok level, Ok level' => (level' - level)%Z
  | _, _ => 0%Z
  end.

(** Sum of [f] over a list of indices. *)
Definition Zsum (f : Z -> Z) (l : list Z) : Z :=
  fold_right (fun i acc => (f i + acc)%Z) 0%Z l.

End Ionization.

(** The lengths of the arrays of [ionize_ions_numba] that hold one value
    for each particle, and of those that hold one value for each level. *)
Definition particle_lengths (inp : Ionization.ion_inputs)
    (st : Ionization.ion_state) : list nat :=
  [length (Ionization.is_ionized st);
   length (Ionization.ionization_level st); length (Ionization.w st);
   length (Ionization.random_draw inp);
   length (Ionization.ux inp); length (Ionization.uy inp);
   length (Ionization.uz inp);
   length (Ionization.Ex inp); length (Ionization.Ey inp);
   length (Ionization.Ez inp);
   length (Ionization.Bx inp); length (Ionization.By inp);
   length (Ionization.Bz inp);
   length (Ionization.neutral_weight inp)].

Definition level_lengths (inp : Ionization.ion_inputs) : list nat :=
  [length (Ionization.adk_prefactor inp); length (Ionization.adk_power inp);
   length (Ionization.adk_exp_prefactor inp)].

(** The arrays have an entry for each of [Ntot] particles, [N_batch]
    batches and [z_max] levels, and no level is negative. *)
Definition well_sized (Ntot N_batch z_max : Z) (inp : Ionization.ion_inputs)
    (st : Ionization.ion_state) : Prop :=
  (N_batch <= Z.of_nat (length (Ionization.n_ionized st)))%Z /\
  Forall (fun n => (Ntot <= Z.of_nat n)%Z) (particle_lengths inp st) /\
  Forall (fun n => (z_max <= Z.of_nat n)%Z) (level_lengths inp) /\
  Forall (fun level => (0 <= level)%Z) (Ionization.ionization_level st).

(** ** Boundaries on the GPU (fbpic/boundaries/cuda_methods.py) *)

(** A kernel is the program of one thread.  [cuda.grid(2)] is the position
    of the thread in the launch grid, two natural numbers; a launch runs
    the kernel once for each thread of the grid, here one thread after the
    other in the order of a list, which is a parameter.  The arrays handed
    to a kernel are distinct objects.  An access outside the extents of an
    array is an [IndexError], as when the kernel runs on the simulator; on
    a device nothing checks the access. *)

Module Boundaries.

(** Device arrays of two and three dimensions: the extents and the value
    at each position. *)
Record array2 : Type := {
  shape2 : nat * nat;
  cell2 : nat -> nat -> Cplx
}.

Record array3 : Type := {
  shape3 : nat * nat * nat;
  cell3 : nat -> nat -> nat -> Cplx
}.

Definition set2 (a : array2) (p q : nat) (v : Cplx) : array2 :=
  {| shape2 := shape2 a;
     cell2 := fun p' q' =>
       if (Nat.eqb p' p && Nat.eqb q' q)%bool then v else cell2 a p' q' |}.

Definition set3 (a : array3) (k p q : nat) (v : Cplx) : array3 :=
  {| shape3 := shape3 a;
     cell3 := fun k' p' q' =>
       if (Nat.eqb k' k && Nat.eqb p' p && Nat.eqb q' q)%bool then v
       else cell3 a k' p' q' |}.

(** [a[i, j]] *)
Definition getitem2 (a : array2) (i j : Z) : result Cplx :=
  p <- norm_index (Z.of_nat (fst (shape2 a))) i ;;
  q <- norm_index (Z.of_nat (snd (shape2 a))) j ;;
  Ok (cell2 a p q).

(** [a[i, j] = v] *)
Definition setitem2 (a : array2) (i j : Z) (v : Cplx) : result array2 :=
  p <- norm_index (Z.of_nat (fst (shape2 a))) i ;;
  q <- norm_index (Z.of_nat (snd (shape2 a))) j ;;
  Ok (set2 a p q v).

(** [a[k, i, j]] *)
Definition getitem3 (a : array3) (k i j : Z) : result Cplx :=
  n <- norm_index (Z.of_nat (fst (fst (shape3 a)))) k ;;
  p <- norm_index (Z.of_nat (snd (fst (shape3 a)))) i ;;
  q <- norm_index (Z.of_nat (snd (shape3 a))) j ;;
  Ok (cell3 a n p q).

(** [a[k, i, j] = v] *)
Definition setitem3 (a : array3) (k i j : Z) (v : Cplx) : result array3 :=
  n <- norm_index (Z.of_nat (fst (fst (shape3 a)))) k ;;
  p <- norm_index (Z.of_nat (snd (fst (shape3 a)))) i ;;
  q <- norm_index (Z.of_nat (snd (shape3 a))) j ;;
  Ok (set3 a n p q v).

(** The four statements of the kernels.

    [buffer[k, iz, ir] = g[iz_g, ir]] *)
Definition copy_cell (buffer : array3) (k iz ir : Z) (g : array2) (iz_g : Z)
  : result array3 :=
  v <- getitem2 g iz_g ir ;;
  setitem3 buffer k iz ir v.

(** [g[iz_g, ir] = buffer[k, iz, ir]] *)
Definition replace_cell (g : array2) (iz_g ir : Z) (buffer : array3)
    (k iz : Z) : result array2 :=
  v <- getitem3 buffer k iz ir ;;
  setitem2 g iz_g ir v.

(** [g[iz_g, ir] += buffer[k, iz, ir]] *)
Definition add_cell (g : array2) (iz_g ir : Z) (buffer : array3)
    (k iz : Z) : result array2 :=
  u <- getitem2 g iz_g ir ;;
  v <- getitem3 buffer k iz ir ;;
  setitem2 g iz_g ir (Cadd u v).

(** [g[iz, ir] *= damp_factor], the factor being a float. *)
Definition damp_cell (g : array2) (iz ir : Z) (damp_factor : R)
  : result array2 :=
  u <- getitem2 g iz ir ;;
  setitem2 g iz ir (Cmul u (RtoC damp_factor)).

(** The components of a vector field in the modes 0 and 1. *)
Record vec_grids : Type := {
  grid_0_r : array2; grid_0_t : array2; grid_0_z : array2;
  grid_1_r : array2; grid_1_t : array2; grid_1_z : array2
}.

(** The modes 0 and 1 of a scalar field. *)
Record scal_grids : Type := {
  grid_0 : array2; grid_1 : array2
}.

(** The fields that the damping kernels modify. *)
Record EB_fields : Type := {
  Er : array2; Et : array2; Ez : array2;
  Br : array2; Bt : array2; Bz : array2
}.

(** A launch of a kernel over the threads of a grid. *)
Fixpoint cuda_launch {S : Type} (kernel : nat * nat -> S -> result S)
    (threads : list (nat * nat)) (s : S) : result S :=
  match threads with
  | [] => Ok s
  | thread :: threads' =>
      match kernel thread s with
      | Ok s' => cuda_launch kernel threads' s'
      | IndexError => IndexError
      end
  end.

(** Lines 10-73.  The kernel writes to the two buffers. *)
Definition copy_vec_to_gpu_buffer (G : vec_grids)
    (copy_left copy_right : bool) (nz_start nz_end : Z)
    (thread : nat * nat) (buffers : array3 * array3)
  : result (array3 * array3) :=
  let '(vec_buffer_l, vec_buffer_r) := buffers in
  let Nz := Z.of_nat (fst (shape2 (grid_0_r G))) in
  let Nr := Z.of_nat (snd (shape2 (grid_0_r G))) in
  let iz := Z.of_nat (fst thread) in
  let ir := Z.of_nat (snd thread) in
  if (ir <? Nr)%Z then
    if (iz <? nz_end - nz_start)%Z then
      vec_buffer_l <-
        (if copy_left then
           let iz_left := (nz_start + iz)%Z in
           b <- copy_cell vec_buffer_l 0 iz ir (grid_0_r G) iz_left ;;
           b <- copy_cell b 1 iz ir (grid_0_t G) iz_left ;;
           b <- copy_cell b 2 iz ir (grid_0_z G) iz_left ;;
           b <- copy_cell b 3 iz ir (grid_1_r G) iz_left ;;
           b <- copy_cell b 4 iz ir (grid_1_t G) iz_left ;;
           copy_cell b 5 iz ir (grid_1_z G) iz_left
         else Ok vec_buffer_l) ;;
      vec_buffer_r <-
        (if copy_right then
           let iz_right := (Nz - nz_end + iz)%Z in
           b <- copy_cell vec_buffer_r 0 iz ir (grid_0_r G) iz_right ;;
           b <- copy_cell b 1 iz ir (grid_0_t G) iz_right ;;
           b <- copy_cell b 2 iz ir (grid_0_z G) iz_right ;;
           b <- copy_cell b 3 iz ir (grid_1_r G) iz_right ;;
           b <- copy_cell b 4 iz ir (grid_1_t G) iz_right ;;
           copy_cell b 5 iz ir (grid_1_z G) iz_right
         else Ok vec_buffer_r) ;;
      Ok (vec_buffer_l, vec_buffer_r)
    else Ok buffers
  else Ok buffers.

(** Lines 75-129. *)
Definition copy_scal_to_gpu_buffer (G : scal_grids)
    (copy_left copy_right : bool) (nz_start nz_end : Z)
    (thread : nat * nat) (buffers : array3 * array3)
  : result (array3 * array3) :=
  let '(scal_buffer_l, scal_buffer_r) := buffers in
  let Nz := Z.of_nat (fst (shape2 (grid_0 G))) in
  let Nr := Z.of_nat (snd (shape2 (grid_0 G))) in
  let iz := Z.of_nat (fst thread) in
  let ir := Z.of_nat (snd thread) in
  if (ir <? Nr)%Z then
    if (iz <? nz_end - nz_start)%Z then
      scal_buffer_l <-
        (if copy_left then
           let iz_left := (nz_start + iz)%Z in
           b <- copy_cell scal_buffer_l 0 iz ir (grid_0 G) iz_left ;;
           copy_cell b 1 iz ir (grid_1 G) iz_left
         else Ok scal_buffer_l) ;;
      scal_buffer_r <-
        (if copy_right then
           let iz_right := (Nz - nz_end + iz)%Z in
           b <- copy_cell scal_buffer_r 0 iz ir (grid_0 G) iz_right ;;
           copy_cell b 1 iz ir (grid_1 G) iz_right
         else Ok scal_buffer_r) ;;
      Ok (scal_buffer_l, scal_buffer_r)
    else Ok buffers
  else Ok buffers.

(** Lines 131-192.  The kernel writes to the six grids. *)
Definition replace_vec_from_gpu_buffer (vec_buffer_l vec_buffer_r : array3)
    (copy_left copy_right : bool) (nz_start nz_end : Z)
    (thread : nat * nat) (G : vec_grids) : result vec_grids :=
  let Nz := Z.of_nat (fst (shape2 (grid_0_r G))) in
  let Nr := Z.of_nat (snd (shape2 (grid_0_r G))) in
  let iz := Z.of_nat (fst thread) in
  let ir := Z.of_nat (snd thread) in
  if (ir <? Nr)%Z then
    if (iz <? nz_end - nz_start)%Z then
      G <-
        (if copy_left then
           let iz_left := iz in
           g0r <- replace_cell (grid_0_r G) iz_left ir vec_buffer_l 0 iz ;;
           g0t <- replace_cell (grid_0_t G) iz_left ir vec_buffer_l 1 iz ;;
           g0z <- replace_cell (grid_0_z G) iz_left ir vec_buffer_l 2 iz ;;
           g1r <- replace_cell (grid_1_r G) iz_left ir vec_buffer_l 3 iz ;;
           g1t <- replace_cell (grid_1_t G) iz_left ir vec_buffer_l 4 iz ;;
           g1z <- replace_cell (grid_1_z G) iz_left ir vec_buffer_l 5 iz ;;
           Ok {| grid_0_r := g0r; grid_0_t := g0t; grid_0_z := g0z;
                 grid_1_r := g1r; grid_1_t := g1t; grid_1_z := g1z |}
         else Ok G) ;;
      if copy_right then
        let iz_right := (Nz - (nz_end - nz_start) + iz)%Z in
        g0r <- replace_cell (grid_0_r G) iz_right ir vec_buffer_r 0 iz ;;
        g0t <- replace_cell (grid_0_t G) iz_right ir vec_buffer_r 1 iz ;;
        g0z <- replace_cell (grid_0_z G) iz_right ir vec_buffer_r 2 iz ;;
        g1r <- replace_cell (grid_1_r G) iz_right ir vec_buffer_r 3 iz ;;
        g1t <- replace_cell (grid_1_t G) iz_right ir vec_buffer_r 4 iz ;;
        g1z <- replace_cell (grid_1_z G) iz_right ir vec_buffer_r 5 iz ;;
        Ok {| grid_0_r := g0r; grid_0_t := g0t; grid_0_z := g0z;
              grid_1_r := g1r; grid_1_t := g1t; grid_1_z := g1z |}
      else Ok G
    else Ok G
  else Ok G.

(** Lines 194-246. *)
Definition replace_scal_from_gpu_buffer (scal_buffer_l scal_buffer_r : array3)
    (copy_left copy_right : bool) (nz_start nz_end : Z)
    (thread : nat * nat) (G : scal_grids) : result scal_grids :=
  let Nz := Z.of_nat (fst (shape2 (grid_0 G))) in
  let Nr := Z.of_nat (snd (shape2 (grid_0 G))) in
  let iz := Z.of_nat (fst thread) in
  let ir := Z.of_nat (snd thread) in
  if (ir <? Nr)%Z then
    if (iz <? nz_end - nz_start)%Z then
      G <-
        (if copy_left then
           let iz_left := iz in
           g0 <- replace_cell (grid_0 G) iz_left ir scal_buffer_l 0 iz ;;
           g1 <- replace_cell (grid_1 G) iz_left ir scal_buffer_l 1 iz ;;
           Ok {| grid_0 := g0; grid_1 := g1 |}
         else Ok G) ;;
      if copy_right then
        let iz_right := (Nz - (nz_end - nz_start) + iz)%Z in
        g0 <- replace_cell (grid_0 G) iz_right ir scal_buffer_r 0 iz ;;
        g1 <- replace_cell (grid_1 G) iz_right ir scal_buffer_r 1 iz ;;
        Ok {| grid_0 := g0; grid_1 := g1 |}
      else Ok G
    else Ok G
  else Ok G.

(** Lines 249-310. *)
Definition add_vec_from_gpu_buffer (vec_buffer_l vec_buffer_r : array3)
    (copy_left copy_right : bool) (nz_start nz_end : Z)
    (thread : nat * nat) (G : vec_grids) : result vec_grids :=
  let Nz := Z.of_nat (fst (shape2 (grid_0_r G))) in
  let Nr := Z.of_nat (snd (shape2 (grid_0_r G))) in
  let iz := Z.of_nat (fst thread) in
  let ir := Z.of_nat (snd thread) in
  if (ir <? Nr)%Z then
    if (iz <? nz_end - nz_start)%Z then
      G <-
        (if copy_left then
           let iz_left := iz in
           g0r <- add_cell (grid_0_r G) iz_left ir vec_buffer_l 0 iz ;;
           g0t <- add_cell (grid_0_t G) iz_left ir vec_buffer_l 1 iz ;;
           g0z <- add_cell (grid_0_z G) iz_left ir vec_buffer_l 2 iz ;;
           g1r <- add_cell (grid_1_r G) iz_left ir vec_buffer_l 3 iz ;;
           g1t <- add_cell (grid_1_t G) iz_left ir vec_buffer_l 4 iz ;;
           g1z <- add_cell (grid_1_z G) iz_left ir vec_buffer_l 5 iz ;;
           Ok {| grid_0_r := g0r; grid_0_t := g0t; grid_0_z := g0z;
                 grid_1_r := g1r; grid_1_t := g1t; grid_1_z := g1z |}
         else Ok G) ;;
      if copy_right then
        let iz_right := (Nz - (nz_end - nz_start) + iz)%Z in
        g0r <- add_cell (grid_0_r G) iz_right ir vec_buffer_r 0 iz ;;
        g0t <- add_cell (grid_0_t G) iz_right ir vec_buffer_r 1 iz ;;
        g0z <- add_cell (grid_0_z G) iz_right ir vec_buffer_r 2 iz ;;
        g1r <- add_cell (grid_1_r G) iz_right ir vec_buffer_r 3 iz ;;
        g1t <- add_cell (grid_1_t G) iz_right ir vec_buffer_r 4 iz ;;
        g1z <- add_cell (grid_1_z G) iz_right ir vec_buffer_r 5 iz ;;
        Ok {| grid_0_r := g0r; grid_0_t := g0t; grid_0_z := g0z;
              grid_1_r := g1r; grid_1_t := g1t; grid_1_z := g1z |}
      else Ok G
    else Ok G
  else Ok G.

(** Lines 312-364. *)
Definition add_scal_from_gpu_buffer (scal_buffer_l scal_buffer_r : array3)
    (copy_left copy_right : bool) (nz_start nz_end : Z)
    (thread : nat * nat) (G : scal_grids) : result scal_grids :=
  let Nz := Z.of_nat (fst (shape2 (grid_0 G))) in
  let Nr := Z.of_nat (snd (shape2 (grid_0 G))) in
  let iz := Z.of_nat (fst thread) in
  let ir := Z.of_nat (snd thread) in
  if (ir <? Nr)%Z then
    if (iz <? nz_end - nz_start)%Z then
      G <-
        (if copy_left then
           let iz_left := iz in
           g0 <- add_cell (grid_0 G) iz_left ir scal_buffer_l 0 iz ;;
           g1 <- add_cell (grid_1 G) iz_left ir scal_buffer_l 1 iz ;;
           Ok {| grid_0 := g0; grid_1 := g1 |}
         else Ok G) ;;
      if copy_right then
        let iz_right := (Nz - (nz_end - nz_start) + iz)%Z in
        g0 <- add_cell (grid_0 G) iz_right ir scal_buffer_r 0 iz ;;
        g1 <- add_cell (grid_1 G) iz_right ir scal_buffer_r 1 iz ;;
        Ok {| grid_0 := g0; grid_1 := g1 |}
      else Ok G
    else Ok G
  else Ok G.

(** Lines 368-408. *)
Definition cuda_damp_EB_left (damp_array : list R) (n_guard n_damp : Z)
    (thread : nat * nat) (F : EB_fields) : result EB_fields :=
  let iz := Z.of_nat (fst thread) in
  let ir := Z.of_nat (snd thread) in
  let Nz := Z.of_nat (fst (shape2 (Er F))) in
  let Nr := Z.of_nat (snd (shape2 (Er F))) in
  if (ir <? Nr)%Z then
    if (iz <? n_guard + n_damp)%Z then
      damp_factor_left <- getitem damp_array iz ;;
      Er' <- damp_cell (Er F) iz ir damp_factor_left ;;
      Et' <- damp_cell (Et F) iz ir damp_factor_left ;;
      Ez' <- damp_cell (Ez F) iz ir damp_factor_left ;;
      Br' <- damp_cell (Br F) iz ir damp_factor_left ;;
      Bt' <- damp_cell (Bt F) iz ir damp_factor_left ;;
      Bz' <- damp_cell (Bz F) iz ir damp_factor_left ;;
      Ok {| Er := Er'; Et := Et'; Ez := Ez';
            Br := Br'; Bt := Bt'; Bz := Bz' |}
    else Ok F
  else Ok F.

(** Lines 410-451. *)
Definition cuda_damp_EB_right (damp_array : list R) (n_guard n_damp : Z)
    (thread : nat * nat) (F : EB_fields) : result EB_fields :=
  let iz := Z.of_nat (fst thread) in
  let ir := Z.of_nat (snd thread) in
  let Nz := Z.of_nat (fst (shape2 (Er F))) in
  let Nr := Z.of_nat (snd (shape2 (Er F))) in
  if (ir <? Nr)%Z then
    if (iz <? n_guard + n_damp)%Z then
      damp_factor_right <- getitem damp_array iz ;;
      let iz_right := (Nz - iz - 1)%Z in
      Er' <- damp_cell (Er F) iz_right ir damp_factor_right ;;
      Et' <- damp_cell (Et F) iz_right ir damp_factor_right ;;
      Ez' <- damp_cell (Ez F) iz_right ir damp_factor_right ;;
      Br' <- damp_cell (Br F) iz_right ir damp_factor_right ;;
      Bt' <- damp_cell (Bt F) iz_right ir damp_factor_right ;;
      Bz' <- damp_cell (Bz F) iz_right ir damp_factor_right ;;
      Ok {| Er := Er'; Et := Et'; Ez := Ez';
            Br := Br'; Bt := Bt'; Bz := Bz' |}
    else Ok F
  else Ok F.

(** The arrays of a group, in the order of the buffer. *)
Definition vec_components (G : vec_grids) : list array2 :=
  [grid_0_r G; grid_0_t G; grid_0_z G; grid_1_r G; grid_1_t G; grid_1_z G].

Definition scal_components (G : scal_grids) : list array2 :=
  [grid_0 G; grid_1 G].

Definition EB_components (F : EB_fields) : list array2 :=
  [Er F; Et F; Ez F; Br F; Bt F; Bz F].

(** An array of no cell. *)
Definition empty2 : array2 :=
  {| shape2 := (0%nat, 0%nat); cell2 := fun _ _ => RtoC 0 |}.

(** The value at [(p, q)] in the array number [k] of a list. *)
Definition cell_of (l : list array2) (k p q : nat) : Cplx :=
  cell2 (nth k l empty2) p q.

(** [g[p, q]] changed by [f]. *)
Definition modify2 (g : array2) (p q : nat) (f : Cplx -> Cplx) : array2 :=
  set2 g p q (f (cell2 g p q)).

(** The same change [f] to every array of a group, [f] knowing the number
    of the array. *)
Definition map_vec (f : nat -> array2 -> array2) (G : vec_grids)
  : vec_grids :=
  {| grid_0_r := f 0%nat (grid_0_r G); grid_0_t := f 1%nat (grid_0_t G);
     grid_0_z := f 2%nat (grid_0_z G); grid_1_r := f 3%nat (grid_1_r G);
     grid_1_t := f 4%nat (grid_1_t G); grid_1_z := f 5%nat (grid_1_z G) |}.

Definition map_scal (f : nat -> array2 -> array2) (G : scal_grids)
  : scal_grids :=
  {| grid_0 := f 0%nat (grid_0 G); grid_1 := f 1%nat (grid_1 G) |}.

Definition map_EB (f : nat -> array2 -> array2) (F : EB_fields)
  : EB_fields :=
  {| Er := f 0%nat (Er F); Et := f 1%nat (Et F); Ez := f 2%nat (Ez F);
     Br := f 3%nat (Br F); Bt := f 4%nat (Bt F); Bz := f 5%nat (Bz F) |}.

(** The thread [(tz, tr)] is one of those that the kernels let through:
    [ir < Nr] and [iz < w]. *)
Definition in_guard (w : Z) (Nr : nat) (thread : nat * nat) : bool :=
  ((snd thread <? Nr)%nat && (Z.of_nat (fst thread) <? w)%Z)%bool.

(** The row that a thread of a replacing or adding kernel writes at the
    right end of grids of [Nz] rows, for buffers of [w] rows. *)
Definition row_right (Nz : nat) (w : Z) (tz : nat) : nat :=
  Z.to_nat (Z.of_nat Nz - w + Z.of_nat tz).

(** What a thread of a replacing ([f u v = v]) or adding ([f u v = u + v])
    kernel does to the array number [k], on grids of shape [(Nz, Nr)]. *)
Definition exchange_thread (f : Cplx -> Cplx -> Cplx)
    (buffer_l buffer_r : array3) (copy_left copy_right : bool) (w : Z)
    (Nz Nr : nat) (thread : nat * nat) (k : nat) (g : array2) : array2 :=
  let '(tz, tr) := thread in
  if in_guard w Nr thread then
    let g :=
      if copy_left
      then modify2 g tz tr (fun u => f u (cell3 buffer_l k tz tr))
      else g in
    if copy_right
    then modify2 g (row_right Nz w tz) tr
           (fun u => f u (cell3 buffer_r k tz tr))
    else g
  else g.

(** What a thread of a copying kernel does to a buffer: the cells
    [(k, tz, tr)] receive the cells [(row, tr)] of the arrays [comps]. *)
Definition copy_thread (comps : list array2) (copy : bool) (w : Z) (Nr : nat)
    (row : nat -> nat) (thread : nat * nat) (buffer : array3) : array3 :=
  let '(tz, tr) := thread in
  if (in_guard w Nr thread && copy)%bool then
    fold_left (fun b k => set3 b k tz tr (cell_of comps k (row tz) tr))
      (seq 0 (length comps)) buffer
  else buffer.

(** What a thread of a damping kernel does to a field: the cell
    [(row tz, tr)] is multiplied by the factor number [tz]. *)
Definition damp_thread (damp_array : list R) (n : Z) (Nr : nat)
    (row : nat -> nat) (thread : nat * nat) (k : nat) (g : array2)
  : array2 :=
  let '(tz, tr) := thread in
  if in_guard n Nr thread then
    modify2 g (row tz) tr (fun u => Cmul u (RtoC (nth tz damp_array 0)))
  else g.

(** All the arrays of a list have the shape [(Nz, Nr)]. *)
Definition all_shaped (Nz Nr : nat) (l : list array2) : Prop :=
  Forall (fun g => shape2 g = (Nz, Nr)) l.

(** A buffer has room for [n] arrays of [w] rows of [Nr] cells. *)
Definition has_room (buffer : array3) (n : nat) (w : Z) (Nr : nat) : Prop :=
  (n <= fst (fst (shape3 buffer)))%nat /\
  (w <= Z.of_nat (snd (fst (shape3 buffer))))%Z /\
  (Nr <= snd (shape3 buffer))%nat.

(** A change [f] made to every array of a list, [f] knowing the number of
    the array. *)
Definition map_indexed (f : nat -> array2 -> array2) (l : list array2)
  : list array2 :=
  map (fun kg => f (fst kg) (snd kg)) (combine (seq 0 (length l)) l).

(** What a launch of a replacing ([f u v = v]) or adding ([f u v = u + v])
    kernel over [threads] makes of the arrays [before]: every thread of the
    launch that passes the guard has written its cell at the left end, its
    cell at the right end, or both, according to the flags; a cell that is
    the cell of no such thread is as it was. *)
Definition exchanged (f : Cplx -> Cplx -> Cplx)
    (buffer_l buffer_r : array3) (copy_left copy_right : bool) (w : Z)
    (Nz Nr : nat) (threads : list (nat * nat))
    (before after : list array2) : Prop :=
  all_shaped Nz Nr after /\
  (forall k tz tr,
     (k < length before)%nat -> In (tz, tr) threads ->
     in_guard w Nr (tz, tr) = true ->
     (copy_left = true ->
      cell_of after k tz tr
      = f (cell_of before k tz tr) (cell3 buffer_l k tz tr)) /\
     (copy_right = true ->
      cell_of after k (row_right Nz w tz) tr
      = f (cell_of before k (row_right Nz w tz) tr)
          (cell3 buffer_r k tz tr))) /\
  (forall k p q,
     (copy_left = true -> In (p, q) threads ->
      in_guard w Nr (p, q) = false) ->
     (copy_right = true ->
      forall tz, In (tz, q) threads -> in_guard w Nr (tz, q) = true ->
                 row_right Nz w tz <> p) ->
     cell_of after k p q = cell_of before k p q).

(** What a launch of a copying kernel over [threads] makes of the buffer
    [before]: with the flag [copy], every thread of the launch that passes
    the guard has copied its cell of each of the arrays [comps]; the other
    cells are as they were. *)
Definition copied (comps : list array2) (copy : bool) (w : Z) (Nr : nat)
    (row : nat -> nat) (threads : list (nat * nat))
    (before after : array3) : Prop :=
  shape3 after = shape3 before /\
  (forall k tz tr,
     copy = true -> (k < length comps)%nat -> In (tz, tr) threads ->
     in_guard w Nr (tz, tr) = true ->
     cell3 after k tz tr = cell_of comps k (row tz) tr) /\
  (forall k p q,
     ~ (copy = true /\ (k < length comps)%nat /\ In (p, q) threads /\
        in_guard w Nr (p, q) = true) ->
     cell3 after k p q = cell3 before k p q).

(** What a launch of a damping kernel over [threads] makes of the fields
    [before]: every thread of the launch that passes the guard has
    multiplied its cell, in the row [row tz], by the factor number [tz];
    the other cells are as they were. *)
Definition damped (damp_array : list R) (n : Z) (Nz Nr : nat)
    (row : nat -> nat) (threads : list (nat * nat))
    (before after : list array2) : Prop :=
  all_shaped Nz Nr after /\
  (forall k tz tr,
     (k < length before)%nat -> In (tz, tr) threads ->
     in_guard n Nr (tz, tr) = true ->
     cell_of after k (row tz) tr
     = Cmul (cell_of before k (row tz) tr) (RtoC (nth tz damp_array 0))) /\
  (forall k p q,
     (forall tz, In (tz, q) threads -> in_guard n Nr (tz, q) = true ->
                 row tz <> p) ->
     cell_of after k p q = cell_of before k p q).

End Boundaries.

(** ** Example inputs *)

(** A grid of four by four cells of unit size starting at the origin. *)
Definition geometry_4x4 : geometry :=
  {| invdz := 1; zmin := 0; Nz := 4; invdr := 1; rmin := 0; Nr := 4 |}.

(** A grid of [nz] by [nr] cells holding the same value. *)
Definition uniform_grid (nz nr : nat) (v : Cplx) : grid :=
  repeat (repeat v nr) nz.

(** [Er] of mode 0 is 2 everywhere, all other components are zero. *)
Definition grids_Er2 : EB_grids :=
  let zero := uniform_grid 4 4 (RtoC 0) in
  {| Er_m0 := uniform_grid 4 4 (RtoC 2); Et_m0 := zero; Ez_m0 := zero;
     Er_m1 := zero; Et_m1 := zero; Ez_m1 := zero;
     Br_m0 := zero; Bt_m0 := zero; Bz_m0 := zero;
     Br_m1 := zero; Bt_m1 := zero; Bz_m1 := zero |}.

(** One particle on the axis, more than one period below the grid:
    [z_cell = -6]. *)
Definition particle_below : particles :=
  {| ptcl_x := [0]; ptcl_y := [0]; ptcl_z := [-5.5] |}.

Definition EB_out_1 : EB_out :=
  {| Ex := [7]; Ey := [7]; Ez := [7]; Bx := [7]; By := [7]; Bz := [7] |}.

(** One particle at radius 5, in the middle of the first axial cell. *)
Definition particle_3_4 : particles :=
  {| ptcl_x := [3]; ptcl_y := [4]; ptcl_z := [0.5] |}.

(** An envelope with the mode 0 only, of amplitude [sqrt 3] everywhere and
    of zero gradient. *)
Definition envelope_sqrt3 : envelope_grids :=
  let zero := uniform_grid 4 4 (RtoC 0) in
  {| a := [uniform_grid 4 4 (RtoC (sqrt 3))];
     grad_a_r := [zero]; grad_a_t := [zero]; grad_a_z := [zero] |}.

(** Particle envelope arrays with the stored intensity [v]. *)
Definition envelope_out_of (v : R) : envelope_out :=
  {| a2 := [v]; grad_a2_x := [9]; grad_a2_y := [9]; grad_a2_z := [9] |}.

(** Two particles at radius 2, in the middle of the grid. *)
Definition particles_2 : particles :=
  {| ptcl_x := [2; 0]; ptcl_y := [0; 2]; ptcl_z := [2; 2] |}.

Definition EB_out_2 : EB_out :=
  {| Ex := [7; 7]; Ey := [7; 7]; Ez := [7; 7];
     Bx := [7; 7]; By := [7; 7]; Bz := [7; 7] |}.

(** One particle whose [y] coordinate is missing. *)
Definition particle_short : particles :=
  {| ptcl_x := [0]; ptcl_y := []; ptcl_z := [0] |}.

(** Envelope arrays of two particles with the stored intensity [v]. *)
Definition envelope_out_2 (v : R) : envelope_out :=
  {| a2 := [v; v]; grad_a2_x := [9; 9]; grad_a2_y := [9; 9];
     grad_a2_z := [9; 9] |}.

(** Stand-ins for the two inline functions in the examples: the amplitude
    is the x component of the electric field, the probability is the
    amplitude. *)
Definition amplitude_Ex (ux uy uz Ex Ey Ez cBx cBy cBz : R) : R := Ex.

Definition probability_E (E prefactor power exp_prefactor : R) : R := E.

(** Two ions in a field of amplitude one, with the random draw [draw]. *)
Definition ion_inputs_2 (draw : R) : Ionization.ion_inputs :=
  {| Ionization.random_draw := [draw; draw];
     Ionization.adk_prefactor := [1]; Ionization.adk_power := [1];
     Ionization.adk_exp_prefactor := [1];
     Ionization.ux := [0; 0]; Ionization.uy := [0; 0];
     Ionization.uz := [0; 0];
     Ionization.Ex := [1; 1]; Ionization.Ey := [0; 0];
     Ionization.Ez := [0; 0];
     Ionization.Bx := [0; 0]; Ionization.By := [0; 0];
     Ionization.Bz := [0; 0];
     Ionization.neutral_weight := [2; 2] |}.

(** The two ions before the call: the first is neutral, the second has
    lost one electron. *)
Definition ion_state_2 : Ionization.ion_state :=
  {| Ionization.n_ionized := [7; 7]%Z; Ionization.is_ionized := [7; 7]%Z;
     Ionization.ionization_level := [0; 1]%Z; Ionization.w := [0; 2] |}.

(** The two ions with no counter of batches. *)
Definition ion_state_no_counter : Ionization.ion_state :=
  {| Ionization.n_ionized := []; Ionization.is_ionized := [7; 7]%Z;
     Ionization.ionization_level := [0; 1]%Z; Ionization.w := [0; 2] |}.

(** Arrays of one value. *)
Definition constant2 (Nz Nr : nat) (v : Cplx) : Boundaries.array2 :=
  {| Boundaries.shape2 := (Nz, Nr); Boundaries.cell2 := fun _ _ => v |}.

Definition constant3 (n w Nr : nat) (v : Cplx) : Boundaries.array3 :=
  {| Boundaries.shape3 := (n, w, Nr); Boundaries.cell3 := fun _ _ _ => v |}.

(** Grids of three rows of one cell holding one, for a vector field, a
    scalar field and the fields [E] and [B]. *)
Definition vec_grids_3x1 : Boundaries.vec_grids :=
  {| Boundaries.grid_0_r := constant2 3 1 (RtoC 1);
     Boundaries.grid_0_t := constant2 3 1 (RtoC 1);
     Boundaries.grid_0_z := constant2 3 1 (RtoC 1);
     Boundaries.grid_1_r := constant2 3 1 (RtoC 1);
     Boundaries.grid_1_t := constant2 3 1 (RtoC 1);
     Boundaries.grid_1_z := constant2 3 1 (RtoC 1) |}.

Definition scal_grids_3x1 : Boundaries.scal_grids :=
  {| Boundaries.grid_0 := constant2 3 1 (RtoC 1);
     Boundaries.grid_1 := constant2 3 1 (RtoC 1) |}.

Definition EB_fields_3x1 : Boundaries.EB_fields :=
  {| Boundaries.Er := constant2 3 1 (RtoC 1);
     Boundaries.Et := constant2 3 1 (RtoC 1);
     Boundaries.Ez := constant2 3 1 (RtoC 1);
     Boundaries.Br := constant2 3 1 (RtoC 1);
     Boundaries.Bt := constant2 3 1 (RtoC 1);
     Boundaries.Bz := constant2 3 1 (RtoC 1) |}.

(** A launch of two threads; with buffers of one row the thread [(1, 0)]
    does not pass the guard. *)
Definition threads_2 : list (nat * nat) := [(1, 0); (0, 0)]%nat.

(** The fields of mode 0 are uniform, [(Er, Et, Ez) = (5, 10, 1)] and
    [(Br, Bt, Bz) = (10, 5, 2)]; the fields of mode 1 are zero. *)
Definition grids_EB_m0 : EB_grids :=
  let zero := uniform_grid 4 4 (RtoC 0) in
  {| Er_m0 := uniform_grid 4 4 (RtoC 5); Et_m0 := uniform_grid 4 4 (RtoC 10);
     Ez_m0 := uniform_grid 4 4 (RtoC 1);
     Er_m1 := zero; Et_m1 := zero; Ez_m1 := zero;
     Br_m0 := uniform_grid 4 4 (RtoC 10); Bt_m0 := uniform_grid 4 4 (RtoC 5);
     Bz_m0 := uniform_grid 4 4 (RtoC 2);
     Br_m1 := zero; Bt_m1 := zero; Bz_m1 := zero |}.

(** An envelope with the modes 0, 1 and -1, stored at the indices 0, 1 and
    2 (that is, -1), on uniform grids: the amplitude is 1 in the mode 0 and
    [5 i] in the mode -1; the gradient is [(5, 10, 1)] in the mode 0 and
    [(0, 0, i)] in the mode -1; the mode 1 is zero. *)
Definition envelope_modes_3 : envelope_grids :=
  let zero := uniform_grid 4 4 (RtoC 0) in
  {| a := [uniform_grid 4 4 (RtoC 1); zero; uniform_grid 4 4 (mkC 0 5)];
     grad_a_r := [uniform_grid 4 4 (RtoC 5); zero; zero];
     grad_a_t := [uniform_grid 4 4 (RtoC 10); zero; zero];
     grad_a_z := [uniform_grid 4 4 (RtoC 1); zero;
                  uniform_grid 4 4 (mkC 0 1)] |}.

Definition modes_3 : list Z := [0; 1; -1]%Z.

(** * Properties *)

(** ** Arithmetic lemmas *)

Lemma math_floor_spec (v : R) :
  IZR (math_floor v) <= v < IZR (math_floor v) + 1.
Proof.
  unfold math_floor. destruct (base_Int_part v) as [H1 H2]. lra.
Qed.

Lemma math_floor_unique (v : R) (n : Z) :
  IZR n <= v < IZR n + 1 -> math_floor v = n.
Proof.
  intros [H1 H2]. unfold math_floor. symmetry. apply Int_part_spec. lra.
Qed.

(** Tactics: the value of a floor, the cases of integer tests, equality of
    tuples component by component. *)
Ltac eval_floor n :=
  symmetry; apply (math_floor_unique _ n); simpl; lra.

Ltac case_Z_tests :=
  repeat match goal with
    | |- context [(?u <? ?v)%Z] => destruct (Z.ltb_spec u v)
    | |- context [(?u >? ?v)%Z] => rewrite (Z.gtb_ltb u v)
    | |- context [(?u <=? ?v)%Z] => destruct (Z.leb_spec u v)
    | |- context [(?u =? ?v)%Z] => destruct (Z.eqb_spec u v)
    end.

Ltac split_pairs :=
  repeat match goal with |- (_, _) = (_, _) => apply f_equal2 end.

Lemma Cplx_eq (u v : Cplx) : real u = real v -> imag u = imag v -> u = v.
Proof. destruct u, v; simpl; intros -> ->; reflexivity. Qed.

Lemma exptheta_base_eq (cos sin : R) : exptheta_base cos sin = mkC cos (- sin).
Proof. apply Cplx_eq; simpl; ring. Qed.

Lemma Cmul_RtoC (c : R) (u : Cplx) : Cmul (RtoC c) u = Cscale c u.
Proof. apply Cplx_eq; simpl; ring. Qed.

Lemma real_a2_of (F : Cplx) :
  real (Cmul F (conjugate F)) = real F * real F + imag F * imag F.
Proof. simpl; ring. Qed.

(** ** Cylindrical conversion *)

Lemma cylindrical_conversion_axis (xj yj : R) :
  sqrt (xj ^ 2 + yj ^ 2) = 0 ->
  cylindrical_conversion xj yj = (sqrt (xj ^ 2 + yj ^ 2), 1, 0).
Proof.
  intros H. unfold cylindrical_conversion.
  destruct (Req_dec_T (sqrt (xj ^ 2 + yj ^ 2)) 0) as [_ | Hn]; [reflexivity | contradiction].
Qed.

Lemma cylindrical_conversion_off_axis (xj yj : R) :
  sqrt (xj ^ 2 + yj ^ 2) <> 0 ->
  cylindrical_conversion xj yj =
  (sqrt (xj ^ 2 + yj ^ 2),
   xj * (1 / sqrt (xj ^ 2 + yj ^ 2)), yj * (1 / sqrt (xj ^ 2 + yj ^ 2))).
Proof.
  intros H. unfold cylindrical_conversion.
  destruct (Req_dec_T (sqrt (xj ^ 2 + yj ^ 2)) 0) as [He | _]; [contradiction | reflexivity].
Qed.

(** C3. In every kernel the cylindrical conversion of a particle at
    [(xj, yj)] yields [cos = 1] and [sin = 0] when the radius
    [sqrt (xj^2 + yj^2)] is zero, without dividing by the radius, and
    [cos = xj / r], [sin = yj / r] for a radius [r] that is not zero. *)
Theorem cylindrical_conversion_convention (xj yj : R) :
  let r := sqrt (xj ^ 2 + yj ^ 2) in
  (r = 0 -> cylindrical_conversion xj yj = (r, 1, 0)) /\
  (r <> 0 -> cylindrical_conversion xj yj = (r, xj / r, yj / r)).
Proof.
  intros r; subst r; split; intros H.
  - apply cylindrical_conversion_axis, H.
  - rewrite (cylindrical_conversion_off_axis _ _ H).
    f_equal; [f_equal |]; field; exact H.
Qed.

Lemma sqrt_3_4 : sqrt (3 ^ 2 + 4 ^ 2) = 5.
Proof.
  replace (3 ^ 2 + 4 ^ 2) with (5 * 5) by ring.
  apply sqrt_square; lra.
Qed.

Lemma sqrt_0_0 : sqrt (0 ^ 2 + 0 ^ 2) = 0.
Proof. replace (0 ^ 2 + 0 ^ 2) with 0 by ring. apply sqrt_0. Qed.

Lemma cylindrical_conversion_convention_witness :
  cylindrical_conversion 0 0 = (0, 1, 0) /\
  cylindrical_conversion 3 4 = (5, 3 / 5, 4 / 5).
Proof.
  destruct (cylindrical_conversion_convention 0 0) as [H0 _].
  destruct (cylindrical_conversion_convention 3 4) as [_ H1].
  cbv zeta in H0, H1. rewrite sqrt_0_0 in H0. rewrite sqrt_3_4 in H1.
  split.
  - apply H0; reflexivity.
  - apply H1; lra.
Defined.

(** ** Shape factors *)


(** ** Arrays *)

Lemma bind_Ok {A B : Type} (m : result A) (k : A -> result B) (b : B) :
  bind m k = Ok b -> exists v, m = Ok v /\ k v = Ok b.
Proof. destruct m as [v |]; simpl; intros H; [eauto | discriminate]. Qed.

Lemma norm_index_nonneg (len i : Z) :
  (0 <= i)%Z ->
  norm_index len i = if (i <? len)%Z then Ok (Z.to_nat i) else IndexError.
Proof.
  intros Hi. unfold norm_index.
  destruct (Z.leb_spec 0 i); [| lia].
  destruct (Z.ltb_spec i len); simpl; [reflexivity |].
  destruct (Z.ltb_spec i 0); [lia |]. rewrite andb_false_r. reflexivity.
Qed.

Lemma norm_index_bound (len i : Z) (k : nat) :
  norm_index len i = Ok k -> (Z.of_nat k < len)%Z.
Proof.
  unfold norm_index.
  destruct (Z.leb_spec 0 i), (Z.ltb_spec i len); simpl;
    try (intros [= <-]; lia);
    destruct (Z.leb_spec (- len) i), (Z.ltb_spec i 0); simpl;
    try discriminate; intros [= <-]; lia.
Qed.

Lemma length_update {A : Type} (l : list A) (k : nat) (v : A) :
  length (update l k v) = length l.
Proof.
  revert k; induction l as [| h t IH]; intros [| k]; simpl; auto.
Qed.

Lemma nth_error_update_same {A : Type} (l : list A) (k : nat) (v : A) :
  (k < length l)%nat -> nth_error (update l k v) k = Some v.
Proof.
  revert k; induction l as [| h t IH]; intros [| k]; simpl; intros H;
    try lia; [reflexivity | apply IH; lia].
Qed.

Lemma nth_error_update_other {A : Type} (l : list A) (k k' : nat) (v : A) :
  k <> k' -> nth_error (update l k v) k' = nth_error l k'.
Proof.
  revert k k'; induction l as [| h t IH]; intros [| k] [| k']; simpl;
    intros H; try reflexivity; try congruence.
  apply IH; congruence.
Qed.

Lemma update_comm {A : Type} (l : list A) (k k' : nat) (v v' : A) :
  k <> k' ->
  update (update l k v) k' v' = update (update l k' v') k v.
Proof.
  revert k k'; induction l as [| h t IH]; intros [| k] [| k']; simpl;
    intros H; try reflexivity; try congruence.
  f_equal; apply IH; congruence.
Qed.

Lemma getitem_setitem_same {A : Type} (l l' : list A) (i : Z) (v : A) :
  setitem l i v = Ok l' -> getitem l' i = Ok v.
Proof.
  unfold setitem, getitem. intros H; apply bind_Ok in H as (k & Hk & [= <-]).
  rewrite length_update, Hk; simpl.
  rewrite nth_error_update_same; [reflexivity |].
  apply norm_index_bound in Hk; lia.
Qed.

Lemma setitem_nonneg {A : Type} (l : list A) (i : Z) (v : A) :
  (0 <= i)%Z ->
  setitem l i v =
  if (i <? Z.of_nat (length l))%Z then Ok (update l (Z.to_nat i) v)
  else IndexError.
Proof.
  intros Hi. unfold setitem. rewrite norm_index_nonneg by assumption.
  destruct (i <? Z.of_nat (length l))%Z; reflexivity.
Qed.

Lemma getitem_nonneg {A : Type} (l : list A) (i : Z) :
  (0 <= i)%Z ->
  getitem l i =
  match nth_error l (Z.to_nat i) with Some v => Ok v | None => IndexError end.
Proof.
  intros Hi. unfold getitem. rewrite norm_index_nonneg by assumption.
  destruct (Z.ltb_spec i (Z.of_nat (length l))); simpl; [reflexivity |].
  destruct (nth_error l (Z.to_nat i)) eqn:E; [| reflexivity].
  assert (Hs : nth_error l (Z.to_nat i) <> None) by congruence.
  apply nth_error_Some in Hs. lia.
Qed.

Lemma getitem_setitem_other {A : Type} (l l' : list A) (i j : Z) (v : A) :
  (0 <= i)%Z -> (0 <= j)%Z -> i <> j ->
  setitem l i v = Ok l' -> getitem l' j = getitem l j.
Proof.
  intros Hi Hj Hij H. rewrite setitem_nonneg in H by assumption.
  destruct (i <? Z.of_nat (length l))%Z; [| discriminate].
  injection H as <-. rewrite !getitem_nonneg by assumption.
  rewrite nth_error_update_other; [reflexivity | lia].
Qed.

Lemma setitem_in_range {A : Type} (l : list A) (i : Z) (v : A) :
  (0 <= i < Z.of_nat (length l))%Z ->
  setitem l i v = Ok (update l (Z.to_nat i) v).
Proof.
  intros [H0 H1]. rewrite setitem_nonneg by assumption.
  destruct (Z.ltb_spec i (Z.of_nat (length l))); [reflexivity | lia].
Qed.

(** ** Linear shape: boundary treatment *)



Lemma z_cell_4x4 (zj : R) : z_cell_of geometry_4x4 zj = zj - 0.5.
Proof. unfold z_cell_of; simpl; lra. Qed.

Lemma r_cell_4x4 (rj : R) : r_cell_of geometry_4x4 rj = rj - 0.5.
Proof. unfold r_cell_of; simpl; lra. Qed.

Lemma guard_lower_r_below (r_cell z_cell : R) :
  (math_floor r_cell < 0)%Z ->
  let s := guard_lower_r (linear_weights r_cell z_cell) in
  ir_lower s = 0%Z /\ Sr_lower s = 0 /\
  Sr_guard s = IZR (math_floor r_cell + 1) - r_cell.
Proof.
  intros H. unfold guard_lower_r. simpl.
  destruct (Z.ltb_spec (math_floor r_cell) 0); [| lia].
  simpl. auto.
Qed.

Lemma linear_stencil_radial (G : geometry) (rj zj : R) :
  let s0 := guard_lower_r (linear_weights (r_cell_of G rj) (z_cell_of G zj)) in
  let s := linear_stencil G rj zj in
  ir_lower s = (if (ir_lower s0 >? Nr G - 1)%Z then (Nr G - 1)%Z else ir_lower s0) /\
  ir_upper s = (if (ir_upper s0 >? Nr G - 1)%Z then (Nr G - 1)%Z else ir_upper s0) /\
  Sr_lower s = Sr_lower s0 /\ Sr_upper s = Sr_upper s0 /\
  Sr_guard s = Sr_guard s0 /\
  Sz_lower s = Sz_lower s0 /\ Sz_upper s = Sz_upper s0.
Proof.
  cbv zeta. unfold linear_stencil, linear_boundaries, periodic_z,
    absorbing_upper_r. simpl. repeat split; reflexivity.
Qed.

(** C2. For a particle whose lower radial index [floor r_cell] is
    negative, the boundary treatment of the linear gather clamps the lower
    index to [0] (it stays [0] through the treatment of the outer edge as
    soon as [Nr >= 1]) and sets its weight to zero; the weight that was
    computed for it is kept aside as the guard weight, and the accumulator
    discards it: the stencil sum holds the two upper radial points only, and
    the accumulated field does not depend on the guard weights. *)
Theorem linear_guard_weight_discarded (G : geometry) (rj zj : R) :
  let f := math_floor (r_cell_of G rj) in
  let s0 := guard_lower_r (linear_weights (r_cell_of G rj) (z_cell_of G zj)) in
  let s := linear_stencil G rj zj in
  (f < 0)%Z ->
  ir_lower s0 = 0%Z /\ ((1 <= Nr G)%Z -> ir_lower s = 0%Z) /\
  Sr_lower s = 0 /\
  Sr_guard s = IZR (f + 1) - r_cell_of G rj /\
  S_ll s = 0 /\ S_ul s = 0 /\
  (forall g v g_lu g_uu,
     InlineFunctions.linear_stencil_sum g (iz_lower s) (iz_upper s)
       (ir_lower s) (ir_upper s) (S_ll s) (S_lu s) (S_ul s) (S_uu s) = Ok v ->
     grid_at g (iz_lower s) (ir_upper s) = Ok g_lu ->
     grid_at g (iz_upper s) (ir_upper s) = Ok g_uu ->
     v = Cadd (Cscale (S_lu s) g_lu) (Cscale (S_uu s) g_uu)) /\
  (forall m Fr Ft Fz exptheta_m Fr_grid Ft_grid Fz_grid w_lg w_ug,
     InlineFunctions.add_linear_gather_for_mode m Fr Ft Fz exptheta_m
       Fr_grid Ft_grid Fz_grid (iz_lower s) (iz_upper s) (ir_lower s)
       (ir_upper s) (S_ll s) (S_lu s) (S_lg s) (S_ul s) (S_uu s) (S_ug s) =
     InlineFunctions.add_linear_gather_for_mode m Fr Ft Fz exptheta_m
       Fr_grid Ft_grid Fz_grid (iz_lower s) (iz_upper s) (ir_lower s)
       (ir_upper s) (S_ll s) (S_lu s) w_lg (S_ul s) (S_uu s) w_ug).
Proof.
  intros f s0 s Hf.
  destruct (linear_stencil_radial G rj zj) as (Hl & _ & Hw & _ & Hg & _).
  destruct (guard_lower_r_below (r_cell_of G rj) (z_cell_of G zj) Hf)
    as (H0 & Hw0 & Hg0).
  cbv zeta in Hl, Hw, Hg, H0, Hw0, Hg0. fold s in Hl, Hw, Hg.
  rewrite H0 in Hl. rewrite Hw0 in Hw. rewrite Hg0 in Hg. fold f in Hg.
  assert (Hll : S_ll s = 0) by (unfold S_ll; rewrite Hw; ring).
  assert (Hul : S_ul s = 0) by (unfold S_ul; rewrite Hw; ring).
  split; [exact H0 |]. split.
  { intros HN. rewrite Hl, Z.gtb_ltb.
    destruct (Z.ltb_spec (Nr G - 1) 0); [lia | reflexivity]. }
  split; [exact Hw |]. split; [exact Hg |].
  split; [exact Hll |]. split; [exact Hul |]. split.
  - intros g v g_lu g_uu Hsum Hlu Huu.
    unfold InlineFunctions.linear_stencil_sum in Hsum.
    rewrite Hlu, Huu in Hsum.
    apply bind_Ok in Hsum as (g_ll & _ & Hsum). simpl in Hsum.
    apply bind_Ok in Hsum as (g_ul & _ & Hsum). simpl in Hsum.
    injection Hsum as <-. rewrite Hll, Hul.
    apply Cplx_eq; simpl; ring.
  - reflexivity.
Qed.

Lemma linear_guard_weight_discarded_witness :
  let s := linear_stencil geometry_4x4 0 1 in
  ir_lower s = 0%Z /\ Sr_lower s = 0 /\ Sr_guard s = 0.5 /\
  S_ll s = 0 /\ S_ul s = 0.
Proof.
  pose proof (linear_guard_weight_discarded geometry_4x4 0 1) as H.
  cbv zeta in H. rewrite r_cell_4x4 in H.
  replace (math_floor (0 - 0.5)) with (-1)%Z in H by eval_floor (-1)%Z.
  destruct H as (_ & H1 & H2 & H3 & H4 & H5 & _); [lia |].
  repeat split; try assumption.
  - apply H1. simpl; lia.
  - rewrite H3. simpl. lra.
Defined.

(** ** The loop bodies: gather, then write *)

Lemma gather_field_linear_body_eq (add_linear : linear_gather_for_mode)
    (P : particles) (G : geometry) (M : EB_grids) (i : Z) (o : EB_out) :
  gather_field_linear_body add_linear P G M i o =
  ('(xj, yj, zj) <- position P i ;;
   v <- gather_field_linear_values add_linear G M xj yj zj ;;
   write_EB i v o).
Proof.
  unfold gather_field_linear_body, position, gather_field_linear_values.
  destruct (getitem (ptcl_x P) i) as [xj |]; simpl; [| reflexivity].
  destruct (getitem (ptcl_y P) i) as [yj |]; simpl; [| reflexivity].
  destruct (getitem (ptcl_z P) i) as [zj |]; simpl; [| reflexivity].
  destruct (cylindrical_conversion xj yj) as [[rj cos] sin].
  destruct (linear_modes add_linear _ _ _ (Er_m0 M) _ _ _ _ _)
    as [[[Er Et] Ez'] |]; simpl; [| reflexivity].
  destruct (linear_modes add_linear _ _ _ (Br_m0 M) _ _ _ _ _)
    as [[[Br Bt] Bz'] |]; simpl.
  - reflexivity.
  - repeat match goal with
      | |- context [setitem ?l ?j ?w] => destruct (setitem l j w); simpl
      end; reflexivity.
Qed.

Lemma write_EB_in_range (i : Z) (v : R * R * R * (R * R * R)) (o : EB_out) :
  in_range_EB i o ->
  write_EB i v o =
  let '(vEx, vEy, vEz, (vBx, vBy, vBz)) := v in
  Ok {| Ex := update (Ex o) (Z.to_nat i) vEx;
        Ey := update (Ey o) (Z.to_nat i) vEy;
        Ez := update (Ez o) (Z.to_nat i) vEz;
        Bx := update (Bx o) (Z.to_nat i) vBx;
        By := update (By o) (Z.to_nat i) vBy;
        Bz := update (Bz o) (Z.to_nat i) vBz |}.
Proof.
  intros (H0 & H1 & H2 & H3 & H4 & H5 & H6).
  destruct v as [[[vEx vEy] vEz] [[vBx vBy] vBz]]. unfold write_EB.
  rewrite !setitem_in_range by lia. reflexivity.
Qed.

Lemma linear_stencil_below :
  linear_stencil geometry_4x4 0 (-5.5) =
  {| ir_lower := 0; ir_upper := 0; iz_lower := -2; iz_upper := -1;
     Sr_lower := 0; Sr_upper := 0.5; Sz_lower := 1; Sz_upper := 0;
     Sr_guard := 0.5 |}.
Proof.
  unfold linear_stencil, linear_weights.
  rewrite r_cell_4x4, z_cell_4x4.
  replace (math_floor (0 - 0.5)) with (-1)%Z by eval_floor (-1)%Z.
  replace (math_floor (-5.5 - 0.5)) with (-6)%Z by eval_floor (-6)%Z.
  unfold linear_boundaries, periodic_z, absorbing_upper_r, guard_lower_r,
    set_iz, set_ir.
  simpl. f_equal; lra.
Qed.

Lemma gather_field_linear_values_below :
  gather_field_linear_values InlineFunctions.add_linear_gather_for_mode
    geometry_4x4 grids_Er2 0 0 (-5.5) = Ok (1, 0, 0, (0, 0, 0)).
Proof.
  unfold gather_field_linear_values.
  rewrite (cylindrical_conversion_axis 0 0 sqrt_0_0), sqrt_0_0.
  rewrite linear_stencil_below.
  unfold linear_modes, InlineFunctions.add_linear_gather_for_mode,
    InlineFunctions.linear_stencil_sum, S_ll, S_lu, S_ul, S_uu.
  simpl. f_equal. split_pairs; lra.
Qed.

(** ** Writing the gathered values *)

Lemma write_EB_Ok (i : Z) (vEx vEy vEz vBx vBy vBz : R) (o o' : EB_out) :
  write_EB i (vEx, vEy, vEz, (vBx, vBy, vBz)) o = Ok o' ->
  getitem (Ex o') i = Ok vEx /\ getitem (Ey o') i = Ok vEy /\
  getitem (Ez o') i = Ok vEz /\ getitem (Bx o') i = Ok vBx /\
  getitem (By o') i = Ok vBy /\ getitem (Bz o') i = Ok vBz.
Proof.
  unfold write_EB. intros H.
  apply bind_Ok in H as (l1 & H1 & H).
  apply bind_Ok in H as (l2 & H2 & H).
  apply bind_Ok in H as (l3 & H3 & H).
  apply bind_Ok in H as (l4 & H4 & H).
  apply bind_Ok in H as (l5 & H5 & H).
  apply bind_Ok in H as (l6 & H6 & H).
  injection H as <-. simpl.
  repeat split; eapply getitem_setitem_same; eassumption.
Qed.

Lemma cubic_shape_factors_eq (S : list R) (local : R) :
  length S = 4%nat -> cubic_shape_factors S local = Ok (cubic_weights local).
Proof.
  destruct S as [| s0 [| s1 [| s2 [| s3 [| s4 S]]]]]; try discriminate.
  intros _. reflexivity.
Qed.

Lemma gather_field_cubic_body_eq (add_cubic : cubic_gather_for_mode)
    (P : particles) (G : geometry) (M : EB_grids) (i : Z)
    (Sr Sz : list R) (o : EB_out) :
  length Sr = 4%nat -> length Sz = 4%nat ->
  gather_field_cubic_body add_cubic P G M i (Sr, Sz, o) =
  ('(xj, yj, zj) <- position P i ;;
   v <- gather_field_cubic_values add_cubic G M xj yj zj ;;
   o' <- write_EB i v o ;;
   Ok (fst (cubic_scratch G xj yj zj), snd (cubic_scratch G xj yj zj), o')).
Proof.
  intros Hr Hz.
  unfold gather_field_cubic_body, position, gather_field_cubic_values,
    cubic_scratch.
  destruct (getitem (ptcl_x P) i) as [xj |]; simpl; [| reflexivity].
  destruct (getitem (ptcl_y P) i) as [yj |]; simpl; [| reflexivity].
  destruct (getitem (ptcl_z P) i) as [zj |]; simpl; [| reflexivity].
  destruct (cylindrical_conversion xj yj) as [[rj cos] sin].
  rewrite (cubic_shape_factors_eq Sr _ Hr). simpl.
  rewrite (cubic_shape_factors_eq Sz _ Hz). simpl.
  destruct (cubic_modes add_cubic _ _ _ _ _ _ _ (Er_m0 M) _ _ _ _ _)
    as [[[Er Et] Ez'] |]; simpl; [| reflexivity].
  destruct (cubic_modes add_cubic _ _ _ _ _ _ _ (Br_m0 M) _ _ _ _ _)
    as [[[Br Bt] Bz'] |]; simpl.
  - repeat match goal with
      | |- context [setitem ?l ?j ?w] => destruct (setitem l j w); simpl
      end; reflexivity.
  - repeat match goal with
      | |- context [setitem ?l ?j ?w] => destruct (setitem l j w); simpl
      end; reflexivity.
Qed.

Lemma envelope_register_gradient (average_a2 : bool) (cos sin : R)
    (F Fr Ft Fz : Cplx) (i : Z) (o o' : envelope_out) :
  envelope_register true average_a2 cos sin F Fr Ft Fz i o = Ok o' ->
  envelope_gradient_at o' i cos sin F Fr Ft Fz.
Proof.
  unfold envelope_register. intros H.
  apply bind_Ok in H as ([[gx gy] gz] & Hg & H).
  apply bind_Ok in H as (a2' & _ & H). injection H as <-.
  apply bind_Ok in Hg as (lx & Hx & Hg).
  apply bind_Ok in Hg as (ly & Hy & Hg).
  apply bind_Ok in Hg as (lz & Hz & Hg).
  injection Hg as <- <- <-.
  apply getitem_setitem_same in Hx, Hy, Hz.
  unfold envelope_gradient_at. simpl grad_a2_x. simpl grad_a2_y.
  simpl grad_a2_z. rewrite <- !Cmul_RtoC. auto.
Qed.

Lemma envelope_register_no_gradient (average_a2 : bool) (cos sin : R)
    (F Fr Ft Fz : Cplx) (i : Z) (o o' : envelope_out) :
  envelope_register false average_a2 cos sin F Fr Ft Fz i o = Ok o' ->
  grad_a2_x o' = grad_a2_x o /\ grad_a2_y o' = grad_a2_y o /\
  grad_a2_z o' = grad_a2_z o.
Proof.
  unfold envelope_register. simpl. intros H.
  apply bind_Ok in H as (a2' & _ & H). injection H as <-. auto.
Qed.

Lemma envelope_register_a2 (gather_gradient average_a2 : bool) (cos sin : R)
    (F Fr Ft Fz : Cplx) (i : Z) (o o' : envelope_out) :
  envelope_register gather_gradient average_a2 cos sin F Fr Ft Fz i o = Ok o' ->
  if average_a2 then
    exists old,
      getitem (a2 o) i = Ok old /\
      getitem (a2 o') i = Ok (0.5 * (old + real (Cmul F (conjugate F))))
  else getitem (a2 o') i = Ok (real (Cmul F (conjugate F))).
Proof.
  unfold envelope_register. intros H.
  apply bind_Ok in H as ([[gx gy] gz] & _ & H).
  apply bind_Ok in H as (a2' & Ha & H). injection H as <-. simpl a2.
  destruct average_a2.
  - apply bind_Ok in Ha as (old & Hold & Ha). exists old. split; [exact Hold |].
    apply getitem_setitem_same in Ha. rewrite Ha. f_equal. simpl. ring.
  - apply getitem_setitem_same in Ha. exact Ha.
Qed.

Lemma gather_envelope_cubic_body_eq
    (add_cubic_envelope : cubic_envelope_gather_for_mode)
    (P : particles) (G : geometry) (A : envelope_grids) (m_array : list Z)
    (gather_gradient average_a2 : bool) (i : Z) (Sr Sz : list R)
    (o : envelope_out) :
  length Sr = 4%nat -> length Sz = 4%nat ->
  (st <- gather_envelope_cubic_body add_cubic_envelope P G A m_array
           gather_gradient average_a2 i (Sr, Sz, o) ;;
   Ok (length (fst (fst st)), length (snd (fst st)), snd st)) =
  ('(cos, sin, (F, Fr, Ft, Fz)) <-
     envelope_cubic_gathered add_cubic_envelope P G A m_array
       gather_gradient i ;;
   o' <- envelope_register gather_gradient average_a2 cos sin F Fr Ft Fz i o ;;
   Ok (4%nat, 4%nat, o')).
Proof.
  intros Hr Hz.
  unfold gather_envelope_cubic_body, envelope_cubic_gathered, position.
  destruct (getitem (ptcl_x P) i) as [xj |]; simpl; [| reflexivity].
  destruct (getitem (ptcl_y P) i) as [yj |]; simpl; [| reflexivity].
  destruct (getitem (ptcl_z P) i) as [zj |]; simpl; [| reflexivity].
  destruct (cylindrical_conversion xj yj) as [[rj cos] sin].
  rewrite (cubic_shape_factors_eq Sr _ Hr). simpl.
  rewrite (cubic_shape_factors_eq Sz _ Hz). simpl.
  destruct (envelope_cubic_modes _ _ _ _ _ _ _ _ _ _ _)
    as [[[[F Fr] Ft] Fz] |]; simpl; [| reflexivity].
  destruct (envelope_register _ _ _ _ _ _ _ _ _ _); reflexivity.
Qed.

Lemma gather_envelope_cubic_body_Ok
    (add_cubic_envelope : cubic_envelope_gather_for_mode)
    (P : particles) (G : geometry) (A : envelope_grids) (m_array : list Z)
    (gather_gradient average_a2 : bool) (i : Z) (Sr Sz Sr' Sz' : list R)
    (o o' : envelope_out) :
  length Sr = 4%nat -> length Sz = 4%nat ->
  gather_envelope_cubic_body add_cubic_envelope P G A m_array
    gather_gradient average_a2 i (Sr, Sz, o) = Ok (Sr', Sz', o') ->
  length Sr' = 4%nat /\ length Sz' = 4%nat /\
  exists cos sin F Fr Ft Fz,
    envelope_cubic_gathered add_cubic_envelope P G A m_array
      gather_gradient i = Ok (cos, sin, (F, Fr, Ft, Fz)) /\
    envelope_register gather_gradient average_a2 cos sin F Fr Ft Fz i o = Ok o'.
Proof.
  intros Hr Hz H.
  pose proof (gather_envelope_cubic_body_eq add_cubic_envelope P G A m_array
                gather_gradient average_a2 i Sr Sz o Hr Hz) as E.
  rewrite H in E. simpl in E. symmetry in E.
  apply bind_Ok in E as ([[cos sin] [[[F Fr] Ft] Fz]] & Hg & E).
  apply bind_Ok in E as (o1 & Ho & E). injection E as E1 E2 <-.
  repeat split; try congruence.
  exists cos, sin, F, Fr, Ft, Fz. auto.
Qed.

Lemma gather_envelope_linear_body_Ok
    (add_linear_envelope : linear_envelope_gather_for_mode)
    (P : particles) (G : geometry) (A : envelope_grids) (m_array : list Z)
    (gather_gradient average_a2 : bool) (i : Z) (o o' : envelope_out) :
  gather_envelope_linear_body add_linear_envelope P G A m_array
    gather_gradient average_a2 i o = Ok o' ->
  exists cos sin F Fr Ft Fz,
    envelope_linear_gathered add_linear_envelope P G A m_array
      gather_gradient i = Ok (cos, sin, (F, Fr, Ft, Fz)) /\
    envelope_register gather_gradient average_a2 cos sin F Fr Ft Fz i o = Ok o'.
Proof.
  unfold gather_envelope_linear_body. intros H.
  apply bind_Ok in H as ([[cos sin] [[[F Fr] Ft] Fz]] & Hg & H).
  exists cos, sin, F, Fr, Ft, Fz. auto.
Qed.

Lemma gather_field_linear_values_Ok (add_linear : linear_gather_for_mode)
    (G : geometry) (M : EB_grids) (xj yj zj : R)
    (v : R * R * R * (R * R * R)) :
  gather_field_linear_values add_linear G M xj yj zj = Ok v ->
  exists rj cos sin Er Et Ez_ Br Bt Bz_,
    cylindrical_conversion xj yj = (rj, cos, sin) /\
    linear_modes add_linear (linear_stencil G rj zj) (RtoC 1)
      (exptheta_base cos sin)
      (Er_m0 M) (Et_m0 M) (Ez_m0 M) (Er_m1 M) (Et_m1 M) (Ez_m1 M)
    = Ok (Er, Et, Ez_) /\
    linear_modes add_linear (linear_stencil G rj zj) (RtoC 1)
      (exptheta_base cos sin)
      (Br_m0 M) (Bt_m0 M) (Bz_m0 M) (Br_m1 M) (Bt_m1 M) (Bz_m1 M)
    = Ok (Br, Bt, Bz_) /\
    v = (cos * Er - sin * Et, sin * Er + cos * Et, Ez_,
         (cos * Br - sin * Bt, sin * Br + cos * Bt, Bz_)).
Proof.
  unfold gather_field_linear_values.
  destruct (cylindrical_conversion xj yj) as [[rj cos] sin]. intros H.
  apply bind_Ok in H as ([[Er Et] Ez_] & HE & H).
  apply bind_Ok in H as ([[Br Bt] Bz_] & HB & H).
  injection H as <-.
  exists rj, cos, sin, Er, Et, Ez_, Br, Bt, Bz_. auto.
Qed.

Lemma gather_field_cubic_values_Ok (add_cubic : cubic_gather_for_mode)
    (G : geometry) (M : EB_grids) (xj yj zj : R)
    (v : R * R * R * (R * R * R)) :
  gather_field_cubic_values add_cubic G M xj yj zj = Ok v ->
  exists rj cos sin Er Et Ez_ Br Bt Bz_,
    cylindrical_conversion xj yj = (rj, cos, sin) /\
    cubic_modes add_cubic G
      (cubic_lowest (r_cell_of G rj)) (cubic_lowest (z_cell_of G zj))
      (fst (cubic_scratch G xj yj zj)) (snd (cubic_scratch G xj yj zj))
      (RtoC 1) (exptheta_base cos sin)
      (Er_m0 M) (Et_m0 M) (Ez_m0 M) (Er_m1 M) (Et_m1 M) (Ez_m1 M)
    = Ok (Er, Et, Ez_) /\
    cubic_modes add_cubic G
      (cubic_lowest (r_cell_of G rj)) (cubic_lowest (z_cell_of G zj))
      (fst (cubic_scratch G xj yj zj)) (snd (cubic_scratch G xj yj zj))
      (RtoC 1) (exptheta_base cos sin)
      (Br_m0 M) (Bt_m0 M) (Bz_m0 M) (Br_m1 M) (Bt_m1 M) (Bz_m1 M)
    = Ok (Br, Bt, Bz_) /\
    v = (cos * Er - sin * Et, sin * Er + cos * Et, Ez_,
         (cos * Br - sin * Bt, sin * Br + cos * Bt, Bz_)).
Proof.
  unfold gather_field_cubic_values, cubic_scratch.
  destruct (cylindrical_conversion xj yj) as [[rj cos] sin]. intros H.
  apply bind_Ok in H as ([[Er Et] Ez_] & HE & H).
  apply bind_Ok in H as ([[Br Bt] Bz_] & HB & H).
  injection H as <-.
  exists rj, cos, sin, Er, Et, Ez_, Br, Bt, Bz_. auto.
Qed.

(** ** Axial boundary *)




Lemma gather_field_linear_body_below :
  gather_field_linear_body InlineFunctions.add_linear_gather_for_mode
    particle_below geometry_4x4 grids_Er2 0 EB_out_1 =
  Ok {| Ex := [1]; Ey := [0]; Ez := [0]; Bx := [0]; By := [0]; Bz := [0] |}.
Proof.
  rewrite gather_field_linear_body_eq.
  change (position particle_below 0) with (Ok (0, 0, -5.5)).
  simpl bind at 1. rewrite gather_field_linear_values_below.
  reflexivity.
Qed.

(** ** Loops *)

Lemma for_each_app {S : Type} (body : Z -> S -> result S) (l1 l2 : list Z)
    (s : S) :
  for_each body (l1 ++ l2) s = (s' <- for_each body l1 s ;; for_each body l2 s').
Proof.
  revert s; induction l1 as [| i l1 IH]; intros s; simpl; [reflexivity |].
  destruct (body i s); simpl; auto.
Qed.

Lemma in_py_range (a b i : Z) : In i (py_range a b) <-> (a <= i < b)%Z.
Proof.
  unfold py_range. rewrite in_map_iff. split.
  - intros (k & <- & Hk). apply in_seq in Hk. lia.
  - intros H. exists (Z.to_nat (i - a)). split; [lia |]. apply in_seq. lia.
Qed.

Lemma NoDup_py_range (a b : Z) : NoDup (py_range a b).
Proof.
  unfold py_range. apply Finite.Injective_map_NoDup.
  - intros u v H. lia.
  - apply seq_NoDup.
Qed.

Lemma py_range_nonneg (a b : Z) :
  (0 <= a)%Z -> Forall (fun i => (0 <= i)%Z) (py_range a b).
Proof.
  intros Ha. apply Forall_forall. intros i Hi. apply in_py_range in Hi. lia.
Qed.

Section LoopInvariant.

Context {S X : Type}.
Variable body : Z -> S -> result S.
Variable obs : S -> Z -> X.
Variable Post : Z -> X -> X -> Prop.

(** An iteration leaves the other indices alone ... *)
Hypothesis frame : forall i j s s',
  (0 <= i)%Z -> (0 <= j)%Z -> i <> j ->
  body i s = Ok s' -> obs s' j = obs s j.

(** ... and establishes [Post] at its own index. *)
Hypothesis effect : forall i s s',
  (0 <= i)%Z -> body i s = Ok s' -> Post i (obs s i) (obs s' i).

Lemma for_each_untouched (l : list Z) (s s' : S) (j : Z) :
  Forall (fun i => (0 <= i)%Z) l -> (0 <= j)%Z -> ~ In j l ->
  for_each body l s = Ok s' -> obs s' j = obs s j.
Proof.
  revert s; induction l as [| i l IH]; intros s Hl Hj Hn H; simpl in H.
  - injection H as <-. reflexivity.
  - inversion Hl as [| ? ? Hi Hl']; subst.
    destruct (body i s) as [s1 |] eqn:E; [| discriminate].
    rewrite (IH s1 Hl' Hj); [| intros Hin; apply Hn; right; exact Hin | exact H].
    apply (frame i j s s1); try assumption.
    intros ->. apply Hn. left; reflexivity.
Qed.

Lemma for_each_once (l : list Z) (s s' : S) (i : Z) :
  NoDup l -> Forall (fun i => (0 <= i)%Z) l -> In i l ->
  for_each body l s = Ok s' -> Post i (obs s i) (obs s' i).
Proof.
  revert s; induction l as [| k l IH]; intros s Hd Hl Hin H; simpl in H.
  - contradiction.
  - inversion Hd as [| ? ? Hk Hd']; subst.
    inversion Hl as [| ? ? Hk0 Hl']; subst.
    destruct (body k s) as [s1 |] eqn:E; [| discriminate].
    destruct Hin as [-> | Hin].
    + rewrite (for_each_untouched l s1 s' i Hl' Hk0 Hk H).
      apply effect; assumption.
    + assert (Hne : k <> i) by (intros ->; contradiction).
      rewrite <- (frame k i s s1 Hk0 ltac:(rewrite Forall_forall in Hl'; apply Hl'; exact Hin) Hne E).
      apply IH; assumption.
Qed.

End LoopInvariant.

(** ** Intensity of the envelope: overwrite or average *)

Lemma envelope_register_a2_frame (gather_gradient average_a2 : bool)
    (cos sin : R) (F Fr Ft Fz : Cplx) (i j : Z) (o o' : envelope_out) :
  (0 <= i)%Z -> (0 <= j)%Z -> i <> j ->
  envelope_register gather_gradient average_a2 cos sin F Fr Ft Fz i o = Ok o' ->
  getitem (a2 o') j = getitem (a2 o) j.
Proof.
  intros Hi Hj Hij. unfold envelope_register. intros H.
  apply bind_Ok in H as ([[gx gy] gz] & _ & H).
  apply bind_Ok in H as (a2' & Ha & H). injection H as <-. simpl a2.
  destruct average_a2.
  - apply bind_Ok in Ha as (old & _ & Ha).
    exact (getitem_setitem_other _ _ i j _ Hi Hj Hij Ha).
  - exact (getitem_setitem_other _ _ i j _ Hi Hj Hij Ha).
Qed.

Lemma gather_envelope_linear_body_a2
    (add_linear_envelope : linear_envelope_gather_for_mode)
    (P : particles) (G : geometry) (A : envelope_grids) (m_array : list Z)
    (gather_gradient average_a2 : bool) (i : Z) (o o' : envelope_out) :
  gather_envelope_linear_body add_linear_envelope P G A m_array
    gather_gradient average_a2 i o = Ok o' ->
  exists I,
    envelope_linear_intensity add_linear_envelope P G A m_array
      gather_gradient i = Ok I /\
    if average_a2 then
      exists old, getitem (a2 o) i = Ok old /\
                  getitem (a2 o') i = Ok (0.5 * (old + I))
    else getitem (a2 o') i = Ok I.
Proof.
  intros H. apply gather_envelope_linear_body_Ok in H
    as (cos & sin & F & Fr & Ft & Fz & Hg & Hreg).
  exists (real (Cmul F (conjugate F))). split.
  - unfold envelope_linear_intensity. rewrite Hg. reflexivity.
  - exact (envelope_register_a2 _ _ _ _ _ _ _ _ _ _ _ Hreg).
Qed.

Lemma gather_envelope_field_numba_linear_a2
    (add_linear_envelope : linear_envelope_gather_for_mode)
    (P : particles) (G : geometry) (A : envelope_grids) (m_array : list Z)
    (gather_gradient average_a2 : bool) (i : Z) (o o' : envelope_out) :
  (0 <= i < Z.of_nat (length (ptcl_x P)))%Z ->
  gather_envelope_field_numba_linear add_linear_envelope P G A m_array
    gather_gradient average_a2 o = Ok o' ->
  exists I,
    envelope_linear_intensity add_linear_envelope P G A m_array
      gather_gradient i = Ok I /\
    if average_a2 then
      exists old, getitem (a2 o) i = Ok old /\
                  getitem (a2 o') i = Ok (0.5 * (old + I))
    else getitem (a2 o') i = Ok I.
Proof.
  intros Hi H. unfold gather_envelope_field_numba_linear in H.
  apply (for_each_once
           (gather_envelope_linear_body add_linear_envelope P G A m_array
              gather_gradient average_a2)
           (fun s j => getitem (a2 s) j)
           (fun j old new =>
              exists I,
                envelope_linear_intensity add_linear_envelope P G A m_array
                  gather_gradient j = Ok I /\
                if average_a2 then
                  exists ov, old = Ok ov /\ new = Ok (0.5 * (ov + I))
                else new = Ok I)
           ltac:(intros k j s s' Hk Hj Hkj Hb;
                 apply gather_envelope_linear_body_Ok in Hb
                   as (cos & sin & F & Fr & Ft & Fz & _ & Hreg);
                 exact (envelope_register_a2_frame _ _ _ _ _ _ _ _ k j _ _
                          Hk Hj Hkj Hreg))
           ltac:(intros k s s' _ Hb;
                 apply gather_envelope_linear_body_a2 in Hb; exact Hb)
           (py_range 0 (Z.of_nat (length (ptcl_x P)))) o o' i).
  - apply NoDup_py_range.
  - apply py_range_nonneg; lia.
  - apply in_py_range; exact Hi.
  - exact H.
Qed.

(** *** The envelope kernel on a particle of the example *)

Lemma linear_stencil_3_4 :
  linear_stencil geometry_4x4 5 0.5 =
  {| ir_lower := 3; ir_upper := 3; iz_lower := 0; iz_upper := 1;
     Sr_lower := 0.5; Sr_upper := 0.5; Sz_lower := 1; Sz_upper := 0;
     Sr_guard := 0 |}.
Proof.
  unfold linear_stencil, linear_weights.
  rewrite r_cell_4x4, z_cell_4x4.
  replace (math_floor (5 - 0.5)) with 4%Z by eval_floor 4%Z.
  replace (math_floor (0.5 - 0.5)) with 0%Z by eval_floor 0%Z.
  unfold linear_boundaries, periodic_z, absorbing_upper_r, guard_lower_r,
    set_iz, set_ir.
  simpl. f_equal; lra.
Qed.

Lemma cylindrical_conversion_3_4 :
  cylindrical_conversion 3 4 = (5, 3 * (1 / 5), 4 * (1 / 5)).
Proof.
  rewrite cylindrical_conversion_off_axis; rewrite sqrt_3_4;
    [reflexivity | lra].
Qed.

Lemma sqrt_3_square : sqrt 3 * sqrt 3 = 3.
Proof. apply sqrt_sqrt; lra. Qed.

Lemma envelope_linear_gathered_3_4 (gather_gradient : bool) :
  envelope_linear_gathered InlineFunctions.add_linear_envelope_gather_for_mode
    particle_3_4 geometry_4x4 envelope_sqrt3 [0%Z] gather_gradient 0 =
  Ok (3 * (1 / 5), 4 * (1 / 5), (RtoC (sqrt 3), RtoC 0, RtoC 0, RtoC 0)).
Proof.
  unfold envelope_linear_gathered.
  change (getitem (ptcl_x particle_3_4) 0) with (Ok 3).
  change (getitem (ptcl_y particle_3_4) 0) with (Ok 4).
  change (getitem (ptcl_z particle_3_4) 0) with (Ok 0.5).
  simpl bind. rewrite cylindrical_conversion_3_4, linear_stencil_3_4.
  unfold envelope_linear_modes, for_each, envelope_linear_mode.
  unfold InlineFunctions.add_linear_envelope_gather_for_mode,
    InlineFunctions.linear_stencil_sum, S_ll, S_lu, S_ul, S_uu.
  destruct gather_gradient; simpl.
  all: f_equal; split_pairs; try reflexivity; apply Cplx_eq; simpl; lra.
Qed.

Lemma envelope_linear_intensity_3_4 (gather_gradient : bool) :
  envelope_linear_intensity
    InlineFunctions.add_linear_envelope_gather_for_mode
    particle_3_4 geometry_4x4 envelope_sqrt3 [0%Z] gather_gradient 0 = Ok 3.
Proof.
  unfold envelope_linear_intensity. rewrite envelope_linear_gathered_3_4.
  simpl. f_equal. pose proof sqrt_3_square. lra.
Qed.

Lemma gather_envelope_linear_body_3_4 (gather_gradient : bool) (v : R) :
  gather_envelope_linear_body
    InlineFunctions.add_linear_envelope_gather_for_mode
    particle_3_4 geometry_4x4 envelope_sqrt3 [0%Z] gather_gradient true 0
    (envelope_out_of v) =
  Ok {| a2 := [0.5 * (v + 3)];
        grad_a2_x := if gather_gradient then [0] else [9];
        grad_a2_y := if gather_gradient then [0] else [9];
        grad_a2_z := if gather_gradient then [0] else [9] |}.
Proof.
  unfold gather_envelope_linear_body. rewrite envelope_linear_gathered_3_4.
  pose proof sqrt_3_square as Hs.
  destruct gather_gradient; unfold envelope_register, envelope_out_of; simpl.
  all: f_equal; f_equal; f_equal; lra.
Qed.

Lemma gather_envelope_field_numba_linear_3_4 (v : R) :
  gather_envelope_field_numba_linear
    InlineFunctions.add_linear_envelope_gather_for_mode
    particle_3_4 geometry_4x4 envelope_sqrt3 [0%Z] false true
    (envelope_out_of v) = Ok (envelope_out_of (0.5 * (v + 3))).
Proof.
  unfold gather_envelope_field_numba_linear.
  change (py_range 0 (Z.of_nat (length (ptcl_x particle_3_4)))) with [0%Z].
  unfold for_each. rewrite gather_envelope_linear_body_3_4. reflexivity.
Qed.

(** ** Chunks of particles *)

Lemma seq_offset (u m : nat) :
  seq u m = map (fun k => (u + k)%nat) (seq 0 m).
Proof.
  revert u; induction m as [| m IH]; intros u; simpl; [reflexivity |].
  f_equal; [lia |].
  rewrite (IH (S u)), (IH 1%nat), map_map.
  apply map_ext. intros k. lia.
Qed.

Lemma py_range_app (u v w : Z) :
  (u <= v <= w)%Z -> py_range u v ++ py_range v w = py_range u w.
Proof.
  intros [H1 H2]. unfold py_range.
  replace (Z.to_nat (w - u)) with (Z.to_nat (v - u) + Z.to_nat (w - v))%nat
    by lia.
  rewrite seq_app, map_app. f_equal. simpl.
  rewrite (seq_offset (Z.to_nat (v - u))), map_map.
  apply map_ext. intros k. lia.
Qed.

Lemma py_range_nat (n : Z) :
  py_range 0 n = map Z.of_nat (seq 0 (Z.to_nat n)).
Proof.
  unfold py_range. rewrite Z.sub_0_r. apply map_ext. intros k. lia.
Qed.

Lemma nondecreasing_tail (c : Z) (t : list Z) :
  nondecreasing (c :: t) = true -> nondecreasing t = true.
Proof.
  simpl. destruct t as [| c' t]; [reflexivity |].
  intros H. apply andb_prop in H as [_ H]. exact H.
Qed.

Lemma nondecreasing_le_last (c : Z) (t : list Z) :
  nondecreasing (c :: t) = true -> (c <= last (c :: t) 0)%Z.
Proof.
  revert c; induction t as [| c' t IH]; intros c H.
  - simpl. lia.
  - assert (Hc : (c <= c')%Z).
    { simpl in H. apply andb_prop in H as [H _]. apply Z.leb_le. exact H. }
    apply nondecreasing_tail in H. specialize (IH c' H).
    change (last (c :: c' :: t) 0%Z) with (last (c' :: t) 0%Z). lia.
Qed.

(** The chunks of a nondecreasing boundary array, put end to end, are the
    range from its first to its last element. *)
Lemma chunks_concat (t : list Z) (c : Z) :
  nondecreasing (c :: t) = true ->
  flat_map (fun k => py_range (nth k (c :: t) 0%Z) (nth (S k) (c :: t) 0%Z))
    (seq 0 (length t))
  = py_range c (last (c :: t) 0%Z).
Proof.
  revert c; induction t as [| c' t IH]; intros c H.
  - simpl. unfold py_range. rewrite Z.sub_diag. reflexivity.
  - assert (Hc : (c <= c')%Z).
    { simpl in H. apply andb_prop in H as [H _]. apply Z.leb_le. exact H. }
    apply nondecreasing_tail in H.
    change (length (c' :: t)) with (S (length t)).
    rewrite <- cons_seq, <- seq_shift. simpl flat_map at 1.
    rewrite flat_map_concat_map, map_map, <- flat_map_concat_map.
    change (last (c :: c' :: t) 0%Z) with (last (c' :: t) 0%Z).
    rewrite <- (py_range_app c c' (last (c' :: t) 0%Z))
      by (split; [exact Hc | apply nondecreasing_le_last; exact H]).
    f_equal. rewrite <- (IH c' H). reflexivity.
Qed.

Lemma flat_map_chunk_of (chunks : list Z) (N : Z) :
  is_partition chunks N = true ->
  flat_map (chunk_of chunks) (py_range 0 (Z.of_nat (length chunks) - 1))
  = py_range 0 N.
Proof.
  unfold is_partition. destruct chunks as [| c t]; [discriminate |].
  intros H. apply andb_prop in H as [H Hn]. apply andb_prop in H as [H0 HN].
  apply Z.eqb_eq in H0, HN. subst c.
  rewrite py_range_nat.
  replace (Z.to_nat (Z.of_nat (length (0%Z :: t)) - 1)) with (length t)
    by (simpl length; lia).
  rewrite flat_map_concat_map, map_map, <- flat_map_concat_map.
  rewrite <- HN, <- (chunks_concat t 0%Z Hn).
  apply flat_map_ext. intros k. unfold chunk_of.
  rewrite Nat2Z.id. replace (Z.to_nat (Z.of_nat k + 1)) with (S k) by lia.
  reflexivity.
Qed.

(** ** The cubic kernel, thread by thread *)

Lemma length_cubic_scratch (G : geometry) (xj yj zj : R) :
  length (fst (cubic_scratch G xj yj zj)) = 4%nat /\
  length (snd (cubic_scratch G xj yj zj)) = 4%nat.
Proof.
  unfold cubic_scratch.
  destruct (cylindrical_conversion xj yj) as [[rj cos] sin]. split; reflexivity.
Qed.

Lemma getitem_nth {A : Type} (l : list A) (i : Z) (d : A) :
  (0 <= i < Z.of_nat (length l))%Z -> getitem l i = Ok (nth (Z.to_nat i) l d).
Proof.
  intros [H0 H1]. rewrite getitem_nonneg by assumption.
  rewrite (nth_error_nth' l d) by lia. reflexivity.
Qed.

(** The scratch arrays of a thread carry nothing from one particle to the
    next: the loop over a chunk is the loop of the per-particle function. *)
Lemma gather_field_cubic_chunk (add_cubic : cubic_gather_for_mode)
    (P : particles) (G : geometry) (M : EB_grids) (l : list Z) :
  forall (Sr Sz : list R) (o : EB_out),
    length Sr = 4%nat -> length Sz = 4%nat ->
    (st <- for_each (gather_field_cubic_body add_cubic P G M) l (Sr, Sz, o) ;;
     Ok (snd st))
    = for_each (gather_field_cubic_particle add_cubic P G M) l o.
Proof.
  induction l as [| i l IH]; intros Sr Sz o Hr Hz; cbn [for_each];
    [reflexivity |].
  rewrite (gather_field_cubic_body_eq add_cubic P G M i Sr Sz o Hr Hz).
  unfold gather_field_cubic_particle at 1.
  destruct (position P i) as [[[xj yj] zj] |]; simpl; [| reflexivity].
  destruct (gather_field_cubic_values add_cubic G M xj yj zj) as [v |];
    simpl; [| reflexivity].
  destruct (write_EB i v o) as [o1 |]; simpl; [| reflexivity].
  destruct (length_cubic_scratch G xj yj zj) as [H1 H2].
  apply IH; assumption.
Qed.

Lemma gather_field_cubic_thread_eq (add_cubic : cubic_gather_for_mode)
    (P : particles) (G : geometry) (M : EB_grids) (chunks : list Z)
    (junk_r junk_z : Z -> nat -> R) (nt : Z) (o : EB_out) :
  (0 <= nt < Z.of_nat (length chunks) - 1)%Z ->
  gather_field_cubic_thread add_cubic P G M chunks junk_r junk_z nt o
  = for_each (gather_field_cubic_particle add_cubic P G M)
      (chunk_of chunks nt) o.
Proof.
  intros Hnt. unfold gather_field_cubic_thread, chunk_of.
  rewrite (getitem_nth chunks nt 0%Z) by lia.
  rewrite (getitem_nth chunks (nt + 1) 0%Z) by lia. simpl bind.
  rewrite <- (gather_field_cubic_chunk add_cubic P G M _
                (np_empty 4 (junk_r nt)) (np_empty 4 (junk_z nt)) o)
    by reflexivity.
  destruct (for_each _ _ _) as [[[Sr' Sz'] o'] |]; reflexivity.
Qed.

Lemma gather_field_cubic_threads (add_cubic : cubic_gather_for_mode)
    (P : particles) (G : geometry) (M : EB_grids) (chunks : list Z)
    (junk_r junk_z : Z -> nat -> R) (sched : list Z) :
  Forall (fun nt => (0 <= nt < Z.of_nat (length chunks) - 1)%Z) sched ->
  forall o,
    for_each (gather_field_cubic_thread add_cubic P G M chunks junk_r junk_z)
      sched o
    = for_each (gather_field_cubic_particle add_cubic P G M)
        (flat_map (chunk_of chunks) sched) o.
Proof.
  induction 1 as [| nt sched Hnt _ IH]; intros o; simpl; [reflexivity |].
  rewrite for_each_app, gather_field_cubic_thread_eq by assumption.
  destruct (for_each _ (chunk_of chunks nt) o) as [o1 |]; simpl;
    [apply IH | reflexivity].
Qed.

(** ** Order of the iterations *)

Lemma for_each_Permutation {S : Type} (body : Z -> S -> result S)
    (D : Z -> Prop) :
  (forall i j s, D i -> D j ->
     (s1 <- body i s ;; body j s1) = (s1 <- body j s ;; body i s1)) ->
  forall l1 l2, Permutation l1 l2 -> Forall D l1 ->
  forall s, for_each body l1 s = for_each body l2 s.
Proof.
  intros Hswap l1 l2 Hp.
  induction Hp as [| k l l' Hp IH | k k' l | l l' l'' Hp1 IH1 Hp2 IH2];
    intros HD s.
  - reflexivity.
  - inversion HD; subst. simpl. destruct (body k s); [apply IH; assumption | reflexivity].
  - inversion HD as [| ? ? Hk' HD']; subst. inversion HD' as [| ? ? Hk _]; subst.
    assert (E : forall u u' : Z,
               for_each body (u :: u' :: l) s
               = (s2 <- (s1 <- body u s ;; body u' s1) ;; for_each body l s2)).
    { intros u u'. simpl. destruct (body u s); reflexivity. }
    rewrite !E, (Hswap k' k s Hk' Hk). reflexivity.
  - rewrite IH1 by assumption. apply IH2.
    apply (Permutation_Forall Hp1). exact HD.
Qed.

Lemma write_EB_nonneg (i : Z) (v : R * R * R * (R * R * R)) (o : EB_out) :
  (0 <= i)%Z ->
  write_EB i v o = if in_range_EBb i o then Ok (put_EB i v o) else IndexError.
Proof.
  intros Hi. destruct v as [[[vEx vEy] vEz] [[vBx vBy] vBz]].
  unfold write_EB, in_range_EBb, put_EB.
  rewrite !setitem_nonneg by assumption.
  repeat match goal with
    | |- context [(i <? ?n)%Z] => destruct (i <? n)%Z; simpl; try reflexivity
    end.
Qed.

Lemma in_range_EBb_put (i j : Z) (v : R * R * R * (R * R * R)) (o : EB_out) :
  in_range_EBb i (put_EB j v o) = in_range_EBb i o.
Proof.
  destruct v as [[[vEx vEy] vEz] [[vBx vBy] vBz]].
  unfold in_range_EBb, put_EB. simpl. rewrite !length_update. reflexivity.
Qed.

Lemma put_EB_comm (i j : Z) (v w : R * R * R * (R * R * R)) (o : EB_out) :
  (0 <= i)%Z -> (0 <= j)%Z -> i <> j ->
  put_EB j w (put_EB i v o) = put_EB i v (put_EB j w o).
Proof.
  intros Hi Hj Hij.
  destruct v as [[[vEx vEy] vEz] [[vBx vBy] vBz]].
  destruct w as [[[wEx wEy] wEz] [[wBx wBy] wBz]].
  unfold put_EB. simpl.
  f_equal; apply update_comm; lia.
Qed.

Lemma gather_field_cubic_particle_swap (add_cubic : cubic_gather_for_mode)
    (P : particles) (G : geometry) (M : EB_grids) (i j : Z) (o : EB_out) :
  (0 <= i)%Z -> (0 <= j)%Z ->
  (o1 <- gather_field_cubic_particle add_cubic P G M i o ;;
   gather_field_cubic_particle add_cubic P G M j o1)
  = (o1 <- gather_field_cubic_particle add_cubic P G M j o ;;
     gather_field_cubic_particle add_cubic P G M i o1).
Proof.
  intros Hi Hj. destruct (Z.eq_dec i j) as [-> | Hij]; [reflexivity |].
  unfold gather_field_cubic_particle.
  destruct (position P i) as [[[xi yi] zi] |],
           (position P j) as [[[xj yj] zj] |]; simpl.
  - destruct (gather_field_cubic_values add_cubic G M xi yi zi) as [v |],
             (gather_field_cubic_values add_cubic G M xj yj zj) as [w |];
      simpl.
    + rewrite (write_EB_nonneg i v o Hi), (write_EB_nonneg j w o Hj).
      destruct (in_range_EBb i o) eqn:Ei, (in_range_EBb j o) eqn:Ej; simpl;
        rewrite ?(write_EB_nonneg i v _ Hi), ?(write_EB_nonneg j w _ Hj),
          ?in_range_EBb_put, ?Ei, ?Ej; try reflexivity.
      f_equal. apply put_EB_comm; assumption.
    + destruct (write_EB i v o); reflexivity.
    + destruct (write_EB j w o); reflexivity.
    + reflexivity.
  - destruct (gather_field_cubic_values add_cubic G M xi yi zi) as [v |];
      simpl; [| reflexivity].
    destruct (write_EB i v o); reflexivity.
  - destruct (gather_field_cubic_values add_cubic G M xj yj zj) as [w |];
      simpl; [| reflexivity].
    destruct (write_EB j w o); reflexivity.
  - reflexivity.
Qed.

(** ** The cubic kernel and its chunks *)

Lemma order_in_range (order : list Z -> list Z) (n : Z) :
  (forall l, Permutation (order l) l) ->
  Forall (fun nt => (0 <= nt < n)%Z) (order (py_range 0 n)).
Proof.
  intros Hp. apply Forall_forall. intros nt Hnt.
  apply (Permutation_in nt (Hp (py_range 0 n))) in Hnt.
  apply in_py_range in Hnt. exact Hnt.
Qed.

(** Whatever the chunks and the order of the threads, the kernel is the loop
    of the per-particle function over [range(N)]. *)
Lemma gather_field_numba_cubic_eq (add_cubic : cubic_gather_for_mode)
    (P : particles) (G : geometry) (M : EB_grids) (o : EB_out)
    (order : list Z -> list Z) (junk_r junk_z : Z -> nat -> R)
    (nthreads : Z) (chunks : list Z) (N : Z) :
  (forall l, Permutation (order l) l) ->
  is_partition chunks N = true ->
  nthreads = (Z.of_nat (length chunks) - 1)%Z ->
  gather_field_numba_cubic add_cubic P G order junk_r junk_z M o
    nthreads chunks
  = for_each (gather_field_cubic_particle add_cubic P G M) (py_range 0 N) o.
Proof.
  intros Hp Hc ->. unfold gather_field_numba_cubic.
  rewrite gather_field_cubic_threads by (apply order_in_range; exact Hp).
  assert (Hperm : Permutation
            (flat_map (chunk_of chunks)
               (order (py_range 0 (Z.of_nat (length chunks) - 1))))
            (py_range 0 N)).
  { rewrite <- (flat_map_chunk_of chunks N Hc).
    apply Permutation_flat_map. apply Hp. }
  apply (for_each_Permutation _ (fun i => (0 <= i)%Z)).
  - intros i j s Hi Hj. apply gather_field_cubic_particle_swap; assumption.
  - exact Hperm.
  - apply (Permutation_Forall (Permutation_sym Hperm)).
    apply py_range_nonneg; lia.
Qed.

Lemma write_EB_frame (i j : Z) (v : R * R * R * (R * R * R)) (o o' : EB_out) :
  (0 <= i)%Z -> (0 <= j)%Z -> i <> j ->
  write_EB i v o = Ok o' -> EB_at o' j = EB_at o j.
Proof.
  intros Hi Hj Hij H. rewrite write_EB_nonneg in H by assumption.
  destruct (in_range_EBb i o); [| discriminate]. injection H as <-.
  destruct v as [[[vEx vEy] vEz] [[vBx vBy] vBz]].
  unfold EB_at, put_EB. simpl. rewrite !getitem_nonneg by assumption.
  rewrite !nth_error_update_other by lia. reflexivity.
Qed.

Lemma gather_field_cubic_particle_Ok (add_cubic : cubic_gather_for_mode)
    (P : particles) (G : geometry) (M : EB_grids) (i : Z) (o o' : EB_out) :
  gather_field_cubic_particle add_cubic P G M i o = Ok o' ->
  exists xj yj zj v,
    position P i = Ok (xj, yj, zj) /\
    gather_field_cubic_values add_cubic G M xj yj zj = Ok v /\
    write_EB i v o = Ok o'.
Proof.
  unfold gather_field_cubic_particle. intros H.
  apply bind_Ok in H as ([[xj yj] zj] & Hp & H).
  apply bind_Ok in H as (v & Hv & H).
  exists xj, yj, zj, v. auto.
Qed.

(** C1. For every particle array, grids, thread count and chunk-boundary
    array that partitions [[0, N)] into contiguous sub-ranges, whatever the
    order in which the threads run and whatever their scratch arrays hold at
    first, the cubic gather returns what a run with the single chunk
    [[0, N)] returns; and the six values written for particle [i] are the
    values gathered at its own position from the grids: they depend neither
    on the chunks nor on the other particles. *)
Theorem gather_field_numba_cubic_chunk_invariance
    (add_cubic : cubic_gather_for_mode)
    (P : particles) (G : geometry) (M : EB_grids) (o : EB_out)
    (order order' : list Z -> list Z)
    (junk_r junk_z junk_r' junk_z' : Z -> nat -> R)
    (nthreads : Z) (ptcl_chunk_indices : list Z) :
  let N := Z.of_nat (length (ptcl_x P)) in
  (forall l, Permutation (order l) l) ->
  (forall l, Permutation (order' l) l) ->
  is_partition ptcl_chunk_indices N = true ->
  nthreads = (Z.of_nat (length ptcl_chunk_indices) - 1)%Z ->
  gather_field_numba_cubic add_cubic P G order junk_r junk_z M o
    nthreads ptcl_chunk_indices
  = gather_field_numba_cubic add_cubic P G order' junk_r' junk_z' M o
      1 [0%Z; N] /\
  forall o',
    gather_field_numba_cubic add_cubic P G order junk_r junk_z M o
      nthreads ptcl_chunk_indices = Ok o' ->
    forall i, (0 <= i < N)%Z ->
    exists xj yj zj v,
      position P i = Ok (xj, yj, zj) /\
      gather_field_cubic_values add_cubic G M xj yj zj = Ok v /\
      EB_holds o' i v.
Proof.
  intros N Hp Hp' Hc Hn.
  rewrite (gather_field_numba_cubic_eq add_cubic P G M o order junk_r junk_z
             nthreads ptcl_chunk_indices N Hp Hc Hn).
  split.
  - symmetry. apply gather_field_numba_cubic_eq; [exact Hp' | | reflexivity].
    unfold is_partition. simpl.
    rewrite Z.eqb_refl. destruct (Z.leb_spec 0 N); [reflexivity | lia].
  - intros o' H i Hi.
    apply (for_each_once
             (gather_field_cubic_particle add_cubic P G M) EB_at
             (fun j _ new =>
                exists xj yj zj v,
                  position P j = Ok (xj, yj, zj) /\
                  gather_field_cubic_values add_cubic G M xj yj zj = Ok v /\
                  let '(vEx, vEy, vEz, (vBx, vBy, vBz)) := v in
                  new = (Ok vEx, Ok vEy, Ok vEz, (Ok vBx, Ok vBy, Ok vBz)))
             ltac:(intros k j s s' Hk Hj Hkj Hb;
                   apply gather_field_cubic_particle_Ok in Hb
                     as (xk & yk & zk & v & _ & _ & Hw);
                   exact (write_EB_frame k j v s s' Hk Hj Hkj Hw))
             ltac:(intros k s s' _ Hb;
                   apply gather_field_cubic_particle_Ok in Hb
                     as (xk & yk & zk & v & Hpos & Hv & Hw);
                   exists xk, yk, zk, v;
                   split; [exact Hpos | split; [exact Hv |]];
                   destruct v as [[[vEx vEy] vEz] [[vBx vBy] vBz]];
                   apply write_EB_Ok in Hw as (H1 & H2 & H3 & H4 & H5 & H6);
                   unfold EB_at; rewrite H1, H2, H3, H4, H5, H6; reflexivity)
             (py_range 0 N) o o' i).
    + apply NoDup_py_range.
    + apply py_range_nonneg; lia.
    + apply in_py_range; exact Hi.
    + exact H.
Qed.

(** *** The cubic kernel on the two particles of the example *)

Lemma sqrt_2_0 : sqrt (2 ^ 2 + 0 ^ 2) = 2.
Proof.
  replace (2 ^ 2 + 0 ^ 2) with (2 * 2) by ring. apply sqrt_square; lra.
Qed.

Lemma sqrt_0_2 : sqrt (0 ^ 2 + 2 ^ 2) = 2.
Proof.
  replace (0 ^ 2 + 2 ^ 2) with (2 * 2) by ring. apply sqrt_square; lra.
Qed.

Lemma gather_field_cubic_values_2_0 :
  gather_field_cubic_values InlineFunctions.add_cubic_gather_for_mode
    geometry_4x4 grids_Er2 2 0 2 = Ok (2, 0, 0, (0, 0, 0)).
Proof.
  unfold gather_field_cubic_values.
  rewrite cylindrical_conversion_off_axis; rewrite sqrt_2_0; [| lra].
  rewrite r_cell_4x4, z_cell_4x4. unfold cubic_lowest.
  replace (math_floor (2 - 0.5)) with 1%Z by eval_floor 1%Z.
  unfold cubic_modes, InlineFunctions.add_cubic_gather_for_mode,
    InlineFunctions.cubic_stencil_sum.
  simpl. f_equal; split_pairs; lra.
Qed.

Lemma gather_field_cubic_values_0_2 :
  gather_field_cubic_values InlineFunctions.add_cubic_gather_for_mode
    geometry_4x4 grids_Er2 0 2 2 = Ok (0, 2, 0, (0, 0, 0)).
Proof.
  unfold gather_field_cubic_values.
  rewrite cylindrical_conversion_off_axis; rewrite sqrt_0_2; [| lra].
  rewrite r_cell_4x4, z_cell_4x4. unfold cubic_lowest.
  replace (math_floor (2 - 0.5)) with 1%Z by eval_floor 1%Z.
  unfold cubic_modes, InlineFunctions.add_cubic_gather_for_mode,
    InlineFunctions.cubic_stencil_sum.
  simpl. f_equal; split_pairs; lra.
Qed.

Lemma gather_field_numba_cubic_2 :
  gather_field_numba_cubic InlineFunctions.add_cubic_gather_for_mode
    particles_2 geometry_4x4 (fun l => l) (fun _ _ => 0) (fun _ _ => 0)
    grids_Er2 EB_out_2 1 [0%Z; 2%Z]
  = Ok {| Ex := [2; 0]; Ey := [0; 2]; Ez := [0; 0];
          Bx := [0; 0]; By := [0; 0]; Bz := [0; 0] |}.
Proof.
  rewrite (gather_field_numba_cubic_eq _ _ _ _ _ _ _ _ _ _ 2%Z);
    [| intros l; apply Permutation_refl | reflexivity | reflexivity].
  change (py_range 0 2) with [0%Z; 1%Z].
  unfold for_each, gather_field_cubic_particle.
  change (position particles_2 0) with (Ok (2, 0, 2)).
  change (position particles_2 1) with (Ok (0, 2, 2)).
  cbn [bind].
  rewrite gather_field_cubic_values_2_0, gather_field_cubic_values_0_2.
  reflexivity.
Qed.

Lemma gather_field_numba_cubic_chunk_invariance_witness :
  gather_field_numba_cubic InlineFunctions.add_cubic_gather_for_mode
    particles_2 geometry_4x4 (@rev Z) (fun nt _ => IZR nt) (fun _ _ => 1)
    grids_Er2 EB_out_2 2 [0%Z; 1%Z; 2%Z]
  = Ok {| Ex := [2; 0]; Ey := [0; 2]; Ez := [0; 0];
          Bx := [0; 0]; By := [0; 0]; Bz := [0; 0] |}.
Proof.
  rewrite <- gather_field_numba_cubic_2.
  apply (gather_field_numba_cubic_chunk_invariance
           InlineFunctions.add_cubic_gather_for_mode
           particles_2 geometry_4x4 grids_Er2 EB_out_2
           (@rev Z) (fun l => l) (fun nt _ => IZR nt) (fun _ _ => 1)
           (fun _ _ => 0) (fun _ _ => 0) 2%Z [0%Z; 1%Z; 2%Z]).
  - intros l. apply Permutation_sym, Permutation_rev.
  - intros l. apply Permutation_refl.
  - reflexivity.
  - reflexivity.
Defined.

(** * Further properties of the kernels *)

(** ** Shapes *)

(** X1. The six shape products that the linear kernels hand to the
    accumulator are nonnegative and sum to one, for every particle and every
    grid: the boundary treatment moves the weight of a point below the axis
    to the guard products, it never loses or creates weight. *)
Theorem linear_shapes_sum_to_one (G : geometry) (rj zj : R) :
  let s := linear_stencil G rj zj in
  0 <= S_ll s /\ 0 <= S_lu s /\ 0 <= S_lg s /\
  0 <= S_ul s /\ 0 <= S_uu s /\ 0 <= S_ug s /\
  S_ll s + S_lu s + S_lg s + S_ul s + S_uu s + S_ug s = 1.
Proof.
  intros s.
  destruct (linear_stencil_radial G rj zj)
    as (_ & _ & Hl & Hu & Hg & Hzl & Hzu).
  cbv zeta in Hl, Hu, Hg, Hzl, Hzu. fold s in Hl, Hu, Hg, Hzl, Hzu.
  unfold S_ll, S_lu, S_lg, S_ul, S_uu, S_ug.
  rewrite Hl, Hu, Hg, Hzl, Hzu. clear Hl Hu Hg Hzl Hzu.
  pose proof (math_floor_spec (r_cell_of G rj)) as Hr.
  pose proof (math_floor_spec (z_cell_of G zj)) as Hz.
  unfold guard_lower_r. simpl ir_lower.
  destruct (math_floor (r_cell_of G rj) <? 0)%Z; simpl;
    rewrite !plus_IZR;
    repeat split; try nra.
Qed.

Lemma ir_upper_linear_stencil (G : geometry) (rj zj : R) :
  ir_upper (linear_stencil G rj zj) =
  (let f := math_floor (r_cell_of G rj) in
   if f + 1 >? Nr G - 1 then Nr G - 1 else f + 1)%Z.
Proof.
  destruct (linear_stencil_radial G rj zj) as (_ & Hu & _).
  cbv zeta in Hu. rewrite Hu. unfold guard_lower_r. simpl.
  destruct (math_floor (r_cell_of G rj) <? 0)%Z; reflexivity.
Qed.

Lemma ir_lower_linear_stencil (G : geometry) (rj zj : R) :
  ir_lower (linear_stencil G rj zj) =
  (let f := math_floor (r_cell_of G rj) in
   let lo := if f <? 0 then 0 else f in
   if lo >? Nr G - 1 then Nr G - 1 else lo)%Z.
Proof.
  destruct (linear_stencil_radial G rj zj) as (Hl & _).
  cbv zeta in Hl. rewrite Hl. unfold guard_lower_r. simpl.
  destruct (math_floor (r_cell_of G rj) <? 0)%Z; reflexivity.
Qed.

Lemma sqrt_sum_squares_nonneg (xj yj : R) : 0 <= sqrt (xj ^ 2 + yj ^ 2).
Proof. apply sqrt_pos. Qed.

(** X2. On a grid with [Nr >= 1] the lower radial index of the linear
    stencil is always in [[0, Nr - 1]] after the boundary treatment.  The
    upper one is clamped at the outer edge only: it is in [[0, Nr - 1]]
    exactly when [floor r_cell >= -1], and it is left negative otherwise.
    For the radius of a particle, [floor r_cell >= -1] holds as soon as
    [invdr >= 0] and [rmin <= 0]. *)
Theorem linear_radial_indices (G : geometry) (xj yj zj : R) :
  let rj := sqrt (xj ^ 2 + yj ^ 2) in
  let f := math_floor (r_cell_of G rj) in
  let s := linear_stencil G rj zj in
  (1 <= Nr G)%Z ->
  (0 <= ir_lower s <= Nr G - 1)%Z /\
  ((0 <= ir_upper s <= Nr G - 1)%Z <-> (-1 <= f)%Z) /\
  ((f < -1)%Z -> ir_upper s = (f + 1)%Z) /\
  (0 <= invdr G -> rmin G <= 0 -> (-1 <= f)%Z).
Proof.
  intros rj f s HN. subst s.
  rewrite ir_lower_linear_stencil, ir_upper_linear_stencil. fold f. cbv zeta.
  split; [| split; [| split]].
  - case_Z_tests; lia.
  - case_Z_tests; lia.
  - case_Z_tests; lia.
  - intros Hd Hm.
    pose proof (math_floor_spec (r_cell_of G rj)) as [_ Hf]. fold f in Hf.
    pose proof (sqrt_sum_squares_nonneg xj yj) as Hr. fold rj in Hr.
    clearbody f. clearbody rj.
    assert (Hp : 0 <= invdr G * (rj - rmin G))
      by (apply Rmult_le_pos; lra).
    assert (Hc : -0.5 <= r_cell_of G rj) by (unfold r_cell_of; lra).
    assert (Hlt : IZR (-1) < IZR (f + 1)) by (rewrite plus_IZR; lra).
    apply lt_IZR in Hlt. lia.
Qed.

Lemma linear_radial_indices_witness :
  let s := linear_stencil geometry_4x4 (sqrt (0 ^ 2 + 0 ^ 2)) 0 in
  (0 <= ir_lower s <= 3)%Z /\ (0 <= ir_upper s <= 3)%Z.
Proof.
  destruct (linear_radial_indices geometry_4x4 0 0 0) as (H1 & H2 & _ & H4);
    [simpl; lia |].
  split; [exact H1 |]. apply H2, H4; simpl; lra.
Defined.


(** ** Angular factors *)

Lemma sum_squares_zero (xj yj : R) :
  sqrt (xj ^ 2 + yj ^ 2) = 0 -> xj = 0 /\ yj = 0.
Proof.
  intros H. apply sqrt_eq_0 in H; [| nra].
  assert (Hx : 0 <= xj ^ 2) by nra. assert (Hy : 0 <= yj ^ 2) by nra.
  split; nra.
Qed.

Lemma angular_factors_unit (xj yj : R) :
  let '(rj, cos, sin) := cylindrical_conversion xj yj in
  cos * cos + sin * sin = 1.
Proof.
  destruct (Req_dec_T (sqrt (xj ^ 2 + yj ^ 2)) 0) as [H0 | Hn].
  - rewrite (cylindrical_conversion_axis xj yj H0). lra.
  - rewrite (cylindrical_conversion_off_axis xj yj Hn).
    assert (Hs : sqrt (xj ^ 2 + yj ^ 2) * sqrt (xj ^ 2 + yj ^ 2)
                 = xj ^ 2 + yj ^ 2) by (apply sqrt_sqrt; nra).
    set (r := sqrt (xj ^ 2 + yj ^ 2)) in *.
    replace (xj * (1 / r) * (xj * (1 / r)) + yj * (1 / r) * (yj * (1 / r)))
      with ((xj ^ 2 + yj ^ 2) / (r * r)) by (field; exact Hn).
    rewrite Hs. field. nra.
Qed.

(** X4. For every particle the cylindrical conversion yields a radius
    [rj >= 0] and a unit vector [(cos, sin)] with [xj = rj * cos] and
    [yj = rj * sin], on the axis as well ([rj = 0], where [(cos, sin)] is
    [(1, 0)]). *)
Theorem cylindrical_conversion_polar (xj yj : R) :
  let '(rj, cos, sin) := cylindrical_conversion xj yj in
  0 <= rj /\ cos * cos + sin * sin = 1 /\
  xj = rj * cos /\ yj = rj * sin.
Proof.
  pose proof (sqrt_sum_squares_nonneg xj yj) as Hr.
  pose proof (angular_factors_unit xj yj) as Hu.
  destruct (Req_dec_T (sqrt (xj ^ 2 + yj ^ 2)) 0) as [H0 | Hn].
  - rewrite (cylindrical_conversion_axis xj yj H0) in *.
    destruct (sum_squares_zero xj yj H0) as [-> ->].
    rewrite sqrt_0_0. repeat split; lra.
  - rewrite (cylindrical_conversion_off_axis xj yj Hn) in *.
    repeat split; [exact Hr | exact Hu | field; exact Hn | field; exact Hn].
Qed.

(** ** Phase factors of the envelope *)

Lemma Cmul_assoc (u v w : Cplx) : Cmul u (Cmul v w) = Cmul (Cmul u v) w.
Proof. apply Cplx_eq; simpl; ring. Qed.

Lemma Cmul_comm (u v : Cplx) : Cmul u v = Cmul v u.
Proof. apply Cplx_eq; simpl; ring. Qed.

Lemma Cmul_1_l (u : Cplx) : Cmul (RtoC 1) u = u.
Proof. apply Cplx_eq; simpl; ring. Qed.

Lemma conjugate_Cmul (u v : Cplx) :
  conjugate (Cmul u v) = Cmul (conjugate u) (conjugate v).
Proof. apply Cplx_eq; simpl; ring. Qed.

Lemma conjugate_involutive (u : Cplx) : conjugate (conjugate u) = u.
Proof. apply Cplx_eq; simpl; ring. Qed.

Lemma Cmul_conjugate_unit (u : Cplx) :
  norm2 u = 1 -> Cmul u (conjugate u) = RtoC 1.
Proof. unfold norm2. intros H. apply Cplx_eq; simpl; [lra | ring]. Qed.

Lemma norm2_Cmul (u v : Cplx) : norm2 (Cmul u v) = norm2 u * norm2 v.
Proof. unfold norm2; simpl; ring. Qed.

Lemma norm2_conjugate (u : Cplx) : norm2 (conjugate u) = norm2 u.
Proof. unfold norm2; simpl; ring. Qed.

Lemma norm2_Cpow (u : Cplx) (n : nat) : norm2 u = 1 -> norm2 (Cpow u n) = 1.
Proof.
  intros H. induction n as [| n IH]; simpl.
  - unfold norm2; simpl; ring.
  - rewrite norm2_Cmul, H, IH. ring.
Qed.

Lemma norm2_exptheta_base (cos sin : R) :
  cos * cos + sin * sin = 1 -> norm2 (exptheta_base cos sin) = 1.
Proof. intros H. rewrite exptheta_base_eq. unfold norm2; simpl. lra. Qed.

(** One more turn: the factor of [m + 1] from the factor of [m]. *)
Lemma envelope_exptheta_succ (cos sin : R) (m : Z) :
  cos * cos + sin * sin = 1 ->
  envelope_exptheta cos sin (m + 1)
  = Cmul (exptheta_base cos sin) (envelope_exptheta cos sin m).
Proof.
  intros H. apply norm2_exptheta_base in H.
  unfold envelope_exptheta. set (e := exptheta_base cos sin) in *.
  destruct (Z.ltb_spec m 0) as [Hm | Hm].
  - destruct (Z.ltb_spec (m + 1) 0) as [Hm1 | Hm1].
    + replace (Z.abs_nat m) with (S (Z.abs_nat (m + 1))) by lia.
      simpl. rewrite conjugate_Cmul, Cmul_assoc, (Cmul_conjugate_unit e H).
      rewrite Cmul_1_l. reflexivity.
    + replace (m + 1)%Z with 0%Z by lia.
      replace (Z.abs_nat m) with 1%nat by lia. simpl.
      replace (Cmul e (RtoC 1)) with e by (apply Cplx_eq; simpl; ring).
      rewrite (Cmul_conjugate_unit e H). reflexivity.
  - destruct (Z.ltb_spec (m + 1) 0) as [Hm1 | Hm1]; [lia |].
    replace (Z.abs_nat (m + 1)) with (S (Z.abs_nat m)) by lia. reflexivity.
Qed.

Lemma envelope_exptheta_pred (cos sin : R) (m : Z) :
  cos * cos + sin * sin = 1 ->
  envelope_exptheta cos sin (m - 1)
  = Cmul (conjugate (exptheta_base cos sin)) (envelope_exptheta cos sin m).
Proof.
  intros H. pose proof (envelope_exptheta_succ cos sin (m - 1) H) as E.
  replace (m - 1 + 1)%Z with m in E by lia. rewrite E.
  rewrite Cmul_assoc, (Cmul_comm (conjugate _)).
  rewrite (Cmul_conjugate_unit _ (norm2_exptheta_base cos sin H)).
  rewrite Cmul_1_l. reflexivity.
Qed.

(** X5. For the angular factors of a particle, the phase factor that the
    envelope kernels compute for the mode [m] has modulus one, equals one
    for [m = 0], is conjugated when [m] changes sign, and is multiplicative:
    the factor of [m + m'] is the product of the factors of [m] and
    [m']. *)
Theorem envelope_exptheta_group (xj yj : R) (m m' : Z) :
  let '(rj, cos, sin) := cylindrical_conversion xj yj in
  norm2 (envelope_exptheta cos sin m) = 1 /\
  envelope_exptheta cos sin 0 = RtoC 1 /\
  envelope_exptheta cos sin (- m) = conjugate (envelope_exptheta cos sin m) /\
  envelope_exptheta cos sin (m + m')
  = Cmul (envelope_exptheta cos sin m) (envelope_exptheta cos sin m').
Proof.
  pose proof (angular_factors_unit xj yj) as Hu.
  destruct (cylindrical_conversion xj yj) as [[rj cos] sin].
  split; [| split; [| split]].
  - unfold envelope_exptheta.
    destruct (m <? 0)%Z; rewrite ?norm2_conjugate;
      apply norm2_Cpow, norm2_exptheta_base, Hu.
  - reflexivity.
  - unfold envelope_exptheta.
    replace (Z.abs_nat (- m)) with (Z.abs_nat m) by lia.
    destruct (Z.ltb_spec (- m) 0), (Z.ltb_spec m 0); try lia.
    + reflexivity.
    + rewrite conjugate_involutive. reflexivity.
    + replace m with 0%Z by lia. simpl. apply Cplx_eq; simpl; ring.
  - revert m'. apply Z.peano_ind.
    + rewrite Z.add_0_r.
      change (envelope_exptheta cos sin 0) with (RtoC 1).
      rewrite Cmul_comm, Cmul_1_l. reflexivity.
    + intros k IH. replace (m + Z.succ k)%Z with (m + k + 1)%Z by lia.
      unfold Z.succ. rewrite !envelope_exptheta_succ by exact Hu.
      rewrite IH, !Cmul_assoc, (Cmul_comm (exptheta_base cos sin)).
      reflexivity.
    + intros k IH. replace (m + Z.pred k)%Z with (m + k - 1)%Z by lia.
      unfold Z.pred. replace (k + -1)%Z with (k - 1)%Z by lia.
      rewrite !envelope_exptheta_pred by exact Hu.
      rewrite IH, !Cmul_assoc, (Cmul_comm (conjugate _)).
      reflexivity.
Qed.

(** ** Whole calls of the linear field kernel *)

Lemma for_each_ext {S : Type} (body body' : Z -> S -> result S) (l : list Z) :
  (forall i s, body i s = body' i s) ->
  forall s, for_each body l s = for_each body' l s.
Proof.
  intros E. induction l as [| i l IH]; intros s; simpl; [reflexivity |].
  rewrite E. destruct (body' i s); [apply IH | reflexivity].
Qed.

Lemma bind_ext {A B : Type} (m : result A) (k k' : A -> result B) :
  (forall v, k v = k' v) -> bind m k = bind m k'.
Proof. intros E. destruct m; simpl; [apply E | reflexivity]. Qed.

Lemma for_each_invariant {S : Type} (body : Z -> S -> result S)
    (Inv : S -> Prop) :
  (forall i s s', Inv s -> body i s = Ok s' -> Inv s') ->
  forall l s s', Inv s -> for_each body l s = Ok s' -> Inv s'.
Proof.
  intros Hstep. induction l as [| i l IH]; intros s s' Hs H; simpl in H.
  - injection H as <-. exact Hs.
  - destruct (body i s) as [s1 |] eqn:E; [| discriminate].
    apply (IH s1 s'); [eapply Hstep; eassumption | exact H].
Qed.

(** A loop that visits an index at which the body fails, fails. *)
Lemma for_each_fails {S : Type} (body : Z -> S -> result S)
    (Inv : S -> Prop) (i : Z) :
  (forall j s s', Inv s -> body j s = Ok s' -> Inv s') ->
  (forall s, Inv s -> body i s = IndexError) ->
  forall l s, In i l -> Inv s -> for_each body l s = IndexError.
Proof.
  intros Hstep Hfail. induction l as [| j l IH]; intros s Hin Hs; simpl.
  - contradiction.
  - destruct (body j s) as [s1 |] eqn:E; [| reflexivity].
    destruct Hin as [-> | Hin].
    + rewrite (Hfail s Hs) in E. discriminate.
    + apply IH; [exact Hin | eapply Hstep; eassumption].
Qed.

Lemma write_EB_lengths (i : Z) (v : R * R * R * (R * R * R)) (o o' : EB_out) :
  write_EB i v o = Ok o' -> EB_lengths o' = EB_lengths o.
Proof.
  destruct v as [[[vEx vEy] vEz] [[vBx vBy] vBz]]. unfold write_EB. intros H.
  apply bind_Ok in H as (l1 & H1 & H).
  apply bind_Ok in H as (l2 & H2 & H).
  apply bind_Ok in H as (l3 & H3 & H).
  apply bind_Ok in H as (l4 & H4 & H).
  apply bind_Ok in H as (l5 & H5 & H).
  apply bind_Ok in H as (l6 & H6 & H).
  injection H as <-. unfold EB_lengths. simpl.
  unfold setitem in *.
  apply bind_Ok in H1 as (k1 & _ & [= <-]).
  apply bind_Ok in H2 as (k2 & _ & [= <-]).
  apply bind_Ok in H3 as (k3 & _ & [= <-]).
  apply bind_Ok in H4 as (k4 & _ & [= <-]).
  apply bind_Ok in H5 as (k5 & _ & [= <-]).
  apply bind_Ok in H6 as (k6 & _ & [= <-]).
  rewrite !length_update. reflexivity.
Qed.

(** Two iterations that gather values and write them at their own index
    commute. *)
Lemma write_EB_step_swap (pv : Z -> result (R * R * R * (R * R * R)))
    (i j : Z) (o : EB_out) :
  (0 <= i)%Z -> (0 <= j)%Z ->
  (o1 <- (v <- pv i ;; write_EB i v o) ;; w <- pv j ;; write_EB j w o1)
  = (o1 <- (w <- pv j ;; write_EB j w o) ;; v <- pv i ;; write_EB i v o1).
Proof.
  intros Hi Hj. destruct (Z.eq_dec i j) as [-> | Hij]; [reflexivity |].
  destruct (pv i) as [v |], (pv j) as [w |]; simpl.
  - rewrite (write_EB_nonneg i v o Hi), (write_EB_nonneg j w o Hj).
    destruct (in_range_EBb i o) eqn:Ei, (in_range_EBb j o) eqn:Ej; simpl;
      rewrite ?(write_EB_nonneg i v _ Hi), ?(write_EB_nonneg j w _ Hj),
        ?in_range_EBb_put, ?Ei, ?Ej; try reflexivity.
    f_equal. apply put_EB_comm; assumption.
  - destruct (write_EB i v o); reflexivity.
  - destruct (write_EB j w o); reflexivity.
  - reflexivity.
Qed.

Lemma gather_field_linear_particle_eq (add_linear : linear_gather_for_mode)
    (P : particles) (G : geometry) (M : EB_grids) (i : Z) (o : EB_out) :
  gather_field_linear_particle add_linear P G M i o
  = (v <- ('(xj, yj, zj) <- position P i ;;
           gather_field_linear_values add_linear G M xj yj zj) ;;
     write_EB i v o).
Proof.
  unfold gather_field_linear_particle.
  destruct (position P i) as [[[xj yj] zj] |]; reflexivity.
Qed.

Lemma gather_field_linear_particle_Ok (add_linear : linear_gather_for_mode)
    (P : particles) (G : geometry) (M : EB_grids) (i : Z) (o o' : EB_out) :
  gather_field_linear_particle add_linear P G M i o = Ok o' ->
  exists xj yj zj v,
    position P i = Ok (xj, yj, zj) /\
    gather_field_linear_values add_linear G M xj yj zj = Ok v /\
    write_EB i v o = Ok o'.
Proof.
  unfold gather_field_linear_particle. intros H.
  apply bind_Ok in H as ([[xj yj] zj] & Hp & H).
  apply bind_Ok in H as (v & Hv & H).
  exists xj, yj, zj, v. auto.
Qed.

(** The kernel is the loop of the per-particle function over [range(N)],
    whatever the order of the iterations. *)
Lemma gather_field_numba_linear_eq (add_linear : linear_gather_for_mode)
    (P : particles) (G : geometry) (M : EB_grids) (o : EB_out)
    (order : list Z -> list Z) :
  (forall l, Permutation (order l) l) ->
  gather_field_numba_linear add_linear P G order M o
  = for_each (gather_field_linear_particle add_linear P G M)
      (py_range 0 (Z.of_nat (length (ptcl_x P)))) o.
Proof.
  intros Hp. unfold gather_field_numba_linear.
  rewrite (for_each_ext _ (gather_field_linear_particle add_linear P G M))
    by (intros i s; apply gather_field_linear_body_eq).
  apply (for_each_Permutation _ (fun i => (0 <= i)%Z)).
  - intros i j s Hi Hj.
    rewrite (bind_ext _ _ _ (gather_field_linear_particle_eq _ P G M j)).
    rewrite (bind_ext _ _ _ (gather_field_linear_particle_eq _ P G M i)).
    rewrite !gather_field_linear_particle_eq.
    exact (write_EB_step_swap
             (fun k => '(xj, yj, zj) <- position P k ;;
                       gather_field_linear_values add_linear G M xj yj zj)
             i j s Hi Hj).
  - apply Hp.
  - apply (Permutation_Forall (Permutation_sym (Hp _))).
    apply py_range_nonneg; lia.
Qed.

Lemma gather_field_numba_linear_below :
  gather_field_numba_linear InlineFunctions.add_linear_gather_for_mode
    particle_below geometry_4x4 (fun l => l) grids_Er2 EB_out_1 =
  Ok {| Ex := [1]; Ey := [0]; Ez := [0]; Bx := [0]; By := [0]; Bz := [0] |}.
Proof.
  unfold gather_field_numba_linear.
  change (py_range 0 (Z.of_nat (length (ptcl_x particle_below)))) with [0%Z].
  unfold for_each. rewrite gather_field_linear_body_below. reflexivity.
Qed.

(** X6. A call of the linear field kernel returns the same arrays whatever
    the order in which the parallel loop visits the particles.  When it
    returns, the six arrays hold at every index [i < N] the values gathered
    at the position of particle [i], the entries at indices [N] and beyond
    are the ones the arrays had, and the arrays have kept their lengths. *)
Theorem gather_field_numba_linear_result (add_linear : linear_gather_for_mode)
    (P : particles) (G : geometry) (M : EB_grids) (o : EB_out)
    (order : list Z -> list Z) :
  let N := Z.of_nat (length (ptcl_x P)) in
  (forall l, Permutation (order l) l) ->
  gather_field_numba_linear add_linear P G order M o
  = gather_field_numba_linear add_linear P G (fun l => l) M o /\
  forall o',
    gather_field_numba_linear add_linear P G order M o = Ok o' ->
    (forall i, (0 <= i < N)%Z ->
       exists xj yj zj v,
         position P i = Ok (xj, yj, zj) /\
         gather_field_linear_values add_linear G M xj yj zj = Ok v /\
         EB_holds o' i v) /\
    (forall j, (N <= j)%Z -> EB_at o' j = EB_at o j) /\
    EB_lengths o' = EB_lengths o.
Proof.
  intros N Hp.
  rewrite (gather_field_numba_linear_eq add_linear P G M o order Hp).
  rewrite (gather_field_numba_linear_eq add_linear P G M o (fun l => l))
    by (intros l; apply Permutation_refl).
  split; [reflexivity |]. fold N. intros o' H.
  assert (Hframe : forall k j s s',
            (0 <= k)%Z -> (0 <= j)%Z -> k <> j ->
            gather_field_linear_particle add_linear P G M k s = Ok s' ->
            EB_at s' j = EB_at s j).
  { intros k j s s' Hk Hj Hkj Hb.
    apply gather_field_linear_particle_Ok in Hb
      as (xk & yk & zk & v & _ & _ & Hw).
    exact (write_EB_frame k j v s s' Hk Hj Hkj Hw). }
  split; [| split].
  - intros i Hi.
    apply (for_each_once
             (gather_field_linear_particle add_linear P G M) EB_at
             (fun j _ new =>
                exists xj yj zj v,
                  position P j = Ok (xj, yj, zj) /\
                  gather_field_linear_values add_linear G M xj yj zj = Ok v /\
                  let '(vEx, vEy, vEz, (vBx, vBy, vBz)) := v in
                  new = (Ok vEx, Ok vEy, Ok vEz, (Ok vBx, Ok vBy, Ok vBz)))
             Hframe
             ltac:(intros k s s' _ Hb;
                   apply gather_field_linear_particle_Ok in Hb
                     as (xk & yk & zk & v & Hpos & Hv & Hw);
                   exists xk, yk, zk, v;
                   split; [exact Hpos | split; [exact Hv |]];
                   destruct v as [[[vEx vEy] vEz] [[vBx vBy] vBz]];
                   apply write_EB_Ok in Hw as (H1 & H2 & H3 & H4 & H5 & H6);
                   unfold EB_at; rewrite H1, H2, H3, H4, H5, H6; reflexivity)
             (py_range 0 N) o o' i).
    + apply NoDup_py_range.
    + apply py_range_nonneg; lia.
    + apply in_py_range; exact Hi.
    + exact H.
  - intros j Hj.
    apply (for_each_untouched
             (gather_field_linear_particle add_linear P G M) EB_at Hframe
             (py_range 0 N) o o' j).
    + apply py_range_nonneg; lia.
    + unfold N in Hj. lia.
    + intros Hin. apply in_py_range in Hin. lia.
    + exact H.
  - apply (for_each_invariant
             (gather_field_linear_particle add_linear P G M)
             (fun s => EB_lengths s = EB_lengths o)
             ltac:(intros k s s' Hs Hb;
                   apply gather_field_linear_particle_Ok in Hb
                     as (xk & yk & zk & v & _ & _ & Hw);
                   rewrite (write_EB_lengths k v s s' Hw); exact Hs)
             (py_range 0 N) o o' eq_refl H).
Qed.

Lemma gather_field_numba_linear_result_witness :
  gather_field_numba_linear InlineFunctions.add_linear_gather_for_mode
    particle_below geometry_4x4 (@rev Z) grids_Er2 EB_out_1 =
  Ok {| Ex := [1]; Ey := [0]; Ez := [0]; Bx := [0]; By := [0]; Bz := [0] |}.
Proof.
  rewrite <- gather_field_numba_linear_below.
  apply (gather_field_numba_linear_result
           InlineFunctions.add_linear_gather_for_mode
           particle_below geometry_4x4 grids_Er2 EB_out_1 (@rev Z)).
  intros l. apply Permutation_sym, Permutation_rev.
Defined.

Lemma getitem_at_length {A : Type} (l : list A) :
  getitem l (Z.of_nat (length l)) = IndexError.
Proof.
  rewrite getitem_nonneg by lia. rewrite Nat2Z.id.
  replace (nth_error l (length l)) with (@None A); [reflexivity |].
  symmetry. apply nth_error_None. lia.
Qed.

Lemma in_range_EBb_at_length (n : nat) (o : EB_out) :
  In n (EB_lengths o) -> in_range_EBb (Z.of_nat n) o = false.
Proof.
  unfold EB_lengths, in_range_EBb.
  intros [<- | [<- | [<- | [<- | [<- | [<- | []]]]]]];
    rewrite Z.ltb_irrefl, ?andb_false_r; reflexivity.
Qed.

(** X7. When one of the arrays [y], [z], [Ex], [Ey], [Ez], [Bx], [By], [Bz]
    is shorter than [x], the call of the linear field kernel fails with an
    index error, whatever the order of the iterations. *)
Theorem gather_field_numba_linear_short_array
    (add_linear : linear_gather_for_mode)
    (P : particles) (G : geometry) (M : EB_grids) (o : EB_out)
    (order : list Z -> list Z) :
  (forall l, Permutation (order l) l) ->
  Exists (fun n => (n < length (ptcl_x P))%nat) (other_lengths P o) ->
  gather_field_numba_linear add_linear P G order M o = IndexError.
Proof.
  intros Hp He.
  rewrite (gather_field_numba_linear_eq add_linear P G M o order Hp).
  apply Exists_exists in He as (n & Hin & Hn).
  apply (for_each_fails
           (gather_field_linear_particle add_linear P G M)
           (fun s => EB_lengths s = EB_lengths o) (Z.of_nat n)).
  - intros k s s' Hs Hb.
    apply gather_field_linear_particle_Ok in Hb
      as (xk & yk & zk & v & _ & _ & Hw).
    rewrite (write_EB_lengths k v s s' Hw). exact Hs.
  - intros s Hs. unfold other_lengths in Hin.
    destruct Hin as [<- | [<- | Hin]].
    + unfold gather_field_linear_particle, position.
      rewrite getitem_at_length.
      destruct (getitem (ptcl_x P) _); reflexivity.
    + unfold gather_field_linear_particle, position.
      rewrite getitem_at_length.
      destruct (getitem (ptcl_x P) _); simpl; [| reflexivity].
      destruct (getitem (ptcl_y P) _); reflexivity.
    + rewrite <- Hs in Hin. rewrite gather_field_linear_particle_eq.
      destruct (bind (position P (Z.of_nat n)) _) as [v |]; simpl;
        [| reflexivity].
      rewrite write_EB_nonneg by lia.
      rewrite (in_range_EBb_at_length n s Hin). reflexivity.
  - apply in_py_range. lia.
  - reflexivity.
Qed.

Lemma gather_field_numba_linear_short_array_witness :
  gather_field_numba_linear InlineFunctions.add_linear_gather_for_mode
    particle_short geometry_4x4 (fun l => l) grids_Er2 EB_out_1 = IndexError.
Proof.
  apply gather_field_numba_linear_short_array.
  - intros l. apply Permutation_refl.
  - apply Exists_cons_hd. simpl. lia.
Defined.

(** ** Whole calls of the envelope kernels *)

Lemma gather_envelope_cubic_chunk
    (add_cubic_envelope : cubic_envelope_gather_for_mode)
    (P : particles) (G : geometry) (A : envelope_grids) (m_array : list Z)
    (gather_gradient average_a2 : bool) (l : list Z) :
  forall (Sr Sz : list R) (o : envelope_out),
    length Sr = 4%nat -> length Sz = 4%nat ->
    (st <- for_each (gather_envelope_cubic_body add_cubic_envelope P G A
                       m_array gather_gradient average_a2) l (Sr, Sz, o) ;;
     Ok (snd st))
    = for_each (gather_envelope_cubic_particle add_cubic_envelope P G A
                  m_array gather_gradient average_a2) l o.
Proof.
  induction l as [| i l IH]; intros Sr Sz o Hr Hz; cbn [for_each];
    [reflexivity |].
  pose proof (gather_envelope_cubic_body_eq add_cubic_envelope P G A m_array
                gather_gradient average_a2 i Sr Sz o Hr Hz) as E.
  unfold gather_envelope_cubic_particle at 1.
  destruct (gather_envelope_cubic_body _ _ _ _ _ _ _ i (Sr, Sz, o))
    as [[[Sr' Sz'] o'] |] eqn:Eb.
  - destruct (gather_envelope_cubic_body_Ok _ _ _ _ _ _ _ _ _ _ _ _ _ _
                Hr Hz Eb)
      as (Hr' & Hz' & cos & sin & F & Fr & Ft & Fz & Hg & Hreg).
    rewrite Hg. simpl bind at 2. rewrite Hreg. apply IH; assumption.
  - simpl in E.
    destruct (envelope_cubic_gathered _ _ _ _ _ _ i)
      as [[[cos sin] [[[F Fr] Ft] Fz]] |]; simpl in *; [| reflexivity].
    destruct (envelope_register _ _ _ _ _ _ _ _ i o); simpl in *;
      [discriminate | reflexivity].
Qed.

Lemma gather_envelope_cubic_thread_eq
    (add_cubic_envelope : cubic_envelope_gather_for_mode)
    (P : particles) (G : geometry) (A : envelope_grids) (m_array : list Z)
    (gather_gradient average_a2 : bool) (chunks : list Z)
    (junk_r junk_z : Z -> nat -> R) (nt : Z) (o : envelope_out) :
  (0 <= nt < Z.of_nat (length chunks) - 1)%Z ->
  gather_envelope_cubic_thread add_cubic_envelope P G A m_array
    gather_gradient average_a2 chunks junk_r junk_z nt o
  = for_each (gather_envelope_cubic_particle add_cubic_envelope P G A
                m_array gather_gradient average_a2) (chunk_of chunks nt) o.
Proof.
  intros Hnt. unfold gather_envelope_cubic_thread, chunk_of.
  rewrite (getitem_nth chunks nt 0%Z) by lia.
  rewrite (getitem_nth chunks (nt + 1) 0%Z) by lia. simpl bind.
  rewrite <- (gather_envelope_cubic_chunk add_cubic_envelope P G A m_array
                gather_gradient average_a2 _
                (np_empty 4 (junk_r nt)) (np_empty 4 (junk_z nt)) o)
    by reflexivity.
  destruct (for_each _ _ _) as [[[Sr' Sz'] o'] |]; reflexivity.
Qed.

(** With chunks that partition [[0, N)], the kernel is the loop of the
    per-particle function over [range(N)]. *)
Lemma gather_envelope_field_numba_cubic_eq
    (add_cubic_envelope : cubic_envelope_gather_for_mode)
    (P : particles) (G : geometry) (A : envelope_grids) (m_array : list Z)
    (gather_gradient average_a2 : bool) (o : envelope_out)
    (junk_r junk_z : Z -> nat -> R) (nthreads : Z) (chunks : list Z) (N : Z) :
  is_partition chunks N = true ->
  nthreads = (Z.of_nat (length chunks) - 1)%Z ->
  gather_envelope_field_numba_cubic add_cubic_envelope P G junk_r junk_z
    A m_array o nthreads chunks gather_gradient average_a2
  = for_each (gather_envelope_cubic_particle add_cubic_envelope P G A
                m_array gather_gradient average_a2) (py_range 0 N) o.
Proof.
  intros Hc ->. unfold gather_envelope_field_numba_cubic.
  rewrite <- (flat_map_chunk_of chunks N Hc).
  assert (Hall : Forall (fun nt => (0 <= nt < Z.of_nat (length chunks) - 1)%Z)
                   (py_range 0 (Z.of_nat (length chunks) - 1))).
  { apply Forall_forall. intros nt Hnt. apply in_py_range in Hnt. exact Hnt. }
  revert o. induction Hall as [| nt sched Hnt _ IH]; intros o; simpl;
    [reflexivity |].
  rewrite for_each_app, gather_envelope_cubic_thread_eq by assumption.
  destruct (for_each _ (chunk_of chunks nt) o) as [o1 |]; simpl;
    [apply IH | reflexivity].
Qed.

Lemma gather_envelope_cubic_particle_Ok
    (add_cubic_envelope : cubic_envelope_gather_for_mode)
    (P : particles) (G : geometry) (A : envelope_grids) (m_array : list Z)
    (gather_gradient average_a2 : bool) (i : Z) (o o' : envelope_out) :
  gather_envelope_cubic_particle add_cubic_envelope P G A m_array
    gather_gradient average_a2 i o = Ok o' ->
  exists cos sin F Fr Ft Fz,
    envelope_cubic_gathered add_cubic_envelope P G A m_array
      gather_gradient i = Ok (cos, sin, (F, Fr, Ft, Fz)) /\
    envelope_register gather_gradient average_a2 cos sin F Fr Ft Fz i o = Ok o'.
Proof.
  unfold gather_envelope_cubic_particle. intros H.
  apply bind_Ok in H as ([[cos sin] [[[F Fr] Ft] Fz]] & Hg & H).
  exists cos, sin, F, Fr, Ft, Fz. auto.
Qed.

(** X8. With a chunk-boundary array that partitions [[0, N)] into
    contiguous sub-ranges, a call of the cubic envelope kernel returns what
    a call with the single chunk [[0, N)] returns, whatever the scratch
    arrays of the threads hold at first; every particle is registered once:
    its stored intensity becomes the computed one, or, with the averaging
    flag, half the sum of the old stored one and of the computed one. *)
Theorem gather_envelope_field_numba_cubic_chunk_invariance
    (add_cubic_envelope : cubic_envelope_gather_for_mode)
    (P : particles) (G : geometry) (A : envelope_grids) (m_array : list Z)
    (gather_gradient average_a2 : bool) (o : envelope_out)
    (junk_r junk_z junk_r' junk_z' : Z -> nat -> R)
    (nthreads : Z) (ptcl_chunk_indices : list Z) :
  let N := Z.of_nat (length (ptcl_x P)) in
  is_partition ptcl_chunk_indices N = true ->
  nthreads = (Z.of_nat (length ptcl_chunk_indices) - 1)%Z ->
  gather_envelope_field_numba_cubic add_cubic_envelope P G junk_r junk_z
    A m_array o nthreads ptcl_chunk_indices gather_gradient average_a2
  = gather_envelope_field_numba_cubic add_cubic_envelope P G junk_r' junk_z'
      A m_array o 1 [0%Z; N] gather_gradient average_a2 /\
  forall o',
    gather_envelope_field_numba_cubic add_cubic_envelope P G junk_r junk_z
      A m_array o nthreads ptcl_chunk_indices gather_gradient average_a2
    = Ok o' ->
    forall i, (0 <= i < N)%Z ->
    exists cos sin F Fr Ft Fz,
      envelope_cubic_gathered add_cubic_envelope P G A m_array
        gather_gradient i = Ok (cos, sin, (F, Fr, Ft, Fz)) /\
      if average_a2 then
        exists old,
          getitem (a2 o) i = Ok old /\
          getitem (a2 o') i = Ok (0.5 * (old + real (Cmul F (conjugate F))))
      else getitem (a2 o') i = Ok (real (Cmul F (conjugate F))).
Proof.
  intros N Hc Hn.
  rewrite (gather_envelope_field_numba_cubic_eq add_cubic_envelope P G A
             m_array gather_gradient average_a2 o junk_r junk_z nthreads
             ptcl_chunk_indices N Hc Hn).
  split.
  - symmetry. apply gather_envelope_field_numba_cubic_eq; [| reflexivity].
    unfold is_partition. simpl.
    rewrite Z.eqb_refl. destruct (Z.leb_spec 0 N); [reflexivity | lia].
  - intros o' H i Hi.
    apply (for_each_once
             (gather_envelope_cubic_particle add_cubic_envelope P G A
                m_array gather_gradient average_a2)
             (fun s j => getitem (a2 s) j)
             (fun j old new =>
                exists cos sin F Fr Ft Fz,
                  envelope_cubic_gathered add_cubic_envelope P G A m_array
                    gather_gradient j = Ok (cos, sin, (F, Fr, Ft, Fz)) /\
                  if average_a2 then
                    exists ov,
                      old = Ok ov /\
                      new = Ok (0.5 * (ov + real (Cmul F (conjugate F))))
                  else new = Ok (real (Cmul F (conjugate F))))
             ltac:(intros k j s s' Hk Hj Hkj Hb;
                   apply gather_envelope_cubic_particle_Ok in Hb
                     as (cos & sin & F & Fr & Ft & Fz & _ & Hreg);
                   exact (envelope_register_a2_frame _ _ _ _ _ _ _ _ k j _ _
                            Hk Hj Hkj Hreg))
             ltac:(intros k s s' _ Hb;
                   apply gather_envelope_cubic_particle_Ok in Hb
                     as (cos & sin & F & Fr & Ft & Fz & Hg & Hreg);
                   exists cos, sin, F, Fr, Ft, Fz;
                   split; [exact Hg |];
                   exact (envelope_register_a2 _ _ _ _ _ _ _ _ _ _ _ Hreg))
             (py_range 0 N) o o' i).
    + apply NoDup_py_range.
    + apply py_range_nonneg; lia.
    + apply in_py_range; exact Hi.
    + exact H.
Qed.

Lemma gather_envelope_cubic_particle_2 (i : Z) (u v : R) :
  (i = 0 \/ i = 1)%Z ->
  gather_envelope_cubic_particle
    InlineFunctions.add_cubic_envelope_gather_for_mode
    particles_2 geometry_4x4 envelope_sqrt3 [0%Z] false true i
    {| a2 := [u; v]; grad_a2_x := [9; 9]; grad_a2_y := [9; 9];
       grad_a2_z := [9; 9] |}
  = Ok {| a2 := if (i =? 0)%Z then [0.5 * (u + 3); v]
                else [u; 0.5 * (v + 3)];
          grad_a2_x := [9; 9]; grad_a2_y := [9; 9]; grad_a2_z := [9; 9] |}.
Proof.
  pose proof sqrt_3_square as Hs.
  intros [-> | ->];
    unfold gather_envelope_cubic_particle, envelope_cubic_gathered.
  - change (position particles_2 0) with (Ok (2, 0, 2)). simpl bind at 2.
    rewrite cylindrical_conversion_off_axis; rewrite sqrt_2_0; [| lra].
    rewrite r_cell_4x4, z_cell_4x4. unfold cubic_lowest.
    replace (math_floor (2 - 0.5)) with 1%Z by eval_floor 1%Z.
    unfold envelope_cubic_modes, for_each, envelope_cubic_mode,
      InlineFunctions.add_cubic_envelope_gather_for_mode,
      InlineFunctions.cubic_stencil_sum, envelope_register.
    simpl. f_equal. f_equal. f_equal. lra.
  - change (position particles_2 1) with (Ok (0, 2, 2)). simpl bind at 2.
    rewrite cylindrical_conversion_off_axis; rewrite sqrt_0_2; [| lra].
    rewrite r_cell_4x4, z_cell_4x4. unfold cubic_lowest.
    replace (math_floor (2 - 0.5)) with 1%Z by eval_floor 1%Z.
    unfold envelope_cubic_modes, for_each, envelope_cubic_mode,
      InlineFunctions.add_cubic_envelope_gather_for_mode,
      InlineFunctions.cubic_stencil_sum, envelope_register.
    simpl. f_equal. f_equal. f_equal. f_equal. lra.
Qed.

Lemma gather_envelope_field_numba_cubic_2 :
  gather_envelope_field_numba_cubic
    InlineFunctions.add_cubic_envelope_gather_for_mode
    particles_2 geometry_4x4 (fun _ _ => 0) (fun _ _ => 0)
    envelope_sqrt3 [0%Z] (envelope_out_2 5) 1 [0%Z; 2%Z] false true
  = Ok (envelope_out_2 (0.5 * (5 + 3))).
Proof.
  rewrite (gather_envelope_field_numba_cubic_eq _ _ _ _ _ _ _ _ _ _ _ _ 2%Z);
    [| reflexivity | reflexivity].
  change (py_range 0 2) with [0%Z; 1%Z]. unfold for_each, envelope_out_2.
  rewrite gather_envelope_cubic_particle_2 by (left; reflexivity).
  simpl Z.eqb. cbv iota.
  rewrite gather_envelope_cubic_particle_2 by (right; reflexivity).
  reflexivity.
Qed.

Lemma gather_envelope_field_numba_cubic_chunk_invariance_witness :
  gather_envelope_field_numba_cubic
    InlineFunctions.add_cubic_envelope_gather_for_mode
    particles_2 geometry_4x4 (fun nt _ => IZR nt) (fun _ _ => 1)
    envelope_sqrt3 [0%Z] (envelope_out_2 5) 3 [0%Z; 1%Z; 1%Z; 2%Z] false true
  = Ok (envelope_out_2 (0.5 * (5 + 3))).
Proof.
  rewrite <- gather_envelope_field_numba_cubic_2.
  apply (gather_envelope_field_numba_cubic_chunk_invariance
           InlineFunctions.add_cubic_envelope_gather_for_mode
           particles_2 geometry_4x4 envelope_sqrt3 [0%Z] false true
           (envelope_out_2 5) (fun nt _ => IZR nt) (fun _ _ => 1)
           (fun _ _ => 0) (fun _ _ => 0) 3%Z [0%Z; 1%Z; 1%Z; 2%Z]).
  - reflexivity.
  - reflexivity.
Defined.

Lemma setitem_length {A : Type} (l l' : list A) (i : Z) (v : A) :
  setitem l i v = Ok l' -> length l' = length l.
Proof.
  unfold setitem. intros H; apply bind_Ok in H as (k & _ & [= <-]).
  apply length_update.
Qed.

Lemma envelope_register_lengths (gather_gradient average_a2 : bool)
    (cos sin : R) (F Fr Ft Fz : Cplx) (i : Z) (o o' : envelope_out) :
  envelope_register gather_gradient average_a2 cos sin F Fr Ft Fz i o = Ok o' ->
  envelope_lengths o' = envelope_lengths o.
Proof.
  unfold envelope_register. intros H.
  apply bind_Ok in H as ([[gx gy] gz] & Hg & H).
  apply bind_Ok in H as (a2' & Ha & H). injection H as <-.
  unfold envelope_lengths. simpl.
  assert (La : length a2' = length (a2 o)).
  { destruct average_a2.
    - apply bind_Ok in Ha as (old & _ & Ha). eapply setitem_length, Ha.
    - eapply setitem_length, Ha. }
  destruct gather_gradient.
  - apply bind_Ok in Hg as (lx & Hx & Hg).
    apply bind_Ok in Hg as (ly & Hy & Hg).
    apply bind_Ok in Hg as (lz & Hz & Hg). injection Hg as <- <- <-.
    apply setitem_length in Hx, Hy, Hz. congruence.
  - injection Hg as <- <- <-. congruence.
Qed.

Lemma envelope_linear_intensity_nonneg
    (add_linear_envelope : linear_envelope_gather_for_mode)
    (P : particles) (G : geometry) (A : envelope_grids) (m_array : list Z)
    (gather_gradient : bool) (i : Z) (I : R) :
  envelope_linear_intensity add_linear_envelope P G A m_array
    gather_gradient i = Ok I -> 0 <= I.
Proof.
  unfold envelope_linear_intensity. intros H.
  apply bind_Ok in H as ([[cos sin] [[[F Fr] Ft] Fz]] & _ & H).
  injection H as <-. simpl. nra.
Qed.

(** X9. When a call of the linear envelope kernel returns: the four arrays
    have kept their lengths; the entries of the intensity array at indices
    [N] and beyond are the ones it had; without the gradient flag the three
    gradient arrays are the ones the call received; the stored intensity of
    every particle is nonnegative when it is overwritten, and also when it
    is averaged with a nonnegative stored value. *)
Theorem gather_envelope_field_numba_linear_preserves
    (add_linear_envelope : linear_envelope_gather_for_mode)
    (P : particles) (G : geometry) (A : envelope_grids) (m_array : list Z)
    (gather_gradient average_a2 : bool) (o o' : envelope_out) :
  let N := Z.of_nat (length (ptcl_x P)) in
  gather_envelope_field_numba_linear add_linear_envelope P G A m_array
    gather_gradient average_a2 o = Ok o' ->
  envelope_lengths o' = envelope_lengths o /\
  (forall j, (N <= j)%Z -> getitem (a2 o') j = getitem (a2 o) j) /\
  (gather_gradient = false ->
   grad_a2_x o' = grad_a2_x o /\ grad_a2_y o' = grad_a2_y o /\
   grad_a2_z o' = grad_a2_z o) /\
  (forall i, (0 <= i < N)%Z ->
     exists v,
       getitem (a2 o') i = Ok v /\
       (average_a2 = false -> 0 <= v) /\
       (forall old, getitem (a2 o) i = Ok old -> 0 <= old -> 0 <= v)).
Proof.
  intros N H. split; [| split; [| split]].
  - apply (for_each_invariant
             (gather_envelope_linear_body add_linear_envelope P G A m_array
                gather_gradient average_a2)
             (fun s => envelope_lengths s = envelope_lengths o)
             ltac:(intros k s s' Hs Hb;
                   apply gather_envelope_linear_body_Ok in Hb
                     as (cos & sin & F & Fr & Ft & Fz & _ & Hreg);
                   rewrite (envelope_register_lengths _ _ _ _ _ _ _ _ _ _ _
                              Hreg); exact Hs)
             _ o o' eq_refl H).
  - intros j Hj.
    apply (for_each_untouched
             (gather_envelope_linear_body add_linear_envelope P G A m_array
                gather_gradient average_a2)
             (fun s k => getitem (a2 s) k)
             ltac:(intros k j' s s' Hk Hj' Hkj Hb;
                   apply gather_envelope_linear_body_Ok in Hb
                     as (cos & sin & F & Fr & Ft & Fz & _ & Hreg);
                   exact (envelope_register_a2_frame _ _ _ _ _ _ _ _ k j' _ _
                            Hk Hj' Hkj Hreg))
             (py_range 0 N) o o' j).
    + apply py_range_nonneg; lia.
    + unfold N in Hj. lia.
    + intros Hin. apply in_py_range in Hin. lia.
    + exact H.
  - intros ->.
    apply (for_each_invariant
             (gather_envelope_linear_body add_linear_envelope P G A m_array
                false average_a2)
             (fun s => grad_a2_x s = grad_a2_x o /\ grad_a2_y s = grad_a2_y o
                       /\ grad_a2_z s = grad_a2_z o)
             ltac:(intros k s s' (Hx & Hy & Hz) Hb;
                   apply gather_envelope_linear_body_Ok in Hb
                     as (cos & sin & F & Fr & Ft & Fz & _ & Hreg);
                   apply envelope_register_no_gradient in Hreg
                     as (Hx' & Hy' & Hz');
                   repeat split; congruence)
             _ o o' (conj eq_refl (conj eq_refl eq_refl)) H).
  - intros i Hi.
    destruct (gather_envelope_field_numba_linear_a2 add_linear_envelope P G A
                m_array gather_gradient average_a2 i o o' Hi H)
      as (I & HI & Hpol).
    apply envelope_linear_intensity_nonneg in HI.
    destruct average_a2.
    + destruct Hpol as (old & Hold & Hnew).
      exists (0.5 * (old + I)). split; [exact Hnew |]. split; [discriminate |].
      intros old' Hold' Hpos. rewrite Hold in Hold'. injection Hold' as <-.
      lra.
    + exists I. split; [exact Hpol |]. split; intros; exact HI.
Qed.

Lemma gather_envelope_field_numba_linear_preserves_witness :
  envelope_lengths (envelope_out_of (0.5 * (5 + 3)))
  = envelope_lengths (envelope_out_of 5) /\
  grad_a2_x (envelope_out_of (0.5 * (5 + 3))) = grad_a2_x (envelope_out_of 5).
Proof.
  destruct (gather_envelope_field_numba_linear_preserves _ _ _ _ _ _ _ _ _
              (gather_envelope_field_numba_linear_3_4 5))
    as (H1 & _ & H3 & _).
  split; [exact H1 |]. apply H3. reflexivity.
Defined.

(** * Ionization *)

Section IonizationProperties.

Variables c e : R.
Variable get_E_amplitude_numba : R -> R -> R -> R -> R -> R -> R -> R -> R -> R.
Variable get_ionization_probability_numba : R -> R -> R -> R -> R.
Variables batch_size Ntot z_max : Z.
Variable inp : Ionization.ion_inputs.

Local Abbreviation probability :=
  (Ionization.probability c get_E_amplitude_numba
     get_ionization_probability_numba inp).
Local Abbreviation ionize_particle :=
  (Ionization.ionize_particle c e get_E_amplitude_numba
     get_ionization_probability_numba z_max inp).
Local Abbreviation batch_range := (Ionization.batch_range batch_size Ntot).
Local Abbreviation ionize_batch :=
  (Ionization.ionize_batch c e get_E_amplitude_numba
     get_ionization_probability_numba batch_size Ntot z_max inp).
Local Abbreviation ionize_ions_numba :=
  (Ionization.ionize_ions_numba c e get_E_amplitude_numba
     get_ionization_probability_numba batch_size Ntot z_max inp).
Local Abbreviation outcome :=
  (Ionization.outcome c e get_E_amplitude_numba
     get_ionization_probability_numba z_max inp).
Local Abbreviation particle_at := Ionization.particle_at.
Local Abbreviation gained := Ionization.gained.

(** The three ways through the body of the loop. *)
Lemma ionize_particle_cases (i_batch ip : Z) (st st' : Ionization.ion_state) :
  ionize_particle i_batch ip st = Ok st' ->
  exists level,
    getitem (Ionization.ionization_level st) ip = Ok level /\
    ((z_max <= level)%Z /\ st' = st \/
     (level < z_max)%Z /\
     exists p draw,
       probability ip level = Ok p /\
       getitem (Ionization.random_draw inp) ip = Ok draw /\
       (draw < p /\
        (exists n weight flags counts levels weights,
           setitem (Ionization.is_ionized st) ip 1%Z = Ok flags /\
           getitem (Ionization.n_ionized st) i_batch = Ok n /\
           setitem (Ionization.n_ionized st) i_batch (n + 1)%Z = Ok counts /\
           setitem (Ionization.ionization_level st) ip (level + 1)%Z
           = Ok levels /\
           getitem (Ionization.neutral_weight inp) ip = Ok weight /\
           setitem (Ionization.w st) ip (e * IZR (level + 1) * weight)
           = Ok weights /\
           st' = {| Ionization.n_ionized := counts;
                    Ionization.is_ionized := flags;
                    Ionization.ionization_level := levels;
                    Ionization.w := weights |})
        \/ ~ draw < p /\
           exists flags,
             setitem (Ionization.is_ionized st) ip 0%Z = Ok flags /\
             st' = {| Ionization.n_ionized := Ionization.n_ionized st;
                      Ionization.is_ionized := flags;
                      Ionization.ionization_level :=
                        Ionization.ionization_level st;
                      Ionization.w := Ionization.w st |})).
Proof.
  unfold Ionization.ionize_particle. intros H.
  apply bind_Ok in H as (level & Hl & H). exists level. split; [exact Hl |].
  destruct (Z.geb_spec level z_max) as [Hge | Hlt].
  - left. injection H as <-. split; [lia | reflexivity].
  - right. split; [exact Hlt |].
    apply bind_Ok in H as (p & Hp & H).
    apply bind_Ok in H as (draw & Hd & H).
    exists p, draw. split; [exact Hp |]. split; [exact Hd |].
    destruct (Rlt_dec draw p) as [Hi | Hi].
    + left. split; [exact Hi |].
      apply bind_Ok in H as (flags & Hf & H).
      apply bind_Ok in H as (n & Hn & H).
      apply bind_Ok in H as (counts & Hc & H).
      apply bind_Ok in H as (old_level & Ho & H).
      apply bind_Ok in H as (levels & Hls & H).
      apply bind_Ok in H as (new_level & Hnl & H).
      apply bind_Ok in H as (weight & Hw & H).
      apply bind_Ok in H as (weights & Hws & H).
      rewrite Hl in Ho. injection Ho as <-.
      rewrite (getitem_setitem_same _ _ _ _ Hls) in Hnl. injection Hnl as <-.
      injection H as <-.
      exists n, weight, flags, counts, levels, weights. auto 10.
    + right. split; [exact Hi |].
      apply bind_Ok in H as (flags & Hf & H). injection H as <-.
      exists flags. auto.
Qed.

Lemma ionize_particle_frame (i_batch ip j : Z) (st st' : Ionization.ion_state) :
  (0 <= ip)%Z -> (0 <= j)%Z -> ip <> j ->
  ionize_particle i_batch ip st = Ok st' ->
  particle_at st' j = particle_at st j.
Proof.
  intros Hip Hj Hne H.
  apply ionize_particle_cases in H
    as (level & Hl & [[_ ->] | (_ & p & draw & _ & _ & [[_ H] | [_ H]])]).
  - reflexivity.
  - destruct H as (n & weight & flags & counts & levels & weights
                   & Hf & _ & _ & Hls & _ & Hws & ->).
    unfold Ionization.particle_at. simpl.
    rewrite (getitem_setitem_other _ _ ip j _ Hip Hj Hne Hf).
    rewrite (getitem_setitem_other _ _ ip j _ Hip Hj Hne Hls).
    rewrite (getitem_setitem_other _ _ ip j _ Hip Hj Hne Hws).
    reflexivity.
  - destruct H as (flags & Hf & ->).
    unfold Ionization.particle_at. simpl.
    rewrite (getitem_setitem_other _ _ ip j _ Hip Hj Hne Hf).
    reflexivity.
Qed.

Lemma ionize_particle_outcome (i_batch ip : Z) (st st' : Ionization.ion_state) :
  ionize_particle i_batch ip st = Ok st' ->
  outcome ip (particle_at st ip) (particle_at st' ip).
Proof.
  intros H.
  apply ionize_particle_cases in H
    as (level & Hl & [[Hge ->] | (Hlt & p & draw & Hp & Hd & [[Hi H] | [Hi H]])]).
  - exists level. split; [exact Hl |]. left. auto.
  - destruct H as (n & weight & flags & counts & levels & weights
                   & Hf & _ & _ & Hls & Hw & Hws & ->).
    exists level. split; [exact Hl |]. right. split; [exact Hlt |].
    exists p, draw. split; [exact Hp |]. split; [exact Hd |].
    left. split; [exact Hi |]. exists weight. split; [exact Hw |].
    unfold Ionization.particle_at. simpl.
    rewrite (getitem_setitem_same _ _ _ _ Hf).
    rewrite (getitem_setitem_same _ _ _ _ Hls).
    rewrite (getitem_setitem_same _ _ _ _ Hws). reflexivity.
  - destruct H as (flags & Hf & ->).
    exists level. split; [exact Hl |]. right. split; [exact Hlt |].
    exists p, draw. split; [exact Hp |]. split; [exact Hd |].
    right. split; [exact Hi |].
    unfold Ionization.particle_at. simpl.
    rewrite (getitem_setitem_same _ _ _ _ Hf). reflexivity.
Qed.

(** The counter of the batch rises by what the level of the particle has
    gained; the counters of the other batches stay. *)
Lemma ionize_particle_counter (i_batch ip : Z) (st st' : Ionization.ion_state)
    (n : Z) :
  ionize_particle i_batch ip st = Ok st' ->
  getitem (Ionization.n_ionized st) i_batch = Ok n ->
  getitem (Ionization.n_ionized st') i_batch
  = Ok (n + gained (particle_at st ip) (particle_at st' ip))%Z.
Proof.
  intros H Hn.
  apply ionize_particle_cases in H
    as (level & Hl & [[Hge ->] | (Hlt & p & draw & Hp & Hd & [[Hi H] | [Hi H]])]).
  - unfold Ionization.gained, Ionization.particle_at. simpl. rewrite Hl, Hn.
    f_equal. lia.
  - destruct H as (n0 & weight & flags & counts & levels & weights
                   & Hf & Hn0 & Hc & Hls & Hw & Hws & ->).
    rewrite Hn in Hn0. injection Hn0 as <-.
    unfold Ionization.gained, Ionization.particle_at. simpl.
    rewrite Hl, (getitem_setitem_same _ _ _ _ Hls).
    rewrite (getitem_setitem_same _ _ _ _ Hc). f_equal. lia.
  - destruct H as (flags & Hf & ->).
    unfold Ionization.gained, Ionization.particle_at. simpl. rewrite Hl, Hn.
    f_equal. lia.
Qed.

Lemma ionize_particle_other_counters (i_batch ip b : Z)
    (st st' : Ionization.ion_state) :
  (0 <= i_batch)%Z -> (0 <= b)%Z -> i_batch <> b ->
  ionize_particle i_batch ip st = Ok st' ->
  getitem (Ionization.n_ionized st') b = getitem (Ionization.n_ionized st) b.
Proof.
  intros Hi Hb Hne H.
  apply ionize_particle_cases in H
    as (level & Hl & [[_ ->] | (_ & p & draw & _ & _ & [[_ H] | [_ H]])]).
  - reflexivity.
  - destruct H as (n & weight & flags & counts & levels & weights
                   & _ & _ & Hc & _ & _ & _ & ->).
    simpl. exact (getitem_setitem_other _ _ i_batch b _ Hi Hb Hne Hc).
  - destruct H as (flags & _ & ->). reflexivity.
Qed.

Lemma batch_range_nonneg (b ip : Z) :
  (0 <= b)%Z -> In ip (batch_range b) -> (0 <= ip)%Z.
Proof.
  unfold Ionization.batch_range. intros Hb Hin.
  apply in_py_range in Hin. nia.
Qed.

Lemma batch_range_disjoint (b b' ip : Z) :
  (0 <= b)%Z -> (0 <= b')%Z -> b <> b' ->
  In ip (batch_range b) -> ~ In ip (batch_range b').
Proof.
  unfold Ionization.batch_range. intros Hb Hb' Hne Hin Hin'.
  apply in_py_range in Hin, Hin'. nia.
Qed.

Lemma batch_range_all_nonneg (b : Z) :
  (0 <= b)%Z -> Forall (fun ip => (0 <= ip)%Z) (batch_range b).
Proof.
  intros Hb. apply Forall_forall. intros ip. apply batch_range_nonneg, Hb.
Qed.

Lemma ionize_batch_Ok (b : Z) (st st' : Ionization.ion_state) :
  ionize_batch b st = Ok st' ->
  exists counts,
    setitem (Ionization.n_ionized st) b 0%Z = Ok counts /\
    for_each (ionize_particle b) (batch_range b)
      {| Ionization.n_ionized := counts;
         Ionization.is_ionized := Ionization.is_ionized st;
         Ionization.ionization_level := Ionization.ionization_level st;
         Ionization.w := Ionization.w st |} = Ok st'.
Proof.
  unfold Ionization.ionize_batch. intros H.
  apply bind_Ok in H as (counts & Hc & H). exists counts. auto.
Qed.

Lemma ionize_batch_frame (b j : Z) (st st' : Ionization.ion_state) :
  (0 <= b)%Z -> (0 <= j)%Z -> ~ In j (batch_range b) ->
  ionize_batch b st = Ok st' -> particle_at st' j = particle_at st j.
Proof.
  intros Hb Hj Hn H. apply ionize_batch_Ok in H as (counts & _ & H).
  apply (for_each_untouched (ionize_particle b) particle_at
           ltac:(intros k j' s s' Hk Hj' Hne Hs;
                 exact (ionize_particle_frame b k j' s s' Hk Hj' Hne Hs))
           _ _ _ j (batch_range_all_nonneg b Hb) Hj Hn H).
Qed.

Lemma ionize_batch_outcome (b ip : Z) (st st' : Ionization.ion_state) :
  (0 <= b)%Z -> In ip (batch_range b) ->
  ionize_batch b st = Ok st' ->
  outcome ip (particle_at st ip) (particle_at st' ip).
Proof.
  intros Hb Hin H. apply ionize_batch_Ok in H as (counts & _ & H).
  apply (for_each_once (ionize_particle b) particle_at outcome
           ltac:(intros k j' s s' Hk Hj' Hne Hs;
                 exact (ionize_particle_frame b k j' s s' Hk Hj' Hne Hs))
           ltac:(intros k s s' _ Hs;
                 exact (ionize_particle_outcome b k s s' Hs))
           _ _ _ ip (NoDup_py_range _ _) (batch_range_all_nonneg b Hb)
           Hin H).
Qed.

Lemma for_each_invariant_in {S : Type} (body : Z -> S -> result S)
    (Inv : S -> Prop) (l : list Z) :
  (forall i s s', In i l -> Inv s -> body i s = Ok s' -> Inv s') ->
  forall s s', Inv s -> for_each body l s = Ok s' -> Inv s'.
Proof.
  induction l as [| i l IH]; intros Hstep s s' Hs H; simpl in H.
  - injection H as <-. exact Hs.
  - destruct (body i s) as [s1 |] eqn:E; [| discriminate].
    apply (IH ltac:(intros k u u' Hk; apply Hstep; right; exact Hk) s1 s');
      [| exact H].
    apply (Hstep i s s1); [left; reflexivity | exact Hs | exact E].
Qed.

Lemma ionize_batch_other_counters (b b' : Z) (st st' : Ionization.ion_state) :
  (0 <= b)%Z -> (0 <= b')%Z -> b <> b' ->
  ionize_batch b st = Ok st' ->
  getitem (Ionization.n_ionized st') b' = getitem (Ionization.n_ionized st) b'.
Proof.
  intros Hb Hb' Hne H. apply ionize_batch_Ok in H as (counts & Hc & H).
  rewrite <- (getitem_setitem_other _ _ b b' _ Hb Hb' Hne Hc).
  eapply (for_each_invariant (ionize_particle b)
            (fun s => getitem (Ionization.n_ionized s) b' = getitem counts b')).
  3: exact H.
  - intros k s s' Hs Hk. cbv beta in *.
    rewrite (ionize_particle_other_counters b k b' s s' Hb Hb' Hne Hk).
    exact Hs.
  - reflexivity.
Qed.

Lemma Zsum_ext_in (f g : Z -> Z) (l : list Z) :
  (forall i, In i l -> f i = g i) -> Ionization.Zsum f l = Ionization.Zsum g l.
Proof.
  induction l as [| i l IH]; intros H; simpl; [reflexivity |].
  rewrite (H i) by (left; reflexivity).
  rewrite IH by (intros k Hk; apply H; right; exact Hk). reflexivity.
Qed.

(** Through a batch, the counter rises by what the levels of its particles
    gain. *)
Lemma ionize_particles_counter (b : Z) (l : list Z) :
  forall (st st' : Ionization.ion_state) (n : Z),
    NoDup l -> Forall (fun ip => (0 <= ip)%Z) l ->
    getitem (Ionization.n_ionized st) b = Ok n ->
    for_each (ionize_particle b) l st = Ok st' ->
    getitem (Ionization.n_ionized st') b
    = Ok (n + Ionization.Zsum
                (fun ip => gained (particle_at st ip) (particle_at st' ip)) l)%Z.
Proof.
  induction l as [| ip l IH]; intros st st' n Hd Hl Hn H; simpl in H.
  - injection H as <-. simpl. rewrite Hn. f_equal. lia.
  - inversion Hd as [| ? ? Hni Hd']; subst.
    inversion Hl as [| ? ? Hip Hl']; subst.
    destruct (ionize_particle b ip st) as [st1 |] eqn:E; [| discriminate].
    pose proof (ionize_particle_counter b ip st st1 n E Hn) as Hn1.
    rewrite (IH st1 st' _ Hd' Hl' Hn1 H). f_equal. simpl.
    assert (Hsame : particle_at st' ip = particle_at st1 ip).
    { apply (for_each_untouched (ionize_particle b) particle_at
               ltac:(intros k j' s s' Hk Hj' Hne Hs;
                     exact (ionize_particle_frame b k j' s s' Hk Hj' Hne Hs))
               l st1 st' ip Hl' Hip Hni H). }
    rewrite Hsame.
    rewrite (Zsum_ext_in
               (fun j => gained (particle_at st1 j) (particle_at st' j))
               (fun j => gained (particle_at st j) (particle_at st' j))).
    + lia.
    + intros j Hj.
      rewrite (ionize_particle_frame b ip j st st1 Hip); try assumption.
      * reflexivity.
      * rewrite Forall_forall in Hl'. apply Hl', Hj.
      * intros ->. contradiction.
Qed.

Lemma ionize_batch_counter (b : Z) (st st' : Ionization.ion_state) :
  (0 <= b)%Z -> ionize_batch b st = Ok st' ->
  getitem (Ionization.n_ionized st') b
  = Ok (Ionization.Zsum
          (fun ip => gained (particle_at st ip) (particle_at st' ip))
          (batch_range b)).
Proof.
  intros Hb H. apply ionize_batch_Ok in H as (counts & Hc & H).
  pose proof (fun Hn => ionize_particles_counter b _ _ st' 0%Z
                          (NoDup_py_range _ _) (batch_range_all_nonneg b Hb)
                          Hn H) as Hsum.
  simpl in Hsum. rewrite (Hsum (getitem_setitem_same _ _ _ _ Hc)).
  reflexivity.
Qed.

Lemma in_batch_range (b ip : Z) :
  In ip (batch_range b) <->
  (b * batch_size <= ip < Z.min ((b + 1) * batch_size) Ntot)%Z.
Proof. unfold Ionization.batch_range. apply in_py_range. Qed.

Lemma ionize_ions_numba_visited (N_batch : Z)
    (st st' : Ionization.ion_state) (b ip : Z) :
  ionize_ions_numba N_batch st = Ok st' ->
  (0 <= b < N_batch)%Z ->
  (b * batch_size <= ip < Z.min ((b + 1) * batch_size) Ntot)%Z ->
  outcome ip (particle_at st ip) (particle_at st' ip).
Proof.
  unfold Ionization.ionize_ions_numba. intros H Hb Hip.
  apply in_batch_range in Hip.
  pose proof (batch_range_nonneg b ip ltac:(lia) Hip) as Hnn.
  apply (for_each_once ionize_batch
           (fun s b' => if (b' =? b)%Z then Some (particle_at s ip) else None)
           (fun b' old new =>
              forall u v, old = Some u -> new = Some v -> outcome ip u v))
    with (l := py_range 0 N_batch) (s := st) (s' := st') (i := b).
  - intros b1 b2 s s' Hb1 Hb2 Hne Hs.
    destruct (Z.eqb_spec b2 b) as [-> | _]; [| reflexivity].
    f_equal. apply (ionize_batch_frame b1 ip s s' Hb1 Hnn); [| exact Hs].
    apply (batch_range_disjoint b b1 ip); try assumption; lia.
  - intros b1 s s' Hb1 Hs u v Hu Hv.
    destruct (Z.eqb_spec b1 b) as [-> | _]; [| discriminate].
    injection Hu as <-. injection Hv as <-.
    apply (ionize_batch_outcome b ip s s' Hb1 Hip Hs).
  - apply NoDup_py_range.
  - apply py_range_nonneg; lia.
  - apply in_py_range; lia.
  - exact H.
  - rewrite Z.eqb_refl. reflexivity.
  - rewrite Z.eqb_refl. reflexivity.
Qed.

Lemma ionize_ions_numba_unvisited (N_batch : Z)
    (st st' : Ionization.ion_state) (j : Z) :
  ionize_ions_numba N_batch st = Ok st' ->
  (0 <= j)%Z ->
  (forall b, (0 <= b < N_batch)%Z ->
     ~ (b * batch_size <= j < Z.min ((b + 1) * batch_size) Ntot)%Z) ->
  particle_at st' j = particle_at st j.
Proof.
  unfold Ionization.ionize_ions_numba. intros H Hj Hout.
  eapply (for_each_invariant_in ionize_batch
            (fun s => particle_at s j = particle_at st j)).
  3: exact H.
  - intros b s s' Hb Hs Hstep. cbv beta in *. apply in_py_range in Hb.
    rewrite <- Hs.
    apply (ionize_batch_frame b j s s' ltac:(lia) Hj); [| exact Hstep].
    intros Hin. apply in_batch_range in Hin. apply (Hout b); [lia | exact Hin].
  - reflexivity.
Qed.

(** X10. When a call of [ionize_ions_numba] returns, every particle of a
    batch has been treated once.  A particle whose level had reached
    [z_max] is skipped: level, weight and flag are left as they were, the
    flag is not reset.  Otherwise the particle is ionized exactly when its
    random draw is below the ionization probability of its level: then its
    flag is 1, its level is one more and its weight is [e] times the new
    level times its neutral weight; if not, its flag is 0 and level and
    weight are left as they were.  Particles that belong to no batch are
    not touched. *)
Theorem ionize_ions_numba_particles (N_batch : Z)
    (st st' : Ionization.ion_state) :
  ionize_ions_numba N_batch st = Ok st' ->
  (forall b ip,
     (0 <= b < N_batch)%Z ->
     (b * batch_size <= ip < Z.min ((b + 1) * batch_size) Ntot)%Z ->
     outcome ip (particle_at st ip) (particle_at st' ip)) /\
  (forall j,
     (0 <= j)%Z ->
     (forall b, (0 <= b < N_batch)%Z ->
        ~ (b * batch_size <= j < Z.min ((b + 1) * batch_size) Ntot)%Z) ->
     particle_at st' j = particle_at st j).
Proof.
  intros H. split.
  - intros b ip Hb Hip.
    exact (ionize_ions_numba_visited N_batch st st' b ip H Hb Hip).
  - intros j Hj Hout.
    exact (ionize_ions_numba_unvisited N_batch st st' j H Hj Hout).
Qed.

Lemma outcome_gained (ip : Z) (old new : result Z * result Z * result R) :
  outcome ip old new -> (0 <= gained old new <= 1)%Z.
Proof.
  intros (level & Hl & [[_ ->] | (_ & p & draw & _ & _ & [[_ H] | [_ ->]])]);
    unfold Ionization.gained.
  - rewrite Hl. lia.
  - destruct H as (weight & _ & ->). rewrite Hl. simpl. lia.
  - simpl. rewrite Hl. lia.
Qed.

(** X11. When a call of [ionize_ions_numba] returns, the counter of every
    batch holds the number of particles of the batch that the call has
    ionized: the sum, over the particles of the batch, of what their level
    has gained, each gain being 0 or 1.  The counters beyond [N_batch] are
    not touched. *)
Theorem ionize_ions_numba_counters (N_batch : Z)
    (st st' : Ionization.ion_state) :
  ionize_ions_numba N_batch st = Ok st' ->
  (forall b, (0 <= b < N_batch)%Z ->
     getitem (Ionization.n_ionized st') b
     = Ok (Ionization.Zsum
             (fun ip => gained (particle_at st ip) (particle_at st' ip))
             (batch_range b)) /\
     forall ip, In ip (batch_range b) ->
       (0 <= gained (particle_at st ip) (particle_at st' ip) <= 1)%Z) /\
  (forall b, (N_batch <= b)%Z -> (0 <= b)%Z ->
     getitem (Ionization.n_ionized st') b
     = getitem (Ionization.n_ionized st) b).
Proof.
  intros H. split.
  - intros b Hb. split.
    + unfold Ionization.ionize_ions_numba in H.
      apply (for_each_once ionize_batch
               (fun s b' => (getitem (Ionization.n_ionized s) b',
                             map (particle_at s) (batch_range b')))
               (fun b' old new =>
                  forall f g,
                    snd old = map f (batch_range b') ->
                    snd new = map g (batch_range b') ->
                    fst new
                    = Ok (Ionization.Zsum (fun ip => gained (f ip) (g ip))
                            (batch_range b'))))
        with (l := py_range 0 N_batch) (s := st) (s' := st') (i := b).
      * intros b1 b2 s s' Hb1 Hb2 Hne Hs. f_equal.
        -- exact (ionize_batch_other_counters b1 b2 s s' Hb1 Hb2 Hne Hs).
        -- apply map_ext_in. intros ip Hip.
           apply (ionize_batch_frame b1 ip s s' Hb1
                    (batch_range_nonneg b2 ip Hb2 Hip)); [| exact Hs].
           exact (batch_range_disjoint b2 b1 ip Hb2 Hb1
                    ltac:(congruence) Hip).
      * intros b1 s s' Hb1 Hs f g Hf Hg. simpl in *.
        rewrite (ionize_batch_counter b1 s s' Hb1 Hs). f_equal.
        apply Zsum_ext_in. intros ip Hip.
        rewrite (proj1 map_ext_in_iff Hf ip Hip).
        rewrite (proj1 map_ext_in_iff Hg ip Hip). reflexivity.
      * apply NoDup_py_range.
      * apply py_range_nonneg; lia.
      * apply in_py_range; lia.
      * exact H.
      * reflexivity.
      * reflexivity.
    + intros ip Hip. apply (outcome_gained ip).
      apply in_batch_range in Hip.
      unfold Ionization.ionize_ions_numba in H.
      pose proof (batch_range_nonneg b ip ltac:(lia)
                    (proj2 (in_batch_range b ip) Hip)) as Hnn.
      apply (for_each_once ionize_batch
               (fun s b' => if (b' =? b)%Z then Some (particle_at s ip)
                            else None)
               (fun b' old new =>
                  forall u v, old = Some u -> new = Some v -> outcome ip u v))
        with (l := py_range 0 N_batch) (s := st) (s' := st') (i := b).
      * intros b1 b2 s s' Hb1 Hb2 Hne Hs.
        destruct (Z.eqb_spec b2 b) as [-> | _]; [| reflexivity].
        f_equal. apply (ionize_batch_frame b1 ip s s' Hb1 Hnn); [| exact Hs].
        apply (batch_range_disjoint b b1 ip); try assumption; try lia.
        apply in_batch_range; exact Hip.
      * intros b1 s s' Hb1 Hs u v Hu Hv.
        destruct (Z.eqb_spec b1 b) as [-> | _]; [| discriminate].
        injection Hu as <-. injection Hv as <-.
        apply (ionize_batch_outcome b ip s s' Hb1); [| exact Hs].
        apply in_batch_range; exact Hip.
      * apply NoDup_py_range.
      * apply py_range_nonneg; lia.
      * apply in_py_range; lia.
      * exact H.
      * rewrite Z.eqb_refl. reflexivity.
      * rewrite Z.eqb_refl. reflexivity.
  - intros b Hb Hb0. unfold Ionization.ionize_ions_numba in H.
    eapply (for_each_invariant_in ionize_batch
              (fun s => getitem (Ionization.n_ionized s) b
                        = getitem (Ionization.n_ionized st) b)).
    3: exact H.
    + intros b1 s s' Hb1 Hs Hstep. cbv beta in *. apply in_py_range in Hb1.
      rewrite <- Hs.
      apply (ionize_batch_other_counters b1 b s s'); try lia. exact Hstep.
    + reflexivity.
Qed.

(** X12. Through a call of [ionize_ions_numba] the level of a particle
    never decreases and never passes [z_max], unless it was above [z_max]
    from the start, where it stays: levels that are at most [z_max] before
    the call are at most [z_max] after it. *)
Theorem ionize_ions_numba_levels (N_batch : Z)
    (st st' : Ionization.ion_state) :
  ionize_ions_numba N_batch st = Ok st' ->
  forall j level,
    (0 <= j)%Z ->
    getitem (Ionization.ionization_level st) j = Ok level ->
    exists level',
      getitem (Ionization.ionization_level st') j = Ok level' /\
      (level <= level' <= Z.max level z_max)%Z.
Proof.
  unfold Ionization.ionize_ions_numba. intros H j level Hj Hl.
  eapply (for_each_invariant_in ionize_batch
            (fun s => exists l',
                 getitem (Ionization.ionization_level s) j = Ok l' /\
                 (level <= l' <= Z.max level z_max)%Z)).
  3: exact H.
  - intros b s s' Hb (l1 & Hl1 & Hb1) Hstep. apply in_py_range in Hb.
    apply ionize_batch_Ok in Hstep as (counts & _ & Hstep).
    eapply (for_each_invariant_in (ionize_particle b)
              (fun s => exists l',
                   getitem (Ionization.ionization_level s) j = Ok l' /\
                   (level <= l' <= Z.max level z_max)%Z)).
    3: exact Hstep.
    + intros ip u u' Hip (l2 & Hl2 & Hb2) Hu.
      pose proof (batch_range_nonneg b ip ltac:(lia) Hip) as Hnn.
      destruct (Z.eq_dec ip j) as [-> | Hne].
      * pose proof (ionize_particle_outcome b j u u' Hu)
          as (lv & Hlv & Hcases).
        unfold Ionization.particle_at in Hlv, Hcases. simpl in Hlv.
        rewrite Hl2 in Hlv. injection Hlv as <-.
        destruct Hcases
          as [[_ E] | (Hlt & p & draw & _ & _ & [[_ (wt & _ & E)] | [_ E]])];
          injection E as E1 _ _.
        -- exists l2. split; [congruence | lia].
        -- exists (l2 + 1)%Z. split; [exact E1 | lia].
        -- exists l2. split; [simpl in E1; congruence | lia].
      * pose proof (ionize_particle_frame b ip j u u' Hnn Hj Hne Hu) as E.
        unfold Ionization.particle_at in E. injection E as E1 _ _.
        exists l2. split; [congruence | lia].
    + exists l1. auto.
  - exists level. split; [exact Hl | lia].
Qed.

Lemma setitem_at_length {A : Type} (l : list A) (v : A) :
  setitem l (Z.of_nat (length l)) v = IndexError.
Proof.
  rewrite setitem_nonneg by lia. rewrite Z.ltb_irrefl. reflexivity.
Qed.

Lemma ionize_batch_counters_length (b : Z) (st st' : Ionization.ion_state) :
  ionize_batch b st = Ok st' ->
  length (Ionization.n_ionized st') = length (Ionization.n_ionized st).
Proof.
  intros H. apply ionize_batch_Ok in H as (counts & Hc & H).
  rewrite <- (setitem_length _ _ _ _ Hc).
  eapply (for_each_invariant (ionize_particle b)
            (fun s => length (Ionization.n_ionized s) = length counts)).
  3: exact H.
  - intros ip s s' Hs Hstep. cbv beta in *. rewrite <- Hs.
    apply ionize_particle_cases in Hstep
      as (level & _ & [[_ ->] | (_ & p & draw & _ & _ & [[_ E] | [_ E]])]).
    + reflexivity.
    + destruct E as (n & weight & flags & cs & levels & weights
                     & _ & _ & Hcs & _ & _ & _ & ->).
      simpl. exact (setitem_length _ _ _ _ Hcs).
    + destruct E as (flags & _ & ->). reflexivity.
  - reflexivity.
Qed.

(** X13. When the array of counters has fewer than [N_batch] entries, the
    call of [ionize_ions_numba] fails with an index error: resetting the
    counter of the first batch that has none fails. *)
Theorem ionize_ions_numba_short_counters (N_batch : Z)
    (st : Ionization.ion_state) :
  (Z.of_nat (length (Ionization.n_ionized st)) < N_batch)%Z ->
  ionize_ions_numba N_batch st = IndexError.
Proof.
  intros Hlen. unfold Ionization.ionize_ions_numba.
  apply (for_each_fails ionize_batch
           (fun s => length (Ionization.n_ionized s)
                     = length (Ionization.n_ionized st))
           (Z.of_nat (length (Ionization.n_ionized st)))).
  - intros b s s' Hs Hstep.
    rewrite (ionize_batch_counters_length b s s' Hstep). exact Hs.
  - intros s Hs. unfold Ionization.ionize_batch.
    rewrite <- Hs, setitem_at_length. reflexivity.
  - apply in_py_range. lia.
  - reflexivity.
Qed.

End IonizationProperties.

(** With one ion per batch and the highest level 1, a draw of one half against
    the probability one ionizes the first ion and skips the second. *)
Lemma ionize_ions_numba_example (c e : R) :
  Ionization.ionize_ions_numba c e amplitude_Ex probability_E 1 2 1
    (ion_inputs_2 (1 / 2)) 2 ion_state_2
  = Ok {| Ionization.n_ionized := [1; 0]%Z;
          Ionization.is_ionized := [1; 7]%Z;
          Ionization.ionization_level := [1; 1]%Z;
          Ionization.w := [e * 1 * 2; 2] |}.
Proof.
  unfold Ionization.ionize_ions_numba, Ionization.ionize_batch,
    Ionization.batch_range, Ionization.ionize_particle,
    Ionization.probability, amplitude_Ex, probability_E.
  simpl. destruct (Rlt_dec (1 / 2) 1) as [_ | Hn]; [reflexivity | lra].
Qed.

Lemma ionize_ions_numba_particles_witness :
  Ionization.outcome 299792458 1 amplitude_Ex probability_E 1
    (ion_inputs_2 (1 / 2)) 0
    (Ionization.particle_at ion_state_2 0)
    (Ok 1%Z, Ok 1%Z, Ok (1 * 1 * 2)).
Proof.
  exact (proj1 (ionize_ions_numba_particles 299792458 1 amplitude_Ex
                  probability_E 1 2 1 (ion_inputs_2 (1 / 2)) 2 ion_state_2 _
                  (ionize_ions_numba_example 299792458 1))
           0%Z 0%Z ltac:(lia) ltac:(simpl; lia)).
Defined.

Lemma ionize_ions_numba_counters_witness :
  getitem [1; 0]%Z 0
  = Ok (Ionization.Zsum
          (fun ip =>
             Ionization.gained (Ionization.particle_at ion_state_2 ip)
               (Ionization.particle_at
                  {| Ionization.n_ionized := [1; 0]%Z;
                     Ionization.is_ionized := [1; 7]%Z;
                     Ionization.ionization_level := [1; 1]%Z;
                     Ionization.w := [1 * 1 * 2; 2] |} ip))
          (Ionization.batch_range 1 2 0)).
Proof.
  exact (proj1 (proj1 (ionize_ions_numba_counters 299792458 1 amplitude_Ex
                         probability_E 1 2 1 (ion_inputs_2 (1 / 2)) 2
                         ion_state_2 _
                         (ionize_ions_numba_example 299792458 1))
                  0%Z ltac:(lia))).
Defined.

Lemma ionize_ions_numba_levels_witness :
  exists level',
    getitem [1; 1]%Z 0 = Ok level' /\ (0 <= level' <= Z.max 0 1)%Z.
Proof.
  exact (ionize_ions_numba_levels 299792458 1 amplitude_Ex probability_E
           1 2 1 (ion_inputs_2 (1 / 2)) 2 ion_state_2 _
           (ionize_ions_numba_example 299792458 1)
           0%Z 0%Z ltac:(lia) eq_refl).
Defined.

Lemma ionize_ions_numba_short_counters_witness :
  Ionization.ionize_ions_numba 299792458 1 amplitude_Ex probability_E 1 2 1
    (ion_inputs_2 (1 / 2)) 1 ion_state_no_counter
  = IndexError.
Proof.
  apply ionize_ions_numba_short_counters. simpl. lia.
Defined.

(** ** Ionization: calls that return *)

Lemma for_each_succeeds {S : Type} (body : Z -> S -> result S)
    (Inv : S -> Prop) (l : list Z) :
  (forall i s, In i l -> Inv s -> exists s', body i s = Ok s' /\ Inv s') ->
  forall s, Inv s -> exists s', for_each body l s = Ok s' /\ Inv s'.
Proof.
  induction l as [| i l IH]; intros Hstep s Hs; simpl.
  - exists s. split; [reflexivity | exact Hs].
  - destruct (Hstep i s (or_introl eq_refl) Hs) as (s1 & -> & Hs1).
    apply IH; [| exact Hs1].
    intros j s' Hj. apply Hstep. right; exact Hj.
Qed.

Lemma Forall_update {A : Type} (P : A -> Prop) (l : list A) (k : nat)
    (v : A) :
  Forall P l -> P v -> Forall P (update l k v).
Proof.
  intros Hl Hv. revert k; induction Hl as [| h t Hh Ht IH]; intros [| k];
    simpl; constructor; auto.
Qed.

Section IonizationReturns.

Variables c e : R.
Variable get_E_amplitude_numba : R -> R -> R -> R -> R -> R -> R -> R -> R -> R.
Variable get_ionization_probability_numba : R -> R -> R -> R -> R.
Variables batch_size Ntot z_max : Z.
Variable inp : Ionization.ion_inputs.
Variable N_batch : Z.

Local Abbreviation ionize_particle :=
  (Ionization.ionize_particle c e get_E_amplitude_numba
     get_ionization_probability_numba z_max inp).
Local Abbreviation ionize_batch :=
  (Ionization.ionize_batch c e get_E_amplitude_numba
     get_ionization_probability_numba batch_size Ntot z_max inp).
Local Abbreviation ionize_ions_numba :=
  (Ionization.ionize_ions_numba c e get_E_amplitude_numba
     get_ionization_probability_numba batch_size Ntot z_max inp).

Ltac read_arrays :=
  repeat (first [ rewrite (getitem_nth _ _ 0%R) by lia
                | rewrite (getitem_nth _ _ 0%Z) by lia ];
          cbn [bind]).

Lemma ionize_particle_succeeds (i_batch ip : Z) (st : Ionization.ion_state) :
  well_sized Ntot N_batch z_max inp st ->
  (0 <= i_batch < N_batch)%Z -> (0 <= ip < Ntot)%Z ->
  exists st',
    ionize_particle i_batch ip st = Ok st' /\
    well_sized Ntot N_batch z_max inp st'.
Proof.
  intros Hst Hb Hip. pose proof Hst as (Hn & Hp & Hl & Hlev).
  unfold particle_lengths, level_lengths in Hp, Hl.
  repeat match goal with
         | H : Forall _ (_ :: _) |- _ =>
             let H1 := fresh "Hlen" in
             apply Forall_cons_iff in H as [H1 H]
         end.
  unfold Ionization.ionize_particle, Ionization.probability.
  rewrite (getitem_nth _ _ 0%Z) by lia. cbn [bind].
  set (level := nth (Z.to_nat ip) (Ionization.ionization_level st) 0%Z).
  assert (Hlevel : (0 <= level)%Z).
  { rewrite Forall_forall in Hlev. apply Hlev. apply nth_In. lia. }
  destruct (Z.geb_spec level z_max) as [Hge | Hlt].
  { exists st. split; [reflexivity | exact Hst]. }
  read_arrays.
  match goal with
  | |- context [Rlt_dec ?d ?p] => destruct (Rlt_dec d p) as [Hdraw | Hdraw]
  end.
  - rewrite (setitem_in_range (Ionization.is_ionized st)) by lia.
    cbn [bind]. read_arrays.
    rewrite (setitem_in_range (Ionization.n_ionized st)) by lia.
    cbn [bind]. fold level.
    rewrite (setitem_in_range (Ionization.ionization_level st)) by lia.
    cbn [bind].
    rewrite (getitem_nth _ _ 0%Z) by (rewrite length_update; lia).
    cbn [bind]. read_arrays.
    rewrite (setitem_in_range (Ionization.w st)) by lia. cbn [bind].
    eexists. split; [reflexivity |].
    unfold well_sized, particle_lengths, level_lengths.
    cbn [Ionization.n_ionized Ionization.is_ionized
         Ionization.ionization_level Ionization.w].
    rewrite !length_update.
    split; [exact Hn |]. split; [| split].
    + repeat constructor; assumption.
    + repeat constructor; assumption.
    + apply Forall_update; [exact Hlev | lia].
  - rewrite (setitem_in_range (Ionization.is_ionized st)) by lia.
    cbn [bind]. eexists. split; [reflexivity |].
    unfold well_sized, particle_lengths, level_lengths.
    cbn [Ionization.n_ionized Ionization.is_ionized
         Ionization.ionization_level Ionization.w].
    rewrite !length_update.
    split; [exact Hn |]. split; [| split].
    + repeat constructor; assumption.
    + repeat constructor; assumption.
    + exact Hlev.
Qed.

Lemma ionize_batch_succeeds (i_batch : Z) (st : Ionization.ion_state) :
  well_sized Ntot N_batch z_max inp st ->
  (0 <= i_batch < N_batch)%Z ->
  exists st',
    ionize_batch i_batch st = Ok st' /\
    well_sized Ntot N_batch z_max inp st'.
Proof.
  intros Hst Hb. pose proof Hst as (Hn & Hp & Hl & Hlev).
  unfold Ionization.ionize_batch.
  rewrite (setitem_in_range (Ionization.n_ionized st)) by lia. cbn [bind].
  apply (for_each_succeeds (ionize_particle i_batch)
           (well_sized Ntot N_batch z_max inp)).
  - intros ip s Hip Hs.
    apply ionize_particle_succeeds; [exact Hs | exact Hb |].
    pose proof (batch_range_nonneg batch_size Ntot i_batch ip
                  ltac:(lia) Hip).
    apply in_batch_range in Hip. lia.
  - unfold well_sized, particle_lengths in *.
    cbn [Ionization.n_ionized Ionization.is_ionized
         Ionization.ionization_level Ionization.w].
    rewrite length_update. tauto.
Qed.

(** X26. When the arrays have an entry for each of [Ntot] particles,
    [N_batch] batches and [z_max] levels and no level is negative, a call
    of [ionize_ions_numba] returns, for every batch size, and the arrays
    it returns satisfy the same conditions. *)
Theorem ionize_ions_numba_returns (st : Ionization.ion_state) :
  well_sized Ntot N_batch z_max inp st ->
  exists st',
    ionize_ions_numba N_batch st = Ok st' /\
    well_sized Ntot N_batch z_max inp st'.
Proof.
  intros Hst. unfold Ionization.ionize_ions_numba.
  apply (for_each_succeeds ionize_batch (well_sized Ntot N_batch z_max inp)).
  - intros b s Hb Hs. apply in_py_range in Hb.
    apply ionize_batch_succeeds; [exact Hs | lia].
  - exact Hst.
Qed.

End IonizationReturns.

(** ** Ionization: the batches *)

Lemma outcome_functional (c e : R)
    (get_E_amplitude_numba : R -> R -> R -> R -> R -> R -> R -> R -> R -> R)
    (get_ionization_probability_numba : R -> R -> R -> R -> R)
    (z_max : Z) (inp : Ionization.ion_inputs) (ip : Z)
    (old new new' : result Z * result Z * result R) :
  Ionization.outcome c e get_E_amplitude_numba
    get_ionization_probability_numba z_max inp ip old new ->
  Ionization.outcome c e get_E_amplitude_numba
    get_ionization_probability_numba z_max inp ip old new' ->
  new = new'.
Proof.
  intros (level & Hl & H) (level' & Hl' & H').
  rewrite Hl in Hl'. injection Hl' as <-.
  destruct H as [[Hge ->] | (Hlt & p & draw & Hp & Hd & H)];
    destruct H' as [[Hge' ->] | (Hlt' & p' & draw' & Hp' & Hd' & H')];
    try lia; [reflexivity |].
  rewrite Hp in Hp'. injection Hp' as <-.
  rewrite Hd in Hd'. injection Hd' as <-.
  destruct H as [[Hlt1 (wt & Hw & ->)] | [Hn ->]];
    destruct H' as [[Hlt2 (wt' & Hw' & ->)] | [Hn' ->]];
    try contradiction; [| reflexivity].
  rewrite Hw in Hw'. injection Hw' as <-. reflexivity.
Qed.

(** X27. What a call of [ionize_ions_numba] makes of a particle does not
    depend on the batches: two calls on the same arrays with batch sizes
    and numbers of batches that both cover the [Ntot] particles return the
    same level, flag and weight for every particle.  (The counters of the
    batches are the only difference.) *)
Theorem ionize_ions_numba_batch_invariance (c e : R)
    (get_E_amplitude_numba : R -> R -> R -> R -> R -> R -> R -> R -> R -> R)
    (get_ionization_probability_numba : R -> R -> R -> R -> R)
    (Ntot z_max : Z) (inp : Ionization.ion_inputs)
    (batch_size N_batch batch_size' N_batch' : Z)
    (st st1 st2 : Ionization.ion_state) :
  (0 < batch_size)%Z -> (0 < batch_size')%Z ->
  (Ntot <= N_batch * batch_size)%Z -> (Ntot <= N_batch' * batch_size')%Z ->
  Ionization.ionize_ions_numba c e get_E_amplitude_numba
    get_ionization_probability_numba batch_size Ntot z_max inp N_batch st
  = Ok st1 ->
  Ionization.ionize_ions_numba c e get_E_amplitude_numba
    get_ionization_probability_numba batch_size' Ntot z_max inp N_batch' st
  = Ok st2 ->
  forall j, (0 <= j)%Z ->
    Ionization.particle_at st1 j = Ionization.particle_at st2 j.
Proof.
  intros Hs Hs' Hc Hc' H1 H2 j Hj.
  assert (Hbatch : forall bs N, (0 < bs)%Z -> (Ntot <= N * bs)%Z ->
            (j < Ntot)%Z ->
            (0 <= j / bs < N)%Z /\
            (j / bs * bs <= j < Z.min ((j / bs + 1) * bs) Ntot)%Z).
  { intros bs N Hbs HN Hlt.
    pose proof (Z.div_pos j bs Hj Hbs).
    pose proof (Z.mul_div_le j bs Hbs).
    pose proof (Z.mul_succ_div_gt j bs Hbs).
    assert (j / bs < N)%Z by (apply Z.div_lt_upper_bound; lia).
    lia. }
  destruct (Z.lt_ge_cases j Ntot) as [Hlt | Hge].
  - destruct (Hbatch batch_size N_batch Hs Hc Hlt) as [Hb Hin].
    destruct (Hbatch batch_size' N_batch' Hs' Hc' Hlt) as [Hb' Hin'].
    apply (outcome_functional c e get_E_amplitude_numba
             get_ionization_probability_numba z_max inp j
             (Ionization.particle_at st j)).
    + exact (ionize_ions_numba_visited c e _ _ batch_size Ntot z_max inp
               N_batch st st1 _ j H1 Hb Hin).
    + exact (ionize_ions_numba_visited c e _ _ batch_size' Ntot z_max inp
               N_batch' st st2 _ j H2 Hb' Hin').
  - rewrite (ionize_ions_numba_unvisited c e _ _ batch_size Ntot z_max inp
               N_batch st st1 j H1 Hj) by (intros b Hb; lia).
    rewrite (ionize_ions_numba_unvisited c e _ _ batch_size' Ntot z_max inp
               N_batch' st st2 j H2 Hj) by (intros b Hb; lia).
    reflexivity.
Qed.

Lemma ionize_ions_numba_returns_witness :
  exists st',
    Ionization.ionize_ions_numba 299792458 1 amplitude_Ex probability_E 1 2 1
      (ion_inputs_2 (1 / 2)) 2 ion_state_2 = Ok st' /\
    well_sized 2 2 1 (ion_inputs_2 (1 / 2)) st'.
Proof.
  apply ionize_ions_numba_returns.
  unfold well_sized, particle_lengths, level_lengths. simpl.
  split; [lia |]. split; [| split]; repeat (constructor; try lia).
Defined.

(** The same two ions in one batch of two. *)
Lemma ionize_ions_numba_example_one_batch (c e : R) :
  Ionization.ionize_ions_numba c e amplitude_Ex probability_E 2 2 1
    (ion_inputs_2 (1 / 2)) 1 ion_state_2
  = Ok {| Ionization.n_ionized := [1; 7]%Z;
          Ionization.is_ionized := [1; 7]%Z;
          Ionization.ionization_level := [1; 1]%Z;
          Ionization.w := [e * 1 * 2; 2] |}.
Proof.
  unfold Ionization.ionize_ions_numba, Ionization.ionize_batch,
    Ionization.batch_range, Ionization.ionize_particle,
    Ionization.probability, amplitude_Ex, probability_E.
  simpl. destruct (Rlt_dec (1 / 2) 1) as [_ | Hn]; [reflexivity | lra].
Qed.

Lemma ionize_ions_numba_batch_invariance_witness :
  Ionization.particle_at
    {| Ionization.n_ionized := [1; 0]%Z;
       Ionization.is_ionized := [1; 7]%Z;
       Ionization.ionization_level := [1; 1]%Z;
       Ionization.w := [1 * 1 * 2; 2] |} 0
  = Ionization.particle_at
      {| Ionization.n_ionized := [1; 7]%Z;
         Ionization.is_ionized := [1; 7]%Z;
         Ionization.ionization_level := [1; 1]%Z;
         Ionization.w := [1 * 1 * 2; 2] |} 0.
Proof.
  apply (ionize_ions_numba_batch_invariance 299792458 1 amplitude_Ex
           probability_E 2 1 (ion_inputs_2 (1 / 2)) 1 2 2 1 ion_state_2 _ _
           ltac:(lia) ltac:(lia) ltac:(lia) ltac:(lia)
           (ionize_ions_numba_example 299792458 1)
           (ionize_ions_numba_example_one_batch 299792458 1)).
  lia.
Defined.

(** ** The cubic field kernel with other numbers of threads *)

Lemma gather_field_numba_cubic_first_chunk :
  gather_field_numba_cubic InlineFunctions.add_cubic_gather_for_mode
    particles_2 geometry_4x4 (fun l => l) (fun _ _ => 0) (fun _ _ => 0)
    grids_Er2 EB_out_2 1 [0%Z; 1%Z; 2%Z]
  = Ok {| Ex := [2; 7]; Ey := [0; 7]; Ez := [0; 7];
          Bx := [0; 7]; By := [0; 7]; Bz := [0; 7] |}.
Proof.
  unfold gather_field_numba_cubic.
  change (py_range 0 1) with [0%Z]. cbn [for_each].
  rewrite gather_field_cubic_thread_eq by (simpl; lia).
  change (chunk_of [0%Z; 1%Z; 2%Z] 0) with [0%Z].
  unfold for_each, gather_field_cubic_particle.
  change (position particles_2 0) with (Ok (2, 0, 2)).
  cbn [bind].
  rewrite gather_field_cubic_values_2_0.
  reflexivity.
Qed.

(** X25. With more threads than chunks the cubic field kernel fails: as
    soon as [nthreads >= 1] and [nthreads] is at least the length of the
    array of chunk boundaries, a thread reads a boundary beyond the end of
    the array, whatever the order of the threads. *)
Theorem gather_field_numba_cubic_more_threads
    (add_cubic : cubic_gather_for_mode)
    (P : particles) (G : geometry) (M : EB_grids) (o : EB_out)
    (order : list Z -> list Z) (junk_r junk_z : Z -> nat -> R)
    (nthreads : Z) (ptcl_chunk_indices : list Z) :
  (forall l, Permutation (order l) l) ->
  (1 <= nthreads)%Z ->
  (Z.of_nat (length ptcl_chunk_indices) <= nthreads)%Z ->
  gather_field_numba_cubic add_cubic P G order junk_r junk_z M o
    nthreads ptcl_chunk_indices = IndexError.
Proof.
  intros Horder H1 Hlen. unfold gather_field_numba_cubic.
  set (n := Z.of_nat (length ptcl_chunk_indices)) in *.
  apply (for_each_fails
           (gather_field_cubic_thread add_cubic P G M ptcl_chunk_indices
              junk_r junk_z)
           (fun _ => True) (Z.max 0 (n - 1))).
  - intros; exact I.
  - intros s _. unfold gather_field_cubic_thread.
    destruct (Z.eq_dec n 0) as [E0 | E0].
    + assert (E : ptcl_chunk_indices = [])
        by (destruct ptcl_chunk_indices;
            [reflexivity | unfold n in E0; simpl in E0; lia]).
      subst ptcl_chunk_indices. reflexivity.
    + replace (Z.max 0 (n - 1)) with (n - 1)%Z by (unfold n in *; lia).
      destruct (getitem ptcl_chunk_indices (n - 1)); [| reflexivity].
      cbn [bind]. replace (n - 1 + 1)%Z with n by lia.
      unfold n. rewrite getitem_at_length. reflexivity.
  - apply (Permutation_in _ (Permutation_sym (Horder _))).
    apply in_py_range. lia.
  - exact I.
Qed.

Lemma gather_field_numba_cubic_more_threads_witness :
  gather_field_numba_cubic InlineFunctions.add_cubic_gather_for_mode
    particles_2 geometry_4x4 (@rev Z) (fun _ _ => 0) (fun _ _ => 0)
    grids_Er2 EB_out_2 3 [0%Z; 1%Z; 2%Z]
  = IndexError.
Proof.
  apply gather_field_numba_cubic_more_threads.
  - intros l. apply Permutation_sym, Permutation_rev.
  - lia.
  - simpl. lia.
Defined.

(** * Whole calls of the gather kernels *)

(** ** Accesses that succeed *)

Lemma getitem_in_range {A : Type} (l : list A) (i : Z) :
  (- Z.of_nat (length l) <= i < Z.of_nat (length l))%Z ->
  exists v, getitem l i = Ok v.
Proof.
  intros H. unfold getitem, norm_index.
  destruct (Z.leb_spec 0 i) as [H0 | H0].
  - destruct (Z.ltb_spec i (Z.of_nat (length l))) as [H1 | H1]; [| lia].
    simpl.
    destruct (nth_error l (Z.to_nat i)) as [v |] eqn:E; [eauto |].
    apply nth_error_None in E. lia.
  - simpl.
    destruct (Z.leb_spec (- Z.of_nat (length l)) i) as [H1 | H1]; [| lia].
    destruct (Z.ltb_spec i 0) as [H2 | H2]; [| lia]. simpl.
    destruct (nth_error l (Z.to_nat (i + Z.of_nat (length l)))) as [v |] eqn:E;
      [eauto |].
    apply nth_error_None in E. lia.
Qed.

Lemma position_in_range (P : particles) (i : Z) :
  (0 <= i < Z.of_nat (length (ptcl_x P)))%Z ->
  (length (ptcl_x P) <= length (ptcl_y P))%nat ->
  (length (ptcl_x P) <= length (ptcl_z P))%nat ->
  exists xj yj zj, position P i = Ok (xj, yj, zj).
Proof.
  intros Hi Hy Hz. unfold position.
  destruct (getitem_in_range (ptcl_x P) i) as [xj ->]; [lia |].
  destruct (getitem_in_range (ptcl_y P) i) as [yj ->]; [lia |].
  destruct (getitem_in_range (ptcl_z P) i) as [zj ->]; [lia |].
  simpl. eauto.
Qed.

Lemma in_range_EB_lengths (N : nat) (i : Z) (o : EB_out) :
  (0 <= i < Z.of_nat N)%Z ->
  Forall (fun n => (N <= n)%nat) (EB_lengths o) -> in_range_EB i o.
Proof.
  intros Hi H. rewrite Forall_forall in H. unfold in_range_EB.
  pose proof (H (length (Ex o)) ltac:(simpl; tauto)).
  pose proof (H (length (Ey o)) ltac:(simpl; tauto)).
  pose proof (H (length (Ez o)) ltac:(simpl; tauto)).
  pose proof (H (length (Bx o)) ltac:(simpl; tauto)).
  pose proof (H (length (By o)) ltac:(simpl; tauto)).
  pose proof (H (length (Bz o)) ltac:(simpl; tauto)).
  lia.
Qed.

Lemma write_EB_returns (i : Z) (v : R * R * R * (R * R * R)) (o : EB_out) :
  in_range_EB i o -> exists o', write_EB i v o = Ok o'.
Proof.
  intros H. rewrite (write_EB_in_range i v o H).
  destruct v as [[[vEx vEy] vEz] [[vBx vBy] vBz]]. eauto.
Qed.

(** ** One particle of a field kernel *)

Lemma field_particle_Ok
    (values : R -> R -> R -> result (R * R * R * (R * R * R)))
    (P : particles) (i : Z) (o o' : EB_out) :
  field_particle values P i o = Ok o' ->
  exists xj yj zj v,
    position P i = Ok (xj, yj, zj) /\ values xj yj zj = Ok v /\
    write_EB i v o = Ok o'.
Proof.
  unfold field_particle. intros H.
  apply bind_Ok in H as ([[xj yj] zj] & Hp & H).
  apply bind_Ok in H as (v & Hv & H).
  exists xj, yj, zj, v. auto.
Qed.

Lemma field_particle_returns
    (values : R -> R -> R -> result (R * R * R * (R * R * R)))
    (P : particles) (i : Z) (o : EB_out) :
  (forall xj yj zj, exists v, values xj yj zj = Ok v) ->
  (0 <= i < Z.of_nat (length (ptcl_x P)))%Z ->
  long_enough P (other_lengths P o) ->
  exists o', field_particle values P i o = Ok o' /\
             long_enough P (other_lengths P o').
Proof.
  intros Hr Hi Hl. unfold long_enough, other_lengths in *.
  inversion Hl as [| ? ? Hy Hl1]; subst.
  inversion Hl1 as [| ? ? Hz Hl2]; subst.
  destruct (position_in_range P i Hi Hy Hz) as (xj & yj & zj & Hp).
  destruct (Hr xj yj zj) as [v Hv].
  destruct (write_EB_returns i v o (in_range_EB_lengths _ i o Hi Hl2))
    as [o' Hw].
  exists o'. split.
  - unfold field_particle. rewrite Hp. simpl. rewrite Hv. simpl. exact Hw.
  - rewrite (write_EB_lengths i v o o' Hw). exact Hl.
Qed.

(** A loop of [field_particle] over distinct indices: when it returns, the
    six arrays hold at every index visited the values gathered at the
    position of the particle. *)
Lemma field_particles_once
    (values : R -> R -> R -> result (R * R * R * (R * R * R)))
    (P : particles) (l : list Z) (o o' : EB_out) (i : Z) :
  NoDup l -> Forall (fun k => (0 <= k)%Z) l -> In i l ->
  for_each (field_particle values P) l o = Ok o' ->
  exists xj yj zj v,
    position P i = Ok (xj, yj, zj) /\ values xj yj zj = Ok v /\
    EB_holds o' i v.
Proof.
  intros Hd Hl Hin H.
  apply (for_each_once
           (field_particle values P) EB_at
           (fun j _ new =>
              exists xj yj zj v,
                position P j = Ok (xj, yj, zj) /\
                values xj yj zj = Ok v /\
                let '(vEx, vEy, vEz, (vBx, vBy, vBz)) := v in
                new = (Ok vEx, Ok vEy, Ok vEz, (Ok vBx, Ok vBy, Ok vBz)))
           ltac:(intros k j s s' Hk Hj Hkj Hb;
                 apply field_particle_Ok in Hb
                   as (xk & yk & zk & v & _ & _ & Hw);
                 exact (write_EB_frame k j v s s' Hk Hj Hkj Hw))
           ltac:(intros k s s' _ Hb;
                 apply field_particle_Ok in Hb
                   as (xk & yk & zk & v & Hpos & Hv & Hw);
                 exists xk, yk, zk, v;
                 split; [exact Hpos | split; [exact Hv |]];
                 destruct v as [[[vEx vEy] vEz] [[vBx vBy] vBz]];
                 apply write_EB_Ok in Hw as (H1 & H2 & H3 & H4 & H5 & H6);
                 unfold EB_at; rewrite H1, H2, H3, H4, H5, H6; reflexivity)
           l o o' i Hd Hl Hin H).
Qed.

Lemma field_particles_untouched
    (values : R -> R -> R -> result (R * R * R * (R * R * R)))
    (P : particles) (l : list Z) (o o' : EB_out) (j : Z) :
  Forall (fun k => (0 <= k)%Z) l -> (0 <= j)%Z -> ~ In j l ->
  for_each (field_particle values P) l o = Ok o' ->
  EB_at o' j = EB_at o j.
Proof.
  intros Hl Hj Hn H.
  apply (for_each_untouched
           (field_particle values P) EB_at
           ltac:(intros k j' s s' Hk Hj' Hkj Hb;
                 apply field_particle_Ok in Hb
                   as (xk & yk & zk & v & _ & _ & Hw);
                 exact (write_EB_frame k j' v s s' Hk Hj' Hkj Hw))
           l o o' j Hl Hj Hn H).
Qed.

Lemma field_particles_return
    (values : R -> R -> R -> result (R * R * R * (R * R * R)))
    (P : particles) (l : list Z) (o : EB_out) :
  (forall xj yj zj, exists v, values xj yj zj = Ok v) ->
  Forall (fun i => (0 <= i < Z.of_nat (length (ptcl_x P)))%Z) l ->
  long_enough P (other_lengths P o) ->
  exists o', for_each (field_particle values P) l o = Ok o'.
Proof.
  intros Hr Hl Ho. rewrite Forall_forall in Hl.
  destruct (for_each_succeeds (field_particle values P)
              (fun s => long_enough P (other_lengths P s)) l
              ltac:(intros i s Hin Hs;
                    exact (field_particle_returns values P i s Hr
                             (Hl i Hin) Hs))
              o Ho) as (o' & H & _).
  exists o'. exact H.
Qed.

(** ** The linear field kernel *)

Lemma linear_modes_returns (add : linear_gather_for_mode) (s : linear_shape)
    (e0 e1 : Cplx) (g1 g2 g3 g4 g5 g6 : grid) :
  returns_linear add ->
  exists v, linear_modes add s e0 e1 g1 g2 g3 g4 g5 g6 = Ok v.
Proof.
  intros H. unfold linear_modes. cbv zeta.
  destruct (H 0%Z 0 0 0 e0 g1 g2 g3
              (iz_lower s) (iz_upper s) (ir_lower s) (ir_upper s)
              (S_ll s) (S_lu s) (S_lg s) (S_ul s) (S_uu s) (S_ug s))
    as [[[Fr Ft] Fz] E].
  rewrite E. simpl. apply H.
Qed.

Lemma gather_field_linear_values_returns (add : linear_gather_for_mode)
    (G : geometry) (M : EB_grids) (xj yj zj : R) :
  returns_linear add ->
  exists v, gather_field_linear_values add G M xj yj zj = Ok v.
Proof.
  intros H. unfold gather_field_linear_values.
  destruct (cylindrical_conversion xj yj) as [[rj cos] sin]. cbv zeta.
  destruct (linear_modes_returns add (linear_stencil G rj zj) (RtoC 1)
              (exptheta_base cos sin)
              (Er_m0 M) (Et_m0 M) (Ez_m0 M) (Er_m1 M) (Et_m1 M) (Ez_m1 M) H)
    as [[[Er Et] Ez_] E1].
  destruct (linear_modes_returns add (linear_stencil G rj zj) (RtoC 1)
              (exptheta_base cos sin)
              (Br_m0 M) (Bt_m0 M) (Bz_m0 M) (Br_m1 M) (Bt_m1 M) (Bz_m1 M) H)
    as [[[Br Bt] Bz_] E2].
  rewrite E1. simpl. rewrite E2. simpl. eauto.
Qed.

Lemma gather_field_linear_particle_field
    (add : linear_gather_for_mode) (P : particles) (G : geometry)
    (M : EB_grids) (i : Z) (o : EB_out) :
  gather_field_linear_particle add P G M i o
  = field_particle (gather_field_linear_values add G M) P i o.
Proof. reflexivity. Qed.

(** The kernel is the loop of [field_particle] over [range(N)], whatever the
    order of the iterations. *)
Lemma gather_field_numba_linear_field (add : linear_gather_for_mode)
    (P : particles) (G : geometry) (M : EB_grids) (o : EB_out)
    (order : list Z -> list Z) :
  (forall l, Permutation (order l) l) ->
  gather_field_numba_linear add P G order M o
  = for_each (field_particle (gather_field_linear_values add G M) P)
      (py_range 0 (Z.of_nat (length (ptcl_x P)))) o.
Proof.
  intros Hp. rewrite (gather_field_numba_linear_eq add P G M o order Hp).
  apply for_each_ext. intros i s. apply gather_field_linear_particle_field.
Qed.

Lemma py_range_in_range (N : Z) :
  Forall (fun i => (0 <= i < N)%Z) (py_range 0 N).
Proof. apply Forall_forall. intros i Hi. apply in_py_range in Hi. exact Hi. Qed.

Lemma gather_field_numba_linear_returns (add : linear_gather_for_mode)
    (P : particles) (G : geometry) (M : EB_grids) (o : EB_out)
    (order : list Z -> list Z) :
  (forall l, Permutation (order l) l) ->
  returns_linear add ->
  long_enough P (other_lengths P o) ->
  exists o', gather_field_numba_linear add P G order M o = Ok o'.
Proof.
  intros Hp Hr Hl. rewrite (gather_field_numba_linear_field add P G M o order Hp).
  apply field_particles_return.
  - intros xj yj zj. apply gather_field_linear_values_returns. exact Hr.
  - apply py_range_in_range.
  - exact Hl.
Qed.

(** When a call returns, every particle holds the Cartesian components of
    the cylindrical vectors accumulated for it. *)
Lemma gather_field_numba_linear_cartesian (add : linear_gather_for_mode)
    (P : particles) (G : geometry) (M : EB_grids) (o o' : EB_out)
    (order : list Z -> list Z) (i : Z) :
  (forall l, Permutation (order l) l) ->
  gather_field_numba_linear add P G order M o = Ok o' ->
  (0 <= i < Z.of_nat (length (ptcl_x P)))%Z ->
  exists xj yj zj rj cos sin Er Et Ez_ Br Bt Bz_,
    position P i = Ok (xj, yj, zj) /\
    cylindrical_conversion xj yj = (rj, cos, sin) /\
    linear_modes add (linear_stencil G rj zj) (RtoC 1)
      (exptheta_base cos sin)
      (Er_m0 M) (Et_m0 M) (Ez_m0 M) (Er_m1 M) (Et_m1 M) (Ez_m1 M)
    = Ok (Er, Et, Ez_) /\
    linear_modes add (linear_stencil G rj zj) (RtoC 1)
      (exptheta_base cos sin)
      (Br_m0 M) (Bt_m0 M) (Bz_m0 M) (Br_m1 M) (Bt_m1 M) (Bz_m1 M)
    = Ok (Br, Bt, Bz_) /\
    cartesian_at (Ex o') (Ey o') (Ez o') i cos sin Er Et Ez_ /\
    cartesian_at (Bx o') (By o') (Bz o') i cos sin Br Bt Bz_.
Proof.
  intros Hp H Hi.
  rewrite (gather_field_numba_linear_field add P G M o order Hp) in H.
  destruct (field_particles_once _ P _ o o' i
              (NoDup_py_range 0 _)
              (py_range_nonneg 0 _ ltac:(lia))
              (proj2 (in_py_range 0 _ i) Hi) H)
    as (xj & yj & zj & v & Hpos & Hv & Hh).
  apply gather_field_linear_values_Ok in Hv
    as (rj & cos & sin & Er & Et & Ez_ & Br & Bt & Bz_ & Hc & HE & HB & ->).
  unfold EB_holds, EB_at in Hh. injection Hh as H1 H2 H3 H4 H5 H6.
  exists xj, yj, zj, rj, cos, sin, Er, Et, Ez_, Br, Bt, Bz_.
  unfold cartesian_at. repeat split; assumption.
Qed.

(** ** The cubic field kernel *)

Lemma cubic_modes_returns (add : cubic_gather_for_mode) (G : geometry)
    (ir_lowest iz_lowest : Z) (Sr Sz : list R)
    (e0 e1 : Cplx) (g1 g2 g3 g4 g5 g6 : grid) :
  returns_cubic add ->
  exists v,
    cubic_modes add G ir_lowest iz_lowest Sr Sz e0 e1 g1 g2 g3 g4 g5 g6 = Ok v.
Proof.
  intros H. unfold cubic_modes. cbv zeta.
  destruct (H 0%Z 0 0 0 e0 g1 g2 g3 ir_lowest iz_lowest Sr Sz (Nr G) (Nz G))
    as [[[Fr Ft] Fz] E].
  rewrite E. simpl. apply H.
Qed.

Lemma gather_field_cubic_values_returns (add : cubic_gather_for_mode)
    (G : geometry) (M : EB_grids) (xj yj zj : R) :
  returns_cubic add ->
  exists v, gather_field_cubic_values add G M xj yj zj = Ok v.
Proof.
  intros H. unfold gather_field_cubic_values.
  destruct (cylindrical_conversion xj yj) as [[rj cos] sin]. cbv zeta.
  match goal with
  | |- context [cubic_modes add G ?a ?b ?c ?d ?e ?f (Er_m0 M) ?g ?h ?i ?j ?k] =>
      destruct (cubic_modes_returns add G a b c d e f (Er_m0 M) g h i j k H)
        as [[[Er Et] Ez_] E1];
      destruct (cubic_modes_returns add G a b c d e f
                  (Br_m0 M) (Bt_m0 M) (Bz_m0 M) (Br_m1 M) (Bt_m1 M) (Bz_m1 M) H)
        as [[[Br Bt] Bz_] E2]
  end.
  rewrite E1. simpl. rewrite E2. simpl. eauto.
Qed.

Lemma gather_field_cubic_particle_field
    (add : cubic_gather_for_mode) (P : particles) (G : geometry)
    (M : EB_grids) (i : Z) (o : EB_out) :
  gather_field_cubic_particle add P G M i o
  = field_particle (gather_field_cubic_values add G M) P i o.
Proof. reflexivity. Qed.

(** With chunks that partition [[0, N)], the kernel is the loop of
    [field_particle] over [range(N)], whatever the order of the threads. *)
Lemma gather_field_numba_cubic_field (add : cubic_gather_for_mode)
    (P : particles) (G : geometry) (M : EB_grids) (o : EB_out)
    (order : list Z -> list Z) (junk_r junk_z : Z -> nat -> R)
    (nthreads : Z) (chunks : list Z) (N : Z) :
  (forall l, Permutation (order l) l) ->
  is_partition chunks N = true ->
  nthreads = (Z.of_nat (length chunks) - 1)%Z ->
  gather_field_numba_cubic add P G order junk_r junk_z M o nthreads chunks
  = for_each (field_particle (gather_field_cubic_values add G M) P)
      (py_range 0 N) o.
Proof.
  intros Hp Hc Hn.
  rewrite (gather_field_numba_cubic_eq add P G M o order junk_r junk_z
             nthreads chunks N Hp Hc Hn).
  apply for_each_ext. intros i s. apply gather_field_cubic_particle_field.
Qed.

Lemma gather_field_numba_cubic_returns (add : cubic_gather_for_mode)
    (P : particles) (G : geometry) (M : EB_grids) (o : EB_out)
    (order : list Z -> list Z) (junk_r junk_z : Z -> nat -> R)
    (nthreads : Z) (chunks : list Z) :
  (forall l, Permutation (order l) l) ->
  is_partition chunks (Z.of_nat (length (ptcl_x P))) = true ->
  nthreads = (Z.of_nat (length chunks) - 1)%Z ->
  returns_cubic add ->
  long_enough P (other_lengths P o) ->
  exists o',
    gather_field_numba_cubic add P G order junk_r junk_z M o nthreads chunks
    = Ok o'.
Proof.
  intros Hp Hc Hn Hr Hl.
  rewrite (gather_field_numba_cubic_field add P G M o order junk_r junk_z
             nthreads chunks _ Hp Hc Hn).
  apply field_particles_return.
  - intros xj yj zj. apply gather_field_cubic_values_returns. exact Hr.
  - apply py_range_in_range.
  - exact Hl.
Qed.

Lemma gather_field_numba_cubic_cartesian (add : cubic_gather_for_mode)
    (P : particles) (G : geometry) (M : EB_grids) (o o' : EB_out)
    (order : list Z -> list Z) (junk_r junk_z : Z -> nat -> R)
    (nthreads : Z) (chunks : list Z) (i : Z) :
  (forall l, Permutation (order l) l) ->
  is_partition chunks (Z.of_nat (length (ptcl_x P))) = true ->
  nthreads = (Z.of_nat (length chunks) - 1)%Z ->
  gather_field_numba_cubic add P G order junk_r junk_z M o nthreads chunks
  = Ok o' ->
  (0 <= i < Z.of_nat (length (ptcl_x P)))%Z ->
  exists xj yj zj rj cos sin Er Et Ez_ Br Bt Bz_,
    position P i = Ok (xj, yj, zj) /\
    cylindrical_conversion xj yj = (rj, cos, sin) /\
    cubic_modes add G
      (cubic_lowest (r_cell_of G rj)) (cubic_lowest (z_cell_of G zj))
      (fst (cubic_scratch G xj yj zj)) (snd (cubic_scratch G xj yj zj))
      (RtoC 1) (exptheta_base cos sin)
      (Er_m0 M) (Et_m0 M) (Ez_m0 M) (Er_m1 M) (Et_m1 M) (Ez_m1 M)
    = Ok (Er, Et, Ez_) /\
    cubic_modes add G
      (cubic_lowest (r_cell_of G rj)) (cubic_lowest (z_cell_of G zj))
      (fst (cubic_scratch G xj yj zj)) (snd (cubic_scratch G xj yj zj))
      (RtoC 1) (exptheta_base cos sin)
      (Br_m0 M) (Bt_m0 M) (Bz_m0 M) (Br_m1 M) (Bt_m1 M) (Bz_m1 M)
    = Ok (Br, Bt, Bz_) /\
    cartesian_at (Ex o') (Ey o') (Ez o') i cos sin Er Et Ez_ /\
    cartesian_at (Bx o') (By o') (Bz o') i cos sin Br Bt Bz_.
Proof.
  intros Hp Hc Hn H Hi.
  rewrite (gather_field_numba_cubic_field add P G M o order junk_r junk_z
             nthreads chunks _ Hp Hc Hn) in H.
  destruct (field_particles_once _ P _ o o' i
              (NoDup_py_range 0 _)
              (py_range_nonneg 0 _ ltac:(lia))
              (proj2 (in_py_range 0 _ i) Hi) H)
    as (xj & yj & zj & v & Hpos & Hv & Hh).
  apply gather_field_cubic_values_Ok in Hv
    as (rj & cos & sin & Er & Et & Ez_ & Br & Bt & Bz_ & Hcc & HE & HB & ->).
  unfold EB_holds, EB_at in Hh. injection Hh as H1 H2 H3 H4 H5 H6.
  exists xj, yj, zj, rj, cos, sin, Er, Et, Ez_, Br, Bt, Bz_.
  unfold cartesian_at. repeat split; assumption.
Qed.

(** ** One particle of an envelope kernel *)

Lemma envelope_particle_Ok
    (gathered : Z -> result (R * R * (Cplx * Cplx * Cplx * Cplx)))
    (gather_gradient average_a2 : bool) (i : Z) (o o' : envelope_out) :
  envelope_particle gathered gather_gradient average_a2 i o = Ok o' ->
  exists cos sin F Fr Ft Fz,
    gathered i = Ok (cos, sin, (F, Fr, Ft, Fz)) /\
    envelope_register gather_gradient average_a2 cos sin F Fr Ft Fz i o = Ok o'.
Proof.
  unfold envelope_particle. intros H.
  apply bind_Ok in H as ([[cos sin] [[[F Fr] Ft] Fz]] & Hg & H).
  exists cos, sin, F, Fr, Ft, Fz. auto.
Qed.

Lemma envelope_register_frame (gather_gradient average_a2 : bool)
    (cos sin : R) (F Fr Ft Fz : Cplx) (i j : Z) (o o' : envelope_out) :
  (0 <= i)%Z -> (0 <= j)%Z -> i <> j ->
  envelope_register gather_gradient average_a2 cos sin F Fr Ft Fz i o = Ok o' ->
  envelope_at o' j = envelope_at o j.
Proof.
  intros Hi Hj Hij H.
  pose proof (envelope_register_a2_frame _ _ _ _ _ _ _ _ i j _ _ Hi Hj Hij H)
    as Ha.
  unfold envelope_at. rewrite Ha. f_equal.
  unfold envelope_register in H.
  apply bind_Ok in H as ([[gx gy] gz] & Hg & H).
  apply bind_Ok in H as (a2' & _ & H). injection H as <-. simpl.
  destruct gather_gradient.
  - apply bind_Ok in Hg as (lx & Hx & Hg).
    apply bind_Ok in Hg as (ly & Hy & Hg).
    apply bind_Ok in Hg as (lz & Hz & Hg). injection Hg as <- <- <-.
    rewrite (getitem_setitem_other _ _ i j _ Hi Hj Hij Hx).
    rewrite (getitem_setitem_other _ _ i j _ Hi Hj Hij Hy).
    rewrite (getitem_setitem_other _ _ i j _ Hi Hj Hij Hz).
    reflexivity.
  - injection Hg as <- <- <-. reflexivity.
Qed.

Lemma envelope_register_returns (gather_gradient average_a2 : bool)
    (cos sin : R) (F Fr Ft Fz : Cplx) (i : Z) (o : envelope_out) :
  (0 <= i)%Z ->
  Forall (fun n => (i < Z.of_nat n)%Z) (envelope_lengths o) ->
  exists o',
    envelope_register gather_gradient average_a2 cos sin F Fr Ft Fz i o = Ok o'.
Proof.
  intros Hi Hl. rewrite Forall_forall in Hl.
  pose proof (Hl (length (a2 o)) ltac:(simpl; tauto)) as H1.
  pose proof (Hl (length (grad_a2_x o)) ltac:(simpl; tauto)) as H2.
  pose proof (Hl (length (grad_a2_y o)) ltac:(simpl; tauto)) as H3.
  pose proof (Hl (length (grad_a2_z o)) ltac:(simpl; tauto)) as H4.
  cbv beta in H1, H2, H3, H4.
  unfold envelope_register. cbv zeta.
  destruct gather_gradient, average_a2;
    rewrite ?(getitem_nth (a2 o) i 0) by lia;
    rewrite ?setitem_in_range by lia; simpl;
    rewrite ?setitem_in_range by lia; simpl; eauto.
Qed.

(** A loop of [envelope_particle] over distinct indices: when it returns,
    every particle visited has been registered once. *)
Lemma envelope_particles_once
    (gathered : Z -> result (R * R * (Cplx * Cplx * Cplx * Cplx)))
    (gather_gradient average_a2 : bool) (l : list Z) (o o' : envelope_out)
    (i : Z) :
  NoDup l -> Forall (fun k => (0 <= k)%Z) l -> In i l ->
  for_each (envelope_particle gathered gather_gradient average_a2) l o
  = Ok o' ->
  exists cos sin F Fr Ft Fz,
    gathered i = Ok (cos, sin, (F, Fr, Ft, Fz)) /\
    envelope_intensity_at average_a2 (a2 o) (a2 o') i F /\
    (gather_gradient = true -> envelope_gradient_at o' i cos sin F Fr Ft Fz).
Proof.
  intros Hd Hl Hin H.
  pose proof
    (for_each_once
       (envelope_particle gathered gather_gradient average_a2) envelope_at
       (fun j old new =>
          exists cos sin F Fr Ft Fz,
            gathered j = Ok (cos, sin, (F, Fr, Ft, Fz)) /\
            (if average_a2 then
               exists ov,
                 fst old = Ok ov /\
                 fst new = Ok (0.5 * (ov + real (Cmul F (conjugate F))))
             else fst new = Ok (real (Cmul F (conjugate F)))) /\
            (gather_gradient = true ->
             let Fx := Csub (Cscale cos Fr) (Cscale sin Ft) in
             let Fy := Cadd (Cscale sin Fr) (Cscale cos Ft) in
             snd new = (Ok (2 * real (Cmul Fx (conjugate F))),
                        Ok (2 * real (Cmul Fy (conjugate F))),
                        Ok (2 * real (Cmul Fz (conjugate F))))))
       ltac:(intros k j s s' Hk Hj Hkj Hb;
             apply envelope_particle_Ok in Hb
               as (cos & sin & F & Fr & Ft & Fz & _ & Hreg);
             exact (envelope_register_frame _ _ _ _ _ _ _ _ k j _ _
                      Hk Hj Hkj Hreg))
       ltac:(intros k s s' _ Hb;
             apply envelope_particle_Ok in Hb
               as (cos & sin & F & Fr & Ft & Fz & Hg & Hreg);
             exists cos, sin, F, Fr, Ft, Fz;
             split; [exact Hg |]; split;
             [exact (envelope_register_a2 _ _ _ _ _ _ _ _ _ _ _ Hreg) |];
             intros Hgg; rewrite Hgg in Hreg;
             destruct (envelope_register_gradient _ _ _ _ _ _ _ _ _ _ Hreg)
               as (Hx & Hy & Hz);
             cbv zeta; unfold envelope_at; simpl snd;
             rewrite Hx, Hy, Hz; reflexivity)
       l o o' i Hd Hl Hin H) as (cos & sin & F & Fr & Ft & Fz & Hg & Ha & Hgr).
  exists cos, sin, F, Fr, Ft, Fz. split; [exact Hg |]. split.
  - exact Ha.
  - intros Hgg. specialize (Hgr Hgg). cbv zeta in Hgr.
    unfold envelope_at in Hgr. simpl snd in Hgr.
    injection Hgr as Hx Hy Hz. unfold envelope_gradient_at. auto.
Qed.

Lemma envelope_particles_untouched
    (gathered : Z -> result (R * R * (Cplx * Cplx * Cplx * Cplx)))
    (gather_gradient average_a2 : bool) (l : list Z) (o o' : envelope_out)
    (j : Z) :
  Forall (fun k => (0 <= k)%Z) l -> (0 <= j)%Z -> ~ In j l ->
  for_each (envelope_particle gathered gather_gradient average_a2) l o
  = Ok o' ->
  envelope_at o' j = envelope_at o j.
Proof.
  intros Hl Hj Hn H.
  apply (for_each_untouched
           (envelope_particle gathered gather_gradient average_a2) envelope_at
           ltac:(intros k j' s s' Hk Hj' Hkj Hb;
                 apply envelope_particle_Ok in Hb
                   as (cos & sin & F & Fr & Ft & Fz & _ & Hreg);
                 exact (envelope_register_frame _ _ _ _ _ _ _ _ k j' _ _
                          Hk Hj' Hkj Hreg))
           l o o' j Hl Hj Hn H).
Qed.

(** Without the gradient flag the gradient arrays are not written. *)
Lemma envelope_particles_no_gradient
    (gathered : Z -> result (R * R * (Cplx * Cplx * Cplx * Cplx)))
    (average_a2 : bool) (l : list Z) (o o' : envelope_out) :
  for_each (envelope_particle gathered false average_a2) l o = Ok o' ->
  grad_a2_x o' = grad_a2_x o /\ grad_a2_y o' = grad_a2_y o /\
  grad_a2_z o' = grad_a2_z o.
Proof.
  intros H.
  apply (for_each_invariant
           (envelope_particle gathered false average_a2)
           (fun s => grad_a2_x s = grad_a2_x o /\ grad_a2_y s = grad_a2_y o
                     /\ grad_a2_z s = grad_a2_z o)
           ltac:(intros k s s' (Hx & Hy & Hz) Hb;
                 apply envelope_particle_Ok in Hb
                   as (cos & sin & F & Fr & Ft & Fz & _ & Hreg);
                 apply envelope_register_no_gradient in Hreg
                   as (Hx' & Hy' & Hz');
                 repeat split; congruence)
           l o o' (conj eq_refl (conj eq_refl eq_refl)) H).
Qed.

Lemma envelope_particles_return
    (gathered : Z -> result (R * R * (Cplx * Cplx * Cplx * Cplx)))
    (gather_gradient average_a2 : bool) (P : particles) (l : list Z)
    (o : envelope_out) :
  (forall i, In i l -> exists g, gathered i = Ok g) ->
  Forall (fun i => (0 <= i < Z.of_nat (length (ptcl_x P)))%Z) l ->
  long_enough P (envelope_lengths o) ->
  exists o',
    for_each (envelope_particle gathered gather_gradient average_a2) l o
    = Ok o'.
Proof.
  intros Hg Hl Ho. rewrite Forall_forall in Hl.
  assert (Hstep : forall i s,
            In i l -> long_enough P (envelope_lengths s) ->
            exists s',
              envelope_particle gathered gather_gradient average_a2 i s = Ok s'
              /\ long_enough P (envelope_lengths s')).
  { intros i s Hin Hs. destruct (Hg i Hin) as [[[cos sin] [[[F Fr] Ft] Fz]] E].
    destruct (envelope_register_returns gather_gradient average_a2
                cos sin F Fr Ft Fz i s) as [s' Hreg].
    - apply (Hl i Hin).
    - unfold long_enough in Hs. eapply Forall_impl; [| exact Hs].
      intros n Hn. cbv beta in *. specialize (Hl i Hin). lia.
    - exists s'. split.
      + unfold envelope_particle. rewrite E. simpl. exact Hreg.
      + rewrite (envelope_register_lengths _ _ _ _ _ _ _ _ _ _ _ Hreg).
        exact Hs. }
  destruct (for_each_succeeds _ _ l Hstep o Ho) as (o' & H & _).
  exists o'. exact H.
Qed.

(** ** The running sums of the linear envelope kernel *)

Lemma envelope_linear_mode_terms (add : linear_envelope_gather_for_mode)
    (A : envelope_grids) (gather_gradient : bool) (cos sin : R)
    (s : linear_shape) (m : Z) (F Fr Ft Fz F' Fr' Ft' Fz' : Cplx) :
  envelope_linear_mode add A gather_gradient cos sin s m (F, Fr, Ft, Fz)
  = Ok (F', Fr', Ft', Fz') ->
  envelope_linear_term add (a A) cos sin s m F = Ok F' /\
  if gather_gradient then
    envelope_linear_term add (grad_a_r A) cos sin s m Fr = Ok Fr' /\
    envelope_linear_term add (grad_a_t A) cos sin s m Ft = Ok Ft' /\
    envelope_linear_term add (grad_a_z A) cos sin s m Fz = Ok Fz'
  else Fr' = Fr /\ Ft' = Ft /\ Fz' = Fz.
Proof.
  unfold envelope_linear_mode, envelope_linear_term. intros H.
  apply bind_Ok in H as (a_m & Ha & H). rewrite Ha. cbn [bind].
  destruct gather_gradient.
  - apply bind_Ok in H as (gr & Hgr & H).
    apply bind_Ok in H as (gt & Hgt & H).
    apply bind_Ok in H as (gz & Hgz & H).
    cbv zeta in H.
    apply bind_Ok in H as (F1 & HF & H).
    apply bind_Ok in H as (Fr1 & HFr & H).
    apply bind_Ok in H as (Ft1 & HFt & H).
    apply bind_Ok in H as (Fz1 & HFz & H).
    injection H as <- <- <- <-.
    rewrite Hgr, Hgt, Hgz. cbn [bind]. auto.
  - cbv zeta in H. apply bind_Ok in H as (F1 & HF & H).
    injection H as <- <- <- <-. auto.
Qed.

Lemma envelope_linear_modes_split (add : linear_envelope_gather_for_mode)
    (A : envelope_grids) (gather_gradient : bool) (cos sin : R)
    (s : linear_shape) (l : list Z) :
  forall F0 Fr0 Ft0 Fz0 F Fr Ft Fz,
    for_each (envelope_linear_mode add A gather_gradient cos sin s) l
      (F0, Fr0, Ft0, Fz0) = Ok (F, Fr, Ft, Fz) ->
    for_each (envelope_linear_term add (a A) cos sin s) l F0 = Ok F /\
    if gather_gradient then
      for_each (envelope_linear_term add (grad_a_r A) cos sin s) l Fr0 = Ok Fr
      /\ for_each (envelope_linear_term add (grad_a_t A) cos sin s) l Ft0
         = Ok Ft
      /\ for_each (envelope_linear_term add (grad_a_z A) cos sin s) l Fz0
         = Ok Fz
    else Fr = Fr0 /\ Ft = Ft0 /\ Fz = Fz0.
Proof.
  induction l as [| m l IH]; intros F0 Fr0 Ft0 Fz0 F Fr Ft Fz H;
    cbn [for_each] in H.
  - injection H as <- <- <- <-. cbn [for_each]. destruct gather_gradient; auto.
  - destruct (envelope_linear_mode add A gather_gradient cos sin s m
                (F0, Fr0, Ft0, Fz0)) as [[[[F1 Fr1] Ft1] Fz1] |] eqn:E;
      [| discriminate].
    apply envelope_linear_mode_terms in E as (E0 & E).
    apply IH in H as (H0 & H).
    cbn [for_each]. rewrite E0. split; [exact H0 |].
    destruct gather_gradient.
    + destruct E as (E1 & E2 & E3). rewrite E1, E2, E3. exact H.
    + destruct E as (-> & -> & ->). exact H.
Qed.

Lemma envelope_linear_gathered_sums (add : linear_envelope_gather_for_mode)
    (P : particles) (G : geometry) (A : envelope_grids) (m_array : list Z)
    (gather_gradient : bool) (i : Z) (cos sin : R) (F Fr Ft Fz : Cplx) :
  envelope_linear_gathered add P G A m_array gather_gradient i
  = Ok (cos, sin, (F, Fr, Ft, Fz)) ->
  exists xj yj zj,
    position P i = Ok (xj, yj, zj) /\
    envelope_linear_sums add G A m_array gather_gradient xj yj zj cos sin
      F Fr Ft Fz.
Proof.
  unfold envelope_linear_gathered, position, envelope_linear_sums. intros H.
  apply bind_Ok in H as (xj & Hx & H).
  apply bind_Ok in H as (yj & Hy & H).
  apply bind_Ok in H as (zj & Hz & H).
  rewrite Hx, Hy, Hz. cbn [bind].
  exists xj, yj, zj. split; [reflexivity |].
  revert H. destruct (cylindrical_conversion xj yj) as [[rj c] sn].
  cbv zeta. intros H.
  apply bind_Ok in H as ([[[F1 Fr1] Ft1] Fz1] & Hm & H).
  injection H as <- <- <- <- <- <-.
  exists rj. split; [reflexivity |].
  unfold envelope_linear_modes in Hm.
  apply envelope_linear_modes_split in Hm as (H0 & Hs).
  split; [exact H0 |]. intros ->. exact Hs.
Qed.

Lemma envelope_linear_mode_returns (add : linear_envelope_gather_for_mode)
    (A : envelope_grids) (gather_gradient : bool) (cos sin : R)
    (s : linear_shape) (m : Z) (acc : Cplx * Cplx * Cplx * Cplx) :
  returns_linear_envelope add ->
  Forall (fun n => (- Z.of_nat n <= m < Z.of_nat n)%Z)
    [length (a A); length (grad_a_r A); length (grad_a_t A);
     length (grad_a_z A)] ->
  exists acc',
    envelope_linear_mode add A gather_gradient cos sin s m acc = Ok acc'.
Proof.
  intros Hr Hm. destruct acc as [[[F Fr] Ft] Fz].
  rewrite Forall_forall in Hm.
  destruct (getitem_in_range (a A) m
              (Hm (length (a A)) ltac:(simpl; tauto)))
    as [a_m Ha].
  destruct (getitem_in_range (grad_a_r A) m
              (Hm (length (grad_a_r A)) ltac:(simpl; tauto)))
    as [gr Hgr].
  destruct (getitem_in_range (grad_a_t A) m
              (Hm (length (grad_a_t A)) ltac:(simpl; tauto)))
    as [gt Hgt].
  destruct (getitem_in_range (grad_a_z A) m
              (Hm (length (grad_a_z A)) ltac:(simpl; tauto)))
    as [gz Hgz].
  unfold envelope_linear_mode. rewrite Ha. cbn [bind].
  destruct gather_gradient.
  - rewrite Hgr, Hgt, Hgz. cbn [bind]. cbv zeta.
    edestruct Hr as [F1 E1]; rewrite E1; cbn [bind].
    edestruct Hr as [Fr1 E2]; rewrite E2; cbn [bind].
    edestruct Hr as [Ft1 E3]; rewrite E3; cbn [bind].
    edestruct Hr as [Fz1 E4]; rewrite E4; cbn [bind].
    eauto.
  - cbv zeta. edestruct Hr as [F1 E1]; rewrite E1; cbn [bind]. eauto.
Qed.

Lemma envelope_linear_gathered_returns
    (add : linear_envelope_gather_for_mode)
    (P : particles) (G : geometry) (A : envelope_grids) (m_array : list Z)
    (gather_gradient : bool) (i : Z) :
  returns_linear_envelope add ->
  modes_in_range A m_array ->
  (0 <= i < Z.of_nat (length (ptcl_x P)))%Z ->
  (length (ptcl_x P) <= length (ptcl_y P))%nat ->
  (length (ptcl_x P) <= length (ptcl_z P))%nat ->
  exists g, envelope_linear_gathered add P G A m_array gather_gradient i = Ok g.
Proof.
  intros Hr Hm Hi Hy Hz. unfold envelope_linear_gathered.
  destruct (getitem_in_range (ptcl_x P) i) as [xj ->]; [lia |].
  destruct (getitem_in_range (ptcl_y P) i) as [yj ->]; [lia |].
  destruct (getitem_in_range (ptcl_z P) i) as [zj ->]; [lia |].
  cbn [bind]. destruct (cylindrical_conversion xj yj) as [[rj cos] sin].
  cbv zeta. unfold envelope_linear_modes.
  unfold modes_in_range in Hm. rewrite Forall_forall in Hm.
  destruct (for_each_succeeds
              (envelope_linear_mode add A gather_gradient cos sin
                 (linear_stencil G rj zj))
              (fun _ => True) m_array
              ltac:(intros m acc Hin _;
                    destruct (envelope_linear_mode_returns add A
                                gather_gradient cos sin
                                (linear_stencil G rj zj) m acc Hr (Hm m Hin))
                      as [acc' E];
                    exists acc'; split; [exact E | exact I])
              (RtoC 0, RtoC 0, RtoC 0, RtoC 0) I) as (acc & E & _).
  rewrite E. cbn [bind]. eauto.
Qed.

(** ** The linear envelope kernel *)

Lemma gather_envelope_linear_body_particle
    (add : linear_envelope_gather_for_mode)
    (P : particles) (G : geometry) (A : envelope_grids) (m_array : list Z)
    (gather_gradient average_a2 : bool) (i : Z) (o : envelope_out) :
  gather_envelope_linear_body add P G A m_array gather_gradient average_a2 i o
  = envelope_particle
      (envelope_linear_gathered add P G A m_array gather_gradient)
      gather_gradient average_a2 i o.
Proof. reflexivity. Qed.

Lemma gather_envelope_field_numba_linear_particle
    (add : linear_envelope_gather_for_mode)
    (P : particles) (G : geometry) (A : envelope_grids) (m_array : list Z)
    (gather_gradient average_a2 : bool) (o : envelope_out) :
  gather_envelope_field_numba_linear add P G A m_array
    gather_gradient average_a2 o
  = for_each
      (envelope_particle
         (envelope_linear_gathered add P G A m_array gather_gradient)
         gather_gradient average_a2)
      (py_range 0 (Z.of_nat (length (ptcl_x P)))) o.
Proof. reflexivity. Qed.

Lemma long_enough_envelope (P : particles) (o : envelope_out) :
  long_enough P (envelope_other_lengths P o) ->
  (length (ptcl_x P) <= length (ptcl_y P))%nat /\
  (length (ptcl_x P) <= length (ptcl_z P))%nat /\
  long_enough P (envelope_lengths o).
Proof.
  unfold long_enough, envelope_other_lengths. intros H.
  inversion H as [| ? ? Hy H1]; subst. inversion H1 as [| ? ? Hz H2]; subst.
  auto.
Qed.

Lemma gather_envelope_field_numba_linear_returns
    (add : linear_envelope_gather_for_mode)
    (P : particles) (G : geometry) (A : envelope_grids) (m_array : list Z)
    (gather_gradient average_a2 : bool) (o : envelope_out) :
  returns_linear_envelope add ->
  modes_in_range A m_array ->
  long_enough P (envelope_other_lengths P o) ->
  exists o',
    gather_envelope_field_numba_linear add P G A m_array
      gather_gradient average_a2 o = Ok o'.
Proof.
  intros Hr Hm Hl. apply long_enough_envelope in Hl as (Hy & Hz & Hl).
  rewrite gather_envelope_field_numba_linear_particle.
  apply (envelope_particles_return _ _ _ P).
  - intros i Hin. apply in_py_range in Hin.
    apply envelope_linear_gathered_returns; assumption.
  - apply py_range_in_range.
  - exact Hl.
Qed.

(** When a call returns, every particle has been registered once, with the
    running sums of its own position. *)
Lemma gather_envelope_field_numba_linear_registered
    (add : linear_envelope_gather_for_mode)
    (P : particles) (G : geometry) (A : envelope_grids) (m_array : list Z)
    (gather_gradient average_a2 : bool) (o o' : envelope_out) (i : Z) :
  gather_envelope_field_numba_linear add P G A m_array
    gather_gradient average_a2 o = Ok o' ->
  (0 <= i < Z.of_nat (length (ptcl_x P)))%Z ->
  exists xj yj zj cos sin F Fr Ft Fz,
    position P i = Ok (xj, yj, zj) /\
    envelope_linear_sums add G A m_array gather_gradient xj yj zj cos sin
      F Fr Ft Fz /\
    envelope_intensity_at average_a2 (a2 o) (a2 o') i F /\
    (gather_gradient = true -> envelope_gradient_at o' i cos sin F Fr Ft Fz).
Proof.
  intros H Hi. rewrite gather_envelope_field_numba_linear_particle in H.
  destruct (envelope_particles_once _ _ _ _ o o' i
              (NoDup_py_range 0 _)
              (py_range_nonneg 0 _ ltac:(lia))
              (proj2 (in_py_range 0 _ i) Hi) H)
    as (cos & sin & F & Fr & Ft & Fz & Hg & Ha & Hgr).
  apply envelope_linear_gathered_sums in Hg as (xj & yj & zj & Hp & Hs).
  exists xj, yj, zj, cos, sin, F, Fr, Ft, Fz. auto.
Qed.

(** ** The running sums of the cubic envelope kernel *)

Lemma envelope_cubic_mode_terms (add : cubic_envelope_gather_for_mode)
    (G : geometry) (A : envelope_grids) (gather_gradient : bool)
    (cos sin : R) (ir_lowest iz_lowest : Z) (Sr Sz : list R) (m : Z)
    (F Fr Ft Fz F' Fr' Ft' Fz' : Cplx) :
  envelope_cubic_mode add G A gather_gradient cos sin ir_lowest iz_lowest
    Sr Sz m (F, Fr, Ft, Fz) = Ok (F', Fr', Ft', Fz') ->
  envelope_cubic_term add G (a A) cos sin ir_lowest iz_lowest Sr Sz m F
  = Ok F' /\
  if gather_gradient then
    envelope_cubic_term add G (grad_a_r A) cos sin ir_lowest iz_lowest
      Sr Sz m Fr = Ok Fr' /\
    envelope_cubic_term add G (grad_a_t A) cos sin ir_lowest iz_lowest
      Sr Sz m Ft = Ok Ft' /\
    envelope_cubic_term add G (grad_a_z A) cos sin ir_lowest iz_lowest
      Sr Sz m Fz = Ok Fz'
  else Fr' = Fr /\ Ft' = Ft /\ Fz' = Fz.
Proof.
  unfold envelope_cubic_mode, envelope_cubic_term. intros H.
  apply bind_Ok in H as (a_m & Ha & H). rewrite Ha. cbn [bind].
  destruct gather_gradient.
  - apply bind_Ok in H as (gr & Hgr & H).
    apply bind_Ok in H as (gt & Hgt & H).
    apply bind_Ok in H as (gz & Hgz & H).
    cbv zeta in H.
    apply bind_Ok in H as (F1 & HF & H).
    apply bind_Ok in H as (Fr1 & HFr & H).
    apply bind_Ok in H as (Ft1 & HFt & H).
    apply bind_Ok in H as (Fz1 & HFz & H).
    injection H as <- <- <- <-.
    rewrite Hgr, Hgt, Hgz. cbn [bind]. auto.
  - cbv zeta in H. apply bind_Ok in H as (F1 & HF & H).
    injection H as <- <- <- <-. auto.
Qed.

Lemma envelope_cubic_modes_split (add : cubic_envelope_gather_for_mode)
    (G : geometry) (A : envelope_grids) (gather_gradient : bool)
    (cos sin : R) (ir_lowest iz_lowest : Z) (Sr Sz : list R) (l : list Z) :
  forall F0 Fr0 Ft0 Fz0 F Fr Ft Fz,
    for_each (envelope_cubic_mode add G A gather_gradient cos sin
                ir_lowest iz_lowest Sr Sz) l
      (F0, Fr0, Ft0, Fz0) = Ok (F, Fr, Ft, Fz) ->
    for_each (envelope_cubic_term add G (a A) cos sin ir_lowest iz_lowest
                Sr Sz) l F0 = Ok F /\
    if gather_gradient then
      for_each (envelope_cubic_term add G (grad_a_r A) cos sin
                  ir_lowest iz_lowest Sr Sz) l Fr0 = Ok Fr
      /\ for_each (envelope_cubic_term add G (grad_a_t A) cos sin
                     ir_lowest iz_lowest Sr Sz) l Ft0 = Ok Ft
      /\ for_each (envelope_cubic_term add G (grad_a_z A) cos sin
                     ir_lowest iz_lowest Sr Sz) l Fz0 = Ok Fz
    else Fr = Fr0 /\ Ft = Ft0 /\ Fz = Fz0.
Proof.
  induction l as [| m l IH]; intros F0 Fr0 Ft0 Fz0 F Fr Ft Fz H;
    cbn [for_each] in H.
  - injection H as <- <- <- <-. cbn [for_each]. destruct gather_gradient; auto.
  - destruct (envelope_cubic_mode add G A gather_gradient cos sin
                ir_lowest iz_lowest Sr Sz m (F0, Fr0, Ft0, Fz0))
      as [[[[F1 Fr1] Ft1] Fz1] |] eqn:E; [| discriminate].
    apply envelope_cubic_mode_terms in E as (E0 & E).
    apply IH in H as (H0 & H).
    cbn [for_each]. rewrite E0. split; [exact H0 |].
    destruct gather_gradient.
    + destruct E as (E1 & E2 & E3). rewrite E1, E2, E3. exact H.
    + destruct E as (-> & -> & ->). exact H.
Qed.

Lemma envelope_cubic_gathered_sums (add : cubic_envelope_gather_for_mode)
    (P : particles) (G : geometry) (A : envelope_grids) (m_array : list Z)
    (gather_gradient : bool) (i : Z) (cos sin : R) (F Fr Ft Fz : Cplx) :
  envelope_cubic_gathered add P G A m_array gather_gradient i
  = Ok (cos, sin, (F, Fr, Ft, Fz)) ->
  exists xj yj zj,
    position P i = Ok (xj, yj, zj) /\
    envelope_cubic_sums add G A m_array gather_gradient xj yj zj cos sin
      F Fr Ft Fz.
Proof.
  unfold envelope_cubic_gathered, envelope_cubic_sums. intros H.
  apply bind_Ok in H as ([[xj yj] zj] & Hp & H).
  exists xj, yj, zj. split; [exact Hp |].
  revert H. destruct (cylindrical_conversion xj yj) as [[rj c] sn].
  cbv zeta. intros H.
  apply bind_Ok in H as ([[[F1 Fr1] Ft1] Fz1] & Hm & H).
  injection H as <- <- <- <- <- <-.
  exists rj. split; [reflexivity |].
  unfold envelope_cubic_modes in Hm.
  apply envelope_cubic_modes_split in Hm as (H0 & Hs).
  split; [exact H0 |]. intros ->. exact Hs.
Qed.

Lemma envelope_cubic_mode_returns (add : cubic_envelope_gather_for_mode)
    (G : geometry) (A : envelope_grids) (gather_gradient : bool)
    (cos sin : R) (ir_lowest iz_lowest : Z) (Sr Sz : list R) (m : Z)
    (acc : Cplx * Cplx * Cplx * Cplx) :
  returns_cubic_envelope add ->
  Forall (fun n => (- Z.of_nat n <= m < Z.of_nat n)%Z)
    [length (a A); length (grad_a_r A); length (grad_a_t A);
     length (grad_a_z A)] ->
  exists acc',
    envelope_cubic_mode add G A gather_gradient cos sin ir_lowest iz_lowest
      Sr Sz m acc = Ok acc'.
Proof.
  intros Hr Hm. destruct acc as [[[F Fr] Ft] Fz].
  rewrite Forall_forall in Hm.
  destruct (getitem_in_range (a A) m
              (Hm (length (a A)) ltac:(simpl; tauto)))
    as [a_m Ha].
  destruct (getitem_in_range (grad_a_r A) m
              (Hm (length (grad_a_r A)) ltac:(simpl; tauto)))
    as [gr Hgr].
  destruct (getitem_in_range (grad_a_t A) m
              (Hm (length (grad_a_t A)) ltac:(simpl; tauto)))
    as [gt Hgt].
  destruct (getitem_in_range (grad_a_z A) m
              (Hm (length (grad_a_z A)) ltac:(simpl; tauto)))
    as [gz Hgz].
  unfold envelope_cubic_mode. rewrite Ha. cbn [bind].
  destruct gather_gradient.
  - rewrite Hgr, Hgt, Hgz. cbn [bind]. cbv zeta.
    edestruct Hr as [F1 E1]; rewrite E1; cbn [bind].
    edestruct Hr as [Fr1 E2]; rewrite E2; cbn [bind].
    edestruct Hr as [Ft1 E3]; rewrite E3; cbn [bind].
    edestruct Hr as [Fz1 E4]; rewrite E4; cbn [bind].
    eauto.
  - cbv zeta. edestruct Hr as [F1 E1]; rewrite E1; cbn [bind]. eauto.
Qed.

Lemma envelope_cubic_gathered_returns
    (add : cubic_envelope_gather_for_mode)
    (P : particles) (G : geometry) (A : envelope_grids) (m_array : list Z)
    (gather_gradient : bool) (i : Z) :
  returns_cubic_envelope add ->
  modes_in_range A m_array ->
  (0 <= i < Z.of_nat (length (ptcl_x P)))%Z ->
  (length (ptcl_x P) <= length (ptcl_y P))%nat ->
  (length (ptcl_x P) <= length (ptcl_z P))%nat ->
  exists g, envelope_cubic_gathered add P G A m_array gather_gradient i = Ok g.
Proof.
  intros Hr Hm Hi Hy Hz. unfold envelope_cubic_gathered.
  destruct (position_in_range P i Hi Hy Hz) as (xj & yj & zj & ->).
  cbn [bind]. destruct (cylindrical_conversion xj yj) as [[rj cos] sin].
  cbv zeta. unfold envelope_cubic_modes.
  unfold modes_in_range in Hm. rewrite Forall_forall in Hm.
  match goal with
  | |- context [for_each (envelope_cubic_mode add G A gather_gradient cos sin
                           ?ir ?iz ?Sr ?Sz) m_array ?acc0] =>
      destruct (for_each_succeeds
                  (envelope_cubic_mode add G A gather_gradient cos sin
                     ir iz Sr Sz) (fun _ => True) m_array
                  ltac:(intros m acc Hin _;
                        destruct (envelope_cubic_mode_returns add G A
                                    gather_gradient cos sin ir iz Sr Sz m acc
                                    Hr (Hm m Hin)) as [acc' E];
                        exists acc'; split; [exact E | exact I])
                  acc0 I) as (acc & E & _)
  end.
  rewrite E. cbn [bind]. eauto.
Qed.

(** ** The cubic envelope kernel *)

(** With chunks that partition [[0, N)], the kernel is the loop of
    [envelope_particle] over [range(N)]. *)
Lemma gather_envelope_field_numba_cubic_particle
    (add : cubic_envelope_gather_for_mode)
    (P : particles) (G : geometry) (A : envelope_grids) (m_array : list Z)
    (gather_gradient average_a2 : bool) (o : envelope_out)
    (junk_r junk_z : Z -> nat -> R) (nthreads : Z) (chunks : list Z) (N : Z) :
  is_partition chunks N = true ->
  nthreads = (Z.of_nat (length chunks) - 1)%Z ->
  gather_envelope_field_numba_cubic add P G junk_r junk_z
    A m_array o nthreads chunks gather_gradient average_a2
  = for_each
      (envelope_particle
         (envelope_cubic_gathered add P G A m_array gather_gradient)
         gather_gradient average_a2)
      (py_range 0 N) o.
Proof.
  intros Hc Hn.
  exact (gather_envelope_field_numba_cubic_eq add P G A m_array
           gather_gradient average_a2 o junk_r junk_z nthreads chunks N
           Hc Hn).
Qed.

Lemma gather_envelope_field_numba_cubic_returns
    (add : cubic_envelope_gather_for_mode)
    (P : particles) (G : geometry) (A : envelope_grids) (m_array : list Z)
    (gather_gradient average_a2 : bool) (o : envelope_out)
    (junk_r junk_z : Z -> nat -> R) (nthreads : Z) (chunks : list Z) :
  is_partition chunks (Z.of_nat (length (ptcl_x P))) = true ->
  nthreads = (Z.of_nat (length chunks) - 1)%Z ->
  returns_cubic_envelope add ->
  modes_in_range A m_array ->
  long_enough P (envelope_other_lengths P o) ->
  exists o',
    gather_envelope_field_numba_cubic add P G junk_r junk_z
      A m_array o nthreads chunks gather_gradient average_a2 = Ok o'.
Proof.
  intros Hc Hn Hr Hm Hl. apply long_enough_envelope in Hl as (Hy & Hz & Hl).
  rewrite (gather_envelope_field_numba_cubic_particle add P G A m_array
             gather_gradient average_a2 o junk_r junk_z nthreads chunks _
             Hc Hn).
  apply (envelope_particles_return _ _ _ P).
  - intros i Hin. apply in_py_range in Hin.
    apply envelope_cubic_gathered_returns; assumption.
  - apply py_range_in_range.
  - exact Hl.
Qed.

Lemma gather_envelope_field_numba_cubic_registered
    (add : cubic_envelope_gather_for_mode)
    (P : particles) (G : geometry) (A : envelope_grids) (m_array : list Z)
    (gather_gradient average_a2 : bool) (o o' : envelope_out)
    (junk_r junk_z : Z -> nat -> R) (nthreads : Z) (chunks : list Z) (i : Z) :
  is_partition chunks (Z.of_nat (length (ptcl_x P))) = true ->
  nthreads = (Z.of_nat (length chunks) - 1)%Z ->
  gather_envelope_field_numba_cubic add P G junk_r junk_z
    A m_array o nthreads chunks gather_gradient average_a2 = Ok o' ->
  (0 <= i < Z.of_nat (length (ptcl_x P)))%Z ->
  exists xj yj zj cos sin F Fr Ft Fz,
    position P i = Ok (xj, yj, zj) /\
    envelope_cubic_sums add G A m_array gather_gradient xj yj zj cos sin
      F Fr Ft Fz /\
    envelope_intensity_at average_a2 (a2 o) (a2 o') i F /\
    (gather_gradient = true -> envelope_gradient_at o' i cos sin F Fr Ft Fz).
Proof.
  intros Hc Hn H Hi.
  rewrite (gather_envelope_field_numba_cubic_particle add P G A m_array
             gather_gradient average_a2 o junk_r junk_z nthreads chunks _
             Hc Hn) in H.
  destruct (envelope_particles_once _ _ _ _ o o' i
              (NoDup_py_range 0 _)
              (py_range_nonneg 0 _ ltac:(lia))
              (proj2 (in_py_range 0 _ i) Hi) H)
    as (cos & sin & F & Fr & Ft & Fz & Hg & Ha & Hgr).
  apply envelope_cubic_gathered_sums in Hg as (xj & yj & zj & Hp & Hs).
  exists xj, yj, zj, cos, sin, F, Fr, Ft, Fz. auto.
Qed.

(** ** The accumulators that return the indices they are handed *)

Lemma returns_linear_index_probe : returns_linear linear_index_probe.
Proof. intros ? ? ? ? ? ? ? ? ? ? ? ? ? ? ? ? ? ?. eexists. reflexivity. Qed.

Lemma returns_linear_envelope_index_probe :
  returns_linear_envelope linear_envelope_index_probe.
Proof. intros ? ? ? ? ? ? ? ? ? ? ? ? ? ?. eexists. reflexivity. Qed.

Lemma returns_axial_index_probe : returns_cubic axial_index_probe.
Proof. intros ? ? ? ? ? ? ? ? ? ? ? ? ? ?. eexists. reflexivity. Qed.

Lemma returns_cubic_envelope_index_probe :
  returns_cubic_envelope cubic_envelope_index_probe.
Proof. intros ? ? ? ? ? ? ? ? ? ?. eexists. reflexivity. Qed.



(** ** Axial indices that stay outside the grid *)


(** ** The phase factor as a rotation *)

Lemma envelope_exptheta_rotation (theta : R) (m : Z) :
  envelope_exptheta (Rtrigo_def.cos theta) (Rtrigo_def.sin theta) m
  = mkC (Rtrigo_def.cos (IZR m * theta)) (- Rtrigo_def.sin (IZR m * theta)).
Proof.
  assert (Hu : Rtrigo_def.cos theta * Rtrigo_def.cos theta
               + Rtrigo_def.sin theta * Rtrigo_def.sin theta = 1).
  { pose proof (sin2_cos2 theta) as H. unfold Rsqr in H. lra. }
  pattern m. apply Z.peano_ind; clear m.
  - rewrite Rmult_0_l, cos_0, sin_0. apply Cplx_eq; simpl; lra.
  - intros k IH. unfold Z.succ. rewrite envelope_exptheta_succ by exact Hu.
    rewrite IH, exptheta_base_eq, plus_IZR.
    replace ((IZR k + 1) * theta) with (IZR k * theta + theta) by ring.
    rewrite cos_plus, sin_plus. apply Cplx_eq; simpl; ring.
  - intros k IH. unfold Z.pred. replace (k + -1)%Z with (k - 1)%Z by lia.
    rewrite envelope_exptheta_pred by exact Hu.
    rewrite IH, exptheta_base_eq, minus_IZR.
    replace ((IZR k - 1) * theta) with (IZR k * theta - theta) by ring.
    rewrite cos_minus, sin_minus. apply Cplx_eq; simpl; ring.
Qed.

(** ** Chunks that do not overlap *)

Lemma nondecreasing_nth (l : list Z) :
  nondecreasing l = true ->
  forall u v, (u <= v < length l)%nat -> (nth u l 0 <= nth v l 0)%Z.
Proof.
  induction l as [| c t IH]; intros H u v Huv; [simpl in Huv; lia |].
  pose proof (nondecreasing_tail c t H) as Ht.
  assert (Hc : forall k, (k < length t)%nat -> (c <= nth k t 0)%Z).
  { intros k Hk. destruct t as [| c' t']; [simpl in Hk; lia |].
    assert (Hcc : (c <= c')%Z).
    { simpl in H. apply andb_prop in H as [H _]. apply Z.leb_le. exact H. }
    pose proof (IH Ht 0%nat k ltac:(lia)) as H0. simpl nth at 1 in H0. lia. }
  destruct u as [| u], v as [| v]; simpl nth.
  - lia.
  - apply Hc. simpl in Huv. lia.
  - lia.
  - apply (IH Ht). simpl in Huv. lia.
Qed.

Lemma chunk_of_disjoint (chunks : list Z) (nt nt' i : Z) :
  nondecreasing chunks = true ->
  (0 <= nt < Z.of_nat (length chunks) - 1)%Z ->
  (0 <= nt' < Z.of_nat (length chunks) - 1)%Z ->
  nt <> nt' ->
  In i (chunk_of chunks nt) -> ~ In i (chunk_of chunks nt').
Proof.
  intros Hc Hnt Hnt' Hne Hi Hi'. unfold chunk_of in Hi, Hi'.
  apply in_py_range in Hi, Hi'.
  destruct (Z.lt_ge_cases nt nt') as [Hlt | Hge].
  - pose proof (nondecreasing_nth chunks Hc (Z.to_nat (nt + 1)) (Z.to_nat nt')
                  ltac:(lia)). lia.
  - pose proof (nondecreasing_nth chunks Hc (Z.to_nat (nt' + 1)) (Z.to_nat nt)
                  ltac:(lia)). lia.
Qed.

Lemma NoDup_flat_map_disjoint {A B : Type} (f : A -> list B) (l : list A) :
  NoDup l ->
  (forall x, In x l -> NoDup (f x)) ->
  (forall x y z, In x l -> In y l -> x <> y -> In z (f x) -> ~ In z (f y)) ->
  NoDup (flat_map f l).
Proof.
  induction 1 as [| x l Hx Hl IH]; intros Hf Hd; simpl; [constructor |].
  apply NoDup_app.
  - apply Hf. left; reflexivity.
  - apply IH.
    + intros y Hy. apply Hf. right; exact Hy.
    + intros y y' z Hy Hy'. apply Hd; right; assumption.
  - intros z Hz Hin. apply in_flat_map in Hin as (y & Hy & Hzy).
    apply (Hd x y z); [left; reflexivity | right; exact Hy | | exact Hz
                      | exact Hzy].
    intros ->. contradiction.
Qed.

(** With at most as many threads as chunks, the cubic field kernel is the
    loop of [field_particle] over the chunks of its threads, one after the
    other in the order of the threads. *)
Lemma gather_field_numba_cubic_chunks (add : cubic_gather_for_mode)
    (P : particles) (G : geometry) (M : EB_grids) (o : EB_out)
    (order : list Z -> list Z) (junk_r junk_z : Z -> nat -> R)
    (nthreads : Z) (chunks : list Z) :
  (forall l, Permutation (order l) l) ->
  (nthreads <= Z.of_nat (length chunks) - 1)%Z ->
  gather_field_numba_cubic add P G order junk_r junk_z M o nthreads chunks
  = for_each (field_particle (gather_field_cubic_values add G M) P)
      (flat_map (chunk_of chunks) (order (py_range 0 nthreads))) o.
Proof.
  intros Hp Hn. unfold gather_field_numba_cubic.
  rewrite gather_field_cubic_threads.
  - apply for_each_ext. intros i s. apply gather_field_cubic_particle_field.
  - eapply Forall_impl; [| exact (order_in_range order nthreads Hp)].
    intros nt Hnt. cbv beta in *. lia.
Qed.

Lemma chunks_in_range (chunks : list Z) (order : list Z -> list Z)
    (nthreads lo hi : Z) :
  (forall l, Permutation (order l) l) ->
  (nthreads <= Z.of_nat (length chunks) - 1)%Z ->
  Forall (fun c => (lo <= c <= hi)%Z) chunks ->
  Forall (fun i => (lo <= i < hi)%Z)
    (flat_map (chunk_of chunks) (order (py_range 0 nthreads))).
Proof.
  intros Hp Hn Hc. apply Forall_forall. intros i Hi.
  apply in_flat_map in Hi as (nt & Hnt & Hi).
  pose proof (order_in_range order nthreads Hp) as Hs.
  rewrite Forall_forall in Hs. specialize (Hs nt Hnt). cbv beta in Hs.
  unfold chunk_of in Hi. apply in_py_range in Hi.
  rewrite Forall_forall in Hc.
  pose proof (Hc (nth (Z.to_nat nt) chunks 0%Z)
                ltac:(apply nth_In; lia)) as H1.
  pose proof (Hc (nth (Z.to_nat (nt + 1)) chunks 0%Z)
                ltac:(apply nth_In; lia)) as H2.
  cbv beta in H1, H2. lia.
Qed.

(** * The claims on whole calls *)

(** ** No range check after the axial wraparound *)


(** ** Conversion to Cartesian coordinates *)

(** C7. After a call of a gather kernel every particle [i < N] holds the
    Cartesian components [cos * Fr - sin * Ft], [sin * Fr + cos * Ft] and
    [Fz] of the cylindrical vector [(Fr, Ft, Fz)] accumulated over the modes
    at its own position: the linear and the cubic field kernels for the E
    field and for the B field, whatever the order of the iterations and,
    for the cubic kernel, whatever the chunks; the linear and the cubic
    envelope kernels for the gradient, whose Cartesian components then enter
    the gradient of the intensity, [Fr], [Ft], [Fz] being the running sums
    of the grids [grad_a_r], [grad_a_t], [grad_a_z].  Each of these calls
    returns when the accumulator returns and the arrays are long enough. *)
Theorem cartesian_outputs (P : particles) (G : geometry) :
  let N := Z.of_nat (length (ptcl_x P)) in
  (forall add_linear order M o,
     (forall l, Permutation (order l) l) ->
     (returns_linear add_linear -> long_enough P (other_lengths P o) ->
      exists o', gather_field_numba_linear add_linear P G order M o = Ok o') /\
     forall o' i,
       gather_field_numba_linear add_linear P G order M o = Ok o' ->
       (0 <= i < N)%Z ->
       exists xj yj zj rj cos sin Er Et Ez_ Br Bt Bz_,
         position P i = Ok (xj, yj, zj) /\
         cylindrical_conversion xj yj = (rj, cos, sin) /\
         linear_modes add_linear (linear_stencil G rj zj) (RtoC 1)
           (exptheta_base cos sin)
           (Er_m0 M) (Et_m0 M) (Ez_m0 M) (Er_m1 M) (Et_m1 M) (Ez_m1 M)
         = Ok (Er, Et, Ez_) /\
         linear_modes add_linear (linear_stencil G rj zj) (RtoC 1)
           (exptheta_base cos sin)
           (Br_m0 M) (Bt_m0 M) (Bz_m0 M) (Br_m1 M) (Bt_m1 M) (Bz_m1 M)
         = Ok (Br, Bt, Bz_) /\
         cartesian_at (Ex o') (Ey o') (Ez o') i cos sin Er Et Ez_ /\
         cartesian_at (Bx o') (By o') (Bz o') i cos sin Br Bt Bz_) /\
  (forall add_cubic order junk_r junk_z M o nthreads ptcl_chunk_indices,
     (forall l, Permutation (order l) l) ->
     is_partition ptcl_chunk_indices N = true ->
     nthreads = (Z.of_nat (length ptcl_chunk_indices) - 1)%Z ->
     (returns_cubic add_cubic -> long_enough P (other_lengths P o) ->
      exists o',
        gather_field_numba_cubic add_cubic P G order junk_r junk_z M o
          nthreads ptcl_chunk_indices = Ok o') /\
     forall o' i,
       gather_field_numba_cubic add_cubic P G order junk_r junk_z M o
         nthreads ptcl_chunk_indices = Ok o' ->
       (0 <= i < N)%Z ->
       exists xj yj zj rj cos sin Er Et Ez_ Br Bt Bz_,
         position P i = Ok (xj, yj, zj) /\
         cylindrical_conversion xj yj = (rj, cos, sin) /\
         cubic_modes add_cubic G
           (cubic_lowest (r_cell_of G rj)) (cubic_lowest (z_cell_of G zj))
           (fst (cubic_scratch G xj yj zj)) (snd (cubic_scratch G xj yj zj))
           (RtoC 1) (exptheta_base cos sin)
           (Er_m0 M) (Et_m0 M) (Ez_m0 M) (Er_m1 M) (Et_m1 M) (Ez_m1 M)
         = Ok (Er, Et, Ez_) /\
         cubic_modes add_cubic G
           (cubic_lowest (r_cell_of G rj)) (cubic_lowest (z_cell_of G zj))
           (fst (cubic_scratch G xj yj zj)) (snd (cubic_scratch G xj yj zj))
           (RtoC 1) (exptheta_base cos sin)
           (Br_m0 M) (Bt_m0 M) (Bz_m0 M) (Br_m1 M) (Bt_m1 M) (Bz_m1 M)
         = Ok (Br, Bt, Bz_) /\
         cartesian_at (Ex o') (Ey o') (Ez o') i cos sin Er Et Ez_ /\
         cartesian_at (Bx o') (By o') (Bz o') i cos sin Br Bt Bz_) /\
  (forall add_linear_envelope A m_array average_a2 o,
     (returns_linear_envelope add_linear_envelope ->
      modes_in_range A m_array ->
      long_enough P (envelope_other_lengths P o) ->
      exists o',
        gather_envelope_field_numba_linear add_linear_envelope P G A m_array
          true average_a2 o = Ok o') /\
     forall o' i,
       gather_envelope_field_numba_linear add_linear_envelope P G A m_array
         true average_a2 o = Ok o' ->
       (0 <= i < N)%Z ->
       exists xj yj zj cos sin F Fr Ft Fz,
         position P i = Ok (xj, yj, zj) /\
         envelope_linear_sums add_linear_envelope G A m_array true
           xj yj zj cos sin F Fr Ft Fz /\
         envelope_gradient_at o' i cos sin F Fr Ft Fz) /\
  (forall add_cubic_envelope junk_r junk_z A m_array average_a2 o
          nthreads ptcl_chunk_indices,
     is_partition ptcl_chunk_indices N = true ->
     nthreads = (Z.of_nat (length ptcl_chunk_indices) - 1)%Z ->
     (returns_cubic_envelope add_cubic_envelope ->
      modes_in_range A m_array ->
      long_enough P (envelope_other_lengths P o) ->
      exists o',
        gather_envelope_field_numba_cubic add_cubic_envelope P G
          junk_r junk_z A m_array o nthreads ptcl_chunk_indices
          true average_a2 = Ok o') /\
     forall o' i,
       gather_envelope_field_numba_cubic add_cubic_envelope P G
         junk_r junk_z A m_array o nthreads ptcl_chunk_indices
         true average_a2 = Ok o' ->
       (0 <= i < N)%Z ->
       exists xj yj zj cos sin F Fr Ft Fz,
         position P i = Ok (xj, yj, zj) /\
         envelope_cubic_sums add_cubic_envelope G A m_array true
           xj yj zj cos sin F Fr Ft Fz /\
         envelope_gradient_at o' i cos sin F Fr Ft Fz).
Proof.
  intros N. split; [| split; [| split]].
  - intros add order M o Hp. split.
    + intros Hr Hl.
      exact (gather_field_numba_linear_returns add P G M o order Hp Hr Hl).
    + intros o' i H Hi.
      exact (gather_field_numba_linear_cartesian add P G M o o' order i
               Hp H Hi).
  - intros add order junk_r junk_z M o nthreads chunks Hp Hc Hn. split.
    + intros Hr Hl.
      exact (gather_field_numba_cubic_returns add P G M o order junk_r junk_z
               nthreads chunks Hp Hc Hn Hr Hl).
    + intros o' i H Hi.
      exact (gather_field_numba_cubic_cartesian add P G M o o' order
               junk_r junk_z nthreads chunks i Hp Hc Hn H Hi).
  - intros add A m_array avg o. split.
    + intros Hr Hm Hl.
      exact (gather_envelope_field_numba_linear_returns add P G A m_array
               true avg o Hr Hm Hl).
    + intros o' i H Hi.
      destruct (gather_envelope_field_numba_linear_registered add P G A
                  m_array true avg o o' i H Hi)
        as (xj & yj & zj & cos & sin & F & Fr & Ft & Fz & Hpos & Hs & _ & Hg).
      exists xj, yj, zj, cos, sin, F, Fr, Ft, Fz. auto.
  - intros add junk_r junk_z A m_array avg o nthreads chunks Hc Hn. split.
    + intros Hr Hm Hl.
      exact (gather_envelope_field_numba_cubic_returns add P G A m_array
               true avg o junk_r junk_z nthreads chunks Hc Hn Hr Hm Hl).
    + intros o' i H Hi.
      destruct (gather_envelope_field_numba_cubic_registered add P G A
                  m_array true avg o o' junk_r junk_z nthreads chunks i
                  Hc Hn H Hi)
        as (xj & yj & zj & cos & sin & F & Fr & Ft & Fz & Hpos & Hs & _ & Hg).
      exists xj, yj, zj, cos, sin, F, Fr, Ft, Fz. auto.
Qed.

(** ** Intensity of the envelope: overwrite or average *)

Lemma gather_envelope_field_numba_cubic_a2
    (add : cubic_envelope_gather_for_mode)
    (P : particles) (G : geometry) (A : envelope_grids) (m_array : list Z)
    (gather_gradient average_a2 : bool) (o o' : envelope_out)
    (junk_r junk_z : Z -> nat -> R) (nthreads : Z) (chunks : list Z) (i : Z) :
  is_partition chunks (Z.of_nat (length (ptcl_x P))) = true ->
  nthreads = (Z.of_nat (length chunks) - 1)%Z ->
  gather_envelope_field_numba_cubic add P G junk_r junk_z
    A m_array o nthreads chunks gather_gradient average_a2 = Ok o' ->
  (0 <= i < Z.of_nat (length (ptcl_x P)))%Z ->
  exists cos sin F Fr Ft Fz,
    envelope_cubic_gathered add P G A m_array gather_gradient i
    = Ok (cos, sin, (F, Fr, Ft, Fz)) /\
    envelope_intensity_at average_a2 (a2 o) (a2 o') i F.
Proof.
  intros Hc Hn H Hi.
  rewrite (gather_envelope_field_numba_cubic_particle add P G A m_array
             gather_gradient average_a2 o junk_r junk_z nthreads chunks _
             Hc Hn) in H.
  destruct (envelope_particles_once _ _ _ _ o o' i
              (NoDup_py_range 0 _)
              (py_range_nonneg 0 _ ltac:(lia))
              (proj2 (in_py_range 0 _ i) Hi) H)
    as (cos & sin & F & Fr & Ft & Fz & Hg & Ha & _).
  exists cos, sin, F, Fr, Ft, Fz. auto.
Qed.

(** C8. After a call of an envelope kernel the stored intensity of every
    particle is the newly computed intensity when the averaging flag is not
    set, and half the sum of the old stored intensity and of the newly
    computed one when it is set; with a stored intensity of 5 and a computed
    intensity of 3, the stored value is 4 after one averaged call and 3.5
    after a second one.  This holds of the linear kernel and, whatever the
    chunks that partition the particles, of the cubic kernel; each of these
    calls returns when the accumulator returns, the modes are indices of the
    arrays of grids and the arrays are long enough. *)
Theorem envelope_intensity_policy
    (add_linear_envelope : linear_envelope_gather_for_mode)
    (P : particles) (G : geometry) (A : envelope_grids) (m_array : list Z)
    (gather_gradient : bool) (i : Z) :
  (0 <= i < Z.of_nat (length (ptcl_x P)))%Z ->
  (forall average_a2 o o',
     gather_envelope_field_numba_linear add_linear_envelope P G A m_array
       gather_gradient average_a2 o = Ok o' ->
     exists I,
       envelope_linear_intensity add_linear_envelope P G A m_array
         gather_gradient i = Ok I /\
       if average_a2 then
         exists old, getitem (a2 o) i = Ok old /\
                     getitem (a2 o') i = Ok (0.5 * (old + I))
       else getitem (a2 o') i = Ok I) /\
  (forall o o1 o2,
     getitem (a2 o) i = Ok 5 ->
     envelope_linear_intensity add_linear_envelope P G A m_array
       gather_gradient i = Ok 3 ->
     gather_envelope_field_numba_linear add_linear_envelope P G A m_array
       gather_gradient true o = Ok o1 ->
     gather_envelope_field_numba_linear add_linear_envelope P G A m_array
       gather_gradient true o1 = Ok o2 ->
     getitem (a2 o1) i = Ok 4 /\ getitem (a2 o2) i = Ok 3.5) /\
  (forall add_cubic_envelope junk_r junk_z nthreads ptcl_chunk_indices
          average_a2 o o',
     is_partition ptcl_chunk_indices (Z.of_nat (length (ptcl_x P))) = true ->
     nthreads = (Z.of_nat (length ptcl_chunk_indices) - 1)%Z ->
     gather_envelope_field_numba_cubic add_cubic_envelope P G junk_r junk_z
       A m_array o nthreads ptcl_chunk_indices gather_gradient average_a2
     = Ok o' ->
     exists cos sin F Fr Ft Fz,
       envelope_cubic_gathered add_cubic_envelope P G A m_array
         gather_gradient i = Ok (cos, sin, (F, Fr, Ft, Fz)) /\
       if average_a2 then
         exists old,
           getitem (a2 o) i = Ok old /\
           getitem (a2 o') i = Ok (0.5 * (old + real (Cmul F (conjugate F))))
       else getitem (a2 o') i = Ok (real (Cmul F (conjugate F)))) /\
  (forall add_cubic_envelope junk_r junk_z nthreads ptcl_chunk_indices
          o o1 o2 cos sin F Fr Ft Fz,
     is_partition ptcl_chunk_indices (Z.of_nat (length (ptcl_x P))) = true ->
     nthreads = (Z.of_nat (length ptcl_chunk_indices) - 1)%Z ->
     getitem (a2 o) i = Ok 5 ->
     envelope_cubic_gathered add_cubic_envelope P G A m_array
       gather_gradient i = Ok (cos, sin, (F, Fr, Ft, Fz)) ->
     real (Cmul F (conjugate F)) = 3 ->
     gather_envelope_field_numba_cubic add_cubic_envelope P G junk_r junk_z
       A m_array o nthreads ptcl_chunk_indices gather_gradient true = Ok o1 ->
     gather_envelope_field_numba_cubic add_cubic_envelope P G junk_r junk_z
       A m_array o1 nthreads ptcl_chunk_indices gather_gradient true = Ok o2 ->
     getitem (a2 o1) i = Ok 4 /\ getitem (a2 o2) i = Ok 3.5) /\
  (forall average_a2 o,
     returns_linear_envelope add_linear_envelope ->
     modes_in_range A m_array ->
     long_enough P (envelope_other_lengths P o) ->
     exists o',
       gather_envelope_field_numba_linear add_linear_envelope P G A m_array
         gather_gradient average_a2 o = Ok o') /\
  (forall add_cubic_envelope junk_r junk_z nthreads ptcl_chunk_indices
          average_a2 o,
     is_partition ptcl_chunk_indices (Z.of_nat (length (ptcl_x P))) = true ->
     nthreads = (Z.of_nat (length ptcl_chunk_indices) - 1)%Z ->
     returns_cubic_envelope add_cubic_envelope ->
     modes_in_range A m_array ->
     long_enough P (envelope_other_lengths P o) ->
     exists o',
       gather_envelope_field_numba_cubic add_cubic_envelope P G junk_r junk_z
         A m_array o nthreads ptcl_chunk_indices gather_gradient average_a2
       = Ok o').
Proof.
  intros Hi. split; [| split; [| split; [| split; [| split]]]].
  - intros average_a2 o o' H.
    eapply gather_envelope_field_numba_linear_a2; eassumption.
  - intros o o1 o2 H5 H3 H1 H2.
    apply (gather_envelope_field_numba_linear_a2 _ _ _ _ _ _ _ i) in H1
      as (I1 & HI1 & old1 & Hold1 & Hnew1); [| exact Hi].
    apply (gather_envelope_field_numba_linear_a2 _ _ _ _ _ _ _ i) in H2
      as (I2 & HI2 & old2 & Hold2 & Hnew2); [| exact Hi].
    rewrite H3 in HI1, HI2. injection HI1 as <-. injection HI2 as <-.
    rewrite H5 in Hold1. injection Hold1 as <-.
    assert (E1 : getitem (a2 o1) i = Ok 4) by (rewrite Hnew1; f_equal; lra).
    rewrite E1 in Hold2. injection Hold2 as <-.
    split; [exact E1 |]. rewrite Hnew2. f_equal. lra.
  - intros add junk_r junk_z nthreads chunks average_a2 o o' Hc Hn H.
    exact (gather_envelope_field_numba_cubic_a2 add P G A m_array
             gather_gradient average_a2 o o' junk_r junk_z nthreads chunks i
             Hc Hn H Hi).
  - intros add junk_r junk_z nthreads chunks o o1 o2 cos sin F Fr Ft Fz
      Hc Hn H5 Hg H3 H1 H2.
    destruct (gather_envelope_field_numba_cubic_a2 add P G A m_array
                gather_gradient true o o1 junk_r junk_z nthreads chunks i
                Hc Hn H1 Hi)
      as (c1 & s1 & F1 & Fr1 & Ft1 & Fz1 & Hg1 & old1 & Hold1 & Hnew1).
    destruct (gather_envelope_field_numba_cubic_a2 add P G A m_array
                gather_gradient true o1 o2 junk_r junk_z nthreads chunks i
                Hc Hn H2 Hi)
      as (c2 & s2 & F2 & Fr2 & Ft2 & Fz2 & Hg2 & old2 & Hold2 & Hnew2).
    rewrite Hg in Hg1, Hg2.
    injection Hg1 as <- <- <- <- <- <-. injection Hg2 as <- <- <- <- <- <-.
    rewrite H3 in Hnew1, Hnew2.
    rewrite H5 in Hold1. injection Hold1 as <-.
    assert (E1 : getitem (a2 o1) i = Ok 4) by (rewrite Hnew1; f_equal; lra).
    rewrite E1 in Hold2. injection Hold2 as <-.
    split; [exact E1 |]. rewrite Hnew2. f_equal. lra.
  - intros average_a2 o Hr Hm Hl.
    exact (gather_envelope_field_numba_linear_returns add_linear_envelope
             P G A m_array gather_gradient average_a2 o Hr Hm Hl).
  - intros add junk_r junk_z nthreads chunks average_a2 o Hc Hn Hr Hm Hl.
    exact (gather_envelope_field_numba_cubic_returns add P G A m_array
             gather_gradient average_a2 o junk_r junk_z nthreads chunks
             Hc Hn Hr Hm Hl).
Qed.

(** ** Envelope outputs *)

(** C9. After a call of the linear envelope kernel, for every particle
    [i < N], with [F] the running sum of the grids [a] over the modes at the
    position of the particle: the intensity registered is
    [Re (F * conjugate F)] (as it is, or averaged with the stored value when
    the averaging flag is set); when the gradient is requested each gradient
    output is [2 * Re (gradient component * conjugate F)], the cylindrical
    components being the running sums of the grids [grad_a_r], [grad_a_t],
    [grad_a_z]; when it is not requested the gradient arrays are the ones
    the call received.  In every running sum the mode [m] enters with the
    phase factor [(cos - i sin) ^ |m|], conjugated when [m < 0]: for
    [cos = cos theta] and [sin = sin theta] this is
    [cos (m theta) - i sin (m theta)].  The call returns when the
    accumulator returns, the modes are indices of the arrays of grids and
    the arrays are long enough. *)
Theorem envelope_outputs
    (add_linear_envelope : linear_envelope_gather_for_mode)
    (P : particles) (G : geometry) (A : envelope_grids) (m_array : list Z)
    (gather_gradient average_a2 : bool) (o : envelope_out) :
  let N := Z.of_nat (length (ptcl_x P)) in
  (returns_linear_envelope add_linear_envelope ->
   modes_in_range A m_array ->
   long_enough P (envelope_other_lengths P o) ->
   exists o',
     gather_envelope_field_numba_linear add_linear_envelope P G A m_array
       gather_gradient average_a2 o = Ok o') /\
  (forall o',
     gather_envelope_field_numba_linear add_linear_envelope P G A m_array
       gather_gradient average_a2 o = Ok o' ->
     (forall i, (0 <= i < N)%Z ->
        exists xj yj zj cos sin F Fr Ft Fz,
          position P i = Ok (xj, yj, zj) /\
          envelope_linear_sums add_linear_envelope G A m_array
            gather_gradient xj yj zj cos sin F Fr Ft Fz /\
          envelope_intensity_at average_a2 (a2 o) (a2 o') i F /\
          (gather_gradient = true ->
           envelope_gradient_at o' i cos sin F Fr Ft Fz)) /\
     (gather_gradient = false ->
      grad_a2_x o' = grad_a2_x o /\ grad_a2_y o' = grad_a2_y o /\
      grad_a2_z o' = grad_a2_z o)) /\
  (forall F, real (Cmul F (conjugate F)) = real F * real F + imag F * imag F) /\
  (forall cos sin m,
     envelope_exptheta cos sin m =
     if (m <? 0)%Z then conjugate (Cpow (mkC cos (- sin)) (Z.abs_nat m))
     else Cpow (mkC cos (- sin)) (Z.abs_nat m)) /\
  (forall theta m,
     envelope_exptheta (Rtrigo_def.cos theta) (Rtrigo_def.sin theta) m
     = mkC (Rtrigo_def.cos (IZR m * theta))
           (- Rtrigo_def.sin (IZR m * theta))).
Proof.
  intros N. split; [| split; [| split; [| split]]].
  - intros Hr Hm Hl.
    exact (gather_envelope_field_numba_linear_returns add_linear_envelope
             P G A m_array gather_gradient average_a2 o Hr Hm Hl).
  - intros o' H. split.
    + intros i Hi.
      exact (gather_envelope_field_numba_linear_registered
               add_linear_envelope P G A m_array gather_gradient average_a2
               o o' i H Hi).
    + intros Hg. rewrite Hg in H.
      rewrite gather_envelope_field_numba_linear_particle in H.
      exact (envelope_particles_no_gradient _ _ _ o o' H).
  - intros F. apply real_a2_of.
  - intros cos sin m. unfold envelope_exptheta.
    rewrite exptheta_base_eq. reflexivity.
  - intros theta m. apply envelope_exptheta_rotation.
Qed.

(** ** Gradient outputs: always overwritten *)

Lemma envelope_particles_fresh_gradient
    (gathered : Z -> result (R * R * (Cplx * Cplx * Cplx * Cplx)))
    (average_a2 : bool) (l : list Z) (o o' u u' : envelope_out) (i : Z) :
  NoDup l -> Forall (fun k => (0 <= k)%Z) l -> In i l ->
  for_each (envelope_particle gathered true average_a2) l o = Ok o' ->
  for_each (envelope_particle gathered true average_a2) l u = Ok u' ->
  getitem (grad_a2_x u') i = getitem (grad_a2_x o') i /\
  getitem (grad_a2_y u') i = getitem (grad_a2_y o') i /\
  getitem (grad_a2_z u') i = getitem (grad_a2_z o') i.
Proof.
  intros Hd Hl Hin Ho Hu.
  destruct (envelope_particles_once _ _ _ _ o o' i Hd Hl Hin Ho)
    as (cos & sin & F & Fr & Ft & Fz & Hg & _ & Hgo).
  destruct (envelope_particles_once _ _ _ _ u u' i Hd Hl Hin Hu)
    as (cos' & sin' & F' & Fr' & Ft' & Fz' & Hg' & _ & Hgu).
  rewrite Hg in Hg'. injection Hg' as <- <- <- <- <- <-.
  destruct (Hgo eq_refl) as (Hx & Hy & Hz).
  destruct (Hgu eq_refl) as (Hx' & Hy' & Hz').
  repeat split; congruence.
Qed.

(** C10. After a call of an envelope kernel with both the gradient flag and
    the averaging flag set, the three gradient outputs of every particle
    [i < N] are the freshly computed values, whatever the gradient arrays
    held before: a call on other particle arrays leaves the same gradient
    entries; the average with the stored value is applied to the intensity
    only.  This holds of the linear kernel and, whatever the chunks that
    partition the particles, of the cubic kernel; each of these calls
    returns when the accumulator returns, the modes are indices of the
    arrays of grids and the arrays are long enough. *)
Theorem envelope_gradient_overwritten (P : particles) (G : geometry)
    (A : envelope_grids) (m_array : list Z) :
  let N := Z.of_nat (length (ptcl_x P)) in
  (forall add_linear_envelope o,
     (returns_linear_envelope add_linear_envelope ->
      modes_in_range A m_array ->
      long_enough P (envelope_other_lengths P o) ->
      exists o',
        gather_envelope_field_numba_linear add_linear_envelope P G A m_array
          true true o = Ok o') /\
     forall o' i,
       gather_envelope_field_numba_linear add_linear_envelope P G A m_array
         true true o = Ok o' ->
       (0 <= i < N)%Z ->
       exists xj yj zj cos sin F Fr Ft Fz old,
         position P i = Ok (xj, yj, zj) /\
         envelope_linear_sums add_linear_envelope G A m_array true
           xj yj zj cos sin F Fr Ft Fz /\
         envelope_gradient_at o' i cos sin F Fr Ft Fz /\
         getitem (a2 o) i = Ok old /\
         getitem (a2 o') i = Ok (0.5 * (old + real (Cmul F (conjugate F)))) /\
         forall u u',
           gather_envelope_field_numba_linear add_linear_envelope P G A
             m_array true true u = Ok u' ->
           getitem (grad_a2_x u') i = getitem (grad_a2_x o') i /\
           getitem (grad_a2_y u') i = getitem (grad_a2_y o') i /\
           getitem (grad_a2_z u') i = getitem (grad_a2_z o') i) /\
  (forall add_cubic_envelope junk_r junk_z nthreads ptcl_chunk_indices o,
     is_partition ptcl_chunk_indices N = true ->
     nthreads = (Z.of_nat (length ptcl_chunk_indices) - 1)%Z ->
     (returns_cubic_envelope add_cubic_envelope ->
      modes_in_range A m_array ->
      long_enough P (envelope_other_lengths P o) ->
      exists o',
        gather_envelope_field_numba_cubic add_cubic_envelope P G
          junk_r junk_z A m_array o nthreads ptcl_chunk_indices true true
        = Ok o') /\
     forall o' i,
       gather_envelope_field_numba_cubic add_cubic_envelope P G
         junk_r junk_z A m_array o nthreads ptcl_chunk_indices true true
       = Ok o' ->
       (0 <= i < N)%Z ->
       exists xj yj zj cos sin F Fr Ft Fz old,
         position P i = Ok (xj, yj, zj) /\
         envelope_cubic_sums add_cubic_envelope G A m_array true
           xj yj zj cos sin F Fr Ft Fz /\
         envelope_gradient_at o' i cos sin F Fr Ft Fz /\
         getitem (a2 o) i = Ok old /\
         getitem (a2 o') i = Ok (0.5 * (old + real (Cmul F (conjugate F)))) /\
         forall junk_r' junk_z' u u',
           gather_envelope_field_numba_cubic add_cubic_envelope P G
             junk_r' junk_z' A m_array u nthreads ptcl_chunk_indices
             true true = Ok u' ->
           getitem (grad_a2_x u') i = getitem (grad_a2_x o') i /\
           getitem (grad_a2_y u') i = getitem (grad_a2_y o') i /\
           getitem (grad_a2_z u') i = getitem (grad_a2_z o') i).
Proof.
  intros N. split.
  - intros add o. split.
    + intros Hr Hm Hl.
      exact (gather_envelope_field_numba_linear_returns add P G A m_array
               true true o Hr Hm Hl).
    + intros o' i H Hi.
      destruct (gather_envelope_field_numba_linear_registered add P G A
                  m_array true true o o' i H Hi)
        as (xj & yj & zj & cos & sin & F & Fr & Ft & Fz
            & Hpos & Hs & (old & Hold & Hnew) & Hg).
      exists xj, yj, zj, cos, sin, F, Fr, Ft, Fz, old.
      refine (conj Hpos (conj Hs (conj (Hg eq_refl)
                (conj Hold (conj Hnew _))))).
      intros u u' Hu.
      rewrite gather_envelope_field_numba_linear_particle in H, Hu.
      exact (envelope_particles_fresh_gradient _ _ _ o o' u u' i
               (NoDup_py_range 0 _)
               (py_range_nonneg 0 _ ltac:(lia))
               (proj2 (in_py_range 0 _ i) Hi) H Hu).
  - intros add junk_r junk_z nthreads chunks o Hc Hn. split.
    + intros Hr Hm Hl.
      exact (gather_envelope_field_numba_cubic_returns add P G A m_array
               true true o junk_r junk_z nthreads chunks Hc Hn Hr Hm Hl).
    + intros o' i H Hi.
      destruct (gather_envelope_field_numba_cubic_registered add P G A
                  m_array true true o o' junk_r junk_z nthreads chunks i
                  Hc Hn H Hi)
        as (xj & yj & zj & cos & sin & F & Fr & Ft & Fz
            & Hpos & Hs & (old & Hold & Hnew) & Hg).
      exists xj, yj, zj, cos, sin, F, Fr, Ft, Fz, old.
      refine (conj Hpos (conj Hs (conj (Hg eq_refl)
                (conj Hold (conj Hnew _))))).
      intros junk_r' junk_z' u u' Hu.
      rewrite (gather_envelope_field_numba_cubic_particle add P G A m_array
                 true true o junk_r junk_z nthreads chunks _ Hc Hn) in H.
      rewrite (gather_envelope_field_numba_cubic_particle add P G A m_array
                 true true u junk_r' junk_z' nthreads chunks _ Hc Hn) in Hu.
      exact (envelope_particles_fresh_gradient _ _ _ o o' u u' i
               (NoDup_py_range 0 _)
               (py_range_nonneg 0 _ ltac:(lia))
               (proj2 (in_py_range 0 _ i) Hi) H Hu).
Qed.

(** ** The cubic field kernel with fewer threads than chunks *)

(** X24. With at most as many threads as chunks the cubic field kernel
    gathers the particles of the chunks [0, ..., nthreads - 1] and no
    other.  The call returns when the accumulator returns, the chunk
    boundaries are at most [N] and the arrays are long enough.  When it
    returns: with nondecreasing boundaries, the six arrays hold at every
    index of one of these chunks the values gathered at the position of the
    particle; the entries at every index that is in none of these chunks
    are the ones the arrays had; and with [nthreads <= 0] the arrays are
    returned as they were. *)
Theorem gather_field_numba_cubic_fewer_threads
    (add_cubic : cubic_gather_for_mode)
    (P : particles) (G : geometry) (M : EB_grids) (o : EB_out)
    (order : list Z -> list Z) (junk_r junk_z : Z -> nat -> R)
    (nthreads : Z) (ptcl_chunk_indices : list Z) :
  (forall l, Permutation (order l) l) ->
  Forall (fun c => (0 <= c)%Z) ptcl_chunk_indices ->
  (nthreads <= Z.of_nat (length ptcl_chunk_indices) - 1)%Z ->
  (returns_cubic add_cubic ->
   Forall (fun c => (c <= Z.of_nat (length (ptcl_x P)))%Z)
     ptcl_chunk_indices ->
   long_enough P (other_lengths P o) ->
   exists o',
     gather_field_numba_cubic add_cubic P G order junk_r junk_z M o
       nthreads ptcl_chunk_indices = Ok o') /\
  forall o',
    gather_field_numba_cubic add_cubic P G order junk_r junk_z M o
      nthreads ptcl_chunk_indices = Ok o' ->
    (nondecreasing ptcl_chunk_indices = true ->
     forall nt i,
       (0 <= nt < nthreads)%Z -> In i (chunk_of ptcl_chunk_indices nt) ->
       exists xj yj zj v,
         position P i = Ok (xj, yj, zj) /\
         gather_field_cubic_values add_cubic G M xj yj zj = Ok v /\
         EB_holds o' i v) /\
    (forall j,
       (0 <= j)%Z ->
       (forall nt, (0 <= nt < nthreads)%Z ->
                   ~ In j (chunk_of ptcl_chunk_indices nt)) ->
       EB_at o' j = EB_at o j) /\
    ((nthreads <= 0)%Z -> o' = o).
Proof.
  intros Horder Hc Hn.
  pose proof (order_in_range order nthreads Horder) as Hsched.
  rewrite Forall_forall in Hsched.
  assert (Hnonneg : Forall (fun k => (0 <= k)%Z)
            (flat_map (chunk_of ptcl_chunk_indices)
               (order (py_range 0 nthreads)))).
  { apply Forall_forall. intros i Hi.
    apply in_flat_map in Hi as (nt & Hnt & Hi).
    unfold chunk_of in Hi. apply in_py_range in Hi.
    specialize (Hsched nt Hnt). cbv beta in Hsched.
    assert (Hlo : (0 <= nth (Z.to_nat nt) ptcl_chunk_indices 0)%Z).
    { rewrite Forall_forall in Hc. apply Hc. apply nth_In. lia. }
    lia. }
  rewrite (gather_field_numba_cubic_chunks add_cubic P G M o order
             junk_r junk_z nthreads ptcl_chunk_indices Horder Hn).
  split.
  - intros Hr HN Hl. apply field_particles_return.
    + intros xj yj zj. apply gather_field_cubic_values_returns. exact Hr.
    + apply (chunks_in_range ptcl_chunk_indices order nthreads 0
               (Z.of_nat (length (ptcl_x P))) Horder Hn).
      rewrite Forall_forall in Hc, HN. apply Forall_forall. intros c Hin.
      specialize (Hc c Hin). specialize (HN c Hin). cbv beta in *. lia.
    + exact Hl.
  - intros o' H. split; [| split].
    + intros Hmono nt i Hnt Hi.
      apply (field_particles_once _ P
               (flat_map (chunk_of ptcl_chunk_indices)
                  (order (py_range 0 nthreads))) o o' i).
      * apply NoDup_flat_map_disjoint.
        -- apply (Permutation_NoDup (Permutation_sym (Horder _))).
           apply NoDup_py_range.
        -- intros k _. apply NoDup_py_range.
        -- intros k k' z Hk Hk' Hkk'.
           apply chunk_of_disjoint; try assumption.
           ++ specialize (Hsched k Hk). cbv beta in Hsched. lia.
           ++ specialize (Hsched k' Hk'). cbv beta in Hsched. lia.
      * exact Hnonneg.
      * apply in_flat_map. exists nt. split; [| exact Hi].
        apply (Permutation_in _ (Permutation_sym (Horder _))).
        apply in_py_range. exact Hnt.
      * exact H.
    + intros j Hj Hout.
      apply (field_particles_untouched
               (gather_field_cubic_values add_cubic G M) P
               (flat_map (chunk_of ptcl_chunk_indices)
                  (order (py_range 0 nthreads))) o o' j Hnonneg Hj);
        [| exact H].
      intros Hin. apply in_flat_map in Hin as (nt & Hnt & Hin).
      apply (Hout nt); [| exact Hin].
      specialize (Hsched nt Hnt). exact Hsched.
    + intros H0.
      assert (E : order (py_range 0 nthreads) = []).
      { apply Permutation_nil. apply Permutation_sym.
        replace (@nil Z) with (py_range 0 nthreads); [apply Horder |].
        unfold py_range. replace (Z.to_nat (nthreads - 0)) with 0%nat by lia.
        reflexivity. }
      rewrite E in H. simpl in H. injection H as <-. reflexivity.
Qed.

(** ** The kernels on the particles of the examples *)

Lemma gather_field_linear_values_3_4 :
  gather_field_linear_values InlineFunctions.add_linear_gather_for_mode
    geometry_4x4 grids_EB_m0 3 4 0.5 = Ok (-5, 10, 1, (2, 11, 2)).
Proof.
  unfold gather_field_linear_values.
  rewrite cylindrical_conversion_3_4, linear_stencil_3_4.
  unfold linear_modes, InlineFunctions.add_linear_gather_for_mode,
    InlineFunctions.linear_stencil_sum, S_ll, S_lu, S_ul, S_uu.
  simpl. f_equal. split_pairs; lra.
Qed.

Lemma linear_modes_3_4 :
  linear_modes InlineFunctions.add_linear_gather_for_mode
    (linear_stencil geometry_4x4 5 0.5) (RtoC 1)
    (exptheta_base (3 * (1 / 5)) (4 * (1 / 5)))
    (Er_m0 grids_EB_m0) (Et_m0 grids_EB_m0) (Ez_m0 grids_EB_m0)
    (Er_m1 grids_EB_m0) (Et_m1 grids_EB_m0) (Ez_m1 grids_EB_m0)
  = Ok (5, 10, 1) /\
  linear_modes InlineFunctions.add_linear_gather_for_mode
    (linear_stencil geometry_4x4 5 0.5) (RtoC 1)
    (exptheta_base (3 * (1 / 5)) (4 * (1 / 5)))
    (Br_m0 grids_EB_m0) (Bt_m0 grids_EB_m0) (Bz_m0 grids_EB_m0)
    (Br_m1 grids_EB_m0) (Bt_m1 grids_EB_m0) (Bz_m1 grids_EB_m0)
  = Ok (10, 5, 2).
Proof.
  rewrite linear_stencil_3_4.
  unfold linear_modes, InlineFunctions.add_linear_gather_for_mode,
    InlineFunctions.linear_stencil_sum, S_ll, S_lu, S_ul, S_uu.
  simpl. split; f_equal; split_pairs; lra.
Qed.

Lemma gather_field_numba_linear_3_4 :
  gather_field_numba_linear InlineFunctions.add_linear_gather_for_mode
    particle_3_4 geometry_4x4 (@rev Z) grids_EB_m0 EB_out_1 =
  Ok {| Ex := [-5]; Ey := [10]; Ez := [1]; Bx := [2]; By := [11]; Bz := [2] |}.
Proof.
  unfold gather_field_numba_linear.
  change (rev (py_range 0 (Z.of_nat (length (ptcl_x particle_3_4)))))
    with [0%Z].
  unfold for_each. rewrite gather_field_linear_body_eq.
  change (position particle_3_4 0) with (Ok (3, 4, 0.5)).
  cbn [bind]. rewrite gather_field_linear_values_3_4.
  reflexivity.
Qed.

Lemma envelope_linear_gathered_modes_3 :
  envelope_linear_gathered InlineFunctions.add_linear_envelope_gather_for_mode
    particle_3_4 geometry_4x4 envelope_modes_3 modes_3 true 0 =
  Ok (3 * (1 / 5), 4 * (1 / 5),
      (mkC (-3) 3, RtoC 5, RtoC 10, mkC (1 / 5) (3 / 5))).
Proof.
  unfold envelope_linear_gathered.
  change (getitem (ptcl_x particle_3_4) 0) with (Ok 3).
  change (getitem (ptcl_y particle_3_4) 0) with (Ok 4).
  change (getitem (ptcl_z particle_3_4) 0) with (Ok 0.5).
  simpl bind. rewrite cylindrical_conversion_3_4, linear_stencil_3_4.
  unfold envelope_linear_modes, modes_3, for_each, envelope_linear_mode.
  unfold InlineFunctions.add_linear_envelope_gather_for_mode,
    InlineFunctions.linear_stencil_sum, S_ll, S_lu, S_ul, S_uu.
  simpl.
  f_equal; split_pairs; try reflexivity; apply Cplx_eq; simpl; lra.
Qed.

Lemma gather_envelope_field_numba_linear_modes_3 (v gx gy gz : R) :
  gather_envelope_field_numba_linear
    InlineFunctions.add_linear_envelope_gather_for_mode
    particle_3_4 geometry_4x4 envelope_modes_3 modes_3 true true
    {| a2 := [v]; grad_a2_x := [gx]; grad_a2_y := [gy]; grad_a2_z := [gz] |} =
  Ok {| a2 := [0.5 * (v + 18)]; grad_a2_x := [30]; grad_a2_y := [-60];
        grad_a2_z := [12 / 5] |}.
Proof.
  unfold gather_envelope_field_numba_linear.
  change (py_range 0 (Z.of_nat (length (ptcl_x particle_3_4)))) with [0%Z].
  unfold for_each, gather_envelope_linear_body.
  rewrite envelope_linear_gathered_modes_3.
  unfold envelope_register. simpl.
  f_equal. f_equal; f_equal; lra.
Qed.

Ltac list_eq :=
  repeat match goal with
    | |- _ :: _ = _ :: _ => apply f_equal2
    | |- @nil _ = @nil _ => reflexivity
    end.

Lemma gather_field_cubic_values_m0 :
  gather_field_cubic_values InlineFunctions.add_cubic_gather_for_mode
    geometry_4x4 grids_EB_m0 2 0 2 = Ok (5, 10, 1, (10, 5, 2)) /\
  gather_field_cubic_values InlineFunctions.add_cubic_gather_for_mode
    geometry_4x4 grids_EB_m0 0 2 2 = Ok (-10, 5, 1, (-5, 10, 2)).
Proof.
  split; unfold gather_field_cubic_values.
  - rewrite cylindrical_conversion_off_axis; rewrite sqrt_2_0; [| lra].
    rewrite r_cell_4x4, z_cell_4x4. unfold cubic_lowest.
    replace (math_floor (2 - 0.5)) with 1%Z by eval_floor 1%Z.
    unfold cubic_modes, InlineFunctions.add_cubic_gather_for_mode,
      InlineFunctions.cubic_stencil_sum.
    simpl. f_equal; split_pairs; lra.
  - rewrite cylindrical_conversion_off_axis; rewrite sqrt_0_2; [| lra].
    rewrite r_cell_4x4, z_cell_4x4. unfold cubic_lowest.
    replace (math_floor (2 - 0.5)) with 1%Z by eval_floor 1%Z.
    unfold cubic_modes, InlineFunctions.add_cubic_gather_for_mode,
      InlineFunctions.cubic_stencil_sum.
    simpl. f_equal; split_pairs; lra.
Qed.

Lemma gather_field_numba_cubic_m0 :
  gather_field_numba_cubic InlineFunctions.add_cubic_gather_for_mode
    particles_2 geometry_4x4 (@rev Z) (fun nt _ => IZR nt) (fun _ _ => 1)
    grids_EB_m0 EB_out_2 2 [0%Z; 1%Z; 2%Z]
  = Ok {| Ex := [5; -10]; Ey := [10; 5]; Ez := [1; 1];
          Bx := [10; -5]; By := [5; 10]; Bz := [2; 2] |}.
Proof.
  rewrite (gather_field_numba_cubic_eq _ _ _ _ _ _ _ _ _ _ 2%Z);
    [| intros l; apply Permutation_sym, Permutation_rev
     | reflexivity | reflexivity].
  change (py_range 0 2) with [0%Z; 1%Z].
  unfold for_each, gather_field_cubic_particle.
  change (position particles_2 0) with (Ok (2, 0, 2)).
  change (position particles_2 1) with (Ok (0, 2, 2)).
  cbn [bind]. destruct gather_field_cubic_values_m0 as [E0 E1].
  rewrite E0, E1. reflexivity.
Qed.

Lemma envelope_cubic_gathered_modes_3 :
  envelope_cubic_gathered InlineFunctions.add_cubic_envelope_gather_for_mode
    particles_2 geometry_4x4 envelope_modes_3 modes_3 true 0
  = Ok (2 * (1 / 2), 0 * (1 / 2), (mkC 1 5, RtoC 5, RtoC 10, mkC 1 1)) /\
  envelope_cubic_gathered InlineFunctions.add_cubic_envelope_gather_for_mode
    particles_2 geometry_4x4 envelope_modes_3 modes_3 true 1
  = Ok (0 * (1 / 2), 2 * (1 / 2), (RtoC (-4), RtoC 5, RtoC 10, RtoC 0)).
Proof.
  split; unfold envelope_cubic_gathered.
  - change (position particles_2 0) with (Ok (2, 0, 2)). cbn [bind].
    rewrite cylindrical_conversion_off_axis; rewrite sqrt_2_0; [| lra].
    rewrite r_cell_4x4, z_cell_4x4. unfold cubic_lowest.
    replace (math_floor (2 - 0.5)) with 1%Z by eval_floor 1%Z.
    unfold envelope_cubic_modes, modes_3, for_each, envelope_cubic_mode,
      InlineFunctions.add_cubic_envelope_gather_for_mode,
      InlineFunctions.cubic_stencil_sum.
    simpl. f_equal; split_pairs; try reflexivity; apply Cplx_eq; simpl; lra.
  - change (position particles_2 1) with (Ok (0, 2, 2)). cbn [bind].
    rewrite cylindrical_conversion_off_axis; rewrite sqrt_0_2; [| lra].
    rewrite r_cell_4x4, z_cell_4x4. unfold cubic_lowest.
    replace (math_floor (2 - 0.5)) with 1%Z by eval_floor 1%Z.
    unfold envelope_cubic_modes, modes_3, for_each, envelope_cubic_mode,
      InlineFunctions.add_cubic_envelope_gather_for_mode,
      InlineFunctions.cubic_stencil_sum.
    simpl. f_equal; split_pairs; try reflexivity; apply Cplx_eq; simpl; lra.
Qed.

Lemma gather_envelope_field_numba_cubic_modes_3 (v gx gy gz : R) :
  gather_envelope_field_numba_cubic
    InlineFunctions.add_cubic_envelope_gather_for_mode
    particles_2 geometry_4x4 (fun nt _ => IZR nt) (fun _ _ => 1)
    envelope_modes_3 modes_3
    {| a2 := [v; v]; grad_a2_x := [gx; gx]; grad_a2_y := [gy; gy];
       grad_a2_z := [gz; gz] |}
    2 [0%Z; 1%Z; 2%Z] true true
  = Ok {| a2 := [0.5 * (v + 26); 0.5 * (v + 16)];
          grad_a2_x := [10; 80]; grad_a2_y := [20; -40];
          grad_a2_z := [12; 0] |}.
Proof.
  rewrite (gather_envelope_field_numba_cubic_eq _ _ _ _ _ _ _ _ _ _ _ _ 2%Z);
    [| reflexivity | reflexivity].
  change (py_range 0 2) with [0%Z; 1%Z].
  unfold for_each, gather_envelope_cubic_particle.
  destruct envelope_cubic_gathered_modes_3 as [E0 E1].
  rewrite E0. cbn [bind]. unfold envelope_register at 1. simpl.
  rewrite E1. cbn [bind]. unfold envelope_register. simpl.
  f_equal. f_equal; list_eq; lra.
Qed.

Lemma gather_envelope_field_numba_cubic_2_of (v : R) :
  gather_envelope_field_numba_cubic
    InlineFunctions.add_cubic_envelope_gather_for_mode
    particles_2 geometry_4x4 (fun _ _ => 0) (fun _ _ => 0)
    envelope_sqrt3 [0%Z] (envelope_out_2 v) 1 [0%Z; 2%Z] false true
  = Ok (envelope_out_2 (0.5 * (v + 3))).
Proof.
  rewrite (gather_envelope_field_numba_cubic_eq _ _ _ _ _ _ _ _ _ _ _ _ 2%Z);
    [| reflexivity | reflexivity].
  change (py_range 0 2) with [0%Z; 1%Z]. unfold for_each, envelope_out_2.
  rewrite gather_envelope_cubic_particle_2 by (left; reflexivity).
  simpl Z.eqb. cbv iota.
  rewrite gather_envelope_cubic_particle_2 by (right; reflexivity).
  reflexivity.
Qed.

(** The running sums are functions of the position. *)
Lemma envelope_linear_sums_unique (add : linear_envelope_gather_for_mode)
    (G : geometry) (A : envelope_grids) (m_array : list Z)
    (xj yj zj cos sin cos' sin' : R) (F Fr Ft Fz F' Fr' Ft' Fz' : Cplx) :
  envelope_linear_sums add G A m_array true xj yj zj cos sin F Fr Ft Fz ->
  envelope_linear_sums add G A m_array true xj yj zj cos' sin' F' Fr' Ft' Fz' ->
  (cos', sin', (F', Fr', Ft', Fz')) = (cos, sin, (F, Fr, Ft, Fz)).
Proof.
  intros (rj & Hc & HF & Hg) (rj' & Hc' & HF' & Hg').
  rewrite Hc in Hc'. injection Hc' as <- <- <-.
  destruct (Hg eq_refl) as (H1 & H2 & H3).
  destruct (Hg' eq_refl) as (H1' & H2' & H3').
  cbv zeta in *. congruence.
Qed.

Lemma envelope_cubic_sums_unique (add : cubic_envelope_gather_for_mode)
    (G : geometry) (A : envelope_grids) (m_array : list Z)
    (xj yj zj cos sin cos' sin' : R) (F Fr Ft Fz F' Fr' Ft' Fz' : Cplx) :
  envelope_cubic_sums add G A m_array true xj yj zj cos sin F Fr Ft Fz ->
  envelope_cubic_sums add G A m_array true xj yj zj cos' sin' F' Fr' Ft' Fz' ->
  (cos', sin', (F', Fr', Ft', Fz')) = (cos, sin, (F, Fr, Ft, Fz)).
Proof.
  intros (rj & Hc & HF & Hg) (rj' & Hc' & HF' & Hg').
  rewrite Hc in Hc'. injection Hc' as <- <- <-.
  destruct (Hg eq_refl) as (H1 & H2 & H3).
  destruct (Hg' eq_refl) as (H1' & H2' & H3').
  cbv zeta in *. congruence.
Qed.

Lemma long_enough_1 (P : particles) (lengths : list nat) :
  Forall (fun n => (length (ptcl_x P) <=? n)%nat = true) lengths ->
  long_enough P lengths.
Proof.
  intros H. eapply Forall_impl; [| exact H].
  intros n Hn. apply Nat.leb_le. exact Hn.
Qed.

Lemma cylindrical_conversion_0_2 :
  cylindrical_conversion 0 2 = (2, 0 * (1 / 2), 2 * (1 / 2)).
Proof.
  rewrite cylindrical_conversion_off_axis; rewrite sqrt_0_2;
    [reflexivity | lra].
Qed.

(** ** The claims on the examples *)



Lemma cartesian_outputs_witness :
  cartesian_at [-5] [10] [1] 0 (3 * (1 / 5)) (4 * (1 / 5)) 5 10 1 /\
  cartesian_at [2] [11] [2] 0 (3 * (1 / 5)) (4 * (1 / 5)) 10 5 2 /\
  envelope_gradient_at
    {| a2 := [0.5 * (5 + 18)]; grad_a2_x := [30]; grad_a2_y := [-60];
       grad_a2_z := [12 / 5] |} 0 (3 * (1 / 5)) (4 * (1 / 5))
    (mkC (-3) 3) (RtoC 5) (RtoC 10) (mkC (1 / 5) (3 / 5)) /\
  cartesian_at [5; -10] [10; 5] [1; 1] 1 (0 * (1 / 2)) (2 * (1 / 2)) 5 10 1 /\
  cartesian_at [10; -5] [5; 10] [2; 2] 1 (0 * (1 / 2)) (2 * (1 / 2)) 10 5 2 /\
  envelope_gradient_at
    {| a2 := [0.5 * (5 + 26); 0.5 * (5 + 16)];
       grad_a2_x := [10; 80]; grad_a2_y := [20; -40]; grad_a2_z := [12; 0] |}
    1 (0 * (1 / 2)) (2 * (1 / 2)) (RtoC (-4)) (RtoC 5) (RtoC 10) (RtoC 0) /\
  (exists o',
     gather_field_numba_linear linear_index_probe particle_3_4 geometry_4x4
       (@rev Z) grids_EB_m0 EB_out_1 = Ok o') /\
  (exists o',
     gather_field_numba_cubic axial_index_probe particles_2 geometry_4x4
       (@rev Z) (fun nt _ => IZR nt) (fun _ _ => 1) grids_EB_m0 EB_out_2
       2 [0%Z; 1%Z; 2%Z] = Ok o').
Proof.
  assert (Hreturn :
            (exists o',
               gather_field_numba_linear linear_index_probe particle_3_4
                 geometry_4x4 (@rev Z) grids_EB_m0 EB_out_1 = Ok o') /\
            (exists o',
               gather_field_numba_cubic axial_index_probe particles_2
                 geometry_4x4 (@rev Z) (fun nt _ => IZR nt) (fun _ _ => 1)
                 grids_EB_m0 EB_out_2 2 [0%Z; 1%Z; 2%Z] = Ok o')).
  { split.
    - destruct (cartesian_outputs particle_3_4 geometry_4x4) as (H1 & _).
      apply (H1 linear_index_probe (@rev Z) grids_EB_m0 EB_out_1
               ltac:(intros l; apply Permutation_sym, Permutation_rev)).
      + exact returns_linear_index_probe.
      + apply long_enough_1. repeat constructor.
    - destruct (cartesian_outputs particles_2 geometry_4x4) as (_ & H2 & _).
      apply (H2 axial_index_probe (@rev Z) (fun nt _ => IZR nt)
               (fun _ _ => 1) grids_EB_m0 EB_out_2 2%Z [0%Z; 1%Z; 2%Z]
               ltac:(intros l; apply Permutation_sym, Permutation_rev)
               eq_refl eq_refl).
      + exact returns_axial_index_probe.
      + apply long_enough_1. repeat constructor. }
  assert (Hcubic :
            cartesian_at [5; -10] [10; 5] [1; 1] 1
              (0 * (1 / 2)) (2 * (1 / 2)) 5 10 1 /\
            cartesian_at [10; -5] [5; 10] [2; 2] 1
              (0 * (1 / 2)) (2 * (1 / 2)) 10 5 2 /\
            envelope_gradient_at
              {| a2 := [0.5 * (5 + 26); 0.5 * (5 + 16)];
                 grad_a2_x := [10; 80]; grad_a2_y := [20; -40];
                 grad_a2_z := [12; 0] |}
              1 (0 * (1 / 2)) (2 * (1 / 2))
              (RtoC (-4)) (RtoC 5) (RtoC 10) (RtoC 0)).
  { destruct (cartesian_outputs particles_2 geometry_4x4)
      as (_ & H2 & _ & H4).
    destruct (H2 InlineFunctions.add_cubic_gather_for_mode (@rev Z)
                (fun nt _ => IZR nt) (fun _ _ => 1) grids_EB_m0 EB_out_2
                2%Z [0%Z; 1%Z; 2%Z]
                ltac:(intros l; apply Permutation_sym, Permutation_rev)
                eq_refl eq_refl) as [_ Hpost].
    destruct (Hpost _ 1%Z gather_field_numba_cubic_m0 ltac:(simpl; lia))
      as (xj & yj & zj & rj & cos & sin & Er & Et & Ez_ & Br & Bt & Bz_
          & Hpos & Hc & HE & HB & HcE & HcB).
    change (position particles_2 1) with (Ok (0, 2, 2)) in Hpos.
    injection Hpos as <- <- <-.
    rewrite cylindrical_conversion_0_2 in Hc.
    injection Hc as <- <- <-.
    destruct (gather_field_cubic_values_Ok _ _ _ _ _ _ _
                (proj2 gather_field_cubic_values_m0))
      as (rj' & cos' & sin' & Er' & Et' & Ez' & Br' & Bt' & Bz'
          & Hc' & HE' & HB' & Hv).
    rewrite cylindrical_conversion_0_2 in Hc'.
    injection Hc' as <- <- <-.
    rewrite HE in HE'. rewrite HB in HB'.
    injection HE' as <- <- <-. injection HB' as <- <- <-.
    injection Hv as V1 V2 V3 V4 V5 V6.
    assert (Er = 5) as -> by lra. assert (Et = 10) as -> by lra.
    assert (Br = 10) as -> by lra. assert (Bt = 5) as -> by lra.
    subst Ez_ Bz_.
    split; [exact HcE | split; [exact HcB |]].
    destruct (H4 InlineFunctions.add_cubic_envelope_gather_for_mode
                (fun nt _ => IZR nt) (fun _ _ => 1)
                envelope_modes_3 modes_3 true (envelope_out_2 5)
                2%Z [0%Z; 1%Z; 2%Z] eq_refl eq_refl) as [_ Henv].
    destruct (Henv _ 1%Z (gather_envelope_field_numba_cubic_modes_3 5 9 9 9)
                ltac:(simpl; lia))
      as (xj & yj & zj & cos & sin & F & Fr & Ft & Fz & Hpos & Hs & Hg).
    destruct (envelope_cubic_gathered_sums _ _ _ _ _ _ _ _ _ _ _ _ _
                (proj2 envelope_cubic_gathered_modes_3))
      as (xj' & yj' & zj' & Hpos' & Hs').
    rewrite Hpos in Hpos'. injection Hpos' as <- <- <-.
    pose proof (envelope_cubic_sums_unique _ _ _ _ _ _ _ _ _ _ _ _ _ _ _ _
                  _ _ _ Hs' Hs) as E.
    injection E as -> -> -> -> -> ->. exact Hg. }
  destruct (cartesian_outputs particle_3_4 geometry_4x4)
    as (H1 & _ & H3 & _).
  destruct (H1 InlineFunctions.add_linear_gather_for_mode (@rev Z)
              grids_EB_m0 EB_out_1
              ltac:(intros l; apply Permutation_sym, Permutation_rev))
    as [_ Hpost].
  destruct (Hpost _ 0%Z gather_field_numba_linear_3_4 ltac:(simpl; lia))
    as (xj & yj & zj & rj & cos & sin & Er & Et & Ez_ & Br & Bt & Bz_
        & Hpos & Hc & HE & HB & HcE & HcB).
  change (position particle_3_4 0) with (Ok (3, 4, 0.5)) in Hpos.
  injection Hpos as <- <- <-.
  rewrite cylindrical_conversion_3_4 in Hc. injection Hc as <- <- <-.
  destruct linear_modes_3_4 as [E1 E2].
  rewrite E1 in HE. rewrite E2 in HB.
  injection HE as <- <- <-. injection HB as <- <- <-.
  split; [exact HcE | split; [exact HcB |]].
  destruct (H3 InlineFunctions.add_linear_envelope_gather_for_mode
              envelope_modes_3 modes_3 true (envelope_out_of 5))
    as [_ Henv].
  destruct (Henv _ 0%Z (gather_envelope_field_numba_linear_modes_3 5 9 9 9)
              ltac:(simpl; lia))
    as (xj & yj & zj & cos & sin & F & Fr & Ft & Fz & Hpos & Hs & Hg).
  destruct (envelope_linear_gathered_sums _ _ _ _ _ _ _ _ _ _ _ _ _
              envelope_linear_gathered_modes_3)
    as (xj' & yj' & zj' & Hpos' & Hs').
  rewrite Hpos in Hpos'. injection Hpos' as <- <- <-.
  pose proof (envelope_linear_sums_unique _ _ _ _ _ _ _ _ _ _ _ _ _ _ _ _ _ _ _
                Hs' Hs) as E.
  injection E as -> -> -> -> -> ->.
  destruct Hcubic as (C1 & C2 & C3).
  exact (conj Hg (conj C1 (conj C2 (conj C3 Hreturn)))).
Defined.

Lemma envelope_intensity_policy_witness :
  getitem (a2 (envelope_out_of (0.5 * (5 + 3)))) 0 = Ok 4 /\
  getitem (a2 (envelope_out_of (0.5 * (0.5 * (5 + 3) + 3)))) 0 = Ok 3.5 /\
  getitem (a2 (envelope_out_2 (0.5 * (5 + 3)))) 1 = Ok 4 /\
  getitem (a2 (envelope_out_2 (0.5 * (0.5 * (5 + 3) + 3)))) 1 = Ok 3.5.
Proof.
  destruct (envelope_intensity_policy
              InlineFunctions.add_linear_envelope_gather_for_mode
              particle_3_4 geometry_4x4 envelope_sqrt3 [0%Z] false 0)
    as (_ & H & _).
  { simpl; lia. }
  destruct (H (envelope_out_of 5) _ _ eq_refl
              (envelope_linear_intensity_3_4 false)
              (gather_envelope_field_numba_linear_3_4 5)
              (gather_envelope_field_numba_linear_3_4 (0.5 * (5 + 3))))
    as [L1 L2].
  split; [exact L1 | split; [exact L2 |]].
  destruct (envelope_intensity_policy
              InlineFunctions.add_linear_envelope_gather_for_mode
              particles_2 geometry_4x4 envelope_sqrt3 [0%Z] false 1)
    as (_ & _ & H3 & H4 & _).
  { simpl; lia. }
  destruct (H3 InlineFunctions.add_cubic_envelope_gather_for_mode
              (fun _ _ => 0) (fun _ _ => 0) 1%Z [0%Z; 2%Z] true
              (envelope_out_2 5) _ eq_refl eq_refl
              (gather_envelope_field_numba_cubic_2_of 5))
    as (cos & sin & F & Fr & Ft & Fz & Hg & old & Hold & Hnew).
  change (getitem (a2 (envelope_out_2 5)) 1) with (Ok 5) in Hold.
  injection Hold as <-.
  change (getitem (a2 (envelope_out_2 (0.5 * (5 + 3)))) 1)
    with (Ok (0.5 * (5 + 3))) in Hnew.
  injection Hnew as Hnew.
  assert (H3' : real (Cmul F (conjugate F)) = 3) by (simpl; nra).
  apply (H4 InlineFunctions.add_cubic_envelope_gather_for_mode
           (fun _ _ => 0) (fun _ _ => 0) 1%Z [0%Z; 2%Z]
           (envelope_out_2 5) _ _ cos sin F Fr Ft Fz eq_refl eq_refl
           eq_refl Hg H3'
           (gather_envelope_field_numba_cubic_2_of 5)
           (gather_envelope_field_numba_cubic_2_of (0.5 * (5 + 3)))).
Defined.

Lemma modes_in_range_modes_3 : modes_in_range envelope_modes_3 modes_3.
Proof.
  unfold modes_in_range, modes_3.
  repeat (constructor; try (simpl; lia)).
Qed.

Lemma envelope_outputs_witness :
  envelope_intensity_at true [5] [0.5 * (5 + 18)] 0 (mkC (-3) 3) /\
  envelope_gradient_at
    {| a2 := [0.5 * (5 + 18)]; grad_a2_x := [30]; grad_a2_y := [-60];
       grad_a2_z := [12 / 5] |} 0 (3 * (1 / 5)) (4 * (1 / 5))
    (mkC (-3) 3) (RtoC 5) (RtoC 10) (mkC (1 / 5) (3 / 5)) /\
  exists o',
    gather_envelope_field_numba_linear linear_envelope_index_probe
      particle_3_4 geometry_4x4 envelope_modes_3 modes_3 true true
      (envelope_out_of 5) = Ok o'.
Proof.
  destruct (envelope_outputs
              InlineFunctions.add_linear_envelope_gather_for_mode
              particle_3_4 geometry_4x4 envelope_modes_3 modes_3 true true
              (envelope_out_of 5)) as (_ & H & _).
  destruct (H _ (gather_envelope_field_numba_linear_modes_3 5 9 9 9))
    as [Hi _].
  destruct (Hi 0%Z ltac:(simpl; lia))
    as (xj & yj & zj & cos & sin & F & Fr & Ft & Fz & Hpos & Hs & Ha & Hg).
  destruct (envelope_linear_gathered_sums _ _ _ _ _ _ _ _ _ _ _ _ _
              envelope_linear_gathered_modes_3)
    as (xj' & yj' & zj' & Hpos' & Hs').
  rewrite Hpos in Hpos'. injection Hpos' as <- <- <-.
  pose proof (envelope_linear_sums_unique _ _ _ _ _ _ _ _ _ _ _ _ _ _ _ _ _ _ _
                Hs' Hs) as E.
  injection E as -> -> -> -> -> ->.
  split; [exact Ha | split; [exact (Hg eq_refl) |]].
  apply (envelope_outputs linear_envelope_index_probe
           particle_3_4 geometry_4x4 envelope_modes_3 modes_3 true true
           (envelope_out_of 5)).
  - exact returns_linear_envelope_index_probe.
  - exact modes_in_range_modes_3.
  - apply long_enough_1. repeat constructor.
Defined.

Lemma envelope_gradient_overwritten_witness :
  envelope_gradient_at
    {| a2 := [0.5 * (5 + 18)]; grad_a2_x := [30]; grad_a2_y := [-60];
       grad_a2_z := [12 / 5] |} 0 (3 * (1 / 5)) (4 * (1 / 5))
    (mkC (-3) 3) (RtoC 5) (RtoC 10) (mkC (1 / 5) (3 / 5)) /\
  getitem [0.5 * (5 + 18)] 0
  = Ok (0.5 * (5 + real (Cmul (mkC (-3) 3) (conjugate (mkC (-3) 3))))) /\
  envelope_gradient_at
    {| a2 := [0.5 * (5 + 26); 0.5 * (5 + 16)];
       grad_a2_x := [10; 80]; grad_a2_y := [20; -40]; grad_a2_z := [12; 0] |}
    1 (0 * (1 / 2)) (2 * (1 / 2)) (RtoC (-4)) (RtoC 5) (RtoC 10) (RtoC 0) /\
  getitem [0.5 * (5 + 26); 0.5 * (5 + 16)] 1
  = Ok (0.5 * (5 + real (Cmul (RtoC (-4)) (conjugate (RtoC (-4)))))) /\
  (exists o',
     gather_envelope_field_numba_linear linear_envelope_index_probe
       particle_3_4 geometry_4x4 envelope_modes_3 modes_3 true true
       (envelope_out_of 5) = Ok o') /\
  (exists o',
     gather_envelope_field_numba_cubic cubic_envelope_index_probe
       particles_2 geometry_4x4 (fun nt _ => IZR nt) (fun _ _ => 1)
       envelope_modes_3 modes_3 (envelope_out_2 5) 2 [0%Z; 1%Z; 2%Z]
       true true = Ok o').
Proof.
  assert (Hreturn :
            (exists o',
               gather_envelope_field_numba_linear linear_envelope_index_probe
                 particle_3_4 geometry_4x4 envelope_modes_3 modes_3 true true
                 (envelope_out_of 5) = Ok o') /\
            (exists o',
               gather_envelope_field_numba_cubic cubic_envelope_index_probe
                 particles_2 geometry_4x4 (fun nt _ => IZR nt) (fun _ _ => 1)
                 envelope_modes_3 modes_3 (envelope_out_2 5) 2
                 [0%Z; 1%Z; 2%Z] true true = Ok o')).
  { split.
    - destruct (envelope_gradient_overwritten particle_3_4 geometry_4x4
                  envelope_modes_3 modes_3) as [H _].
      apply (H linear_envelope_index_probe (envelope_out_of 5)).
      + exact returns_linear_envelope_index_probe.
      + exact modes_in_range_modes_3.
      + apply long_enough_1. repeat constructor.
    - destruct (envelope_gradient_overwritten particles_2 geometry_4x4
                  envelope_modes_3 modes_3) as [_ H].
      apply (H cubic_envelope_index_probe (fun nt _ => IZR nt)
               (fun _ _ => 1) 2%Z [0%Z; 1%Z; 2%Z] (envelope_out_2 5)
               eq_refl eq_refl).
      + exact returns_cubic_envelope_index_probe.
      + exact modes_in_range_modes_3.
      + apply long_enough_1. repeat constructor. }
  destruct (envelope_gradient_overwritten particle_3_4 geometry_4x4
              envelope_modes_3 modes_3) as [H _].
  destruct (H InlineFunctions.add_linear_envelope_gather_for_mode
              (envelope_out_of 5)) as [_ Hpost].
  destruct (Hpost _ 0%Z (gather_envelope_field_numba_linear_modes_3 5 9 9 9)
              ltac:(simpl; lia))
    as (xj & yj & zj & cos & sin & F & Fr & Ft & Fz & old
        & Hpos & Hs & Hg & Hold & Hnew & _).
  destruct (envelope_linear_gathered_sums _ _ _ _ _ _ _ _ _ _ _ _ _
              envelope_linear_gathered_modes_3)
    as (xj' & yj' & zj' & Hpos' & Hs').
  rewrite Hpos in Hpos'. injection Hpos' as <- <- <-.
  pose proof (envelope_linear_sums_unique _ _ _ _ _ _ _ _ _ _ _ _ _ _ _ _ _ _ _
                Hs' Hs) as E.
  injection E as -> -> -> -> -> ->.
  change (getitem (a2 (envelope_out_of 5)) 0) with (Ok 5) in Hold.
  injection Hold as <-.
  split; [exact Hg | split; [exact Hnew |]].
  clear - Hreturn.
  destruct (envelope_gradient_overwritten particles_2 geometry_4x4
              envelope_modes_3 modes_3) as [_ H].
  destruct (H InlineFunctions.add_cubic_envelope_gather_for_mode
              (fun nt _ => IZR nt) (fun _ _ => 1) 2%Z [0%Z; 1%Z; 2%Z]
              (envelope_out_2 5) eq_refl eq_refl) as [_ Hpost].
  destruct (Hpost _ 1%Z (gather_envelope_field_numba_cubic_modes_3 5 9 9 9)
              ltac:(simpl; lia))
    as (xj & yj & zj & cos & sin & F & Fr & Ft & Fz & old
        & Hpos & Hs & Hg & Hold & Hnew & _).
  destruct (envelope_cubic_gathered_sums _ _ _ _ _ _ _ _ _ _ _ _ _
              (proj2 envelope_cubic_gathered_modes_3))
    as (xj' & yj' & zj' & Hpos' & Hs').
  rewrite Hpos in Hpos'. injection Hpos' as <- <- <-.
  pose proof (envelope_cubic_sums_unique _ _ _ _ _ _ _ _ _ _ _ _ _ _ _ _ _ _ _
                Hs' Hs) as E.
  injection E as -> -> -> -> -> ->.
  change (getitem (a2 (envelope_out_2 5)) 1) with (Ok 5) in Hold.
  injection Hold as <-.
  exact (conj Hg (conj Hnew Hreturn)).
Defined.

Lemma gather_field_numba_cubic_fewer_threads_witness :
  exists o',
    gather_field_numba_cubic InlineFunctions.add_cubic_gather_for_mode
      particles_2 geometry_4x4 (fun l => l) (fun _ _ => 0) (fun _ _ => 0)
      grids_Er2 EB_out_2 1 [0%Z; 1%Z; 2%Z] = Ok o' /\
    EB_holds o' 0 (2, 0, 0, (0, 0, 0)) /\
    EB_at o' 1 = EB_at EB_out_2 1.
Proof.
  eexists. split; [exact gather_field_numba_cubic_first_chunk |].
  destruct (gather_field_numba_cubic_fewer_threads
              InlineFunctions.add_cubic_gather_for_mode
              particles_2 geometry_4x4 grids_Er2 EB_out_2
              (fun l => l) (fun _ _ => 0) (fun _ _ => 0) 1
              [0%Z; 1%Z; 2%Z]
              ltac:(intros l; apply Permutation_refl)
              ltac:(repeat constructor; lia)
              ltac:(simpl; lia)) as [_ H].
  destruct (H _ gather_field_numba_cubic_first_chunk) as (Hin & Hout & _).
  split.
  - destruct (Hin eq_refl 0%Z 0%Z ltac:(lia) ltac:(left; reflexivity))
      as (xj & yj & zj & v & Hpos & Hv & Hh).
    change (position particles_2 0) with (Ok (2, 0, 2)) in Hpos.
    injection Hpos as <- <- <-.
    rewrite gather_field_cubic_values_2_0 in Hv. injection Hv as <-.
    exact Hh.
  - apply Hout; [lia |].
    intros nt Hnt Hi. assert (nt = 0%Z) as -> by lia.
    simpl in Hi. destruct Hi as [Hi | []]. discriminate Hi.
Defined.

(** * Boundaries on the GPU *)

(** ** Device arrays *)

Lemma norm_index_in_range (len : nat) (i : nat) :
  (i < len)%nat -> norm_index (Z.of_nat len) (Z.of_nat i) = Ok i.
Proof.
  intros H. rewrite norm_index_nonneg by lia.
  destruct (Z.ltb_spec (Z.of_nat i) (Z.of_nat len)); [| lia].
  rewrite Nat2Z.id. reflexivity.
Qed.

Lemma getitem2_in_range (a : Boundaries.array2) (Nz Nr p q : nat) :
  Boundaries.shape2 a = (Nz, Nr) -> (p < Nz)%nat -> (q < Nr)%nat ->
  Boundaries.getitem2 a (Z.of_nat p) (Z.of_nat q)
  = Ok (Boundaries.cell2 a p q).
Proof.
  intros Hs Hp Hq. unfold Boundaries.getitem2. rewrite Hs. simpl.
  rewrite !norm_index_in_range by assumption. reflexivity.
Qed.

Lemma setitem2_in_range (a : Boundaries.array2) (Nz Nr p q : nat) (v : Cplx) :
  Boundaries.shape2 a = (Nz, Nr) -> (p < Nz)%nat -> (q < Nr)%nat ->
  Boundaries.setitem2 a (Z.of_nat p) (Z.of_nat q) v
  = Ok (Boundaries.set2 a p q v).
Proof.
  intros Hs Hp Hq. unfold Boundaries.setitem2. rewrite Hs. simpl.
  rewrite !norm_index_in_range by assumption. reflexivity.
Qed.

Lemma getitem3_in_range (a : Boundaries.array3) (n k p q : nat) (w : Z)
    (Nr : nat) :
  Boundaries.has_room a n w Nr ->
  (k < n)%nat -> (Z.of_nat p < w)%Z -> (q < Nr)%nat ->
  Boundaries.getitem3 a (Z.of_nat k) (Z.of_nat p) (Z.of_nat q)
  = Ok (Boundaries.cell3 a k p q).
Proof.
  intros (H0 & H1 & H2) Hk Hp Hq. unfold Boundaries.getitem3.
  rewrite !norm_index_in_range by lia. reflexivity.
Qed.

Lemma setitem3_in_range (a : Boundaries.array3) (n k p q : nat) (w : Z)
    (Nr : nat) (v : Cplx) :
  Boundaries.has_room a n w Nr ->
  (k < n)%nat -> (Z.of_nat p < w)%Z -> (q < Nr)%nat ->
  Boundaries.setitem3 a (Z.of_nat k) (Z.of_nat p) (Z.of_nat q) v
  = Ok (Boundaries.set3 a k p q v).
Proof.
  intros (H0 & H1 & H2) Hk Hp Hq. unfold Boundaries.setitem3.
  rewrite !norm_index_in_range by lia. reflexivity.
Qed.

(** The statements of the kernels, when no access is outside the arrays. *)

Ltac as_position z p :=
  let E := fresh "E" in
  remember (Z.to_nat z) as p eqn:E;
  assert (z = Z.of_nat p) as -> by lia; clear E.

Lemma copy_cell_in_range (buffer : Boundaries.array3) (g : Boundaries.array2)
    (n tz tr Nz Nr : nat) (k row w : Z) :
  Boundaries.has_room buffer n w Nr ->
  Boundaries.shape2 g = (Nz, Nr) ->
  (0 <= k < Z.of_nat n)%Z -> (Z.of_nat tz < w)%Z -> (tr < Nr)%nat ->
  (0 <= row < Z.of_nat Nz)%Z ->
  Boundaries.copy_cell buffer k (Z.of_nat tz) (Z.of_nat tr) g row
  = Ok (Boundaries.set3 buffer (Z.to_nat k) tz tr
          (Boundaries.cell2 g (Z.to_nat row) tr)).
Proof.
  intros Hb Hg Hk Hz Hr Hrow. unfold Boundaries.copy_cell.
  as_position row p. as_position k c.
  rewrite (getitem2_in_range g Nz Nr) by (assumption || lia). simpl.
  apply (setitem3_in_range buffer n c tz tr w Nr); assumption || lia.
Qed.

Lemma replace_cell_in_range (g : Boundaries.array2)
    (buffer : Boundaries.array3) (n tz tr Nz Nr : nat) (k row w : Z) :
  Boundaries.has_room buffer n w Nr ->
  Boundaries.shape2 g = (Nz, Nr) ->
  (0 <= k < Z.of_nat n)%Z -> (Z.of_nat tz < w)%Z -> (tr < Nr)%nat ->
  (0 <= row < Z.of_nat Nz)%Z ->
  Boundaries.replace_cell g row (Z.of_nat tr) buffer k (Z.of_nat tz)
  = Ok (Boundaries.modify2 g (Z.to_nat row) tr
          (fun u => (fun _ v : Cplx => v) u
                      (Boundaries.cell3 buffer (Z.to_nat k) tz tr))).
Proof.
  intros Hb Hg Hk Hz Hr Hrow. unfold Boundaries.replace_cell.
  as_position row p. as_position k c.
  rewrite (getitem3_in_range buffer n c tz tr w Nr) by (assumption || lia).
  simpl. apply (setitem2_in_range g Nz Nr); assumption || lia.
Qed.

Lemma add_cell_in_range (g : Boundaries.array2)
    (buffer : Boundaries.array3) (n tz tr Nz Nr : nat) (k row w : Z) :
  Boundaries.has_room buffer n w Nr ->
  Boundaries.shape2 g = (Nz, Nr) ->
  (0 <= k < Z.of_nat n)%Z -> (Z.of_nat tz < w)%Z -> (tr < Nr)%nat ->
  (0 <= row < Z.of_nat Nz)%Z ->
  Boundaries.add_cell g row (Z.of_nat tr) buffer k (Z.of_nat tz)
  = Ok (Boundaries.modify2 g (Z.to_nat row) tr
          (fun u => Cadd u (Boundaries.cell3 buffer (Z.to_nat k) tz tr))).
Proof.
  intros Hb Hg Hk Hz Hr Hrow. unfold Boundaries.add_cell.
  as_position row p. as_position k c.
  rewrite (getitem2_in_range g Nz Nr) by (assumption || lia). simpl.
  rewrite (getitem3_in_range buffer n c tz tr w Nr) by (assumption || lia).
  simpl. apply (setitem2_in_range g Nz Nr); assumption || lia.
Qed.

Lemma damp_cell_in_range (g : Boundaries.array2) (Nz Nr tr : nat) (row : Z)
    (damp_factor : R) :
  Boundaries.shape2 g = (Nz, Nr) -> (0 <= row < Z.of_nat Nz)%Z ->
  (tr < Nr)%nat ->
  Boundaries.damp_cell g row (Z.of_nat tr) damp_factor
  = Ok (Boundaries.modify2 g (Z.to_nat row) tr
          (fun u => Cmul u (RtoC damp_factor))).
Proof.
  intros Hg Hrow Hr. unfold Boundaries.damp_cell.
  as_position row p.
  rewrite (getitem2_in_range g Nz Nr) by (assumption || lia). simpl.
  apply (setitem2_in_range g Nz Nr); assumption || lia.
Qed.

(** ** The kernels, thread by thread *)

Lemma all_shaped_vec (Nz Nr : nat) (G : Boundaries.vec_grids) :
  Boundaries.all_shaped Nz Nr (Boundaries.vec_components G) ->
  Boundaries.shape2 (Boundaries.grid_0_r G) = (Nz, Nr) /\
  Boundaries.shape2 (Boundaries.grid_0_t G) = (Nz, Nr) /\
  Boundaries.shape2 (Boundaries.grid_0_z G) = (Nz, Nr) /\
  Boundaries.shape2 (Boundaries.grid_1_r G) = (Nz, Nr) /\
  Boundaries.shape2 (Boundaries.grid_1_t G) = (Nz, Nr) /\
  Boundaries.shape2 (Boundaries.grid_1_z G) = (Nz, Nr).
Proof.
  unfold Boundaries.all_shaped, Boundaries.vec_components. intros H.
  repeat (apply Forall_cons_iff in H as [? H]). tauto.
Qed.

Lemma all_shaped_scal (Nz Nr : nat) (G : Boundaries.scal_grids) :
  Boundaries.all_shaped Nz Nr (Boundaries.scal_components G) ->
  Boundaries.shape2 (Boundaries.grid_0 G) = (Nz, Nr) /\
  Boundaries.shape2 (Boundaries.grid_1 G) = (Nz, Nr).
Proof.
  unfold Boundaries.all_shaped, Boundaries.scal_components. intros H.
  repeat (apply Forall_cons_iff in H as [? H]). tauto.
Qed.

Lemma all_shaped_EB (Nz Nr : nat) (F : Boundaries.EB_fields) :
  Boundaries.all_shaped Nz Nr (Boundaries.EB_components F) ->
  Boundaries.shape2 (Boundaries.Er F) = (Nz, Nr) /\
  Boundaries.shape2 (Boundaries.Et F) = (Nz, Nr) /\
  Boundaries.shape2 (Boundaries.Ez F) = (Nz, Nr) /\
  Boundaries.shape2 (Boundaries.Br F) = (Nz, Nr) /\
  Boundaries.shape2 (Boundaries.Bt F) = (Nz, Nr) /\
  Boundaries.shape2 (Boundaries.Bz F) = (Nz, Nr).
Proof.
  unfold Boundaries.all_shaped, Boundaries.EB_components. intros H.
  repeat (apply Forall_cons_iff in H as [? H]). tauto.
Qed.

Lemma in_guard_spec (w : Z) (Nr tz tr : nat) :
  Boundaries.in_guard w Nr (tz, tr)
  = ((Z.of_nat tr <? Z.of_nat Nr)%Z && (Z.of_nat tz <? w)%Z)%bool.
Proof.
  unfold Boundaries.in_guard. simpl.
  destruct (Nat.ltb_spec tr Nr), (Z.ltb_spec (Z.of_nat tr) (Z.of_nat Nr));
    try lia; reflexivity.
Qed.

Ltac cell_steps lem n Nz Nr w :=
  repeat (rewrite (lem _ _ n _ _ Nz Nr _ _ w)
            by first [assumption | lia | simpl; assumption];
          cbn [bind]).

Ltac thread_cases tz tr Nr w :=
  rewrite in_guard_spec;
  destruct (Z.ltb_spec (Z.of_nat tr) (Z.of_nat Nr)); [| reflexivity];
  destruct (Z.ltb_spec (Z.of_nat tz) w); [| reflexivity];
  cbn [andb].

Ltac exchange_steps lem n Nz Nr w :=
  cbn [bind];
  cell_steps lem n Nz Nr w;
  cbn [Boundaries.grid_0_r Boundaries.grid_0_t Boundaries.grid_0_z
       Boundaries.grid_1_r Boundaries.grid_1_t Boundaries.grid_1_z
       Boundaries.grid_0 Boundaries.grid_1 bind];
  cell_steps lem n Nz Nr w;
  unfold Boundaries.row_right; rewrite ?Nat2Z.id; reflexivity.

Lemma replace_vec_from_gpu_buffer_thread
    (vec_buffer_l vec_buffer_r : Boundaries.array3)
    (copy_left copy_right : bool) (nz_start nz_end : Z)
    (thread : nat * nat) (G : Boundaries.vec_grids) (Nz Nr : nat) :
  let w := (nz_end - nz_start)%Z in
  Boundaries.all_shaped Nz Nr (Boundaries.vec_components G) ->
  Boundaries.has_room vec_buffer_l 6 w Nr ->
  Boundaries.has_room vec_buffer_r 6 w Nr ->
  (w <= Z.of_nat Nz)%Z ->
  Boundaries.replace_vec_from_gpu_buffer vec_buffer_l vec_buffer_r
    copy_left copy_right nz_start nz_end thread G
  = Ok (Boundaries.map_vec
          (Boundaries.exchange_thread (fun _ v => v) vec_buffer_l
             vec_buffer_r copy_left copy_right w Nz Nr thread) G).
Proof.
  intros w HG Hl Hr Hw. apply all_shaped_vec in HG.
  destruct HG as (H0 & H1 & H2 & H3 & H4 & H5).
  destruct thread as [tz tr], G as [g0r g0t g0z g1r g1t g1z].
  unfold Boundaries.replace_vec_from_gpu_buffer, Boundaries.map_vec,
    Boundaries.exchange_thread.
  cbn [Boundaries.grid_0_r Boundaries.grid_0_t Boundaries.grid_0_z
       Boundaries.grid_1_r Boundaries.grid_1_t Boundaries.grid_1_z
       fst snd] in *.
  rewrite H0. cbn [fst snd]. fold w. thread_cases tz tr Nr w.
  destruct copy_left, copy_right;
    exchange_steps replace_cell_in_range 6%nat Nz Nr w.
Qed.

Lemma replace_scal_from_gpu_buffer_thread
    (scal_buffer_l scal_buffer_r : Boundaries.array3)
    (copy_left copy_right : bool) (nz_start nz_end : Z)
    (thread : nat * nat) (G : Boundaries.scal_grids) (Nz Nr : nat) :
  let w := (nz_end - nz_start)%Z in
  Boundaries.all_shaped Nz Nr (Boundaries.scal_components G) ->
  Boundaries.has_room scal_buffer_l 2 w Nr ->
  Boundaries.has_room scal_buffer_r 2 w Nr ->
  (w <= Z.of_nat Nz)%Z ->
  Boundaries.replace_scal_from_gpu_buffer scal_buffer_l scal_buffer_r
    copy_left copy_right nz_start nz_end thread G
  = Ok (Boundaries.map_scal
          (Boundaries.exchange_thread (fun _ v => v) scal_buffer_l
             scal_buffer_r copy_left copy_right w Nz Nr thread) G).
Proof.
  intros w HG Hl Hr Hw. apply all_shaped_scal in HG.
  destruct HG as (H0 & H1).
  destruct thread as [tz tr], G as [g0 g1].
  unfold Boundaries.replace_scal_from_gpu_buffer, Boundaries.map_scal,
    Boundaries.exchange_thread.
  cbn [Boundaries.grid_0 Boundaries.grid_1 fst snd] in *.
  rewrite H0. cbn [fst snd]. fold w. thread_cases tz tr Nr w.
  destruct copy_left, copy_right;
    exchange_steps replace_cell_in_range 2%nat Nz Nr w.
Qed.

Lemma add_vec_from_gpu_buffer_thread
    (vec_buffer_l vec_buffer_r : Boundaries.array3)
    (copy_left copy_right : bool) (nz_start nz_end : Z)
    (thread : nat * nat) (G : Boundaries.vec_grids) (Nz Nr : nat) :
  let w := (nz_end - nz_start)%Z in
  Boundaries.all_shaped Nz Nr (Boundaries.vec_components G) ->
  Boundaries.has_room vec_buffer_l 6 w Nr ->
  Boundaries.has_room vec_buffer_r 6 w Nr ->
  (w <= Z.of_nat Nz)%Z ->
  Boundaries.add_vec_from_gpu_buffer vec_buffer_l vec_buffer_r
    copy_left copy_right nz_start nz_end thread G
  = Ok (Boundaries.map_vec
          (Boundaries.exchange_thread Cadd vec_buffer_l
             vec_buffer_r copy_left copy_right w Nz Nr thread) G).
Proof.
  intros w HG Hl Hr Hw. apply all_shaped_vec in HG.
  destruct HG as (H0 & H1 & H2 & H3 & H4 & H5).
  destruct thread as [tz tr], G as [g0r g0t g0z g1r g1t g1z].
  unfold Boundaries.add_vec_from_gpu_buffer, Boundaries.map_vec,
    Boundaries.exchange_thread.
  cbn [Boundaries.grid_0_r Boundaries.grid_0_t Boundaries.grid_0_z
       Boundaries.grid_1_r Boundaries.grid_1_t Boundaries.grid_1_z
       fst snd] in *.
  rewrite H0. cbn [fst snd]. fold w. thread_cases tz tr Nr w.
  destruct copy_left, copy_right;
    exchange_steps add_cell_in_range 6%nat Nz Nr w.
Qed.

Lemma add_scal_from_gpu_buffer_thread
    (scal_buffer_l scal_buffer_r : Boundaries.array3)
    (copy_left copy_right : bool) (nz_start nz_end : Z)
    (thread : nat * nat) (G : Boundaries.scal_grids) (Nz Nr : nat) :
  let w := (nz_end - nz_start)%Z in
  Boundaries.all_shaped Nz Nr (Boundaries.scal_components G) ->
  Boundaries.has_room scal_buffer_l 2 w Nr ->
  Boundaries.has_room scal_buffer_r 2 w Nr ->
  (w <= Z.of_nat Nz)%Z ->
  Boundaries.add_scal_from_gpu_buffer scal_buffer_l scal_buffer_r
    copy_left copy_right nz_start nz_end thread G
  = Ok (Boundaries.map_scal
          (Boundaries.exchange_thread Cadd scal_buffer_l
             scal_buffer_r copy_left copy_right w Nz Nr thread) G).
Proof.
  intros w HG Hl Hr Hw. apply all_shaped_scal in HG.
  destruct HG as (H0 & H1).
  destruct thread as [tz tr], G as [g0 g1].
  unfold Boundaries.add_scal_from_gpu_buffer, Boundaries.map_scal,
    Boundaries.exchange_thread.
  cbn [Boundaries.grid_0 Boundaries.grid_1 fst snd] in *.
  rewrite H0. cbn [fst snd]. fold w. thread_cases tz tr Nr w.
  destruct copy_left, copy_right;
    exchange_steps add_cell_in_range 2%nat Nz Nr w.
Qed.

Lemma cuda_damp_EB_left_thread (damp_array : list R) (n_guard n_damp : Z)
    (thread : nat * nat) (F : Boundaries.EB_fields) (Nz Nr : nat) :
  let n := (n_guard + n_damp)%Z in
  Boundaries.all_shaped Nz Nr (Boundaries.EB_components F) ->
  (n <= Z.of_nat Nz)%Z -> (n <= Z.of_nat (length damp_array))%Z ->
  Boundaries.cuda_damp_EB_left damp_array n_guard n_damp thread F
  = Ok (Boundaries.map_EB
          (Boundaries.damp_thread damp_array n Nr (fun tz => tz) thread) F).
Proof.
  intros n HF Hn Hd. apply all_shaped_EB in HF.
  destruct HF as (H0 & H1 & H2 & H3 & H4 & H5).
  destruct thread as [tz tr], F as [fEr fEt fEz fBr fBt fBz].
  unfold Boundaries.cuda_damp_EB_left, Boundaries.map_EB,
    Boundaries.damp_thread.
  cbn [Boundaries.Er Boundaries.Et Boundaries.Ez
       Boundaries.Br Boundaries.Bt Boundaries.Bz fst snd] in *.
  rewrite H0. cbn [fst snd]. fold n. thread_cases tz tr Nr n.
  rewrite (getitem_nth damp_array (Z.of_nat tz) 0) by lia. cbn [bind].
  repeat (rewrite (damp_cell_in_range _ Nz Nr) by (assumption || lia);
          cbn [bind]).
  rewrite !Nat2Z.id. reflexivity.
Qed.

Lemma cuda_damp_EB_right_thread (damp_array : list R) (n_guard n_damp : Z)
    (thread : nat * nat) (F : Boundaries.EB_fields) (Nz Nr : nat) :
  let n := (n_guard + n_damp)%Z in
  Boundaries.all_shaped Nz Nr (Boundaries.EB_components F) ->
  (n <= Z.of_nat Nz)%Z -> (n <= Z.of_nat (length damp_array))%Z ->
  Boundaries.cuda_damp_EB_right damp_array n_guard n_damp thread F
  = Ok (Boundaries.map_EB
          (Boundaries.damp_thread damp_array n Nr
             (fun tz => (Nz - tz - 1)%nat) thread) F).
Proof.
  intros n HF Hn Hd. apply all_shaped_EB in HF.
  destruct HF as (H0 & H1 & H2 & H3 & H4 & H5).
  destruct thread as [tz tr], F as [fEr fEt fEz fBr fBt fBz].
  unfold Boundaries.cuda_damp_EB_right, Boundaries.map_EB,
    Boundaries.damp_thread.
  cbn [Boundaries.Er Boundaries.Et Boundaries.Ez
       Boundaries.Br Boundaries.Bt Boundaries.Bz fst snd] in *.
  rewrite H0. cbn [fst snd]. fold n. thread_cases tz tr Nr n.
  rewrite (getitem_nth damp_array (Z.of_nat tz) 0) by lia. cbn [bind].
  repeat (rewrite (damp_cell_in_range _ Nz Nr) by (assumption || lia);
          cbn [bind]).
  rewrite !Nat2Z.id.
  replace (Z.to_nat (Z.of_nat Nz - Z.of_nat tz - 1)) with (Nz - tz - 1)%nat
    by lia.
  reflexivity.
Qed.

Lemma has_room_set3 (b : Boundaries.array3) (n : nat) (w : Z) (Nr : nat)
    (k p q : nat) (v : Cplx) :
  Boundaries.has_room b n w Nr ->
  Boundaries.has_room (Boundaries.set3 b k p q v) n w Nr.
Proof. intros H. exact H. Qed.

Ltac copy_steps n Nz Nr w :=
  repeat (rewrite (copy_cell_in_range _ _ n _ _ Nz Nr _ _ w)
            by first [assumption | lia
                     | repeat apply has_room_set3; assumption];
          cbn [bind]).

Lemma copy_vec_to_gpu_buffer_thread (G : Boundaries.vec_grids)
    (copy_left copy_right : bool) (nz_start nz_end : Z)
    (thread : nat * nat) (vec_buffer_l vec_buffer_r : Boundaries.array3)
    (Nz Nr : nat) :
  let w := (nz_end - nz_start)%Z in
  Boundaries.all_shaped Nz Nr (Boundaries.vec_components G) ->
  Boundaries.has_room vec_buffer_l 6 w Nr ->
  Boundaries.has_room vec_buffer_r 6 w Nr ->
  (0 <= nz_start)%Z -> (nz_end <= Z.of_nat Nz)%Z ->
  Boundaries.copy_vec_to_gpu_buffer G copy_left copy_right nz_start nz_end
    thread (vec_buffer_l, vec_buffer_r)
  = Ok (Boundaries.copy_thread (Boundaries.vec_components G) copy_left w Nr
          (fun tz => Z.to_nat (nz_start + Z.of_nat tz)) thread vec_buffer_l,
        Boundaries.copy_thread (Boundaries.vec_components G) copy_right w Nr
          (fun tz => Z.to_nat (Z.of_nat Nz - nz_end + Z.of_nat tz)) thread
          vec_buffer_r).
Proof.
  intros w HG Hl Hr Hs He. apply all_shaped_vec in HG.
  destruct HG as (H0 & H1 & H2 & H3 & H4 & H5).
  destruct thread as [tz tr], G as [g0r g0t g0z g1r g1t g1z].
  unfold Boundaries.copy_vec_to_gpu_buffer, Boundaries.copy_thread.
  cbn [Boundaries.grid_0_r Boundaries.grid_0_t Boundaries.grid_0_z
       Boundaries.grid_1_r Boundaries.grid_1_t Boundaries.grid_1_z
       fst snd] in *.
  rewrite H0. cbn [fst snd]. fold w. thread_cases tz tr Nr w.
  destruct copy_left, copy_right; cbn [bind]; copy_steps 6%nat Nz Nr w;
    reflexivity.
Qed.

Lemma copy_scal_to_gpu_buffer_thread (G : Boundaries.scal_grids)
    (copy_left copy_right : bool) (nz_start nz_end : Z)
    (thread : nat * nat) (scal_buffer_l scal_buffer_r : Boundaries.array3)
    (Nz Nr : nat) :
  let w := (nz_end - nz_start)%Z in
  Boundaries.all_shaped Nz Nr (Boundaries.scal_components G) ->
  Boundaries.has_room scal_buffer_l 2 w Nr ->
  Boundaries.has_room scal_buffer_r 2 w Nr ->
  (0 <= nz_start)%Z -> (nz_end <= Z.of_nat Nz)%Z ->
  Boundaries.copy_scal_to_gpu_buffer G copy_left copy_right nz_start nz_end
    thread (scal_buffer_l, scal_buffer_r)
  = Ok (Boundaries.copy_thread (Boundaries.scal_components G) copy_left w Nr
          (fun tz => Z.to_nat (nz_start + Z.of_nat tz)) thread scal_buffer_l,
        Boundaries.copy_thread (Boundaries.scal_components G) copy_right w Nr
          (fun tz => Z.to_nat (Z.of_nat Nz - nz_end + Z.of_nat tz)) thread
          scal_buffer_r).
Proof.
  intros w HG Hl Hr Hs He. apply all_shaped_scal in HG.
  destruct HG as (H0 & H1).
  destruct thread as [tz tr], G as [g0 g1].
  unfold Boundaries.copy_scal_to_gpu_buffer, Boundaries.copy_thread.
  cbn [Boundaries.grid_0 Boundaries.grid_1 fst snd] in *.
  rewrite H0. cbn [fst snd]. fold w. thread_cases tz tr Nr w.
  destruct copy_left, copy_right; cbn [bind]; copy_steps 2%nat Nz Nr w;
    reflexivity.
Qed.

(** ** Launches *)

Lemma cuda_launch_pure {S : Type} (kernel : nat * nat -> S -> result S)
    (pure : nat * nat -> S -> S) (Inv : S -> Prop) :
  (forall t s, Inv s -> kernel t s = Ok (pure t s)) ->
  (forall t s, Inv s -> Inv (pure t s)) ->
  forall threads s,
    Inv s ->
    Boundaries.cuda_launch kernel threads s
    = Ok (fold_left (fun s t => pure t s) threads s) /\
    Inv (fold_left (fun s t => pure t s) threads s).
Proof.
  intros Hk Hi. induction threads as [| t threads IH]; intros s Hs; simpl.
  - split; [reflexivity | exact Hs].
  - rewrite (Hk t s Hs). apply IH, Hi, Hs.
Qed.

Section Once.

Context {T S P X : Type}.
Variable pure : T -> S -> S.
Variable obs : S -> P -> X.
Variable owns : T -> P -> Prop.
Variable value : T -> P -> X -> X.

(** A thread writes the positions that it owns ... *)
Hypothesis thread_effect : forall t s pos,
  owns t pos -> obs (pure t s) pos = value t pos (obs s pos).

(** ... and no other; *)
Hypothesis thread_frame : forall t s pos,
  ~ owns t pos -> obs (pure t s) pos = obs s pos.

(** no position has two owners. *)
Hypothesis thread_once : forall t t' pos, owns t pos -> owns t' pos -> t = t'.

Lemma fold_left_untouched (threads : list T) (s : S) (pos : P) :
  (forall t, In t threads -> ~ owns t pos) ->
  obs (fold_left (fun s t => pure t s) threads s) pos = obs s pos.
Proof.
  revert s; induction threads as [| t threads IH]; intros s H; simpl.
  - reflexivity.
  - rewrite IH by (intros t' Ht'; apply H; right; exact Ht').
    apply thread_frame, H. left; reflexivity.
Qed.

Lemma fold_left_once (threads : list T) (s : S) (t : T) (pos : P) :
  NoDup threads -> In t threads -> owns t pos ->
  obs (fold_left (fun s t => pure t s) threads s) pos
  = value t pos (obs s pos).
Proof.
  revert s; induction threads as [| t0 threads IH]; intros s Hd Hin Ho;
    simpl.
  - contradiction.
  - inversion Hd as [| ? ? Hn Hd']; subst.
    destruct Hin as [-> | Hin].
    + rewrite fold_left_untouched.
      * apply thread_effect, Ho.
      * intros t' Ht' Ho'. apply Hn.
        rewrite (thread_once t t' pos Ho Ho'). exact Ht'.
    + rewrite (IH _ Hd' Hin Ho). f_equal. apply thread_frame.
      intros Ho0. apply Hn. rewrite (thread_once t0 t pos Ho0 Ho). exact Hin.
Qed.

End Once.

(** ** Lists of arrays *)

Lemma length_map_indexed (f : nat -> Boundaries.array2 -> Boundaries.array2)
    (l : list Boundaries.array2) :
  length (Boundaries.map_indexed f l) = length l.
Proof.
  unfold Boundaries.map_indexed.
  rewrite length_map, length_combine, length_seq. lia.
Qed.

Lemma nth_map_indexed (f : nat -> Boundaries.array2 -> Boundaries.array2)
    (l : list Boundaries.array2) (k : nat) :
  (k < length l)%nat ->
  nth k (Boundaries.map_indexed f l) Boundaries.empty2
  = f k (nth k l Boundaries.empty2).
Proof.
  intros Hk. unfold Boundaries.map_indexed.
  rewrite (nth_indep _ Boundaries.empty2
             ((fun kg => f (fst kg) (snd kg)) (0%nat, Boundaries.empty2)))
    by (rewrite length_map, length_combine, length_seq; lia).
  rewrite (map_nth (fun kg => f (fst kg) (snd kg))).
  rewrite combine_nth by (rewrite length_seq; reflexivity).
  rewrite seq_nth by assumption. reflexivity.
Qed.

Lemma length_fold_map_indexed
    (eff : nat * nat -> nat -> Boundaries.array2 -> Boundaries.array2)
    (threads : list (nat * nat)) (l : list Boundaries.array2) :
  length (fold_left (fun l t => Boundaries.map_indexed (eff t) l) threads l)
  = length l.
Proof.
  revert l; induction threads as [| t threads IH]; intros l; simpl.
  - reflexivity.
  - rewrite IH. apply length_map_indexed.
Qed.

Lemma nth_fold_map_indexed
    (eff : nat * nat -> nat -> Boundaries.array2 -> Boundaries.array2)
    (threads : list (nat * nat)) (l : list Boundaries.array2) (k : nat) :
  (k < length l)%nat ->
  nth k (fold_left (fun l t => Boundaries.map_indexed (eff t) l) threads l)
    Boundaries.empty2
  = fold_left (fun g t => eff t k g) threads (nth k l Boundaries.empty2).
Proof.
  revert l; induction threads as [| t threads IH]; intros l Hk; simpl.
  - reflexivity.
  - rewrite IH by (rewrite length_map_indexed; exact Hk).
    rewrite nth_map_indexed by exact Hk. reflexivity.
Qed.

Lemma cell_of_overflow (l : list Boundaries.array2) (k p q : nat) :
  (length l <= k)%nat -> Boundaries.cell_of l k p q = RtoC 0.
Proof.
  intros H. unfold Boundaries.cell_of. rewrite nth_overflow by exact H.
  reflexivity.
Qed.

Lemma all_shaped_map_indexed (Nz Nr : nat)
    (f : nat -> Boundaries.array2 -> Boundaries.array2)
    (l : list Boundaries.array2) :
  (forall k g, Boundaries.shape2 (f k g) = Boundaries.shape2 g) ->
  Boundaries.all_shaped Nz Nr l ->
  Boundaries.all_shaped Nz Nr (Boundaries.map_indexed f l).
Proof.
  intros Hf Hl. unfold Boundaries.all_shaped, Boundaries.map_indexed in *.
  rewrite Forall_forall in *. intros g Hg.
  apply in_map_iff in Hg as ([k g0] & <- & Hin). simpl.
  rewrite Hf. apply Hl. apply in_combine_r in Hin. exact Hin.
Qed.

Lemma in_guard_true (w : Z) (Nr tz tr : nat) :
  Boundaries.in_guard w Nr (tz, tr) = true
  <-> (tr < Nr)%nat /\ (Z.of_nat tz < w)%Z.
Proof.
  unfold Boundaries.in_guard. simpl.
  rewrite andb_true_iff, Nat.ltb_lt, Z.ltb_lt. tauto.
Qed.

Lemma in_guard_false (w : Z) (Nr tz tr : nat) :
  Boundaries.in_guard w Nr (tz, tr) = false
  <-> ~ ((tr < Nr)%nat /\ (Z.of_nat tz < w)%Z).
Proof.
  rewrite <- in_guard_true. destruct (Boundaries.in_guard w Nr (tz, tr));
    split; intros H; try reflexivity; try discriminate; try congruence;
    exfalso; apply H; reflexivity.
Qed.

Lemma cell2_modify2 (g : Boundaries.array2) (p q p' q' : nat)
    (f : Cplx -> Cplx) :
  Boundaries.cell2 (Boundaries.modify2 g p q f) p' q'
  = if (Nat.eqb p' p && Nat.eqb q' q)%bool then f (Boundaries.cell2 g p q)
    else Boundaries.cell2 g p' q'.
Proof. reflexivity. Qed.

(** A record of arrays and its list of arrays. *)

Lemma vec_components_map (f : nat -> Boundaries.array2 -> Boundaries.array2)
    (G : Boundaries.vec_grids) :
  Boundaries.vec_components (Boundaries.map_vec f G)
  = Boundaries.map_indexed f (Boundaries.vec_components G).
Proof. reflexivity. Qed.

Lemma scal_components_map (f : nat -> Boundaries.array2 -> Boundaries.array2)
    (G : Boundaries.scal_grids) :
  Boundaries.scal_components (Boundaries.map_scal f G)
  = Boundaries.map_indexed f (Boundaries.scal_components G).
Proof. reflexivity. Qed.

Lemma EB_components_map (f : nat -> Boundaries.array2 -> Boundaries.array2)
    (F : Boundaries.EB_fields) :
  Boundaries.EB_components (Boundaries.map_EB f F)
  = Boundaries.map_indexed f (Boundaries.EB_components F).
Proof. reflexivity. Qed.

Section Records.

Context {S : Type}.
Variable components : S -> list Boundaries.array2.
Variable map_components :
  (nat -> Boundaries.array2 -> Boundaries.array2) -> S -> S.
Hypothesis components_map : forall f s,
  components (map_components f s)
  = Boundaries.map_indexed f (components s).

Variable kernel : nat * nat -> S -> result S.
Variable eff : nat * nat -> nat -> Boundaries.array2 -> Boundaries.array2.
Variables Nz Nr : nat.

Hypothesis kernel_thread : forall t s,
  Boundaries.all_shaped Nz Nr (components s) ->
  kernel t s = Ok (map_components (eff t) s).
Hypothesis eff_shape : forall t k g,
  Boundaries.shape2 (eff t k g) = Boundaries.shape2 g.

Lemma cuda_launch_components (threads : list (nat * nat)) (s : S) :
  Boundaries.all_shaped Nz Nr (components s) ->
  exists s',
    Boundaries.cuda_launch kernel threads s = Ok s' /\
    components s'
    = fold_left (fun l t => Boundaries.map_indexed (eff t) l) threads
        (components s) /\
    Boundaries.all_shaped Nz Nr (components s').
Proof.
  intros Hs.
  destruct (cuda_launch_pure kernel (fun t s => map_components (eff t) s)
              (fun s => Boundaries.all_shaped Nz Nr (components s))
              kernel_thread
              ltac:(intros t s0 H0; cbv beta in *; rewrite components_map;
                    apply all_shaped_map_indexed; [apply eff_shape | exact H0])
              threads s Hs) as [Hrun Hinv].
  eexists. split; [exact Hrun |]. split; [| exact Hinv].
  clear Hrun Hinv Hs. revert s.
  induction threads as [| t threads IH]; intros s; simpl.
  - reflexivity.
  - rewrite IH, components_map. reflexivity.
Qed.

End Records.

(** ** Replacing and adding kernels *)

Ltac eqb_cases :=
  repeat match goal with
         | |- context [Nat.eqb ?a ?b] => destruct (Nat.eqb_spec a b)
         end;
  cbn [andb]; try reflexivity; try lia; try congruence.

Lemma shape2_exchange_thread (f : Cplx -> Cplx -> Cplx)
    (buffer_l buffer_r : Boundaries.array3) (copy_left copy_right : bool)
    (w : Z) (Nz Nr : nat) (t : nat * nat) (k : nat)
    (g : Boundaries.array2) :
  Boundaries.shape2
    (Boundaries.exchange_thread f buffer_l buffer_r copy_left copy_right w
       Nz Nr t k g)
  = Boundaries.shape2 g.
Proof.
  unfold Boundaries.exchange_thread. destruct t as [tz tr].
  destruct (Boundaries.in_guard w Nr (tz, tr)), copy_left, copy_right;
    reflexivity.
Qed.

Section Exchange.

Variable f : Cplx -> Cplx -> Cplx.
Variables buffer_l buffer_r : Boundaries.array3.
Variables copy_left copy_right : bool.
Variable w : Z.
Variables Nz Nr : nat.

Hypothesis width : (w <= Z.of_nat Nz)%Z.
Hypothesis apart :
  copy_left = true -> copy_right = true -> (2 * w <= Z.of_nat Nz)%Z.

Lemma exchange_threads_cells (k : nat) (threads : list (nat * nat))
    (g : Boundaries.array2) :
  let g' :=
    fold_left
      (fun g t =>
         Boundaries.exchange_thread f buffer_l buffer_r copy_left copy_right
           w Nz Nr t k g) threads g in
  NoDup threads ->
  Boundaries.shape2 g' = Boundaries.shape2 g /\
  (forall tz tr,
     In (tz, tr) threads -> Boundaries.in_guard w Nr (tz, tr) = true ->
     (copy_left = true ->
      Boundaries.cell2 g' tz tr
      = f (Boundaries.cell2 g tz tr) (Boundaries.cell3 buffer_l k tz tr)) /\
     (copy_right = true ->
      Boundaries.cell2 g' (Boundaries.row_right Nz w tz) tr
      = f (Boundaries.cell2 g (Boundaries.row_right Nz w tz) tr)
          (Boundaries.cell3 buffer_r k tz tr))) /\
  (forall p q,
     (copy_left = true -> In (p, q) threads ->
      Boundaries.in_guard w Nr (p, q) = false) ->
     (copy_right = true ->
      forall tz, In (tz, q) threads ->
                 Boundaries.in_guard w Nr (tz, q) = true ->
                 Boundaries.row_right Nz w tz <> p) ->
     Boundaries.cell2 g' p q = Boundaries.cell2 g p q).
Proof.
  intros g' Hd.
  pose (pure := fun (t : nat * nat) (g : Boundaries.array2) =>
          Boundaries.exchange_thread f buffer_l buffer_r copy_left copy_right
            w Nz Nr t k g).
  pose (obs := fun (g : Boundaries.array2) (pq : nat * nat) =>
          Boundaries.cell2 g (fst pq) (snd pq)).
  pose (owns := fun (t pq : nat * nat) =>
          Boundaries.in_guard w Nr t = true /\ snd pq = snd t /\
          (copy_left = true /\ fst pq = fst t \/
           copy_right = true /\
           fst pq = Boundaries.row_right Nz w (fst t))).
  pose (value := fun (t pq : nat * nat) (x : Cplx) =>
          if (copy_right
              && Nat.eqb (fst pq) (Boundaries.row_right Nz w (fst t)))%bool
          then f x (Boundaries.cell3 buffer_r k (fst t) (snd t))
          else f x (Boundaries.cell3 buffer_l k (fst t) (snd t))).
  assert (effect : forall t s pos,
             owns t pos -> obs (pure t s) pos = value t pos (obs s pos)).
  { intros [tz tr] s [p q] (Hg & Hq & Hp). unfold obs, pure, value.
    cbn [fst snd] in *. subst q. unfold Boundaries.exchange_thread. rewrite Hg.
    apply in_guard_true in Hg. unfold Boundaries.row_right in *.
    destruct copy_left, copy_right;
      try specialize (apart eq_refl eq_refl);
      destruct Hp as [[Hc ->] | [Hc ->]]; try discriminate;
      rewrite ?cell2_modify2; cbn [andb]; eqb_cases. }
  assert (frame : forall t s pos,
             ~ owns t pos -> obs (pure t s) pos = obs s pos).
  { intros [tz tr] s [p q] Hn. unfold obs, pure, owns in *. cbn [fst snd] in *.
    unfold Boundaries.exchange_thread.
    destruct (Boundaries.in_guard w Nr (tz, tr)) eqn:Hg; [| reflexivity].
    destruct copy_left, copy_right; rewrite ?cell2_modify2;
      eqb_cases; exfalso; apply Hn; subst; tauto. }
  assert (once : forall t t' pos, owns t pos -> owns t' pos -> t = t').
  { intros [tz tr] [tz' tr'] [p q] (Hg & Hq & Hp) (Hg' & Hq' & Hp').
    cbn [fst snd] in *. apply in_guard_true in Hg, Hg'.
    unfold Boundaries.row_right in *.
    destruct Hp as [[Hc Hp] | [Hc Hp]], Hp' as [[Hc' Hp'] | [Hc' Hp']];
      try specialize (apart ltac:(assumption) ltac:(assumption));
      f_equal; lia. }
  split; [| split].
  - subst g'. clear Hd. revert g.
    induction threads as [| t threads IH]; intros g; simpl.
    + reflexivity.
    + rewrite IH. apply shape2_exchange_thread.
  - intros tz tr Hin Hg. subst g'. split; intros Hc.
    + pose proof (fold_left_once pure obs owns value effect frame once
                    threads g (tz, tr) (tz, tr) Hd Hin) as H.
      unfold obs, pure, value, owns in H. cbn [fst snd] in H.
      rewrite H by tauto.
      apply in_guard_true in Hg. unfold Boundaries.row_right.
      destruct copy_right; cbn [andb]; [| reflexivity].
      specialize (apart Hc eq_refl). eqb_cases.
    + pose proof (fold_left_once pure obs owns value effect frame once
                    threads g (tz, tr)
                    (Boundaries.row_right Nz w tz, tr) Hd Hin) as H.
      unfold obs, pure, value, owns in H. cbn [fst snd] in H.
      rewrite H by tauto. rewrite Hc, Nat.eqb_refl. reflexivity.
  - intros p q Hl Hr. subst g'.
    apply (fold_left_untouched pure obs owns frame threads g (p, q)).
    intros [tz tr] Hin (Hg & Hq & Hp). cbn [fst snd] in *. subst tr.
    destruct Hp as [[Hc ->] | [Hc ->]].
    + rewrite (Hl Hc Hin) in Hg. discriminate.
    + exact (Hr Hc tz Hin Hg eq_refl).
Qed.

Lemma exchange_threads (threads : list (nat * nat))
    (before : list Boundaries.array2) :
  NoDup threads ->
  Boundaries.all_shaped Nz Nr before ->
  Boundaries.exchanged f buffer_l buffer_r copy_left copy_right w Nz Nr
    threads before
    (fold_left
       (fun l t =>
          Boundaries.map_indexed
            (Boundaries.exchange_thread f buffer_l buffer_r copy_left
               copy_right w Nz Nr t) l) threads before).
Proof.
  intros Hd Hb. split; [| split].
  - revert before Hb. induction threads as [| t threads IH]; intros l Hl;
      simpl; [exact Hl |].
    apply IH; [inversion Hd; assumption |].
    apply all_shaped_map_indexed; [apply shape2_exchange_thread | exact Hl].
  - intros k tz tr Hk Hin Hg. unfold Boundaries.cell_of.
    rewrite nth_fold_map_indexed by exact Hk.
    apply (proj1 (proj2 (exchange_threads_cells k threads _ Hd)) tz tr Hin Hg).
  - intros k p q Hl Hr. unfold Boundaries.cell_of.
    destruct (Nat.lt_ge_cases k (length before)) as [Hk | Hk].
    + rewrite nth_fold_map_indexed by exact Hk.
      apply (proj2 (proj2 (exchange_threads_cells k threads _ Hd)) p q Hl Hr).
    + rewrite !nth_overflow; [reflexivity | exact Hk |].
      rewrite length_fold_map_indexed. exact Hk.
Qed.

End Exchange.

(** X14. A launch of [replace_vec_from_gpu_buffer] over distinct threads,
    on six grids of one shape [(Nz, Nr)] and with buffers that have room
    for [w = nz_end - nz_start] rows, [w <= Nz], returns, in whatever
    order the threads run, and then: with [copy_left] the cell
    [(iz, ir)] of each grid holds the cell [(iz, ir)] of its part of the
    left buffer, with [copy_right] the cell [(Nz - w + iz, ir)] holds the
    cell [(iz, ir)] of its part of the right buffer, for every thread
    [(iz, ir)] of the launch with [iz < w] and [ir < Nr]; all other cells
    are unchanged.  With both flags the two ends must not overlap:
    [2 * w <= Nz]. *)
Theorem replace_vec_from_gpu_buffer_launch
    (vec_buffer_l vec_buffer_r : Boundaries.array3)
    (copy_left copy_right : bool) (nz_start nz_end : Z)
    (threads : list (nat * nat)) (G : Boundaries.vec_grids) (Nz Nr : nat) :
  let w := (nz_end - nz_start)%Z in
  NoDup threads ->
  Boundaries.all_shaped Nz Nr (Boundaries.vec_components G) ->
  Boundaries.has_room vec_buffer_l 6 w Nr ->
  Boundaries.has_room vec_buffer_r 6 w Nr ->
  (w <= Z.of_nat Nz)%Z ->
  (copy_left = true -> copy_right = true -> (2 * w <= Z.of_nat Nz)%Z) ->
  exists G',
    Boundaries.cuda_launch
      (Boundaries.replace_vec_from_gpu_buffer vec_buffer_l vec_buffer_r
         copy_left copy_right nz_start nz_end) threads G = Ok G' /\
    Boundaries.exchanged (fun _ v => v) vec_buffer_l vec_buffer_r
      copy_left copy_right w Nz Nr threads
      (Boundaries.vec_components G) (Boundaries.vec_components G').
Proof.
  intros w Hd HG Hl Hr Hw Ha.
  destruct (cuda_launch_components Boundaries.vec_components
              Boundaries.map_vec vec_components_map
              (Boundaries.replace_vec_from_gpu_buffer vec_buffer_l
                 vec_buffer_r copy_left copy_right nz_start nz_end)
              (Boundaries.exchange_thread (fun _ v => v) vec_buffer_l
                 vec_buffer_r copy_left copy_right w Nz Nr) Nz Nr
              (fun t s Hs =>
                 replace_vec_from_gpu_buffer_thread vec_buffer_l vec_buffer_r
                   copy_left copy_right nz_start nz_end t s Nz Nr Hs Hl Hr Hw)
              (shape2_exchange_thread _ _ _ _ _ _ _ _)
              threads G HG) as (G' & Hrun & Hc & _).
  exists G'. split; [exact Hrun |]. rewrite Hc.
  apply exchange_threads; assumption.
Qed.

(** X15. The same for [replace_scal_from_gpu_buffer] and the two grids of
    a scalar field. *)
Theorem replace_scal_from_gpu_buffer_launch
    (scal_buffer_l scal_buffer_r : Boundaries.array3)
    (copy_left copy_right : bool) (nz_start nz_end : Z)
    (threads : list (nat * nat)) (G : Boundaries.scal_grids) (Nz Nr : nat) :
  let w := (nz_end - nz_start)%Z in
  NoDup threads ->
  Boundaries.all_shaped Nz Nr (Boundaries.scal_components G) ->
  Boundaries.has_room scal_buffer_l 2 w Nr ->
  Boundaries.has_room scal_buffer_r 2 w Nr ->
  (w <= Z.of_nat Nz)%Z ->
  (copy_left = true -> copy_right = true -> (2 * w <= Z.of_nat Nz)%Z) ->
  exists G',
    Boundaries.cuda_launch
      (Boundaries.replace_scal_from_gpu_buffer scal_buffer_l scal_buffer_r
         copy_left copy_right nz_start nz_end) threads G = Ok G' /\
    Boundaries.exchanged (fun _ v => v) scal_buffer_l scal_buffer_r
      copy_left copy_right w Nz Nr threads
      (Boundaries.scal_components G) (Boundaries.scal_components G').
Proof.
  intros w Hd HG Hl Hr Hw Ha.
  destruct (cuda_launch_components Boundaries.scal_components
              Boundaries.map_scal scal_components_map
              (Boundaries.replace_scal_from_gpu_buffer scal_buffer_l
                 scal_buffer_r copy_left copy_right nz_start nz_end)
              (Boundaries.exchange_thread (fun _ v => v) scal_buffer_l
                 scal_buffer_r copy_left copy_right w Nz Nr) Nz Nr
              (fun t s Hs =>
                 replace_scal_from_gpu_buffer_thread scal_buffer_l
                   scal_buffer_r copy_left copy_right nz_start nz_end t s
                   Nz Nr Hs Hl Hr Hw)
              (shape2_exchange_thread _ _ _ _ _ _ _ _)
              threads G HG) as (G' & Hrun & Hc & _).
  exists G'. split; [exact Hrun |]. rewrite Hc.
  apply exchange_threads; assumption.
Qed.

(** X16. A launch of [add_vec_from_gpu_buffer] over distinct threads, on
    six grids of one shape [(Nz, Nr)] and with buffers that have room for
    [w = nz_end - nz_start] rows, [w <= Nz], returns, in whatever order
    the threads run, and then: with [copy_left] the cell
    [(iz, ir)] of each grid has received the cell [(iz, ir)] of its part of
    the left buffer once, with [copy_right] the cell [(Nz - w + iz, ir)]
    has received the cell [(iz, ir)] of its part of the right buffer once,
    for every thread [(iz, ir)] of the launch with [iz < w] and [ir < Nr];
    all other cells are unchanged.  With both flags the two ends must not
    overlap: [2 * w <= Nz]. *)
Theorem add_vec_from_gpu_buffer_launch
    (vec_buffer_l vec_buffer_r : Boundaries.array3)
    (copy_left copy_right : bool) (nz_start nz_end : Z)
    (threads : list (nat * nat)) (G : Boundaries.vec_grids) (Nz Nr : nat) :
  let w := (nz_end - nz_start)%Z in
  NoDup threads ->
  Boundaries.all_shaped Nz Nr (Boundaries.vec_components G) ->
  Boundaries.has_room vec_buffer_l 6 w Nr ->
  Boundaries.has_room vec_buffer_r 6 w Nr ->
  (w <= Z.of_nat Nz)%Z ->
  (copy_left = true -> copy_right = true -> (2 * w <= Z.of_nat Nz)%Z) ->
  exists G',
    Boundaries.cuda_launch
      (Boundaries.add_vec_from_gpu_buffer vec_buffer_l vec_buffer_r
         copy_left copy_right nz_start nz_end) threads G = Ok G' /\
    Boundaries.exchanged Cadd vec_buffer_l vec_buffer_r
      copy_left copy_right w Nz Nr threads
      (Boundaries.vec_components G) (Boundaries.vec_components G').
Proof.
  intros w Hd HG Hl Hr Hw Ha.
  destruct (cuda_launch_components Boundaries.vec_components
              Boundaries.map_vec vec_components_map
              (Boundaries.add_vec_from_gpu_buffer vec_buffer_l
                 vec_buffer_r copy_left copy_right nz_start nz_end)
              (Boundaries.exchange_thread Cadd vec_buffer_l
                 vec_buffer_r copy_left copy_right w Nz Nr) Nz Nr
              (fun t s Hs =>
                 add_vec_from_gpu_buffer_thread vec_buffer_l vec_buffer_r
                   copy_left copy_right nz_start nz_end t s Nz Nr Hs Hl Hr Hw)
              (shape2_exchange_thread _ _ _ _ _ _ _ _)
              threads G HG) as (G' & Hrun & Hc & _).
  exists G'. split; [exact Hrun |]. rewrite Hc.
  apply exchange_threads; assumption.
Qed.

(** X17. The same for [add_scal_from_gpu_buffer] and the two grids of a
    scalar field. *)
Theorem add_scal_from_gpu_buffer_launch
    (scal_buffer_l scal_buffer_r : Boundaries.array3)
    (copy_left copy_right : bool) (nz_start nz_end : Z)
    (threads : list (nat * nat)) (G : Boundaries.scal_grids) (Nz Nr : nat) :
  let w := (nz_end - nz_start)%Z in
  NoDup threads ->
  Boundaries.all_shaped Nz Nr (Boundaries.scal_components G) ->
  Boundaries.has_room scal_buffer_l 2 w Nr ->
  Boundaries.has_room scal_buffer_r 2 w Nr ->
  (w <= Z.of_nat Nz)%Z ->
  (copy_left = true -> copy_right = true -> (2 * w <= Z.of_nat Nz)%Z) ->
  exists G',
    Boundaries.cuda_launch
      (Boundaries.add_scal_from_gpu_buffer scal_buffer_l scal_buffer_r
         copy_left copy_right nz_start nz_end) threads G = Ok G' /\
    Boundaries.exchanged Cadd scal_buffer_l scal_buffer_r
      copy_left copy_right w Nz Nr threads
      (Boundaries.scal_components G) (Boundaries.scal_components G').
Proof.
  intros w Hd HG Hl Hr Hw Ha.
  destruct (cuda_launch_components Boundaries.scal_components
              Boundaries.map_scal scal_components_map
              (Boundaries.add_scal_from_gpu_buffer scal_buffer_l
                 scal_buffer_r copy_left copy_right nz_start nz_end)
              (Boundaries.exchange_thread Cadd scal_buffer_l
                 scal_buffer_r copy_left copy_right w Nz Nr) Nz Nr
              (fun t s Hs =>
                 add_scal_from_gpu_buffer_thread scal_buffer_l
                   scal_buffer_r copy_left copy_right nz_start nz_end t s
                   Nz Nr Hs Hl Hr Hw)
              (shape2_exchange_thread _ _ _ _ _ _ _ _)
              threads G HG) as (G' & Hrun & Hc & _).
  exists G'. split; [exact Hrun |]. rewrite Hc.
  apply exchange_threads; assumption.
Qed.

(** ** Copying kernels *)

Lemma cell3_store (v : nat -> Cplx) (tz tr : nat) (ks : list nat)
    (b : Boundaries.array3) (k p q : nat) :
  Boundaries.cell3
    (fold_left (fun b k => Boundaries.set3 b k tz tr (v k)) ks b) k p q
  = if (existsb (Nat.eqb k) ks && Nat.eqb p tz && Nat.eqb q tr)%bool
    then v k else Boundaries.cell3 b k p q.
Proof.
  revert b; induction ks as [| k0 ks IH]; intros b; simpl.
  - reflexivity.
  - rewrite IH. simpl.
    destruct (Nat.eqb_spec k k0) as [E | E]; [subst k0 |];
      destruct (existsb (Nat.eqb k) ks), (Nat.eqb p tz), (Nat.eqb q tr);
      reflexivity.
Qed.

Lemma shape3_store (v : nat -> Cplx) (tz tr : nat) (ks : list nat)
    (b : Boundaries.array3) :
  Boundaries.shape3
    (fold_left (fun b k => Boundaries.set3 b k tz tr (v k)) ks b)
  = Boundaries.shape3 b.
Proof.
  revert b; induction ks as [| k0 ks IH]; intros b; simpl;
    [reflexivity | rewrite IH; reflexivity].
Qed.

Lemma existsb_seq (k n : nat) :
  existsb (Nat.eqb k) (seq 0 n) = (k <? n)%nat.
Proof.
  destruct (Nat.ltb_spec k n) as [H | H].
  - apply existsb_exists. exists k. split; [apply in_seq; lia |].
    apply Nat.eqb_refl.
  - destruct (existsb (Nat.eqb k) (seq 0 n)) eqn:E; [| reflexivity].
    apply existsb_exists in E as (x & Hx & Hk).
    apply in_seq in Hx. apply Nat.eqb_eq in Hk. lia.
Qed.

Lemma shape3_copy_thread (comps : list Boundaries.array2) (copy : bool)
    (w : Z) (Nr : nat) (row : nat -> nat) (t : nat * nat)
    (b : Boundaries.array3) :
  Boundaries.shape3 (Boundaries.copy_thread comps copy w Nr row t b)
  = Boundaries.shape3 b.
Proof.
  unfold Boundaries.copy_thread. destruct t as [tz tr].
  destruct (Boundaries.in_guard w Nr (tz, tr) && copy)%bool;
    [apply shape3_store | reflexivity].
Qed.

Lemma copy_threads (comps : list Boundaries.array2) (copy : bool) (w : Z)
    (Nr : nat) (row : nat -> nat) (threads : list (nat * nat))
    (b : Boundaries.array3) :
  NoDup threads ->
  Boundaries.copied comps copy w Nr row threads b
    (fold_left (fun b t => Boundaries.copy_thread comps copy w Nr row t b)
       threads b).
Proof.
  intros Hd.
  pose (pure := fun (t : nat * nat) (b : Boundaries.array3) =>
          Boundaries.copy_thread comps copy w Nr row t b).
  pose (obs := fun (b : Boundaries.array3) (pos : nat * nat * nat) =>
          Boundaries.cell3 b (fst (fst pos)) (snd (fst pos)) (snd pos)).
  pose (owns := fun (t : nat * nat) (pos : nat * nat * nat) =>
          Boundaries.in_guard w Nr t = true /\ copy = true /\
          (fst (fst pos) < length comps)%nat /\
          snd (fst pos) = fst t /\ snd pos = snd t).
  pose (value := fun (t : nat * nat) (pos : nat * nat * nat) (x : Cplx) =>
          Boundaries.cell_of comps (fst (fst pos)) (row (fst t)) (snd t)).
  assert (effect : forall t s pos,
             owns t pos -> obs (pure t s) pos = value t pos (obs s pos)).
  { intros [tz tr] s [[k p] q] (Hg & Hc & Hk & Hp & Hq).
    unfold obs, pure, value. cbn [fst snd] in *. subst p q.
    unfold Boundaries.copy_thread. rewrite Hg, Hc. cbn [andb].
    rewrite cell3_store, existsb_seq, !Nat.eqb_refl.
    destruct (Nat.ltb_spec k (length comps)); [reflexivity | lia]. }
  assert (frame : forall t s pos,
             ~ owns t pos -> obs (pure t s) pos = obs s pos).
  { intros [tz tr] s [[k p] q] Hn. unfold obs, pure, owns in *.
    cbn [fst snd] in *. unfold Boundaries.copy_thread.
    destruct (Boundaries.in_guard w Nr (tz, tr)) eqn:Hg; [| reflexivity].
    destruct copy; [| reflexivity]. cbn [andb].
    rewrite cell3_store, existsb_seq.
    destruct (Nat.ltb_spec k (length comps)); [| reflexivity].
    destruct (Nat.eqb_spec p tz); [| reflexivity].
    destruct (Nat.eqb_spec q tr); [| reflexivity].
    exfalso. apply Hn. tauto. }
  assert (once : forall t t' pos, owns t pos -> owns t' pos -> t = t').
  { intros [tz tr] [tz' tr'] [[k p] q] (_ & _ & _ & Hp & Hq)
      (_ & _ & _ & Hp' & Hq').
    cbn [fst snd] in *. congruence. }
  split; [| split].
  - clear. revert b. induction threads as [| t threads IH]; intros b; simpl.
    + reflexivity.
    + rewrite IH. apply shape3_copy_thread.
  - intros k tz tr Hc Hk Hin Hg.
    pose proof (fold_left_once pure obs owns value effect frame once
                  threads b (tz, tr) (k, tz, tr) Hd Hin) as H.
    unfold obs, pure, value, owns in H. cbn [fst snd] in H.
    apply H. tauto.
  - intros k p q Hn.
    apply (fold_left_untouched pure obs owns frame threads b (k, p, q)).
    intros [tz tr] Hin (Hg & Hc & Hk & Hp & Hq). cbn [fst snd] in *.
    subst p q. apply Hn. tauto.
Qed.

Lemma fold_left_pair {A B T : Type} (f : T -> A -> A) (g : T -> B -> B)
    (l : list T) (a : A) (b : B) :
  fold_left (fun s t => (f t (fst s), g t (snd s))) l (a, b)
  = (fold_left (fun a t => f t a) l a, fold_left (fun b t => g t b) l b).
Proof.
  revert a b; induction l as [| t l IH]; intros a b; simpl;
    [reflexivity | apply IH].
Qed.

Lemma copy_vec_to_gpu_buffer_run (G : Boundaries.vec_grids)
    (copy_left copy_right : bool) (nz_start nz_end : Z)
    (threads : list (nat * nat))
    (vec_buffer_l vec_buffer_r : Boundaries.array3) (Nz Nr : nat) :
  let w := (nz_end - nz_start)%Z in
  Boundaries.all_shaped Nz Nr (Boundaries.vec_components G) ->
  Boundaries.has_room vec_buffer_l 6 w Nr ->
  Boundaries.has_room vec_buffer_r 6 w Nr ->
  (0 <= nz_start)%Z -> (nz_end <= Z.of_nat Nz)%Z ->
  Boundaries.cuda_launch
    (Boundaries.copy_vec_to_gpu_buffer G copy_left copy_right nz_start
       nz_end) threads (vec_buffer_l, vec_buffer_r)
  = Ok (fold_left
          (fun b t =>
             Boundaries.copy_thread (Boundaries.vec_components G) copy_left w Nr
               (fun iz => Z.to_nat (nz_start + Z.of_nat iz)) t b)
          threads vec_buffer_l,
        fold_left
          (fun b t =>
             Boundaries.copy_thread (Boundaries.vec_components G) copy_right w Nr
               (fun iz => Z.to_nat (Z.of_nat Nz - nz_end + Z.of_nat iz)) t b)
          threads vec_buffer_r).
Proof.
  intros w HG Hl Hr Hs He.
  destruct (cuda_launch_pure
              (Boundaries.copy_vec_to_gpu_buffer G copy_left copy_right
                 nz_start nz_end)
              (fun t s =>
                 (Boundaries.copy_thread (Boundaries.vec_components G)
                    copy_left w Nr
                    (fun iz => Z.to_nat (nz_start + Z.of_nat iz)) t (fst s),
                  Boundaries.copy_thread (Boundaries.vec_components G)
                    copy_right w Nr
                    (fun iz => Z.to_nat (Z.of_nat Nz - nz_end + Z.of_nat iz))
                    t (snd s)))
              (fun s => Boundaries.has_room (fst s) 6 w Nr /\
                        Boundaries.has_room (snd s) 6 w Nr)
              ltac:(intros t [l r] [H1 H2];
                    apply copy_vec_to_gpu_buffer_thread; assumption)
              ltac:(intros t [l r] [H1 H2]; unfold Boundaries.has_room;
                    cbn [fst snd]; rewrite !shape3_copy_thread;
                    split; assumption)
              threads (vec_buffer_l, vec_buffer_r) (conj Hl Hr))
    as [Hrun _].
  rewrite fold_left_pair in Hrun. exact Hrun.
Qed.

Lemma copy_scal_to_gpu_buffer_run (G : Boundaries.scal_grids)
    (copy_left copy_right : bool) (nz_start nz_end : Z)
    (threads : list (nat * nat))
    (scal_buffer_l scal_buffer_r : Boundaries.array3) (Nz Nr : nat) :
  let w := (nz_end - nz_start)%Z in
  Boundaries.all_shaped Nz Nr (Boundaries.scal_components G) ->
  Boundaries.has_room scal_buffer_l 2 w Nr ->
  Boundaries.has_room scal_buffer_r 2 w Nr ->
  (0 <= nz_start)%Z -> (nz_end <= Z.of_nat Nz)%Z ->
  Boundaries.cuda_launch
    (Boundaries.copy_scal_to_gpu_buffer G copy_left copy_right nz_start
       nz_end) threads (scal_buffer_l, scal_buffer_r)
  = Ok (fold_left
          (fun b t =>
             Boundaries.copy_thread (Boundaries.scal_components G) copy_left w Nr
               (fun iz => Z.to_nat (nz_start + Z.of_nat iz)) t b)
          threads scal_buffer_l,
        fold_left
          (fun b t =>
             Boundaries.copy_thread (Boundaries.scal_components G) copy_right w Nr
               (fun iz => Z.to_nat (Z.of_nat Nz - nz_end + Z.of_nat iz)) t b)
          threads scal_buffer_r).
Proof.
  intros w HG Hl Hr Hs He.
  destruct (cuda_launch_pure
              (Boundaries.copy_scal_to_gpu_buffer G copy_left copy_right
                 nz_start nz_end)
              (fun t s =>
                 (Boundaries.copy_thread (Boundaries.scal_components G)
                    copy_left w Nr
                    (fun iz => Z.to_nat (nz_start + Z.of_nat iz)) t (fst s),
                  Boundaries.copy_thread (Boundaries.scal_components G)
                    copy_right w Nr
                    (fun iz => Z.to_nat (Z.of_nat Nz - nz_end + Z.of_nat iz))
                    t (snd s)))
              (fun s => Boundaries.has_room (fst s) 2 w Nr /\
                        Boundaries.has_room (snd s) 2 w Nr)
              ltac:(intros t [l r] [H1 H2];
                    apply copy_scal_to_gpu_buffer_thread; assumption)
              ltac:(intros t [l r] [H1 H2]; unfold Boundaries.has_room;
                    cbn [fst snd]; rewrite !shape3_copy_thread;
                    split; assumption)
              threads (scal_buffer_l, scal_buffer_r) (conj Hl Hr))
    as [Hrun _].
  rewrite fold_left_pair in Hrun. exact Hrun.
Qed.

(** X18. A launch of [copy_vec_to_gpu_buffer] over distinct threads, on
    six grids of one shape [(Nz, Nr)], with [0 <= nz_start] and
    [nz_end <= Nz] and buffers that have room for [w = nz_end - nz_start]
    rows, returns, in whatever order the threads run, and then:
    with [copy_left] the cell [(iz, ir)] of each part of the left buffer
    holds the cell [(nz_start + iz, ir)] of its grid, with [copy_right]
    the cell [(iz, ir)] of each part of the right buffer holds the cell
    [(Nz - nz_end + iz, ir)] of its grid, for every thread [(iz, ir)] of
    the launch with [iz < w] and [ir < Nr]; all other cells of the buffers
    are unchanged. *)
Theorem copy_vec_to_gpu_buffer_launch (G : Boundaries.vec_grids)
    (copy_left copy_right : bool) (nz_start nz_end : Z)
    (threads : list (nat * nat))
    (vec_buffer_l vec_buffer_r : Boundaries.array3) (Nz Nr : nat) :
  let w := (nz_end - nz_start)%Z in
  NoDup threads ->
  Boundaries.all_shaped Nz Nr (Boundaries.vec_components G) ->
  Boundaries.has_room vec_buffer_l 6 w Nr ->
  Boundaries.has_room vec_buffer_r 6 w Nr ->
  (0 <= nz_start)%Z -> (nz_end <= Z.of_nat Nz)%Z ->
  exists l' r',
    Boundaries.cuda_launch
      (Boundaries.copy_vec_to_gpu_buffer G copy_left copy_right nz_start
         nz_end) threads (vec_buffer_l, vec_buffer_r) = Ok (l', r') /\
    Boundaries.copied (Boundaries.vec_components G) copy_left w Nr
      (fun iz => Z.to_nat (nz_start + Z.of_nat iz)) threads
      vec_buffer_l l' /\
    Boundaries.copied (Boundaries.vec_components G) copy_right w Nr
      (fun iz => Z.to_nat (Z.of_nat Nz - nz_end + Z.of_nat iz)) threads
      vec_buffer_r r'.
Proof.
  intros w Hd HG Hl Hr Hs He.
  rewrite (copy_vec_to_gpu_buffer_run G copy_left copy_right nz_start
             nz_end threads vec_buffer_l vec_buffer_r Nz Nr)
    by assumption.
  eexists. eexists. split; [reflexivity |].
  split; apply copy_threads; exact Hd.
Qed.

(** X19. The same for [copy_scal_to_gpu_buffer] and the two grids of a
    scalar field. *)
Theorem copy_scal_to_gpu_buffer_launch (G : Boundaries.scal_grids)
    (copy_left copy_right : bool) (nz_start nz_end : Z)
    (threads : list (nat * nat))
    (scal_buffer_l scal_buffer_r : Boundaries.array3) (Nz Nr : nat) :
  let w := (nz_end - nz_start)%Z in
  NoDup threads ->
  Boundaries.all_shaped Nz Nr (Boundaries.scal_components G) ->
  Boundaries.has_room scal_buffer_l 2 w Nr ->
  Boundaries.has_room scal_buffer_r 2 w Nr ->
  (0 <= nz_start)%Z -> (nz_end <= Z.of_nat Nz)%Z ->
  exists l' r',
    Boundaries.cuda_launch
      (Boundaries.copy_scal_to_gpu_buffer G copy_left copy_right nz_start
         nz_end) threads (scal_buffer_l, scal_buffer_r) = Ok (l', r') /\
    Boundaries.copied (Boundaries.scal_components G) copy_left w Nr
      (fun iz => Z.to_nat (nz_start + Z.of_nat iz)) threads
      scal_buffer_l l' /\
    Boundaries.copied (Boundaries.scal_components G) copy_right w Nr
      (fun iz => Z.to_nat (Z.of_nat Nz - nz_end + Z.of_nat iz)) threads
      scal_buffer_r r'.
Proof.
  intros w Hd HG Hl Hr Hs He.
  rewrite (copy_scal_to_gpu_buffer_run G copy_left copy_right nz_start
             nz_end threads scal_buffer_l scal_buffer_r Nz Nr)
    by assumption.
  eexists. eexists. split; [reflexivity |].
  split; apply copy_threads; exact Hd.
Qed.

(** ** Damping kernels *)

Lemma shape2_damp_thread (damp_array : list R) (n : Z) (Nr : nat)
    (row : nat -> nat) (t : nat * nat) (k : nat) (g : Boundaries.array2) :
  Boundaries.shape2 (Boundaries.damp_thread damp_array n Nr row t k g)
  = Boundaries.shape2 g.
Proof.
  unfold Boundaries.damp_thread. destruct t as [tz tr].
  destruct (Boundaries.in_guard n Nr (tz, tr)); reflexivity.
Qed.

Section Damping.

Variable damp_array : list R.
Variable n : Z.
Variables Nz Nr : nat.
Variable row : nat -> nat.

(** Two threads that pass the guard damp different rows. *)
Hypothesis row_injective : forall tz tz',
  (Z.of_nat tz < n)%Z -> (Z.of_nat tz' < n)%Z -> row tz = row tz' ->
  tz = tz'.

Lemma damp_threads_cells (k : nat) (threads : list (nat * nat))
    (g : Boundaries.array2) :
  let g' :=
    fold_left (fun g t => Boundaries.damp_thread damp_array n Nr row t k g)
      threads g in
  NoDup threads ->
  (forall tz tr,
     In (tz, tr) threads -> Boundaries.in_guard n Nr (tz, tr) = true ->
     Boundaries.cell2 g' (row tz) tr
     = Cmul (Boundaries.cell2 g (row tz) tr)
         (RtoC (nth tz damp_array 0))) /\
  (forall p q,
     (forall tz, In (tz, q) threads ->
                 Boundaries.in_guard n Nr (tz, q) = true -> row tz <> p) ->
     Boundaries.cell2 g' p q = Boundaries.cell2 g p q).
Proof.
  intros g' Hd. subst g'.
  pose (pure := fun (t : nat * nat) (g : Boundaries.array2) =>
          Boundaries.damp_thread damp_array n Nr row t k g).
  pose (obs := fun (g : Boundaries.array2) (pq : nat * nat) =>
          Boundaries.cell2 g (fst pq) (snd pq)).
  pose (owns := fun (t pq : nat * nat) =>
          Boundaries.in_guard n Nr t = true /\ snd pq = snd t /\
          fst pq = row (fst t)).
  pose (value := fun (t pq : nat * nat) (x : Cplx) =>
          Cmul x (RtoC (nth (fst t) damp_array 0))).
  assert (effect : forall t s pos,
             owns t pos -> obs (pure t s) pos = value t pos (obs s pos)).
  { intros [tz tr] s [p q] (Hg & Hq & Hp). unfold obs, pure, value.
    cbn [fst snd] in *. subst p q. unfold Boundaries.damp_thread.
    rewrite Hg, cell2_modify2, !Nat.eqb_refl. reflexivity. }
  assert (frame : forall t s pos,
             ~ owns t pos -> obs (pure t s) pos = obs s pos).
  { intros [tz tr] s [p q] Hn. unfold obs, pure, owns in *.
    cbn [fst snd] in *. unfold Boundaries.damp_thread.
    destruct (Boundaries.in_guard n Nr (tz, tr)) eqn:Hg; [| reflexivity].
    rewrite cell2_modify2.
    destruct (Nat.eqb_spec p (row tz)); [| reflexivity].
    destruct (Nat.eqb_spec q tr); [| reflexivity].
    exfalso. apply Hn. tauto. }
  assert (once : forall t t' pos, owns t pos -> owns t' pos -> t = t').
  { intros [tz tr] [tz' tr'] [p q] (Hg & Hq & Hp) (Hg' & Hq' & Hp').
    cbn [fst snd] in *. apply in_guard_true in Hg, Hg'.
    f_equal; [| congruence].
    apply row_injective; [tauto | tauto | congruence]. }
  split.
  - intros tz tr Hin Hg.
    pose proof (fold_left_once pure obs owns value effect frame once
                  threads g (tz, tr) (row tz, tr) Hd Hin) as H.
    unfold obs, pure, value, owns in H. cbn [fst snd] in H.
    apply H. tauto.
  - intros p q Hn.
    apply (fold_left_untouched pure obs owns frame threads g (p, q)).
    intros [tz tr] Hin (Hg & Hq & Hp). cbn [fst snd] in *. subst q.
    exact (Hn tz Hin Hg (eq_sym Hp)).
Qed.

Lemma damp_threads (threads : list (nat * nat))
    (before : list Boundaries.array2) :
  NoDup threads ->
  Boundaries.all_shaped Nz Nr before ->
  Boundaries.damped damp_array n Nz Nr row threads before
    (fold_left
       (fun l t =>
          Boundaries.map_indexed
            (Boundaries.damp_thread damp_array n Nr row t) l)
       threads before).
Proof.
  intros Hd Hb. split; [| split].
  - revert before Hb. induction threads as [| t threads IH]; intros l Hl;
      simpl; [exact Hl |].
    apply IH; [inversion Hd; assumption |].
    apply all_shaped_map_indexed; [apply shape2_damp_thread | exact Hl].
  - intros k tz tr Hk Hin Hg. unfold Boundaries.cell_of.
    rewrite nth_fold_map_indexed by exact Hk.
    apply (proj1 (damp_threads_cells k threads _ Hd) tz tr Hin Hg).
  - intros k p q Hn. unfold Boundaries.cell_of.
    destruct (Nat.lt_ge_cases k (length before)) as [Hk | Hk].
    + rewrite nth_fold_map_indexed by exact Hk.
      apply (proj2 (damp_threads_cells k threads _ Hd) p q Hn).
    + rewrite !nth_overflow; [reflexivity | exact Hk |].
      rewrite length_fold_map_indexed. exact Hk.
Qed.

End Damping.

(** X20. A launch of [cuda_damp_EB_left] over distinct threads, on six
    fields of one shape [(Nz, Nr)] and with [n = n_guard + n_damp] at most
    [Nz] and at most the length of [damp_array], returns, in whatever
    order the threads run, and then: the cell [(iz, ir)] of each
    field has been multiplied once by [damp_array[iz]], for every thread
    [(iz, ir)] of the launch with [iz < n] and [ir < Nr]; all other cells
    are unchanged. *)
Theorem cuda_damp_EB_left_launch (damp_array : list R) (n_guard n_damp : Z)
    (threads : list (nat * nat)) (F : Boundaries.EB_fields) (Nz Nr : nat) :
  let n := (n_guard + n_damp)%Z in
  NoDup threads ->
  Boundaries.all_shaped Nz Nr (Boundaries.EB_components F) ->
  (n <= Z.of_nat Nz)%Z -> (n <= Z.of_nat (length damp_array))%Z ->
  exists F',
    Boundaries.cuda_launch
      (Boundaries.cuda_damp_EB_left damp_array n_guard n_damp) threads F
    = Ok F' /\
    Boundaries.damped damp_array n Nz Nr (fun iz => iz) threads
      (Boundaries.EB_components F) (Boundaries.EB_components F').
Proof.
  intros n Hd HF Hn Hl.
  destruct (cuda_launch_components Boundaries.EB_components
              Boundaries.map_EB EB_components_map
              (Boundaries.cuda_damp_EB_left damp_array n_guard n_damp)
              (Boundaries.damp_thread damp_array n Nr (fun iz => iz)) Nz Nr
              (fun t s Hs =>
                 cuda_damp_EB_left_thread damp_array n_guard n_damp t s
                   Nz Nr Hs Hn Hl)
              (shape2_damp_thread _ _ _ _)
              threads F HF) as (F' & Hrun & Hc & _).
  exists F'. split; [exact Hrun |]. rewrite Hc.
  apply damp_threads; try assumption. intros tz tz' _ _ H. exact H.
Qed.

(** X21. A launch of [cuda_damp_EB_right] over distinct threads, under the
    same conditions, returns, in whatever order the threads run, and
    then: the cell [(Nz - 1 - iz, ir)] of each field has been
    multiplied once by [damp_array[iz]], for every thread [(iz, ir)] of
    the launch with [iz < n] and [ir < Nr]; all other cells are
    unchanged. *)
Theorem cuda_damp_EB_right_launch (damp_array : list R) (n_guard n_damp : Z)
    (threads : list (nat * nat)) (F : Boundaries.EB_fields) (Nz Nr : nat) :
  let n := (n_guard + n_damp)%Z in
  NoDup threads ->
  Boundaries.all_shaped Nz Nr (Boundaries.EB_components F) ->
  (n <= Z.of_nat Nz)%Z -> (n <= Z.of_nat (length damp_array))%Z ->
  exists F',
    Boundaries.cuda_launch
      (Boundaries.cuda_damp_EB_right damp_array n_guard n_damp) threads F
    = Ok F' /\
    Boundaries.damped damp_array n Nz Nr (fun iz => (Nz - iz - 1)%nat)
      threads (Boundaries.EB_components F) (Boundaries.EB_components F').
Proof.
  intros n Hd HF Hn Hl.
  destruct (cuda_launch_components Boundaries.EB_components
              Boundaries.map_EB EB_components_map
              (Boundaries.cuda_damp_EB_right damp_array n_guard n_damp)
              (Boundaries.damp_thread damp_array n Nr
                 (fun iz => (Nz - iz - 1)%nat)) Nz Nr
              (fun t s Hs =>
                 cuda_damp_EB_right_thread damp_array n_guard n_damp t s
                   Nz Nr Hs Hn Hl)
              (shape2_damp_thread _ _ _ _)
              threads F HF) as (F' & Hrun & Hc & _).
  exists F'. split; [exact Hrun |]. rewrite Hc.
  apply damp_threads; try assumption. intros tz tz' H1 H2 H. lia.
Qed.

(** ** Copying, then replacing *)

Lemma replace_copied_cells (comps : list Boundaries.array2)
    (l l' r r' : Boundaries.array3) (copy_left copy_right : bool) (w : Z)
    (Nz Nr : nat) (row_l row_r : nat -> nat)
    (threads threads' : list (nat * nat)) :
  Boundaries.copied comps copy_left w Nr row_l threads l l' ->
  Boundaries.copied comps copy_right w Nr row_r threads r r' ->
  (forall tz, row_l tz = tz) ->
  (forall tz, row_r tz = Boundaries.row_right Nz w tz) ->
  (forall t, In t threads' -> Boundaries.in_guard w Nr t = true ->
             In t threads) ->
  forall k p q,
    Boundaries.cell_of
      (fold_left
         (fun l t =>
            Boundaries.map_indexed
              (Boundaries.exchange_thread (fun _ v => v) l' r' copy_left
                 copy_right w Nz Nr t) l) threads' comps) k p q
    = Boundaries.cell_of comps k p q.
Proof.
  intros (_ & Hl & _) (_ & Hr & _) Hrl Hrr Hsub k p q.
  unfold Boundaries.cell_of.
  destruct (Nat.lt_ge_cases k (length comps)) as [Hk | Hk].
  2: { rewrite !nth_overflow; [reflexivity | exact Hk |].
       rewrite length_fold_map_indexed. exact Hk. }
  rewrite nth_fold_map_indexed by exact Hk.
  set (g0 := nth k comps Boundaries.empty2).
  assert (H : forall g,
             (forall p q, Boundaries.cell2 g p q = Boundaries.cell2 g0 p q) ->
             forall p q,
               Boundaries.cell2
                 (fold_left
                    (fun g t =>
                       Boundaries.exchange_thread (fun _ v => v) l' r'
                         copy_left copy_right w Nz Nr t k g) threads' g) p q
               = Boundaries.cell2 g0 p q).
  { clear p q. induction threads' as [| t threads' IH]; intros g Hg p q;
      simpl; [apply Hg |].
    apply IH; [intros t' Ht'; apply Hsub; right; exact Ht' |].
    clear p q. intros p q. destruct t as [tz tr].
    unfold Boundaries.exchange_thread.
    destruct (Boundaries.in_guard w Nr (tz, tr)) eqn:Hguard; [| apply Hg].
    pose proof (Hsub (tz, tr) (or_introl eq_refl) Hguard) as Hin.
    assert (El : copy_left = true ->
                 Boundaries.cell3 l' k tz tr = Boundaries.cell2 g0 tz tr).
    { intros Hc. rewrite (Hl k tz tr Hc Hk Hin Hguard), Hrl. reflexivity. }
    assert (Er : copy_right = true ->
                 Boundaries.cell3 r' k tz tr
                 = Boundaries.cell2 g0 (Boundaries.row_right Nz w tz) tr).
    { intros Hc. rewrite (Hr k tz tr Hc Hk Hin Hguard), Hrr. reflexivity. }
    destruct copy_left, copy_right; rewrite ?cell2_modify2;
      repeat match goal with
             | |- context [Nat.eqb ?a ?b] => destruct (Nat.eqb_spec a b)
             end;
      cbn [andb]; subst;
      rewrite ?(El eq_refl), ?(Er eq_refl); try reflexivity; apply Hg. }
  apply H. reflexivity.
Qed.

(** X22. Copying the [nz_end] outermost rows of the six grids to the
    buffers ([nz_start = 0]) and replacing them from these buffers gives
    the grids back: after a launch of [copy_vec_to_gpu_buffer] and a launch
    of [replace_vec_from_gpu_buffer] with the buffers it has filled, the
    same flags and the same region, every cell of every grid holds what it
    held, provided the threads of the second launch that pass the guard
    are threads of the first. *)
Theorem copy_replace_vec_round_trip (G : Boundaries.vec_grids)
    (copy_left copy_right : bool) (nz_end : Z)
    (threads threads' : list (nat * nat))
    (vec_buffer_l vec_buffer_r : Boundaries.array3) (Nz Nr : nat) :
  NoDup threads ->
  Boundaries.all_shaped Nz Nr (Boundaries.vec_components G) ->
  Boundaries.has_room vec_buffer_l 6 (nz_end - 0) Nr ->
  Boundaries.has_room vec_buffer_r 6 (nz_end - 0) Nr ->
  (nz_end <= Z.of_nat Nz)%Z ->
  (forall t, In t threads' ->
             Boundaries.in_guard (nz_end - 0) Nr t = true -> In t threads) ->
  exists l' r' G',
    Boundaries.cuda_launch
      (Boundaries.copy_vec_to_gpu_buffer G copy_left copy_right 0 nz_end)
      threads (vec_buffer_l, vec_buffer_r) = Ok (l', r') /\
    Boundaries.cuda_launch
      (Boundaries.replace_vec_from_gpu_buffer l' r' copy_left copy_right
         0 nz_end) threads' G = Ok G' /\
    Boundaries.all_shaped Nz Nr (Boundaries.vec_components G') /\
    forall k p q,
      Boundaries.cell_of (Boundaries.vec_components G') k p q
      = Boundaries.cell_of (Boundaries.vec_components G) k p q.
Proof.
  intros Hd HG Hl Hr He Hsub.
  pose proof (copy_vec_to_gpu_buffer_run G copy_left copy_right 0 nz_end
                threads vec_buffer_l vec_buffer_r Nz Nr HG Hl Hr
                ltac:(lia) He) as Hcopy.
  cbv zeta in Hcopy.
  match type of Hcopy with
  | _ = Ok (?a, ?b) => set (l' := a) in *; set (r' := b) in *
  end.
  assert (Cl : Boundaries.copied (Boundaries.vec_components G) copy_left
                 (nz_end - 0) Nr (fun iz => Z.to_nat (0 + Z.of_nat iz))
                 threads vec_buffer_l l')
    by (apply copy_threads; exact Hd).
  assert (Cr : Boundaries.copied (Boundaries.vec_components G) copy_right
                 (nz_end - 0) Nr
                 (fun iz => Z.to_nat (Z.of_nat Nz - nz_end + Z.of_nat iz))
                 threads vec_buffer_r r')
    by (apply copy_threads; exact Hd).
  clearbody l' r'.
  assert (Hl' : Boundaries.has_room l' 6 (nz_end - 0) Nr)
    by (unfold Boundaries.has_room; rewrite (proj1 Cl); exact Hl).
  assert (Hr' : Boundaries.has_room r' 6 (nz_end - 0) Nr)
    by (unfold Boundaries.has_room; rewrite (proj1 Cr); exact Hr).
  destruct (cuda_launch_components Boundaries.vec_components
              Boundaries.map_vec vec_components_map
              (Boundaries.replace_vec_from_gpu_buffer l' r' copy_left
                 copy_right 0 nz_end)
              (Boundaries.exchange_thread (fun _ v => v) l' r' copy_left
                 copy_right (nz_end - 0) Nz Nr) Nz Nr
              (fun t s Hs =>
                 replace_vec_from_gpu_buffer_thread l' r' copy_left
                   copy_right 0 nz_end t s Nz Nr Hs Hl' Hr' ltac:(lia))
              (shape2_exchange_thread _ _ _ _ _ _ _ _)
              threads' G HG) as (G' & Hrun & Hc & Hshape).
  exists l', r', G'. split; [exact Hcopy |]. split; [exact Hrun |].
  split; [exact Hshape |]. rewrite Hc.
  apply (replace_copied_cells _ vec_buffer_l l' vec_buffer_r r' _ _ _ _ _
           _ _ threads threads' Cl Cr).
  - intros tz. lia.
  - intros tz. unfold Boundaries.row_right. f_equal. lia.
  - exact Hsub.
Qed.

(** X23. The same for the two grids of a scalar field, with
    [copy_scal_to_gpu_buffer] and [replace_scal_from_gpu_buffer]. *)
Theorem copy_replace_scal_round_trip (G : Boundaries.scal_grids)
    (copy_left copy_right : bool) (nz_end : Z)
    (threads threads' : list (nat * nat))
    (scal_buffer_l scal_buffer_r : Boundaries.array3) (Nz Nr : nat) :
  NoDup threads ->
  Boundaries.all_shaped Nz Nr (Boundaries.scal_components G) ->
  Boundaries.has_room scal_buffer_l 2 (nz_end - 0) Nr ->
  Boundaries.has_room scal_buffer_r 2 (nz_end - 0) Nr ->
  (nz_end <= Z.of_nat Nz)%Z ->
  (forall t, In t threads' ->
             Boundaries.in_guard (nz_end - 0) Nr t = true -> In t threads) ->
  exists l' r' G',
    Boundaries.cuda_launch
      (Boundaries.copy_scal_to_gpu_buffer G copy_left copy_right 0 nz_end)
      threads (scal_buffer_l, scal_buffer_r) = Ok (l', r') /\
    Boundaries.cuda_launch
      (Boundaries.replace_scal_from_gpu_buffer l' r' copy_left copy_right
         0 nz_end) threads' G = Ok G' /\
    Boundaries.all_shaped Nz Nr (Boundaries.scal_components G') /\
    forall k p q,
      Boundaries.cell_of (Boundaries.scal_components G') k p q
      = Boundaries.cell_of (Boundaries.scal_components G) k p q.
Proof.
  intros Hd HG Hl Hr He Hsub.
  pose proof (copy_scal_to_gpu_buffer_run G copy_left copy_right 0 nz_end
                threads scal_buffer_l scal_buffer_r Nz Nr HG Hl Hr
                ltac:(lia) He) as Hcopy.
  cbv zeta in Hcopy.
  match type of Hcopy with
  | _ = Ok (?a, ?b) => set (l' := a) in *; set (r' := b) in *
  end.
  assert (Cl : Boundaries.copied (Boundaries.scal_components G) copy_left
                 (nz_end - 0) Nr (fun iz => Z.to_nat (0 + Z.of_nat iz))
                 threads scal_buffer_l l')
    by (apply copy_threads; exact Hd).
  assert (Cr : Boundaries.copied (Boundaries.scal_components G) copy_right
                 (nz_end - 0) Nr
                 (fun iz => Z.to_nat (Z.of_nat Nz - nz_end + Z.of_nat iz))
                 threads scal_buffer_r r')
    by (apply copy_threads; exact Hd).
  clearbody l' r'.
  assert (Hl' : Boundaries.has_room l' 2 (nz_end - 0) Nr)
    by (unfold Boundaries.has_room; rewrite (proj1 Cl); exact Hl).
  assert (Hr' : Boundaries.has_room r' 2 (nz_end - 0) Nr)
    by (unfold Boundaries.has_room; rewrite (proj1 Cr); exact Hr).
  destruct (cuda_launch_components Boundaries.scal_components
              Boundaries.map_scal scal_components_map
              (Boundaries.replace_scal_from_gpu_buffer l' r' copy_left
                 copy_right 0 nz_end)
              (Boundaries.exchange_thread (fun _ v => v) l' r' copy_left
                 copy_right (nz_end - 0) Nz Nr) Nz Nr
              (fun t s Hs =>
                 replace_scal_from_gpu_buffer_thread l' r' copy_left
                   copy_right 0 nz_end t s Nz Nr Hs Hl' Hr' ltac:(lia))
              (shape2_exchange_thread _ _ _ _ _ _ _ _)
              threads' G HG) as (G' & Hrun & Hc & Hshape).
  exists l', r', G'. split; [exact Hcopy |]. split; [exact Hrun |].
  split; [exact Hshape |]. rewrite Hc.
  apply (replace_copied_cells _ scal_buffer_l l' scal_buffer_r r' _ _ _ _ _
           _ _ threads threads' Cl Cr).
  - intros tz. lia.
  - intros tz. unfold Boundaries.row_right. f_equal. lia.
  - exact Hsub.
Qed.

(** ** Examples *)

Lemma NoDup_threads_2 : NoDup threads_2.
Proof.
  unfold threads_2. repeat constructor; simpl; intuition discriminate.
Qed.

Lemma all_shaped_vec_grids_3x1 :
  Boundaries.all_shaped 3 1 (Boundaries.vec_components vec_grids_3x1).
Proof. repeat constructor. Qed.

Lemma all_shaped_scal_grids_3x1 :
  Boundaries.all_shaped 3 1 (Boundaries.scal_components scal_grids_3x1).
Proof. repeat constructor. Qed.

Lemma all_shaped_EB_fields_3x1 :
  Boundaries.all_shaped 3 1 (Boundaries.EB_components EB_fields_3x1).
Proof. repeat constructor. Qed.

Lemma has_room_constant3 (n : nat) (v : Cplx) :
  Boundaries.has_room (constant3 n 1 1 v) n 1 1.
Proof. unfold Boundaries.has_room. simpl. lia. Qed.

Ltac guard_cases :=
  unfold threads_2;
  repeat match goal with
         | |- forall _, _ => intro
         | H : In _ (_ :: _) |- _ => destruct H
         | H : In _ [] |- _ => destruct H
         | H : (_, _) = (_, _) |- _ =>
             first [injection H as ? ? | injection H as ?]; subst
         end;
  try reflexivity;
  try match goal with
      | H : Boundaries.in_guard _ _ _ = true |- _ =>
          vm_compute in H; discriminate H
      end;
  try (vm_compute; discriminate).

Lemma replace_vec_from_gpu_buffer_launch_witness :
  exists G',
    Boundaries.cuda_launch
      (Boundaries.replace_vec_from_gpu_buffer (constant3 6 1 1 (RtoC 5))
         (constant3 6 1 1 (RtoC 7)) true true 0 1) threads_2 vec_grids_3x1
    = Ok G' /\
    Boundaries.cell_of (Boundaries.vec_components G') 0 0 0 = RtoC 5 /\
    Boundaries.cell_of (Boundaries.vec_components G') 0 1 0 = RtoC 1 /\
    Boundaries.cell_of (Boundaries.vec_components G') 0 2 0 = RtoC 7.
Proof.
  destruct (replace_vec_from_gpu_buffer_launch (constant3 6 1 1 (RtoC 5))
              (constant3 6 1 1 (RtoC 7)) true true 0 1 threads_2
              vec_grids_3x1 3 1 NoDup_threads_2 all_shaped_vec_grids_3x1
              (has_room_constant3 6 _) (has_room_constant3 6 _)
              ltac:(simpl; lia) ltac:(simpl; lia))
    as (G' & Hrun & _ & Hin & Hout).
  exists G'. split; [exact Hrun |].
  destruct (Hin 0 0 0 ltac:(simpl; lia) ltac:(simpl; tauto) eq_refl)%nat
    as [Hl Hr].
  split; [exact (Hl eq_refl) | split; [| exact (Hr eq_refl)]].
  apply (Hout 0 1 0)%nat; guard_cases.
Defined.

Lemma replace_scal_from_gpu_buffer_launch_witness :
  exists G',
    Boundaries.cuda_launch
      (Boundaries.replace_scal_from_gpu_buffer (constant3 2 1 1 (RtoC 5))
         (constant3 2 1 1 (RtoC 7)) true true 0 1) threads_2 scal_grids_3x1
    = Ok G' /\
    Boundaries.cell_of (Boundaries.scal_components G') 1 0 0 = RtoC 5 /\
    Boundaries.cell_of (Boundaries.scal_components G') 1 1 0 = RtoC 1 /\
    Boundaries.cell_of (Boundaries.scal_components G') 1 2 0 = RtoC 7.
Proof.
  destruct (replace_scal_from_gpu_buffer_launch (constant3 2 1 1 (RtoC 5))
              (constant3 2 1 1 (RtoC 7)) true true 0 1 threads_2
              scal_grids_3x1 3 1 NoDup_threads_2 all_shaped_scal_grids_3x1
              (has_room_constant3 2 _) (has_room_constant3 2 _)
              ltac:(simpl; lia) ltac:(simpl; lia))
    as (G' & Hrun & _ & Hin & Hout).
  exists G'. split; [exact Hrun |].
  destruct (Hin 1 0 0 ltac:(simpl; lia) ltac:(simpl; tauto) eq_refl)%nat
    as [Hl Hr].
  split; [exact (Hl eq_refl) | split; [| exact (Hr eq_refl)]].
  apply (Hout 1 1 0)%nat; guard_cases.
Defined.

Lemma add_vec_from_gpu_buffer_launch_witness :
  exists G',
    Boundaries.cuda_launch
      (Boundaries.add_vec_from_gpu_buffer (constant3 6 1 1 (RtoC 5))
         (constant3 6 1 1 (RtoC 7)) true true 0 1) threads_2 vec_grids_3x1
    = Ok G' /\
    Boundaries.cell_of (Boundaries.vec_components G') 5 0 0
    = Cadd (RtoC 1) (RtoC 5) /\
    Boundaries.cell_of (Boundaries.vec_components G') 5 1 0 = RtoC 1 /\
    Boundaries.cell_of (Boundaries.vec_components G') 5 2 0
    = Cadd (RtoC 1) (RtoC 7).
Proof.
  destruct (add_vec_from_gpu_buffer_launch (constant3 6 1 1 (RtoC 5))
              (constant3 6 1 1 (RtoC 7)) true true 0 1 threads_2
              vec_grids_3x1 3 1 NoDup_threads_2 all_shaped_vec_grids_3x1
              (has_room_constant3 6 _) (has_room_constant3 6 _)
              ltac:(simpl; lia) ltac:(simpl; lia))
    as (G' & Hrun & _ & Hin & Hout).
  exists G'. split; [exact Hrun |].
  destruct (Hin 5 0 0 ltac:(simpl; lia) ltac:(simpl; tauto) eq_refl)%nat
    as [Hl Hr].
  split; [exact (Hl eq_refl) | split; [| exact (Hr eq_refl)]].
  apply (Hout 5 1 0)%nat; guard_cases.
Defined.

Lemma add_scal_from_gpu_buffer_launch_witness :
  exists G',
    Boundaries.cuda_launch
      (Boundaries.add_scal_from_gpu_buffer (constant3 2 1 1 (RtoC 5))
         (constant3 2 1 1 (RtoC 7)) true false 0 1) threads_2 scal_grids_3x1
    = Ok G' /\
    Boundaries.cell_of (Boundaries.scal_components G') 0 0 0
    = Cadd (RtoC 1) (RtoC 5) /\
    Boundaries.cell_of (Boundaries.scal_components G') 0 2 0 = RtoC 1.
Proof.
  destruct (add_scal_from_gpu_buffer_launch (constant3 2 1 1 (RtoC 5))
              (constant3 2 1 1 (RtoC 7)) true false 0 1 threads_2
              scal_grids_3x1 3 1 NoDup_threads_2 all_shaped_scal_grids_3x1
              (has_room_constant3 2 _) (has_room_constant3 2 _)
              ltac:(simpl; lia) ltac:(discriminate))
    as (G' & Hrun & _ & Hin & Hout).
  exists G'. split; [exact Hrun |].
  destruct (Hin 0 0 0 ltac:(simpl; lia) ltac:(simpl; tauto) eq_refl)%nat
    as [Hl _].
  split; [exact (Hl eq_refl) |].
  apply (Hout 0 2 0)%nat; guard_cases.
Defined.

Lemma copy_vec_to_gpu_buffer_launch_witness :
  exists l' r',
    Boundaries.cuda_launch
      (Boundaries.copy_vec_to_gpu_buffer vec_grids_3x1 true false 1 2)
      threads_2 (constant3 6 1 1 (RtoC 5), constant3 6 1 1 (RtoC 7))
    = Ok (l', r') /\
    Boundaries.cell3 l' 2 0 0 = RtoC 1 /\
    Boundaries.cell3 r' 2 0 0 = RtoC 7.
Proof.
  destruct (copy_vec_to_gpu_buffer_launch vec_grids_3x1 true false 1 2
              threads_2 (constant3 6 1 1 (RtoC 5))
              (constant3 6 1 1 (RtoC 7)) 3 1 NoDup_threads_2
              all_shaped_vec_grids_3x1
              (has_room_constant3 6 _) (has_room_constant3 6 _)
              ltac:(lia) ltac:(simpl; lia))
    as (l' & r' & Hrun & (_ & Hl & _) & (_ & _ & Hr)).
  exists l', r'. split; [exact Hrun |]. split.
  - exact (Hl 2 0 0 eq_refl ltac:(simpl; lia) ltac:(simpl; tauto)
             eq_refl)%nat.
  - apply (Hr 2 0 0)%nat. intros (H & _). discriminate H.
Defined.

Lemma copy_scal_to_gpu_buffer_launch_witness :
  exists l' r',
    Boundaries.cuda_launch
      (Boundaries.copy_scal_to_gpu_buffer scal_grids_3x1 false true 1 2)
      threads_2 (constant3 2 1 1 (RtoC 5), constant3 2 1 1 (RtoC 7))
    = Ok (l', r') /\
    Boundaries.cell3 l' 1 0 0 = RtoC 5 /\
    Boundaries.cell3 r' 1 0 0 = RtoC 1.
Proof.
  destruct (copy_scal_to_gpu_buffer_launch scal_grids_3x1 false true 1 2
              threads_2 (constant3 2 1 1 (RtoC 5))
              (constant3 2 1 1 (RtoC 7)) 3 1 NoDup_threads_2
              all_shaped_scal_grids_3x1
              (has_room_constant3 2 _) (has_room_constant3 2 _)
              ltac:(lia) ltac:(simpl; lia))
    as (l' & r' & Hrun & (_ & _ & Hl) & (_ & Hr & _)).
  exists l', r'. split; [exact Hrun |]. split.
  - apply (Hl 1 0 0)%nat. intros (H & _). discriminate H.
  - exact (Hr 1 0 0 eq_refl ltac:(simpl; lia) ltac:(simpl; tauto)
             eq_refl)%nat.
Defined.

Lemma cuda_damp_EB_left_launch_witness :
  exists F',
    Boundaries.cuda_launch (Boundaries.cuda_damp_EB_left [1 / 2] 1 0)
      threads_2 EB_fields_3x1 = Ok F' /\
    Boundaries.cell_of (Boundaries.EB_components F') 3 0 0
    = Cmul (RtoC 1) (RtoC (1 / 2)) /\
    Boundaries.cell_of (Boundaries.EB_components F') 3 1 0 = RtoC 1.
Proof.
  destruct (cuda_damp_EB_left_launch [1 / 2] 1 0 threads_2 EB_fields_3x1
              3 1 NoDup_threads_2 all_shaped_EB_fields_3x1
              ltac:(simpl; lia) ltac:(simpl; lia))
    as (F' & Hrun & _ & Hin & Hout).
  exists F'. split; [exact Hrun |]. split.
  - exact (Hin 3 0 0 ltac:(simpl; lia) ltac:(simpl; tauto) eq_refl)%nat.
  - apply (Hout 3 1 0)%nat; guard_cases.
Defined.

Lemma cuda_damp_EB_right_launch_witness :
  exists F',
    Boundaries.cuda_launch (Boundaries.cuda_damp_EB_right [1 / 2] 0 1)
      threads_2 EB_fields_3x1 = Ok F' /\
    Boundaries.cell_of (Boundaries.EB_components F') 0 2 0
    = Cmul (RtoC 1) (RtoC (1 / 2)) /\
    Boundaries.cell_of (Boundaries.EB_components F') 0 0 0 = RtoC 1.
Proof.
  destruct (cuda_damp_EB_right_launch [1 / 2] 0 1 threads_2 EB_fields_3x1
              3 1 NoDup_threads_2 all_shaped_EB_fields_3x1
              ltac:(simpl; lia) ltac:(simpl; lia))
    as (F' & Hrun & _ & Hin & Hout).
  exists F'. split; [exact Hrun |]. split.
  - exact (Hin 0 0 0 ltac:(simpl; lia) ltac:(simpl; tauto) eq_refl)%nat.
  - apply (Hout 0 0 0)%nat; guard_cases.
Defined.

Lemma copy_replace_vec_round_trip_witness :
  exists l' r' G',
    Boundaries.cuda_launch
      (Boundaries.copy_vec_to_gpu_buffer vec_grids_3x1 true true 0 1)
      threads_2 (constant3 6 1 1 (RtoC 5), constant3 6 1 1 (RtoC 7))
    = Ok (l', r') /\
    Boundaries.cuda_launch
      (Boundaries.replace_vec_from_gpu_buffer l' r' true true 0 1)
      threads_2 vec_grids_3x1 = Ok G' /\
    Boundaries.cell_of (Boundaries.vec_components G') 4 2 0 = RtoC 1.
Proof.
  destruct (copy_replace_vec_round_trip vec_grids_3x1 true true 1 threads_2
              threads_2 (constant3 6 1 1 (RtoC 5))
              (constant3 6 1 1 (RtoC 7)) 3 1 NoDup_threads_2
              all_shaped_vec_grids_3x1
              (has_room_constant3 6 _) (has_room_constant3 6 _)
              ltac:(simpl; lia) ltac:(intros t Ht _; exact Ht))
    as (l' & r' & G' & Hcopy & Hrun & _ & Hcells).
  exists l', r', G'. split; [exact Hcopy |]. split; [exact Hrun |].
  exact (Hcells 4 2 0)%nat.
Defined.

Lemma copy_replace_scal_round_trip_witness :
  exists l' r' G',
    Boundaries.cuda_launch
      (Boundaries.copy_scal_to_gpu_buffer scal_grids_3x1 true true 0 1)
      threads_2 (constant3 2 1 1 (RtoC 5), constant3 2 1 1 (RtoC 7))
    = Ok (l', r') /\
    Boundaries.cuda_launch
      (Boundaries.replace_scal_from_gpu_buffer l' r' true true 0 1)
      threads_2 scal_grids_3x1 = Ok G' /\
    Boundaries.cell_of (Boundaries.scal_components G') 1 0 0 = RtoC 1.
Proof.
  destruct (copy_replace_scal_round_trip scal_grids_3x1 true true 1 threads_2
              threads_2 (constant3 2 1 1 (RtoC 5))
              (constant3 2 1 1 (RtoC 7)) 3 1 NoDup_threads_2
              all_shaped_scal_grids_3x1
              (has_room_constant3 2 _) (has_room_constant3 2 _)
              ltac:(simpl; lia) ltac:(intros t Ht _; exact Ht))
    as (l' & r' & G' & Hcopy & Hrun & _ & Hcells).
  exists l', r', G'. split; [exact Hcopy |]. split; [exact Hrun |].
  exact (Hcells 1 0 0)%nat.
Defined.
